(** * Dive Bar Detective: the scoring core of [src/api.py]

    A shallow embedding of the composite scoring and cohort normalisation
    engine of the API module, together with the properties of it that the
    design document states.

    Modelling conventions.
    - A Python [float] is modelled by a rational number ([Q]).  Every
      finite double is a rational, so the results of [math.exp],
      [math.tanh] and [math.log10] are rationals too; these three
      functions, which belong to the C library and not to the repository,
      are fields of the [Runtime] class.  NaN and the infinities are
      outside the model, and so is overflow.
    - The calculators, the normaliser and the dive score are evaluated in
      exact arithmetic on the numbers that the literals and the storage
      give.  CPython rounds the result of every operation to binary64, so
      at a number that lies at a halfway point, or within the rounding
      error of one, [round(x, 1)] can give the other neighbouring tenth.
      What is proved of these functions are bounds, orders and the shape of
      the records, none of which depends on that.
    - Where the design states the value of a score, for the blend and for
      the custom score, the module [Binary64] and the functions
      [blended_0_10_binary64] and [custom_score_binary64] give the
      binary64 evaluation, and the properties are proved of them.
    - A place is a Python [dict] keyed by column name: a [gmap string pyval].
      Values are dynamically typed ([pyval]); a nested JSON object keeps its
      insertion order (an association list).
    - A Python exception that escapes a function is [None] of an [option]
      result; the endpoints turn it into an HTTP status.
    - [round(x, 1)] rounds the exact value to one decimal, ties to even.
    - An [int] and the [float] of the same value are told apart in [pyval]
      ([VInt], [VFloat]) where the code reads them; a computed score is
      stored as a [VFloat].
    - The storage client is a function from the rating filter to the rows it
      returns, or [None] when the call raises; the serialisation of the
      response through its [response_model] is not modelled.
    - [get_vibes] and [get_key_reviews] ask the storage other questions than
      the two ranked lists; each endpoint takes the query it issues as a
      function.  [str.strip], which [get_key_reviews] needs, is a parameter
      of its model. *)

From Stdlib Require Import Reals Lra Qreals.
From Stdlib Require Import QArith Qround Qabs Qpower Lqa Lia ZArith Bool.
From Stdlib Require Import Ascii String.
From stdpp Require Import base option list sorting strings gmap.

Local Open Scope Q_scope.

Set Warnings "-register-all".

(** ** Numbers *)

Definition Qltb (x y : Q) : bool :=
  match Qcompare x y with Lt => true | _ => false end.

Definition Qleb (x y : Q) : bool :=
  match Qcompare x y with Gt => false | _ => true end.

(** Python's two-argument [min(a, b)] and [max(a, b)]: the first argument
    is kept unless the second is strictly better. *)
Definition py_min (a b : Q) : Q := if Qltb b a then b else a.
Definition py_max (a b : Q) : Q := if Qltb a b then b else a.

(** [def _clamp(x, lo, hi): return max(lo, min(hi, x))] *)
Definition _clamp (x lo hi : Q) : Q := py_max lo (py_min hi x).

(** Nearest integer, ties to the even one. *)
Definition round_half_even (q : Q) : Z :=
  let f := Qfloor q in
  match Qcompare (q - inject_Z f) (1 # 2) with
  | Lt => f
  | Gt => (f + 1)%Z
  | Eq => if Z.even f then f else (f + 1)%Z
  end.

(** [round(x, 1)]; the result is kept in lowest terms. *)
Definition round1 (q : Q) : Q :=
  Qred (inject_Z (round_half_even (q * 10)) / 10).

(** [int(x)] of a float truncates toward zero. *)
Definition Qtrunc (q : Q) : Z :=
  if Qltb q 0 then Qceiling q else Qfloor q.

(** ** Binary64 arithmetic *)

(** The exact model above computes with the rationals that the decimal
    literals and the stored numbers denote.  CPython computes with IEEE 754
    binary64 numbers: every literal, and the result of every [+], [*] and
    [/], is the binary64 number nearest to the exact value, ties going to
    the even significand.  A finite binary64 number is a rational, so it is
    modelled by the rational it is; magnitudes of [2^1024] and above, where
    the machine overflows, are outside the model. *)
Module Binary64.

(** The exponent [l] of the binade of a positive [x]:
    [2^l <= x < 2^(l+1)]. *)
Definition Qlog2 (x : Q) : Z :=
  let l := (Z.log2 (Qnum x) - Z.log2 (Z.pos (Qden x)))%Z in
  if Qltb x (2 ^ l) then (l - 1)%Z else l.

(** The exponent of the unit in the last place: 53 significant bits, and
    the fixed spacing [2^-1074] of the subnormal numbers. *)
Definition ulp_exp (x : Q) : Z := Z.max (-1074) (Qlog2 (Qabs x) - 52).

(** The binary64 number nearest to [x]. *)
Definition nearest (x : Q) : Q :=
  let x := Qred x in
  let e := ulp_exp x in
  Qred (inject_Z (round_half_even (x / 2 ^ e)) * 2 ^ e).

Definition fadd (x y : Q) : Q := nearest (x + y).
Definition fmul (x y : Q) : Q := nearest (x * y).
Definition fdiv (x y : Q) : Q := nearest (x / y).

(** [sum(xs)]: the additions are made from the left, starting from the
    integer 0. *)
Definition fsum (xs : list Q) : Q := foldl fadd 0 xs.

(** A number that binary64 holds exactly. *)
Definition representable (x : Q) : Prop :=
  exists (m e : Z), (Z.abs m < 2 ^ 53)%Z /\ (-1074 <= e)%Z
                    /\ x == inject_Z m * 2 ^ e.

End Binary64.

(** ** Python values *)

Inductive pyval : Type :=
| VNone
| VBool (b : bool)
| VInt (n : Z)
| VFloat (q : Q)
| VStr (s : string)
| VList (l : list pyval)
| VDict (items : list (string * pyval)).

(** What the Python runtime and the C library provide. *)
Class Runtime : Type := {
  m_exp : Q -> Q;                       (* math.exp *)
  m_tanh : Q -> Q;                      (* math.tanh *)
  m_log10 : Q -> Q;                     (* math.log10 *)
  str_to_float : string -> option Q;    (* float(s), None on ValueError *)
  str_to_int : string -> option Z;      (* int(s), None on ValueError *)
  str_lower_strip : string -> string;   (* s.lower().strip() *)
  json_loads : string -> option pyval   (* json.loads, None on JSONDecodeError *)
}.

(** Truth value of an object, as used by [x or default]. *)
Definition truthy (v : pyval) : bool :=
  match v with
  | VNone => false
  | VBool b => b
  | VInt n => negb (n =? 0)%Z
  | VFloat q => negb (Qeq_bool q 0)
  | VStr s => negb (String.eqb s "")
  | VList l => match l with [] => false | _ => true end
  | VDict d => match d with [] => false | _ => true end
  end.

Definition py_or (v d : pyval) : pyval := if truthy v then v else d.

(** [isinstance(v, (int, float))], with the number it denotes ([bool] is a
    subclass of [int]). *)
Definition as_number (v : pyval) : option Q :=
  match v with
  | VBool b => Some (if b then 1 else 0)
  | VInt n => Some (inject_Z n)
  | VFloat q => Some q
  | _ => None
  end.

Definition is_number (v : pyval) : bool :=
  match as_number v with Some _ => true | None => false end.

(** [d.get(k)] and [d.get(k, default)] on a nested JSON object. *)
Fixpoint dict_get (k : string) (d : list (string * pyval)) : option pyval :=
  match d with
  | [] => None
  | (k', v) :: d' => if String.eqb k k' then Some v else dict_get k d'
  end.

(** [d[k] = v]: overwrite in place, or append. *)
Fixpoint dict_set (k : string) (v : Q) (d : list (string * Q)) : list (string * Q) :=
  match d with
  | [] => [(k, v)]
  | (k', v') :: d' =>
      if String.eqb k k' then (k, v) :: d' else (k', v') :: dict_set k v d'
  end.

(** [place.get(k)]: [None] when the key is missing. *)
Definition get (p : gmap string pyval) (k : string) : pyval :=
  match p !! k with Some v => v | None => VNone end.

Section WithRuntime.
Context {RT : Runtime}.

(** [float(x)]: [None] when it raises [TypeError] or [ValueError]. *)
Definition py_float (x : pyval) : option Q :=
  match x with
  | VBool b => Some (if b then 1 else 0)
  | VInt n => Some (inject_Z n)
  | VFloat q => Some q
  | VStr s => str_to_float s
  | _ => None
  end.

(** [int(x)]: [None] when it raises. *)
Definition py_int (x : pyval) : option Z :=
  match x with
  | VBool b => Some (if b then 1 else 0)%Z
  | VInt n => Some n
  | VFloat q => Some (Qtrunc q)
  | VStr s => str_to_int s
  | _ => None
  end.

(** [_safe_float(x, default)] with a float default. *)
Definition _safe_float (x : pyval) (default : Q) : Q :=
  match py_float x with Some q => q | None => default end.

(** [_safe_float(x, None)]: the result may be [None]. *)
Definition _safe_float_opt (x : pyval) : option Q := py_float x.

(** [_safe_int(x, default)] *)
Definition _safe_int (x : pyval) (default : Z) : Z :=
  match py_int x with Some n => n | None => default end.

(** The receiver of [ml_data.get(...)]: anything but a dict raises
    [AttributeError]. *)
Definition as_dict (v : pyval) : option (list (string * pyval)) :=
  match v with VDict d => Some d | _ => None end.

(** [d.get(k, default)] *)
Definition dict_get_default (k : string) (d : list (string * pyval)) (default : pyval) : pyval :=
  match dict_get k d with Some v => v | None => default end.

Definition is_none (v : pyval) : bool :=
  match v with VNone => true | _ => false end.

(** [v == s] for a string literal [s]. *)
Definition py_eq_str (v : pyval) (s : string) : bool :=
  match v with VStr s' => String.eqb s' s | _ => false end.

(** [v == n] for an integer literal [n]. *)
Definition py_eq_int (v : pyval) (n : Z) : bool :=
  match as_number v with Some q => Qeq_bool q (inject_Z n) | None => false end.

(** What a function returning [Optional[float]] stores in a dict. *)
Definition of_opt (o : option Q) : pyval :=
  match o with Some q => VFloat q | None => VNone end.

(** ** Sub-score calculators *)

(** [character_0_10(place)] *)
Definition character_0_10 (place : gmap string pyval) : Q :=
  let auth := _safe_float_opt (get place "avg_authenticity") in
  let classic := _safe_float_opt (get place "avg_classic_institution") in
  let unpr := _safe_float_opt (get place "avg_unpretentious") in
  let divey := _safe_float_opt (get place "avg_divey_score") in
  let memo := _safe_float_opt (get place "avg_memorable") in
  let base :=
    match auth, classic, unpr with
    | Some auth, Some classic, Some unpr =>
        let divey_val := match divey with Some d => d | None => 0.0 end in
        let memo_val := match memo with Some m => m | None => 0.5 end in
        let raw := 0.30 * auth + 0.25 * classic + 0.20 * unpr
                   + 0.15 * divey_val + 0.10 * memo_val in
        raw * 10.0
    | _, _, _ =>
        let p := _safe_float (get place "pct_dive_positive") 0.0 in
        let p := _clamp p 0.0 1.0 in
        let t := 0.28 in
        let k := 16.0 in
        10.0 / (1.0 + m_exp (- k * (p - t)))
    end in
  let vibe := get place "vibe_tag" in
  let base :=
    if py_eq_str vibe "Beloved_Dive" then base + 0.3
    else if py_eq_str vibe "Polarizing_Dive" then base + 0.2
    else base in
  let gr := _safe_int (get place "user_ratings_total") 0 in
  let rc := _safe_int (get place "review_count") 0 in
  let base := if ((gr <? 100) || (rc <? 25))%Z then py_min base 9.8 else base in
  let base := if ((gr <? 50) || (rc <? 15))%Z then py_min base 9.4 else base in
  round1 (_clamp base 0.0 10.0).

(** [diveiness_0_10(place)]: "Alias for backwards compatibility - now
    called character_0_10". *)
Definition diveiness_0_10 (place : gmap string pyval) : Q :=
  character_0_10 place.

(** [quality_0_10(place)] *)
Definition quality_0_10 (place : gmap string pyval) : Q :=
  let food := _safe_float_opt (get place "avg_food_drink_quality") in
  let service := _safe_float_opt (get place "avg_service_quality") in
  let value := _safe_float_opt (get place "avg_value_score") in
  let recommend := _safe_float_opt (get place "avg_would_recommend") in
  let memo := _safe_float_opt (get place "avg_memorable") in
  let base :=
    match food, recommend with
    | Some food, Some recommend =>
        let svc := match service with Some s => s | None => 0.5 end in
        let val := match value with Some v => v | None => 0.5 end in
        let memo_val := match memo with Some m => m | None => 0.5 end in
        let raw := 0.35 * food + 0.30 * recommend + 0.15 * svc
                   + 0.10 * val + 0.10 * memo_val in
        raw * 10.0
    | _, _ =>
        let sent := _safe_float (get place "avg_openai_sentiment") 0.0 in
        (sent + 1.0) * 5.0
    end in
  let gr := _safe_int (get place "user_ratings_total") 0 in
  let rc := _safe_int (get place "review_count") 0 in
  let base := if ((gr <? 100) || (rc <? 25))%Z then py_min base 9.8 else base in
  let base := if ((gr <? 50) || (rc <? 15))%Z then py_min base 9.4 else base in
  round1 (_clamp base 0.0 10.0).

(** [underrated_0_10(place, *, scale=0.35)]; [None] when
    [ml_metadata] is a non-empty value without a [get] method. *)
Definition underrated_0_10 (place : gmap string pyval) (scale : Q) : option Q :=
  let recommend := _safe_float_opt (get place "avg_would_recommend") in
  let sentiment := _safe_float_opt (get place "avg_openai_sentiment") in
  let rating := _safe_float (get place "rating") 4.0 in
  let review_count := _safe_int (get place "review_count") 1 in
  match recommend, sentiment with
  | Some recommend, Some sentiment =>
      let norm_rating := (rating - 3.5) / 1.5 in
      let norm_rating := _clamp norm_rating 0.0 1.0 in
      let norm_sentiment := (sentiment + 1.0) / 2.0 in
      let rec_gap := recommend - norm_rating in
      let sent_gap := norm_sentiment - norm_rating in
      let discovery :=
        1.0 / (1.0 + m_log10 (inject_Z (Z.max review_count 1))) in
      let raw := 0.40 * (rec_gap + 1.0) / 2.0 + 0.30 * (sent_gap + 1.0) / 2.0
                 + 0.30 * discovery in
      Some (round1 (_clamp (raw * 10.0) 0.0 10.0))
  | _, _ =>
      ml_data ← as_dict (py_or (get place "ml_metadata") (VDict []));
      let r := dict_get_default "residual_deep" ml_data VNone in
      let r := if is_none r then dict_get_default "residual" ml_data VNone else r in
      if is_none r then Some 5.0
      else
        let r := _safe_float r 0.0 in
        let scale := py_max 0.10 scale in
        let u := 5.0 + 5.0 * m_tanh (r / scale) in
        Some (round1 (_clamp u 0.0 10.0))
  end.

(** ** Blended-score composer *)

Definition Qsum (l : list Q) : Q := foldl Qplus 0 l.

(** [blended_0_10(place)] *)
Definition blended_0_10 (place : gmap string pyval) : option Q :=
  let q := get place "quality_0_10" in
  let c := get place "character_0_10" in
  let u := get place "underrated_0_10" in
  let scores := [] in
  let weights := [] in
  let '(scores, weights) :=
    if is_number q then (scores ++ [_safe_float q 0.0], weights ++ [0.40])
    else (scores, weights) in
  let '(scores, weights) :=
    if is_number c then (scores ++ [_safe_float c 0.0], weights ++ [0.35])
    else (scores, weights) in
  let '(scores, weights) :=
    if is_number u then (scores ++ [_safe_float u 0.0], weights ++ [0.25])
    else (scores, weights) in
  match scores with
  | [] => None
  | _ =>
      let total_weight := Qsum weights in
      let weighted_sum := Qsum ((λ sw, fst sw * snd sw) <$> zip scores weights) in
      Some (round1 (weighted_sum / total_weight))
  end.

(** [blended_0_10(place)] as CPython evaluates it.  A number held by the
    place is the binary64 number nearest to the value the model keeps for
    it, and so are the three weights; the products, the two sums and the
    quotient are rounded one by one. *)
Definition blended_0_10_binary64 (place : gmap string pyval) : option Q :=
  let q := get place "quality_0_10" in
  let c := get place "character_0_10" in
  let u := get place "underrated_0_10" in
  let scores := [] in
  let weights := [] in
  let '(scores, weights) :=
    if is_number q
    then (scores ++ [Binary64.nearest (_safe_float q 0.0)],
          weights ++ [Binary64.nearest 0.40])
    else (scores, weights) in
  let '(scores, weights) :=
    if is_number c
    then (scores ++ [Binary64.nearest (_safe_float c 0.0)],
          weights ++ [Binary64.nearest 0.35])
    else (scores, weights) in
  let '(scores, weights) :=
    if is_number u
    then (scores ++ [Binary64.nearest (_safe_float u 0.0)],
          weights ++ [Binary64.nearest 0.25])
    else (scores, weights) in
  match scores with
  | [] => None
  | _ =>
      let total_weight := Binary64.fsum weights in
      let weighted_sum :=
        Binary64.fsum ((λ sw, Binary64.fmul (fst sw) (snd sw)) <$> zip scores weights) in
      Some (round1 (Binary64.fdiv weighted_sum total_weight))
  end.

(** ** Legacy dive-score classifier *)

(** The clamped total of [calculate_dive_score], before it is rounded for
    display; [None] when a comparison of [rating] or [reviews] with a number
    raises [TypeError], or [ml_metadata] has no [get]. *)
Definition dive_total (place : gmap string pyval) : option Q :=
  let rating := py_or (get place "rating") (VInt 0) in
  let reviews := py_or (get place "user_ratings_total") (VInt 0) in
  let price := get place "price_level" in
  ml_data ← as_dict (py_or (get place "ml_metadata") (VDict []));
  let residual := dict_get_default "residual" ml_data VNone in
  let residual :=
    if is_none residual then dict_get_default "residual_deep" ml_data (VInt 0)
    else residual in
  let residual := match py_float residual with Some r => r | None => 0.0 end in
  rating ← as_number rating;
  let rating_score :=
    if Qleb 4.0 rating then 30 + ((rating - 4.0) * 10)
    else if Qleb 3.5 rating then 20 + ((rating - 3.5) * 20)
    else 10 in
  let rating_score := py_min 40 rating_score in
  reviews ← as_number reviews;
  let review_score :=
    if Qltb reviews 20 then 10
    else if Qleb 20 reviews && Qleb reviews 600 then 30
    else if Qltb 600 reviews && Qleb reviews 2000 then 20
    else 10 in
  let price_score :=
    if py_eq_int price 1 then 30
    else if py_eq_int price 2 then 20
    else if py_eq_int price 3 then 5
    else if py_eq_int price 4 then 0
    else 15 in
  let ml_bonus :=
    if Qltb 0.3 residual then 10
    else if Qltb 0.1 residual then 5
    else if Qltb residual (-0.3) then -5
    else 0 in
  let total_score := rating_score + review_score + price_score + ml_bonus in
  Some (py_max 0 (py_min 100 total_score)).

Definition dive_grade_of (total_score : Q) : string :=
  if Qleb 85 total_score then "A"
  else if Qleb 70 total_score then "B"
  else if Qleb 50 total_score then "C"
  else "D".

Definition gem_label_of (total_score : Q) : string :=
  if Qleb 85 total_score then "💎 Certified Gem"
  else if Qleb 70 total_score then "🍺 Solid Spot"
  else if Qleb 50 total_score then "🤷 Decent"
  else "🚫 Avoid".

(** [calculate_dive_score(place)]: the grade and the label are chosen from
    [total_score]; the stored [dive_score] is [round(total_score, 1)]. *)
Definition calculate_dive_score (place : gmap string pyval)
  : option (gmap string pyval) :=
  total_score ← dive_total place;
  let grade := dive_grade_of total_score in
  let label := gem_label_of total_score in
  let place := <["dive_score" := VFloat (round1 total_score)]> place in
  let place := <["dive_grade" := VStr grade]> place in
  let place := <["gem_label" := VStr label]> place in
  Some place.

(** [enrich_place(place, *, underrated_scale=0.35)] *)
Definition enrich_place (place : gmap string pyval) (underrated_scale : Q)
  : option (gmap string pyval) :=
  place ← calculate_dive_score place;
  let place := <["character_0_10" := VFloat (character_0_10 place)]> place in
  let place := <["diveiness_0_10" := get place "character_0_10"]> place in
  let place := <["quality_0_10" := VFloat (quality_0_10 place)]> place in
  u ← underrated_0_10 place underrated_scale;
  let place := <["underrated_0_10" := VFloat u]> place in
  let place := <["blended_0_10" := of_opt (blended_0_10 place)]> place in
  Some place.

(** ** Cohort percentile normaliser *)

(** Python's [list.sort] is stable.  [le x y] says that [x] may stand
    before [y]; an element is placed before the first later element it may
    stand before, so equal keys keep their order. *)
Fixpoint insert_sorted {A} (le : A -> A -> bool) (x : A) (l : list A) : list A :=
  match l with
  | [] => [x]
  | y :: l' => if le x y then x :: l else y :: insert_sorted le x l'
  end.

Definition stable_sort {A} (le : A -> A -> bool) (l : list A) : list A :=
  foldr (insert_sorted le) [] l.

(** The percentile score of the element of rank [rank] among [n]. *)
Definition percentile_score (target_min target_max : Q) (n rank : nat) : Q :=
  let percentile := inject_Z (Z.of_nat rank) / inject_Z (Z.of_nat n - 1) in
  let new_score := target_min + percentile * (target_max - target_min) in
  round1 new_score.

(** [(i, v)] for the places whose [field] is a number. *)
Definition numeric_values (places : list (gmap string pyval)) (field : string)
  : list (nat * Q) :=
  omap (λ ip, (λ v, (fst ip, v)) <$> as_number (get (snd ip) field))
       (imap (λ i p, (i, p)) places).

(** [normalize_to_percentile(places, field, target_min=2.0, target_max=9.5)];
    the list is updated in place, here the updated list is returned. *)
Definition normalize_to_percentile (places : list (gmap string pyval))
    (field : string) (target_min target_max : Q) : list (gmap string pyval) :=
  let values := numeric_values places field in
  if (length values <? 2)%nat then places
  else
    let values := stable_sort (λ x y, Qleb (snd x) (snd y)) values in
    let n := length values in
    foldl (λ places ri,
             let rank := fst ri in
             let idx := fst (snd ri) in
             alter (insert field (VFloat (percentile_score target_min target_max n rank)))
                   idx places)
          places (imap (λ rank iv, (rank, iv)) values).

(** [_percentile_sorted(sorted_vals, pct)]; the indices are in range, so
    the default of [nth] is never returned. *)
Definition _percentile_sorted (sorted_vals : list Q) (pct : Q) : Q :=
  match sorted_vals with
  | [] => 0.0
  | v0 :: _ =>
      let p := _clamp pct 0.0 100.0 / 100.0 in
      if (length sorted_vals =? 1)%nat then v0
      else
        let idx := p * inject_Z (Z.of_nat (length sorted_vals) - 1) in
        let lo := Qfloor idx in
        let hi := Qceiling idx in
        if (lo =? hi)%Z then nth (Z.to_nat lo) sorted_vals 0
        else
          let w := idx - inject_Z lo in
          nth (Z.to_nat lo) sorted_vals 0 * (1.0 - w)
          + nth (Z.to_nat hi) sorted_vals 0 * w
  end.

(** ** Ranking orchestrator *)

(** The storage collaborator: [select * from locations where rating >= x],
    [None] when the request raises. *)
Definition client : Type := Q -> option (list (gmap string pyval)).

(** What a request does to the outside world. *)
Inductive event : Type :=
| EvSelect (min_rating : Q).

(** A response body with its [X-Total-Count] header, or an error status. *)
Inductive http_result : Type :=
| HttpOk (body : list (gmap string pyval)) (total_count : nat)
| HttpError (status : nat).

(** A list comprehension [[x for x in l if f(x)]] whose test may raise. *)
Fixpoint py_filter {A} (f : A -> option bool) (l : list A) : option (list A) :=
  match l with
  | [] => Some []
  | x :: l' =>
      b ← f x;
      r ← py_filter f l';
      Some (if (b : bool) then x :: r else r)
  end.

(** [any(f(x) for x in l)] and [all(f(x) for x in l)], which stop at the
    first decisive element. *)
Fixpoint py_any {A} (f : A -> option bool) (l : list A) : option bool :=
  match l with
  | [] => Some false
  | x :: l' => b ← f x; if (b : bool) then Some true else py_any f l'
  end.

Fixpoint py_all {A} (f : A -> option bool) (l : list A) : option bool :=
  match l with
  | [] => Some true
  | x :: l' => b ← f x; if (b : bool) then py_all f l' else Some false
  end.

(** The residual-collecting loop of [get_locations]. *)
Fixpoint collect_abs_residuals (results : list (gmap string pyval))
  : option (list Q) :=
  match results with
  | [] => Some []
  | p :: results' =>
      md ← as_dict (py_or (get p "ml_metadata") (VDict []));
      let r := dict_get_default "residual_deep" md VNone in
      let r := if is_none r then dict_get_default "residual" md VNone else r in
      rest ← collect_abs_residuals results';
      if is_none r then Some rest
      else Some (Qabs (_safe_float r 0.0) :: rest)
  end.

(** The block every list endpoint runs after enrichment: normalise the three
    lenses over the cohort, then recompute the blend of each place. *)
Definition normalize_and_blend (enriched_results : list (gmap string pyval))
  : list (gmap string pyval) :=
  let enriched_results := normalize_to_percentile enriched_results "quality_0_10" 2.0 9.5 in
  let enriched_results := normalize_to_percentile enriched_results "character_0_10" 2.0 9.5 in
  let enriched_results := normalize_to_percentile enriched_results "underrated_0_10" 2.0 9.5 in
  (λ place, <["blended_0_10" := of_opt (blended_0_10 place)]> place) <$> enriched_results.

Definition KIND_TYPE_MAP : gmap string (list string) :=
  list_to_map
    [ ("bar", ["bar"; "night_club"]);
      ("restaurant", ["restaurant"; "cafe"; "meal_takeaway"; "meal_delivery"]) ].

Definition string_mem (s : string) (l : list string) : bool :=
  existsb (String.eqb s) l.

(** [t in want]: hashing a list or a dict raises [TypeError]. *)
Definition in_set (t : pyval) (want : list string) : option bool :=
  match t with
  | VStr s => Some (string_mem s want)
  | VList _ | VDict _ => None
  | _ => Some false
  end.

(** The local function [has_kind(p, kind)] of [get_locations]. *)
Definition has_kind (p : gmap string pyval) (kind : string) : option bool :=
  match py_or (get p "types") (VList []) with
  | VList types =>
      match KIND_TYPE_MAP !! kind with
      | None | Some [] => Some false
      | Some want => py_any (λ t, in_set t want) types
      end
  | _ => Some false
  end.

(** [int(p.get("user_ratings_total") or 0) >= int(min_reviews)] *)
Definition enough_reviews (min_reviews : Z) (p : gmap string pyval) : option bool :=
  n ← py_int (py_or (get p "user_ratings_total") (VInt 0));
  Some (min_reviews <=? n)%Z.

(** [l.sort(key=lambda x: x.get(k) or 0, reverse=True)].  The sort is
    stable also when reversed.  The columns a request can sort by are
    numeric; ordering keys that are not numbers is reported as an error
    as soon as two elements have to be compared. *)
Definition sort_desc_by (k : string) (l : list (gmap string pyval))
  : option (list (gmap string pyval)) :=
  match l with
  | [] | _ :: [] => Some l
  | _ =>
      keyed ← mapM (λ x, (λ key, (key, x)) <$> as_number (py_or (get x k) (VInt 0))) l;
      Some (snd <$> stable_sort (λ x y, Qleb (fst y) (fst x)) keyed)
  end.

(** The body of the [try] block of [get_locations], after the client has
    been obtained. *)
Definition get_locations_try (db : client) (min_rating : Q) (min_reviews : Z)
    (kinds : option (list string)) (kinds_mode : string) (sort_by : string)
    (limit : nat) : option (list (gmap string pyval) * nat) :=
  results ← db min_rating;
  abs_residuals ← collect_abs_residuals results;
  let abs_residuals := stable_sort Qleb abs_residuals in
  let underrated_scale :=
    if (10 <=? length abs_residuals)%nat then _percentile_sorted abs_residuals 75
    else 0.20 in
  let underrated_scale := py_max 0.10 underrated_scale in
  enriched_results ← mapM (λ place, enrich_place place underrated_scale) results;
  let enriched_results := normalize_and_blend enriched_results in
  enriched_results ←
    (if (0 <? min_reviews)%Z
     then py_filter (enough_reviews min_reviews) enriched_results
     else Some enriched_results);
  enriched_results ←
    match kinds with
    | None | Some [] => Some enriched_results
    | Some kinds =>
        let normalized := str_lower_strip <$> kinds in
        let normalized :=
          List.filter (λ k, bool_decide (is_Some (KIND_TYPE_MAP !! k))) normalized in
        match normalized with
        | [] => Some enriched_results
        | _ =>
            if String.eqb kinds_mode "all"
            then py_filter (λ p, py_all (has_kind p) normalized) enriched_results
            else py_filter (λ p, py_any (has_kind p) normalized) enriched_results
        end
    end;
  enriched_results ← sort_desc_by sort_by enriched_results;
  let total_count := length enriched_results in
  Some (take limit enriched_results, total_count).

(** [GET /locations].  Every exception raised inside the [try] block, the
    503 of [get_supabase] included, is turned into a 500. *)
Definition get_locations (supabase : option client) (min_rating : Q)
    (min_reviews : Z) (kinds : option (list string)) (kinds_mode : string)
    (sort_by : string) (limit : nat) : list event * http_result :=
  match supabase with
  | None => ([], HttpError 500)
  | Some db =>
      ([EvSelect min_rating],
       match get_locations_try db min_rating min_reviews kinds kinds_mode sort_by limit with
       | Some (page, total_count) => HttpOk page total_count
       | None => HttpError 500
       end)
  end.

(** ** Custom-lens composer *)

Definition SIGNAL_COLUMNS : gmap string string :=
  list_to_map
    [ ("food_drink_quality", "avg_food_drink_quality");
      ("service_quality", "avg_service_quality");
      ("value_score", "avg_value_score");
      ("divey_score", "avg_divey_score");
      ("classic_institution", "avg_classic_institution");
      ("unpretentious", "avg_unpretentious");
      ("authenticity", "avg_authenticity");
      ("would_recommend", "avg_would_recommend");
      ("memorable", "avg_memorable") ].

(** The validation loop: keep the known signals whose weight [float]
    accepts. *)
Definition validate_weights (items : list (string * pyval)) : list (string * Q) :=
  foldl (λ valid_weights sw,
           match SIGNAL_COLUMNS !! fst sw with
           | Some _ =>
               match py_float (snd sw) with
               | Some w => dict_set (fst sw) w valid_weights
               | None => valid_weights
               end
           | None => valid_weights
           end)
        [] items.

(** The body of the per-place loop: the value stored in [custom_score]. *)
Definition custom_score (valid_weights : list (string * Q))
    (place : gmap string pyval) : Q :=
  let acc :=
    foldl (λ acc sw,
             let col := default "" (SIGNAL_COLUMNS !! fst sw) in
             let weight := snd sw in
             match _safe_float_opt (get place col) with
             | Some val =>
                 if Qltb 0 weight
                 then (fst acc + val * weight, snd acc + weight)
                 else acc
             | None => acc
             end)
          (0.0, 0.0) valid_weights in
  let weighted_sum := fst acc in
  let total_weight := snd acc in
  if Qltb 0 total_weight then round1 ((weighted_sum / total_weight) * 10.0)
  else 5.0.

(** The body of the per-place loop of [get_locations_custom] as CPython
    evaluates it: both accumulators are binary64 numbers, and every [+=],
    every product, the quotient and the scaling by [10.0] are rounded. *)
Definition custom_score_binary64 (valid_weights : list (string * Q))
    (place : gmap string pyval) : Q :=
  let acc :=
    foldl (λ acc sw,
             let col := default "" (SIGNAL_COLUMNS !! fst sw) in
             let weight := Binary64.nearest (snd sw) in
             match _safe_float_opt (get place col) with
             | Some val =>
                 if Qltb 0 weight
                 then (Binary64.fadd (fst acc)
                         (Binary64.fmul (Binary64.nearest val) weight),
                       Binary64.fadd (snd acc) weight)
                 else acc
             | None => acc
             end)
          (0.0, 0.0) valid_weights in
  let weighted_sum := fst acc in
  let total_weight := snd acc in
  if Qltb 0 total_weight
  then round1 (Binary64.fmul (Binary64.fdiv weighted_sum total_weight)
                 (Binary64.nearest 10.0))
  else 5.0.

(** The body of the [try] block of [get_locations_custom], after the client
    has been obtained. *)
Definition get_locations_custom_try (db : client)
    (valid_weights : list (string * Q)) (min_rating : Q) (min_reviews : Z)
    (limit : nat) : option (list (gmap string pyval) * nat) :=
  results ← db min_rating;
  enriched_results ← mapM (λ place, enrich_place place 0.35) results;
  let enriched_results := normalize_and_blend enriched_results in
  enriched_results ←
    (if (0 <? min_reviews)%Z
     then py_filter (enough_reviews min_reviews) enriched_results
     else Some enriched_results);
  let enriched_results :=
    (λ place, <["custom_score" := VFloat (custom_score valid_weights place)]> place)
      <$> enriched_results in
  enriched_results ← sort_desc_by "custom_score" enriched_results;
  let total_count := length enriched_results in
  Some (take limit enriched_results, total_count).

(** [GET /locations/custom].  A payload that parses to something other than
    an object makes [weight_dict.items()] raise outside every handler: the
    framework answers 500. *)
Definition get_locations_custom (supabase : option client) (weights : string)
    (min_rating : Q) (min_reviews : Z) (limit : nat) : list event * http_result :=
  match json_loads weights with
  | None => ([], HttpError 400)
  | Some weight_dict =>
      match as_dict weight_dict with
      | None => ([], HttpError 500)
      | Some items =>
          let valid_weights := validate_weights items in
          match valid_weights with
          | [] => ([], HttpError 400)
          | _ =>
              match supabase with
              | None => ([], HttpError 503)
              | Some db =>
                  ([EvSelect min_rating],
                   match get_locations_custom_try db valid_weights min_rating
                           min_reviews limit with
                   | Some (page, total_count) => HttpOk page total_count
                   | None => HttpError 500
                   end)
              end
          end
      end
  end.

End WithRuntime.

(** ** Vibe listing and key reviews *)

(** What [GET /vibes] asks of the storage:
    [select * from locations], [.eq("vibe_tag", t)] when a tag is given,
    [.limit(n)]; [None] when the request raises. *)
Definition vibes_client : Type :=
  option string -> nat -> option (list (gmap string pyval)).

Inductive vibes_event : Type :=
| EvSelectVibes (vibe_tag : option string) (limit : nat).

(** What [GET /locations/{place_id}/reviews] asks of the storage: the reviews
    of one place; the answer carries [data], a list or [None]. *)
Definition reviews_client : Type :=
  string -> option (option (list (gmap string pyval))).

Inductive reviews_event : Type :=
| EvSelectReviews (place_id : string).

(** A response body that sets no header, or an error status. *)
Inductive http_reply : Type :=
| ReplyOk (body : list (gmap string pyval))
| ReplyError (status : nat).

(** [a == b] between two hashable values: numbers by value, strings
    and [None] by content. *)
Definition py_eq (a b : pyval) : bool :=
  match a, b with
  | VNone, VNone => true
  | VStr s, VStr t => String.eqb s t
  | _, _ =>
      match as_number a, as_number b with
      | Some x, Some y => Qeq_bool x y
      | _, _ => false
      end
  end.

(** [x in seen] for a set [seen]: hashing a list or a dict raises
    [TypeError]. *)
Definition set_contains (seen : list pyval) (x : pyval) : option bool :=
  match x with
  | VList _ | VDict _ => None
  | _ => Some (existsb (py_eq x) seen)
  end.

(** [max(l, key=key)] and [min(l, key=key)] of the non-empty list [x :: l]:
    the first element whose key is the largest (the smallest). *)
Definition py_max_by {A} (key : A -> Q) (x : A) (l : list A) : A :=
  foldl (λ best y, if Qltb (key best) (key y) then y else best) x l.

Definition py_min_by {A} (key : A -> Q) (x : A) (l : list A) : A :=
  foldl (λ best y, if Qltb (key y) (key best) then y else best) x l.

(** The loop that fills [picked] from [remaining] up to [limit]. *)
Fixpoint fill_picked (limit : nat) (picked remaining : list (gmap string pyval))
  : list (gmap string pyval) :=
  match remaining with
  | [] => picked
  | r :: remaining' =>
      if (limit <=? length picked)%nat then picked
      else fill_picked limit (picked ++ [r]) remaining'
  end.

Section OtherEndpoints.
Context {RT : Runtime}.

(** [GET /vibes].  The rows are enriched with the default scale and
    normalised like those of [GET /locations]; they are neither filtered nor
    sorted, and [limit] goes to the storage. *)
Definition get_vibes (supabase : option vibes_client) (vibe_tag : option string)
    (limit : nat) : list vibes_event * http_reply :=
  match supabase with
  | None => ([], ReplyError 500)
  | Some db =>
      let tag :=
        match vibe_tag with
        | Some t => if String.eqb t "" then None else Some t
        | None => None
        end in
      ([EvSelectVibes tag limit],
       match
         data ← db tag limit;
         enriched_results ← mapM (λ p, enrich_place p 0.35) data;
         Some (normalize_and_blend enriched_results)
       with
       | Some body => ReplyOk body
       | None => ReplyError 500
       end)
  end.

(** The local function [sent(r)] of [get_key_reviews]. *)
Definition sent (r : gmap string pyval) : Q :=
  _safe_float (py_or (get r "openai_sentiment") (VFloat 0.0)) 0.0.

(** One turn of the loop over [[most_pos, most_neg, most_dive]]; the state
    is [(picked, seen)]. *)
Definition pick_review (acc : list (gmap string pyval) * list pyval)
    (r : option (gmap string pyval))
  : option (list (gmap string pyval) * list pyval) :=
  match r with
  | None => Some acc
  | Some r =>
      if bool_decide (r = ∅) then Some acc
      else
        let rid := get r "id" in
        if truthy rid then
          b ← set_contains (snd acc) rid;
          if (b : bool) then Some acc
          else Some (fst acc ++ [r], rid :: snd acc)
        else Some acc
  end.

Section KeyReviews.
(** [str.strip] *)
Context (str_strip : string -> string).

(** [(r.get("review_text") or "").strip()] as a condition; a text that is
    not a string has no [strip]. *)
Definition has_review_text (r : gmap string pyval) : option bool :=
  match py_or (get r "review_text") (VStr "") with
  | VStr s => Some (negb (String.eqb (str_strip s) ""))
  | _ => None
  end.

(** The body of the [try] block of [get_key_reviews], from [rows] on. *)
Definition get_key_reviews_try (rows : list (gmap string pyval)) (limit : nat)
  : option (list (gmap string pyval)) :=
  match rows with
  | [] => Some []
  | _ =>
      rows ← py_filter has_review_text rows;
      match rows with
      | [] => Some []
      | r0 :: rows' =>
          let most_pos := py_max_by sent r0 rows' in
          let most_neg := py_min_by sent r0 rows' in
          let dive_candidates :=
            List.filter (λ r, truthy (get r "openai_is_dive_positive")) rows in
          let most_dive :=
            match dive_candidates with
            | [] => None
            | d :: dive_candidates' => Some (py_max_by sent d dive_candidates')
            end in
          acc ← pick_review ([], []) (Some most_pos);
          acc ← pick_review acc (Some most_neg);
          acc ← pick_review acc most_dive;
          let picked := fst acc in
          let seen := snd acc in
          picked ←
            (if (length picked <? limit)%nat
             then
               remaining ←
                 py_filter (λ r, negb <$> set_contains seen (get r "id")) rows;
               let remaining :=
                 stable_sort (λ x y, Qleb (Qabs (sent y)) (Qabs (sent x)))
                   remaining in
               Some (fill_picked limit picked remaining)
             else Some picked);
          Some (take limit picked)
      end
  end.

(** [GET /locations/{place_id}/reviews] *)
Definition get_key_reviews (supabase : option reviews_client) (place_id : string)
    (limit : nat) : list reviews_event * http_reply :=
  match supabase with
  | None => ([], ReplyError 500)
  | Some db =>
      ([EvSelectReviews place_id],
       match
         data ← db place_id;
         get_key_reviews_try (default [] data) limit
       with
       | Some picked => ReplyOk picked
       | None => ReplyError 500
       end)
  end.

End KeyReviews.

End OtherEndpoints.

(** ** A runtime to run the model on examples

    Rational stand-ins for the library functions, precise enough on the
    arguments the examples use, and plain decimal parsers. *)

Module ExampleRuntime.

(** Partial sum of the exponential series: [fuel] terms from [term], the
    term of index [k - 1]. *)
Fixpoint exp_series (x term : Q) (k : Z) (fuel : nat) : Q :=
  match fuel with
  | O => 0
  | S fuel' =>
      term + exp_series x (Qred (term * x / inject_Z k)) (k + 1) fuel'
  end.

Definition exp_approx (x : Q) : Q := Qred (exp_series x 1 1 40).

Definition tanh_approx (x : Q) : Q :=
  let e := exp_approx (2 * x) in Qred ((e - 1) / (e + 1)).

(** [ln m = 2 artanh ((m - 1) / (m + 1))], by the series of [artanh]. *)
Fixpoint artanh_series (z2 term : Q) (k : Z) (fuel : nat) : Q :=
  match fuel with
  | O => 0
  | S fuel' =>
      term / inject_Z k + artanh_series z2 (Qred (term * z2)) (k + 2) fuel'
  end.

Definition ln_approx (m : Q) : Q :=
  let z := (m - 1) / (m + 1) in
  Qred (2 * artanh_series (z * z) z 1 24).

(** Divide by ten while the argument is at least ten, counting. *)
Fixpoint log10_reduce (x : Q) (fuel : nat) : Z * Q :=
  match fuel with
  | O => (0%Z, x)
  | S fuel' =>
      if Qleb 10 x then
        let r := log10_reduce (Qred (x / 10)) fuel' in ((fst r + 1)%Z, snd r)
      else (0%Z, x)
  end.

Definition ln_10 : Q := 2.302585093.

Definition log10_approx (x : Q) : Q :=
  let r := log10_reduce x 400 in
  Qred (inject_Z (fst r) + ln_approx (snd r) / ln_10).

Definition digit_of (c : ascii) : option Z :=
  let n := nat_of_ascii c in
  if ((48 <=? n) && (n <=? 57))%nat then Some (Z.of_nat (n - 48)) else None.

(** The digits of [s] read in base ten after [acc], and how many. *)
Fixpoint digits (s : string) (acc : Z) (len : nat) : option (Z * nat) :=
  match s with
  | EmptyString => Some (acc, len)
  | String c s' =>
      d ← digit_of c; digits s' (10 * acc + d)%Z (S len)
  end.

Definition unsigned_int (s : string) : option Z :=
  match s with
  | EmptyString => None
  | _ => fst <$> digits s 0 0
  end.

Definition signed {A} (neg : A -> A) (body : string -> option A) (s : string)
  : option A :=
  match s with
  | String "-" s' => neg <$> body s'
  | String "+" s' => body s'
  | _ => body s
  end.

Definition parse_int (s : string) : option Z := signed Z.opp unsigned_int s.

(** [s] split at its first dot. *)
Fixpoint split_dot (s : string) : string * option string :=
  match s with
  | EmptyString => (EmptyString, None)
  | String "." s' => (EmptyString, Some s')
  | String c s' => let r := split_dot s' in (String c (fst r), snd r)
  end.

Definition unsigned_float (s : string) : option Q :=
  match split_dot s with
  | (whole, None) => inject_Z <$> unsigned_int whole
  | (whole, Some frac) =>
      w ← unsigned_int whole;
      f ← digits frac 0 0;
      Some (Qred (inject_Z w + inject_Z (fst f) / inject_Z (10 ^ Z.of_nat (snd f))))
  end.

Definition parse_float (s : string) : option Q := signed Qopp unsigned_float s.

Definition is_space (c : ascii) : bool :=
  let n := nat_of_ascii c in ((n =? 32) || ((9 <=? n) && (n <=? 13)))%nat.

Definition lower_ascii (c : ascii) : ascii :=
  let n := nat_of_ascii c in
  if ((65 <=? n) && (n <=? 90))%nat then ascii_of_nat (n + 32) else c.

Fixpoint lstrip (s : string) : string :=
  match s with
  | String c s' => if is_space c then lstrip s' else s
  | EmptyString => EmptyString
  end.

Fixpoint rstrip (s : string) : string :=
  match s with
  | EmptyString => EmptyString
  | String c s' =>
      match rstrip s' with
      | EmptyString => if is_space c then EmptyString else String c EmptyString
      | r => String c r
      end
  end.

Fixpoint lower (s : string) : string :=
  match s with
  | EmptyString => EmptyString
  | String c s' => String (lower_ascii c) (lower s')
  end.

Definition lower_strip (s : string) : string := rstrip (lstrip (lower s)).

(** The double quote. *)
Definition dq : string := String (ascii_of_nat 34) EmptyString.

(** The payloads of the examples below, as [json.loads] reads them. *)
Definition payload_food : string :=
  "{" ++ dq ++ "food_drink_quality" ++ dq ++ ": 1.0}".
Definition payload_unknown : string :=
  "{" ++ dq ++ "cheap_beer" ++ dq ++ ": 2, "
      ++ dq ++ "memorable" ++ dq ++ ": [1]}".
Definition payload_negative : string :=
  "{" ++ dq ++ "food_drink_quality" ++ dq ++ ": -1, "
      ++ dq ++ "divey_score" ++ dq ++ ": 0}".
Definition payload_array : string := "[1, 2]".
Definition payload_truncated : string :=
  "{" ++ dq ++ "food_drink_quality" ++ dq ++ ": ".

(** A JSON reader that knows the payloads above; every other text is
    reported as unparseable. *)
Definition loads (s : string) : option pyval :=
  if String.eqb s payload_food then
    Some (VDict [("food_drink_quality", VFloat 1.0)])
  else if String.eqb s payload_unknown then
    Some (VDict [("cheap_beer", VInt 2); ("memorable", VList [VInt 1])])
  else if String.eqb s payload_negative then
    Some (VDict [("food_drink_quality", VInt (-1)); ("divey_score", VInt 0)])
  else if String.eqb s payload_array then
    Some (VList [VInt 1; VInt 2])
  else None.

Definition example_runtime : Runtime := {|
  m_exp := exp_approx;
  m_tanh := tanh_approx;
  m_log10 := log10_approx;
  str_to_float := parse_float;
  str_to_int := parse_int;
  str_lower_strip := lower_strip;
  json_loads := loads
|}.

End ExampleRuntime.

(** * The vocabulary of the statements *)

(** The two caps as the calculators apply them, one after the other. *)
Definition guarded (base : Q) (gr rc : Z) : Q :=
  let base := if ((gr <? 100) || (rc <? 25))%Z then py_min base 9.8 else base in
  if ((gr <? 50) || (rc <? 15))%Z then py_min base 9.4 else base.

(** A place of the cohort with its index, if its field is a number. *)
Definition tag_numeric (field : string) (ip : nat * gmap string pyval) : option (nat * Q) :=
  (λ v, (fst ip, v)) <$> as_number (get (snd ip) field).

(** The update loop. *)
Definition write_ranks (field : string) (target_min target_max : Q) (n : nat) (places : list (gmap string pyval))
    (ranked : list (nat * (nat * Q))) : list (gmap string pyval) :=
  foldl (λ places ri,
           alter (insert field
                    (VFloat (percentile_score target_min target_max n (fst ri))))
                 (fst (snd ri)) places)
        places ranked.

(** The ranked values of a cohort: the numeric values in ascending order. *)
Definition ranking (field : string) (places : list (gmap string pyval)) : list (nat * Q) :=
  stable_sort (λ x y, Qleb (snd x) (snd y)) (numeric_values places field).

(** The blend in the words of the design: the weights 0.40, 0.35 and 0.25
    of the components that are present are renormalised to sum to 1, and
    the blend is the mean with these weights, rounded to one decimal; no
    component, no blend. *)
Definition renormalized_blend (q c u : option Q) : option Q :=
  let present :=
    omap (λ sw, (λ s, (s, snd sw)) <$> fst sw) [(q, 0.40); (c, 0.35); (u, 0.25)] in
  match present with
  | [] => None
  | _ =>
      let total := Qsum (snd <$> present) in
      Some (round1 (Qsum ((λ sw, fst sw * (snd sw / total)) <$> present)))
  end.

Definition label_of_grade (grade : string) : string :=
  if String.eqb grade "A" then "💎 Certified Gem"
  else if String.eqb grade "B" then "🍺 Solid Spot"
  else if String.eqb grade "C" then "🤷 Decent"
  else "🚫 Avoid".

(** One normalisation pass leaves a place alone or overwrites the field
    with a percentile score. *)
Definition renormalized (field : string) (target_min target_max : Q)
    (p p' : gmap string pyval) : Prop :=
  p' = p
  \/ exists w,
       is_number (get p field) = true /\ p' = <[field := VFloat w]> p
       /\ (target_min <= target_max ->
           round1 target_min <= w /\ w <= round1 target_max).

(** The three normalisation passes of the endpoints. *)
Definition normalized_cohort (enriched_results : list (gmap string pyval))
  : list (gmap string pyval) :=
  normalize_to_percentile
    (normalize_to_percentile
       (normalize_to_percentile enriched_results "quality_0_10" 2.0 9.5)
       "character_0_10" 2.0 9.5)
    "underrated_0_10" 2.0 9.5.

(** The three lens scores of a record, each a float in [0, 10]. *)
Definition lens_scores (p : gmap string pyval) (q c u : Q) : Prop :=
  get p "quality_0_10" = VFloat q /\ 0 <= q <= 10
  /\ get p "character_0_10" = VFloat c /\ 0 <= c <= 10
  /\ get p "underrated_0_10" = VFloat u /\ 0 <= u <= 10.

(** Two records that agree outside the three lens fields. *)
Definition same_but_lenses (p p' : gmap string pyval) : Prop :=
  forall k, k <> "quality_0_10" -> k <> "character_0_10" ->
            k <> "underrated_0_10" -> get p' k = get p k.

Definition lens_pass (p p' : gmap string pyval) : Prop :=
  same_but_lenses p p'
  /\ forall q c u, lens_scores p q c u -> exists q' c' u', lens_scores p' q' c' u'.

(** What a record of the response looks like, in terms of the row it was
    computed from. *)
Definition pipeline_record {RT : Runtime} (place p : gmap string pyval) : Prop :=
  exists total q c u,
    dive_total place = Some total
    /\ get p "dive_score" = VFloat (round1 total)
    /\ get p "dive_grade" = VStr (dive_grade_of total)
    /\ get p "gem_label" = VStr (gem_label_of total)
    /\ lens_scores p q c u
    /\ get p "blended_0_10" = VFloat (round1 (0.40 * q + 0.35 * c + 0.25 * u)).

(** A row as the storage delivers it: [rating] and [user_ratings_total] are
    numbers or null, [ml_metadata] is an object or null. *)
Definition numeric_or_none (v : pyval) : Prop :=
  v = VNone \/ is_number v = true.

Definition dict_or_none (v : pyval) : Prop :=
  v = VNone \/ exists d, v = VDict d.

Definition well_typed_row (place : gmap string pyval) : Prop :=
  numeric_or_none (get place "rating")
  /\ numeric_or_none (get place "user_ratings_total")
  /\ dict_or_none (get place "ml_metadata").

Definition in_range (lo hi : Q) (v : pyval) : Prop :=
  exists x, v = VFloat x /\ lo <= x <= hi.

(** The derived fields of the record [p] computed from the row [place]. *)
Definition scored_record {RT : Runtime} (place p : gmap string pyval) : Prop :=
  in_range 0 10 (get p "quality_0_10")
  /\ in_range 0 10 (get p "character_0_10")
  /\ in_range 0 10 (get p "underrated_0_10")
  /\ in_range 0 10 (get p "blended_0_10")
  /\ in_range 0 100 (get p "dive_score")
  /\ exists total,
       dive_total place = Some total
       /\ get p "dive_score" = VFloat (round1 total)
       /\ get p "dive_grade" = VStr (dive_grade_of total)
       /\ get p "gem_label" = VStr (label_of_grade (dive_grade_of total)).

(** What the fallback needs of the library's [tanh]: it vanishes at zero,
    and near [x] it is within [eps] of the real hyperbolic tangent. *)
Definition tanh_zero (RT : Runtime) : Prop :=
  forall x, x == 0 -> m_tanh x == 0.

Definition tanh_close (RT : Runtime) (x eps : Q) : Prop :=
  forall x', x' == x ->
    (tanh (Q2R x) - Q2R eps <= Q2R (m_tanh x') <= tanh (Q2R x) + Q2R eps)%R.

(** The residual the fallback resolves: the newer field, else the older. *)
Definition resolved_residual (ml_data : list (string * pyval)) : pyval :=
  let r := dict_get_default "residual_deep" ml_data VNone in
  if is_none r then dict_get_default "residual" ml_data VNone else r.

Definition response_body (r : http_result) : list (gmap string pyval) :=
  match r with HttpOk body _ => body | HttpError _ => [] end.

Definition response_total (r : http_result) : nat :=
  match r with HttpOk _ total_count => total_count | HttpError _ => 0%nat end.

Definition is_ok (r : http_result) : bool :=
  match r with HttpOk _ _ => true | HttpError _ => false end.

Definition field_values (field : string) (places : list (gmap string pyval))
  : list pyval :=
  (λ p, get p field) <$> places.

Definition alias_fields (p : gmap string pyval) : pyval * pyval * pyval :=
  (get p "place_id", get p "character_0_10", get p "diveiness_0_10").

Definition score_and_grade (p : gmap string pyval) : pyval * pyval :=
  (get p "dive_score", get p "dive_grade").

Section StatementVocabulary.
Context {RT : Runtime}.

(** An entry the validation loop drops. *)
Definition dropped (sw : string * pyval) : Prop :=
  SIGNAL_COLUMNS !! fst sw = None \/ py_float (snd sw) = None.

Definition validate_step (valid_weights : list (string * Q)) (sw : string * pyval)
  : list (string * Q) :=
  match SIGNAL_COLUMNS !! fst sw with
  | Some _ =>
      match py_float (snd sw) with
      | Some w => dict_set (fst sw) w valid_weights
      | None => valid_weights
      end
  | None => valid_weights
  end.

(** The value of a validated signal on a place, if it is present. *)
Definition signal_value (place : gmap string pyval) (signal : string) : option Q :=
  _safe_float_opt (get place (default "" (SIGNAL_COLUMNS !! signal))).

(** The score in the words of the design: the signals that contribute are
    those with a weight above zero and a present value; the score is their
    weighted mean scaled to 0-10 and rounded to one decimal, and the neutral
    5.0 when no signal contributes. *)
Definition contributing (valid_weights : list (string * Q))
    (place : gmap string pyval) : list (Q * Q) :=
  omap (λ sw, match signal_value place (fst sw) with
              | Some val => if Qltb 0 (snd sw) then Some (val, snd sw) else None
              | None => None
              end)
       valid_weights.

Definition weighted_mean_score (valid_weights : list (string * Q))
    (place : gmap string pyval) : Q :=
  match contributing valid_weights place with
  | [] => 5.0
  | c =>
      round1 (Qsum ((λ vw, fst vw * snd vw) <$> c) / Qsum (snd <$> c) * 10.0)
  end.

(** One turn of the loop over the validated weights. *)
Definition custom_step (place : gmap string pyval) (acc : Q * Q)
    (sw : string * Q) : Q * Q :=
  let col := default "" (SIGNAL_COLUMNS !! fst sw) in
  let weight := snd sw in
  match _safe_float_opt (get place col) with
  | Some val =>
      if Qltb 0 weight then (fst acc + val * weight, snd acc + weight) else acc
  | None => acc
  end.

End StatementVocabulary.

(** ** Exact means and binary64 tolerances *)

(** The mean of the components that are present, with the weights 0.40,
    0.35 and 0.25 renormalised to sum to 1, before it is rounded. *)
Definition renormalized_mean (q c u : option Q) : option Q :=
  let present :=
    omap (λ sw, (λ s, (s, snd sw)) <$> fst sw) [(q, 0.40); (c, 0.35); (u, 0.25)] in
  match present with
  | [] => None
  | _ =>
      let total := Qsum (snd <$> present) in
      Some (Qsum ((λ sw, fst sw * (snd sw / total)) <$> present))
  end.

(** The three lens scores of a place, where they are numbers. *)
Definition lens_numbers (place : gmap string pyval) : option Q * option Q * option Q :=
  (as_number (get place "quality_0_10"),
   as_number (get place "character_0_10"),
   as_number (get place "underrated_0_10")).

Definition lens_mean (place : gmap string pyval) : option Q :=
  let '(q, c, u) := lens_numbers place in renormalized_mean q c u.

(** A component that is present lies in [[0, 10]]. *)
Definition in_0_10 (x : option Q) : Prop :=
  match x with Some v => 0 <= v <= 10 | None => True end.

(** A component that is present has one decimal. *)
Definition one_decimal (x : option Q) : Prop :=
  match x with Some v => exists k : Z, v == inject_Z k / 10 | None => True end.

(** Each lens score of a place that is a number has one decimal. *)
Definition one_decimal_lenses (place : gmap string pyval) : Prop :=
  one_decimal (as_number (get place "quality_0_10"))
  /\ one_decimal (as_number (get place "character_0_10"))
  /\ one_decimal (as_number (get place "underrated_0_10")).

(** [y] lies halfway between two integers. *)
Definition is_halfway (y : Q) : bool :=
  Qeq_bool (Qabs (y - inject_Z (round_half_even y))) (1 # 2).

(** What the rounding of the single operations can add up to in the blend
    and in the custom score: [2^-40], about [10^-12]. *)
Definition tolerance : Q := 1 # 1099511627776.

(** The unit roundoff [2^-53], and [2^-49], which bounds one rounding of a
    number of magnitude at most 16. *)
Definition u53 : Q := 1 # 9007199254740992.
Definition eps16 : Q := 1 # 562949953421312.

(** One turn of the custom-score loop on a contributing signal, and the
    exact sums that the two accumulators approximate. *)
Definition acc_step (acc : Q * Q) (vw : Q * Q) : Q * Q :=
  (Binary64.fadd (fst acc) (Binary64.fmul (fst vw) (snd vw)),
   Binary64.fadd (snd acc) (snd vw)).

Definition sum_products (c : list (Q * Q)) : Q := Qsum ((λ vw, fst vw * snd vw) <$> c).
Definition sum_weights (c : list (Q * Q)) : Q := Qsum (snd <$> c).

Section Binary64Vocabulary.
Context {RT : Runtime}.

(** The signals that contribute to the custom score of a place, as the
    loop sees them: value and weight are binary64 numbers. *)
Definition contributing_binary64 (valid_weights : list (string * Q))
    (place : gmap string pyval) : list (Q * Q) :=
  omap (λ sw, match signal_value place (fst sw) with
              | Some val =>
                  if Qltb 0 (Binary64.nearest (snd sw))
                  then Some (Binary64.nearest val, Binary64.nearest (snd sw))
                  else None
              | None => None
              end)
       valid_weights.

(** Their exact weighted mean. *)
Definition weighted_mean (c : list (Q * Q)) : Q :=
  Qsum ((λ vw, fst vw * snd vw) <$> c) / Qsum (snd <$> c).

(** Weights of ordinary magnitude: at most sixteen of them, each zero or
    less, or between [2^-32] and [2^32]. *)
Definition w_min : Q := 1 # 4294967296.
Definition w_max : Q := 4294967296.

(** A contributing signal of a request with ordinary weights and unit
    signals. *)
Definition good_term (vw : Q * Q) : Prop :=
  0 <= fst vw <= 1 /\ w_min <= snd vw <= w_max.

Definition ordinary_weights (valid_weights : list (string * Q)) : Prop :=
  (length valid_weights <= 16)%nat
  /\ Forall (λ sw, snd sw <= 0 \/ w_min <= snd sw <= w_max) valid_weights.

(** The signals of the request that the place has lie in [[0, 1]]. *)
Definition unit_signals (valid_weights : list (string * Q))
    (place : gmap string pyval) : Prop :=
  Forall (λ sw, match signal_value place (fst sw) with
                | Some val => 0 <= val <= 1
                | None => True
                end)
         valid_weights.

(** The custom score [s] of a place, as far as it is determined by the
    exact weighted mean of the signals that contribute: the neutral 5.0
    when none does, and otherwise, for unit signals and ordinary weights,
    ten times the mean to one decimal within the binary64 tolerance. *)
Definition custom_score_of (valid_weights : list (string * Q))
    (place : gmap string pyval) (s : Q) : Prop :=
  (contributing valid_weights place = [] -> s = 5.0)
  /\ (ordinary_weights valid_weights -> unit_signals valid_weights place ->
      contributing valid_weights place <> [] ->
      let mu := weighted_mean (contributing valid_weights place) in
      round1 (mu * 10 - tolerance) <= s /\ s <= round1 (mu * 10 + tolerance)).

(** A record [p] of a response and the record [p0] of the normalised
    cohort it was made from: the three lens scores of [p] are the
    normalised ones, they have one decimal, and the blend of [p] is their
    weighted mean to one decimal, within the binary64 tolerance; away from
    the halfway points it is the mean rounded, which is also what the
    binary64 evaluation returns. *)
Definition blended_after_normalization (p0 p : gmap string pyval) : Prop :=
  exists q c u b,
    lens_scores p0 q c u
    /\ one_decimal_lenses p0
    /\ get p "quality_0_10" = VFloat q
    /\ get p "character_0_10" = VFloat c
    /\ get p "underrated_0_10" = VFloat u
    /\ get p "blended_0_10" = VFloat b
    /\ round1 (0.40 * q + 0.35 * c + 0.25 * u - tolerance) <= b
    /\ b <= round1 (0.40 * q + 0.35 * c + 0.25 * u + tolerance)
    /\ (is_halfway ((0.40 * q + 0.35 * c + 0.25 * u) * 10) = false ->
        b = round1 (0.40 * q + 0.35 * c + 0.25 * u)
        /\ blended_0_10_binary64 p0 = Some b).

End Binary64Vocabulary.

(** ** The stages of a ranked-list request *)

(** The scale [get_locations] enriches with, from the absolute residuals it
    collected. *)
Definition scale_of_residuals (abs_residuals : list Q) : Q :=
  let abs_residuals := stable_sort Qleb abs_residuals in
  let underrated_scale :=
    if (10 <=? length abs_residuals)%nat then _percentile_sorted abs_residuals 75
    else 0.20 in
  py_max 0.10 underrated_scale.

(** The number a record is sorted by: [x.get(k) or 0]. *)
Definition sort_key (k : string) (x : gmap string pyval) : Q :=
  default 0 (as_number (py_or (get x k) (VInt 0))).

(** A list in the order of a descending sort by [k]. *)
Definition sorted_desc (k : string) (l : list (gmap string pyval)) : Prop :=
  StronglySorted (λ x y, sort_key k y <= sort_key k x) l.

(** The kinds a request names that [KIND_TYPE_MAP] knows. *)
Definition known_kinds {RT : Runtime} (kinds : list string) : list string :=
  List.filter (λ k, bool_decide (is_Some (KIND_TYPE_MAP !! k)))
    (str_lower_strip <$> kinds).

Section ListStages.
Context {RT : Runtime}.

(** The filter by the Google review count. *)
Definition reviews_stage (min_reviews : Z) (l : list (gmap string pyval))
  : option (list (gmap string pyval)) :=
  if (0 <? min_reviews)%Z then py_filter (enough_reviews min_reviews) l
  else Some l.

(** The filter by kind. *)
Definition kinds_stage (kinds : option (list string)) (kinds_mode : string)
    (l : list (gmap string pyval)) : option (list (gmap string pyval)) :=
  match kinds with
  | None | Some [] => Some l
  | Some kinds =>
      match known_kinds kinds with
      | [] => Some l
      | normalized =>
          if String.eqb kinds_mode "all"
          then py_filter (λ p, py_all (has_kind p) normalized) l
          else py_filter (λ p, py_any (has_kind p) normalized) l
      end
  end.

End ListStages.

(** [int(p.get("user_ratings_total") or 0) >= int(min_reviews)] as a test
    that holds, fails, or raises (counted as failing). *)
Definition has_reviews {RT : Runtime} (min_reviews : Z) (p : gmap string pyval) : bool :=
  bool_decide (enough_reviews min_reviews p = Some true).

(** A record matches a list of kinds in the mode of the request. *)
Definition matches_kinds {RT : Runtime} (kinds_mode : string) (normalized : list string)
    (p : gmap string pyval) : Prop :=
  if String.eqb kinds_mode "all"
  then forall kind, kind ∈ normalized -> has_kind p kind = Some true
  else exists kind, kind ∈ normalized /\ has_kind p kind = Some true.

(** ** Stored and computed columns *)

(** The columns [enrich_place] writes. *)
Definition computed_fields : list string :=
  [ "dive_score"; "dive_grade"; "gem_label"; "character_0_10"; "diveiness_0_10";
    "quality_0_10"; "underrated_0_10"; "blended_0_10" ].

(** The record [p] holds what the row [place] holds in every other column. *)
Definition same_stored_columns (place p : gmap string pyval) : Prop :=
  forall k, k ∉ computed_fields -> p !! k = place !! k.

(** The record [enrich_place] builds from a row, its dive total and its
    Underrated score. *)
Definition enriched_record {RT : Runtime} (place : gmap string pyval)
    (total u : Q) : gmap string pyval :=
  let c := character_0_10 place in
  let q := quality_0_10 place in
  <["blended_0_10" := VFloat (round1 (0.40 * q + 0.35 * c + 0.25 * u))]>
    (<["underrated_0_10" := VFloat u]>
    (<["quality_0_10" := VFloat q]>
    (<["diveiness_0_10" := VFloat c]>
    (<["character_0_10" := VFloat c]>
    (<["gem_label" := VStr (gem_label_of total)]>
    (<["dive_grade" := VStr (dive_grade_of total)]>
    (<["dive_score" := VFloat (round1 total)]> place))))))).

(** The number a cohort holds in [field] at position [i] (0 if none). *)
Definition value_at (field : string) (places : list (gmap string pyval)) (i : nat) : Q :=
  default 0 (places !! i ≫= λ p, as_number (get p field)).

(** ** Signals of the calculators *)

(** The columns [quality_0_10] grows with. *)
Definition quality_signals : list string :=
  [ "avg_food_drink_quality"; "avg_would_recommend"; "avg_service_quality";
    "avg_value_score"; "avg_memorable"; "avg_openai_sentiment" ].

(** The rich signals [character_0_10] grows with. *)
Definition character_signals : list string :=
  [ "avg_authenticity"; "avg_classic_institution"; "avg_unpretentious";
    "avg_divey_score"; "avg_memorable" ].

(** The three lens fields. *)
Definition lens_fields : list string :=
  [ "quality_0_10"; "character_0_10"; "underrated_0_10" ].

(** ** Custom weights *)

(** The names [SIGNAL_COLUMNS] knows. *)
Definition signal_names : list string :=
  [ "food_drink_quality"; "service_quality"; "value_score"; "divey_score";
    "classic_institution"; "unpretentious"; "authenticity"; "would_recommend";
    "memorable" ].

(** ** Reviews *)

Definition review_id (r : gmap string pyval) : pyval := get r "id".

(** Rows as the reviews table delivers them: the id is a non-empty string,
    no two rows share an id, and the text is a string or null. *)
Definition well_keyed (rows : list (gmap string pyval)) : Prop :=
  Forall (λ r, (exists s, get r "id" = VStr s /\ s <> "")
               /\ (get r "review_text" = VNone
                   \/ exists t, get r "review_text" = VStr t)) rows
  /\ NoDup (review_id <$> rows).

(** The rows whose text is not blank. *)
Definition with_text (str_strip : string -> string)
    (rows : list (gmap string pyval)) : list (gmap string pyval) :=
  List.filter (λ r, bool_decide (has_review_text str_strip r = Some true)) rows.

(** The rows flagged as dive-positive. *)
Definition dive_positive (rows : list (gmap string pyval))
  : list (gmap string pyval) :=
  List.filter (λ r, truthy (get r "openai_is_dive_positive")) rows.

(** What the first loop keeps true: the picked reviews are distinct rows of
    [T], and [seen] holds exactly their ids. *)
Definition picking (T : list (gmap string pyval))
    (acc : list (gmap string pyval) * list pyval) : Prop :=
  fst acc ⊆ T /\ NoDup (fst acc)
  /\ forall x, x ∈ snd acc <-> x ∈ review_id <$> fst acc.

Definition reply_body (r : http_reply) : list (gmap string pyval) :=
  match r with ReplyOk body => body | ReplyError _ => [] end.

Definition is_reply_ok (r : http_reply) : bool :=
  match r with ReplyOk _ => true | ReplyError _ => false end.

(** * Example rows, cohorts and requests *)

(** A place whose every raw signal is 1.0, with 10 Google ratings and 5
    reviews. *)
Definition sparse_place : gmap string pyval :=
  list_to_map
    [ ("user_ratings_total", VInt 10); ("review_count", VInt 5);
      ("avg_food_drink_quality", VFloat 1.0); ("avg_service_quality", VFloat 1.0);
      ("avg_value_score", VFloat 1.0); ("avg_divey_score", VFloat 1.0);
      ("avg_classic_institution", VFloat 1.0); ("avg_unpretentious", VFloat 1.0);
      ("avg_authenticity", VFloat 1.0); ("avg_would_recommend", VFloat 1.0);
      ("avg_memorable", VFloat 1.0); ("vibe_tag", VStr "Beloved_Dive") ].

(** A cohort given by the raw values of one field. *)
Definition cohort_of (field : string) (raws : list Q) : list (gmap string pyval) :=
  (λ q, {[ field := VFloat q ]}) <$> raws.

(** Seventy-seven places with the raw values 0.0, 0.1, ..., 7.6. *)
Definition cohort_77 : list (gmap string pyval) :=
  cohort_of "quality_0_10" ((λ k, inject_Z (Z.of_nat k) / 10) <$> seq 0 77).

Definition place_a : gmap string pyval :=
  list_to_map
    [ ("place_id", VStr "a"); ("name", VStr "Alibi Room");
      ("rating", VFloat 4.6); ("user_ratings_total", VInt 320);
      ("price_level", VInt 1); ("review_count", VInt 40);
      ("types", VList [VStr "bar"; VStr "point_of_interest"]);
      ("avg_authenticity", VFloat 0.9); ("avg_classic_institution", VFloat 0.8);
      ("avg_unpretentious", VFloat 0.7);
      ("avg_food_drink_quality", VFloat 0.81); ("avg_would_recommend", VFloat 0.77);
      ("ml_metadata", VDict [("residual_deep", VFloat 0.2)]) ].

Definition place_b : gmap string pyval :=
  list_to_map
    [ ("place_id", VStr "b"); ("name", VStr "Burger Barn");
      ("rating", VFloat 3.9); ("user_ratings_total", VInt 1500);
      ("price_level", VInt 3); ("review_count", VInt 30);
      ("types", VList [VStr "restaurant"]);
      ("avg_authenticity", VFloat 0.3); ("avg_classic_institution", VFloat 0.2);
      ("avg_unpretentious", VFloat 0.1);
      ("avg_openai_sentiment", VFloat 0.2); ("ml_metadata", VNone) ].

(** A place with few ratings and reviews and very high signals. *)
Definition place_c : gmap string pyval :=
  list_to_map
    [ ("place_id", VStr "c"); ("name", VStr "Corner Tap");
      ("rating", VFloat 4.2); ("user_ratings_total", VInt 45);
      ("price_level", VInt 2); ("review_count", VInt 12);
      ("types", VList [VStr "bar"; VStr "restaurant"]);
      ("vibe_tag", VStr "Beloved_Dive");
      ("avg_authenticity", VFloat 0.95); ("avg_classic_institution", VFloat 0.9);
      ("avg_unpretentious", VFloat 0.9); ("avg_divey_score", VFloat 0.9);
      ("avg_memorable", VFloat 0.9);
      ("avg_food_drink_quality", VFloat 0.95); ("avg_service_quality", VFloat 0.9);
      ("avg_value_score", VFloat 0.9); ("avg_would_recommend", VFloat 0.99);
      ("avg_openai_sentiment", VFloat 0.5) ].

(** A storage holding the three rows. *)
Definition example_db : client := λ min_rating,
  Some (List.filter
          (λ p, match as_number (get p "rating") with
                | Some r => Qleb min_rating r
                | None => false
                end)
          [place_a; place_b; place_c]).

(** Two rows that differ in their rating only: 4.496 and 4.5. *)
Definition place_below_85 : gmap string pyval :=
  list_to_map
    [ ("rating", VFloat 4.496); ("user_ratings_total", VInt 100);
      ("price_level", VInt 2) ].

Definition place_at_85 : gmap string pyval :=
  list_to_map
    [ ("rating", VFloat 4.5); ("user_ratings_total", VInt 100);
      ("price_level", VInt 2) ].

Definition normalized_scores : gmap string pyval :=
  list_to_map
    [ ("quality_0_10", VFloat 5.8); ("character_0_10", VFloat 5.8);
      ("underrated_0_10", VFloat 9.5) ].

(** A row that carries both residuals, of opposite signs. *)
Definition place_both_residuals : gmap string pyval :=
  list_to_map
    [ ("rating", VFloat 4.5); ("user_ratings_total", VInt 100);
      ("price_level", VInt 2);
      ("ml_metadata", VDict [("residual", VFloat (-0.5));
                             ("residual_deep", VFloat 0.5)]) ].

Definition place_deep_residual : gmap string pyval :=
  insert "ml_metadata" (VDict [("residual_deep", VFloat 0.5)]) place_both_residuals.

Definition place_legacy_residual : gmap string pyval :=
  insert "ml_metadata" (VDict [("residual", VFloat (-0.5))]) place_both_residuals.

Definition place_no_residual : gmap string pyval :=
  list_to_map [ ("rating", VFloat 4.4); ("ml_metadata", VDict []) ].

Definition place_residual_zero : gmap string pyval :=
  list_to_map
    [ ("rating", VFloat 4.4);
      ("ml_metadata", VDict [("residual_deep", VInt 0); ("residual", VFloat 0.8)]) ].

Definition place_residual_035 : gmap string pyval :=
  list_to_map
    [ ("rating", VFloat 4.4); ("ml_metadata", VDict [("residual", VFloat 0.35)]) ].

Definition place_food_only : gmap string pyval :=
  list_to_map [ ("rating", VFloat 4.1); ("avg_food_drink_quality", VFloat 0.8) ].

Section ExampleRequests.
#[local] Existing Instance ExampleRuntime.example_runtime.

Definition example_enriched : list (gmap string pyval) :=
  default [] (mapM (λ place, enrich_place place 0.20) [place_a; place_b; place_c]).

Definition example_request : list event * http_result :=
  get_locations (Some example_db) 3.5 0 None "any" "blended_0_10" 120.

Definition example_custom_request : list event * http_result :=
  get_locations_custom (Some example_db) ExampleRuntime.payload_food 3.5 0 120.

End ExampleRequests.

(** ** Further example cohorts, requests and reviews *)

(** Three places, the first two tied. *)
Definition cohort_tied : list (gmap string pyval) :=
  cohort_of "quality_0_10" [5.0; 5.0; 9.0].

(** [str.strip] on ASCII text. *)
Definition example_strip (s : string) : string :=
  ExampleRuntime.rstrip (ExampleRuntime.lstrip s).

(** A storage that answers the vibe listing from the three example rows. *)
Definition example_vibes_db : vibes_client := λ vibe_tag limit,
  Some (take limit
          match vibe_tag with
          | None => [place_a; place_b; place_c]
          | Some t =>
              List.filter (λ p, py_eq_str (get p "vibe_tag") t)
                [place_a; place_b; place_c]
          end).

Definition review_1 : gmap string pyval :=
  list_to_map
    [ ("id", VStr "r1"); ("rating", VInt 5); ("review_text", VStr "Great dive");
      ("openai_sentiment", VFloat 0.9); ("openai_is_dive_positive", VBool true) ].

Definition review_2 : gmap string pyval :=
  list_to_map
    [ ("id", VStr "r2"); ("rating", VInt 1); ("review_text", VStr "Sticky floors");
      ("openai_sentiment", VFloat (-0.7)); ("openai_is_dive_positive", VBool false) ].

(** A review whose text is blank. *)
Definition review_3 : gmap string pyval :=
  list_to_map
    [ ("id", VStr "r3"); ("rating", VInt 4); ("review_text", VStr "   ");
      ("openai_sentiment", VFloat 0.95) ].

Definition review_4 : gmap string pyval :=
  list_to_map
    [ ("id", VStr "r4"); ("rating", VInt 4); ("review_text", VStr "Cheap beer");
      ("openai_sentiment", VFloat 0.5); ("openai_is_dive_positive", VBool true) ].

Definition review_5 : gmap string pyval :=
  list_to_map
    [ ("id", VStr "r5"); ("rating", VInt 3); ("review_text", VStr " ok ");
      ("openai_sentiment", VFloat (-0.1)) ].

Definition review_rows : list (gmap string pyval) :=
  [review_1; review_2; review_3; review_4; review_5].

(** A storage holding the five reviews of the place [a]. *)
Definition example_reviews_db : reviews_client := λ place_id,
  if String.eqb place_id "a" then Some (Some review_rows) else Some None.

(** A payload with a known and an unknown signal. *)
Definition example_items : list (string * pyval) :=
  [ ("food_drink_quality", VFloat 0.8); ("cheap_beer", VInt 2);
    ("memorable", VInt 1) ].

Section FurtherRequests.
#[local] Existing Instance ExampleRuntime.example_runtime.

Definition example_request_reviews : list event * http_result :=
  get_locations (Some example_db) 3.5 100 None "any" "blended_0_10" 120.

Definition example_request_kinds (kinds_mode : string) : list event * http_result :=
  get_locations (Some example_db) 3.5 0 (Some [" Bar "; "restaurant"]) kinds_mode
    "quality_0_10" 120.

Definition example_vibes : list vibes_event * http_reply :=
  get_vibes (Some example_vibes_db) None 100.

Definition example_key_reviews : list reviews_event * http_reply :=
  get_key_reviews example_strip (Some example_reviews_db) "a" 3.

End FurtherRequests.

(** ** Examples for the binary64 evaluation *)

(** Normalised scores whose exact blend, 7.15, lies halfway between two
    tenths. *)
Definition tied_scores : gmap string pyval :=
  list_to_map
    [ ("quality_0_10", VFloat 7.6); ("character_0_10", VFloat 7.6);
      ("underrated_0_10", VFloat 5.8) ].

(** A row whose only signal is 0.865: ten times the weighted mean is 8.65
    whatever the weight. *)
Definition place_865 : gmap string pyval :=
  list_to_map [ ("rating", VFloat 4.1); ("avg_food_drink_quality", VFloat 0.865) ].

(** A storage that holds the sparse place and one more row. *)
Definition sparse_db : client := λ _, Some [sparse_place; place_b].

Section Binary64Requests.
#[local] Existing Instance ExampleRuntime.example_runtime.

Definition sparse_request : list event * http_result :=
  get_locations (Some sparse_db) 0 0 None "any" "quality_0_10" 120.

End Binary64Requests.

(** * Properties *)

(** ** Comparisons, clamping and rounding *)

Lemma Qltb_lt (x y : Q) : Qltb x y = true <-> x < y.
Proof.
  unfold Qltb. destruct (Qcompare_spec x y) as [H|H|H]; split; intros; try done.
  - rewrite H in *. by apply Qlt_irrefl in H0.
  - exfalso. apply (Qlt_irrefl x). by apply Qlt_trans with y.
Qed.

Lemma Qltb_ge (x y : Q) : Qltb x y = false <-> y <= x.
Proof.
  rewrite <- not_true_iff_false, Qltb_lt. split.
  - apply Qnot_lt_le.
  - apply Qle_not_lt.
Qed.

Lemma Qleb_le (x y : Q) : Qleb x y = true <-> x <= y.
Proof.
  unfold Qleb. destruct (Qcompare_spec x y) as [H|H|H]; split; intros; try done.
  - rewrite H. apply Qle_refl.
  - by apply Qlt_le_weak.
  - exfalso. by apply (Qlt_not_le _ _ H).
Qed.

Lemma Qleb_gt (x y : Q) : Qleb x y = false <-> y < x.
Proof.
  rewrite <- not_true_iff_false, Qleb_le. split.
  - apply Qnot_le_lt.
  - apply Qlt_not_le.
Qed.

(** Case analysis on a comparison, leaving the order fact in the context. *)
Ltac case_Q :=
  match goal with
  | |- context [Qltb ?a ?b] =>
      let H := fresh "Hc" in
      destruct (Qltb a b) eqn:H;
      [apply Qltb_lt in H | apply Qltb_ge in H]
  | |- context [Qleb ?a ?b] =>
      let H := fresh "Hc" in
      destruct (Qleb a b) eqn:H;
      [apply Qleb_le in H | apply Qleb_gt in H]
  end.

(** A conjunction of closed equations, each settled by evaluation. *)
Ltac by_vm :=
  repeat match goal with |- _ /\ _ => split end; vm_compute; reflexivity.

(** [lra] does not see through a division: turn the divisions by a
    constant into multiplications. *)
Ltac qconst_inv :=
  unfold Qdiv in *;
  repeat match goal with
  | |- context [Qinv (Qmake ?n ?d)] =>
      let r := eval compute in (Qinv (Qmake n d)) in
      change (Qinv (Qmake n d)) with r
  | H : context [Qinv (Qmake ?n ?d)] |- _ =>
      let r := eval compute in (Qinv (Qmake n d)) in
      change (Qinv (Qmake n d)) with r in H
  end.

Ltac qlra := qconst_inv; lra.

Lemma py_min_le_l (a b : Q) : py_min a b <= a.
Proof. unfold py_min. case_Q; lra. Qed.

Lemma py_min_le_r (a b : Q) : py_min a b <= b.
Proof. unfold py_min. case_Q; lra. Qed.

Lemma py_min_glb (a b c : Q) : c <= a -> c <= b -> c <= py_min a b.
Proof. unfold py_min. case_Q; lra. Qed.

Lemma py_max_ge_l (a b : Q) : a <= py_max a b.
Proof. unfold py_max. case_Q; lra. Qed.

Lemma py_max_ge_r (a b : Q) : b <= py_max a b.
Proof. unfold py_max. case_Q; lra. Qed.

Lemma py_max_lub (a b c : Q) : a <= c -> b <= c -> py_max a b <= c.
Proof. unfold py_max. case_Q; lra. Qed.

Lemma _clamp_bounds (x lo hi : Q) : lo <= hi -> lo <= _clamp x lo hi <= hi.
Proof.
  intros Hlh. unfold _clamp. split.
  - apply py_max_ge_l.
  - apply py_max_lub; [done | apply py_min_le_l].
Qed.

Lemma _clamp_le (x lo hi c : Q) : lo <= c -> x <= c -> _clamp x lo hi <= c.
Proof.
  intros Hlo Hx. unfold _clamp. apply py_max_lub; [done|].
  eapply Qle_trans; [apply py_min_le_r | done].
Qed.

Lemma _clamp_id (x lo hi : Q) : lo <= x -> x <= hi -> _clamp x lo hi == x.
Proof.
  intros H1 H2. unfold _clamp, py_min. case_Q; unfold py_max; case_Q; lra.
Qed.

Lemma round_half_even_near (q : Q) :
  inject_Z (round_half_even q) - (1 # 2) <= q
  /\ q <= inject_Z (round_half_even q) + (1 # 2).
Proof.
  unfold round_half_even.
  pose proof (Qfloor_le q) as Hlo. pose proof (Qlt_floor q) as Hhi.
  rewrite inject_Z_plus in Hhi. change (inject_Z 1) with 1 in Hhi.
  destruct (Qcompare_spec (q - inject_Z (Qfloor q)) (1 # 2)) as [H|H|H].
  - destruct (Z.even (Qfloor q)); rewrite ?inject_Z_plus;
      change (inject_Z 1) with 1; lra.
  - lra.
  - rewrite inject_Z_plus. change (inject_Z 1) with 1. lra.
Qed.

Lemma round_half_even_Z (z : Z) : round_half_even (inject_Z z) = z.
Proof.
  unfold round_half_even. rewrite Qfloor_Z.
  destruct (Qcompare_spec (inject_Z z - inject_Z z) (1 # 2)) as [H|H|H];
    [lra | done | lra].
Qed.

Lemma round_half_even_mono (x y : Q) :
  x <= y -> (round_half_even x <= round_half_even y)%Z.
Proof.
  intros Hxy.
  pose proof (Qfloor_resp_le _ _ Hxy) as Hf.
  destruct (Z.eq_dec (Qfloor x) (Qfloor y)) as [He|Hne].
  - unfold round_half_even. rewrite <- He.
    destruct (Qcompare_spec (x - inject_Z (Qfloor x)) (1 # 2)) as [H|H|H];
    destruct (Qcompare_spec (y - inject_Z (Qfloor x)) (1 # 2)) as [H'|H'|H'];
    try lra; destruct (Z.even (Qfloor x)); lia.
  - assert (round_half_even x <= Qfloor x + 1)%Z.
    { unfold round_half_even.
      destruct (Qcompare (x - inject_Z (Qfloor x)) (1 # 2));
        destruct (Z.even (Qfloor x)); lia. }
    assert (Qfloor y <= round_half_even y)%Z.
    { unfold round_half_even.
      destruct (Qcompare (y - inject_Z (Qfloor y)) (1 # 2));
        destruct (Z.even (Qfloor y)); lia. }
    lia.
Qed.

Lemma round_half_even_proper (x y : Q) :
  x == y -> round_half_even x = round_half_even y.
Proof.
  intros H. apply Z.le_antisymm; apply round_half_even_mono; rewrite H; apply Qle_refl.
Qed.

Lemma round1_eq (q : Q) : round1 q == inject_Z (round_half_even (q * 10)) / 10.
Proof. unfold round1. apply Qred_correct. Qed.

Lemma round1_proper (x y : Q) : x == y -> round1 x = round1 y.
Proof.
  intros H. unfold round1. apply Qred_complete.
  rewrite (round_half_even_proper (x * 10) (y * 10)); [reflexivity|].
  by rewrite H.
Qed.

Lemma round1_mono (x y : Q) : x <= y -> round1 x <= round1 y.
Proof.
  intros H. rewrite !round1_eq.
  assert (round_half_even (x * 10) <= round_half_even (y * 10))%Z as Hz.
  { apply round_half_even_mono. lra. }
  rewrite Zle_Qle in Hz. qlra.
Qed.

(** A number with one decimal is left alone. *)
Lemma round1_tenths (k : Z) : round1 (inject_Z k / 10) == inject_Z k / 10.
Proof.
  rewrite round1_eq.
  rewrite (round_half_even_proper (inject_Z k / 10 * 10) (inject_Z k)).
  - by rewrite round_half_even_Z.
  - field.
Qed.

Lemma round1_near (q : Q) : round1 q - (1 # 20) <= q /\ q <= round1 q + (1 # 20).
Proof.
  rewrite round1_eq. pose proof (round_half_even_near (q * 10)). qlra.
Qed.

(** Rounding cannot leave an interval whose ends have one decimal. *)
Lemma round1_le (x : Q) (k : Z) : x <= inject_Z k / 10 -> round1 x <= inject_Z k / 10.
Proof. intros H. rewrite <- (round1_tenths k). by apply round1_mono. Qed.

Lemma round1_ge (x : Q) (k : Z) : inject_Z k / 10 <= x -> inject_Z k / 10 <= round1 x.
Proof. intros H. rewrite <- (round1_tenths k). by apply round1_mono. Qed.

Lemma round1_within (x lo hi : Q) (klo khi : Z) :
  lo == inject_Z klo / 10 -> hi == inject_Z khi / 10 ->
  lo <= x <= hi -> lo <= round1 x <= hi.
Proof.
  intros El Eh [H1 H2]. split.
  - rewrite El. apply round1_ge. by rewrite <- El.
  - rewrite Eh. apply round1_le. by rewrite <- Eh.
Qed.

Lemma round1_clamp_0_10 (x : Q) : 0 <= round1 (_clamp x 0.0 10.0) <= 10.
Proof.
  apply (round1_within _ 0 10 0 100); [reflexivity | reflexivity |].
  destruct (_clamp_bounds x 0.0 10.0); lra.
Qed.

(** ** The sparse-data guardrail *)

Section Guardrail.
Context {RT : Runtime}.

Lemma guarded_le_98 (base : Q) (gr rc : Z) :
  (gr < 100 \/ rc < 25)%Z -> guarded base gr rc <= 9.8.
Proof.
  intros H. unfold guarded.
  assert (((gr <? 100) || (rc <? 25))%Z = true) as ->.
  { apply orb_true_iff. rewrite !Z.ltb_lt. done. }
  destruct ((gr <? 50) || (rc <? 15))%Z.
  - eapply Qle_trans; [apply py_min_le_r | lra].
  - apply py_min_le_r.
Qed.

Lemma guarded_le_94 (base : Q) (gr rc : Z) :
  (gr < 50 \/ rc < 15)%Z -> guarded base gr rc <= 9.4.
Proof.
  intros H. unfold guarded.
  assert (((gr <? 50) || (rc <? 15))%Z = true) as ->.
  { apply orb_true_iff. rewrite !Z.ltb_lt. done. }
  apply py_min_le_r.
Qed.

Lemma guarded_le (base : Q) (gr rc : Z) : guarded base gr rc <= base.
Proof.
  unfold guarded.
  destruct ((gr <? 100) || (rc <? 25))%Z, ((gr <? 50) || (rc <? 15))%Z;
    repeat (eapply Qle_trans; [apply py_min_le_l |]); apply Qle_refl.
Qed.

Lemma round1_clamp_le (x : Q) (k : Z) :
  0 <= inject_Z k / 10 -> x <= inject_Z k / 10 ->
  round1 (_clamp x 0.0 10.0) <= inject_Z k / 10.
Proof.
  intros H0 Hx. apply round1_le. apply _clamp_le; [|done].
  eapply Qle_trans; [|exact H0]. lra.
Qed.

(** Both calculators end in the same guarded, clamped, rounded value. *)
Lemma quality_0_10_guarded (place : gmap string pyval) :
  exists base,
    quality_0_10 place
    = round1 (_clamp (guarded base
                        (_safe_int (get place "user_ratings_total") 0)
                        (_safe_int (get place "review_count") 0)) 0.0 10.0).
Proof. unfold quality_0_10. eexists. reflexivity. Qed.

Lemma character_0_10_guarded (place : gmap string pyval) :
  exists base,
    character_0_10 place
    = round1 (_clamp (guarded base
                        (_safe_int (get place "user_ratings_total") 0)
                        (_safe_int (get place "review_count") 0)) 0.0 10.0).
Proof. unfold character_0_10. eexists. reflexivity. Qed.

Lemma quality_0_10_range (place : gmap string pyval) :
  0 <= quality_0_10 place <= 10.
Proof.
  destruct (quality_0_10_guarded place) as [base ->]. apply round1_clamp_0_10.
Qed.

Lemma character_0_10_range (place : gmap string pyval) :
  0 <= character_0_10 place <= 10.
Proof.
  destruct (character_0_10_guarded place) as [base ->]. apply round1_clamp_0_10.
Qed.

(** C4. The value returned by [quality_0_10] and by [character_0_10] is at
    most 9.8 when [user_ratings_total < 100] or [review_count < 25], and at
    most 9.4 when [user_ratings_total < 50] or [review_count < 15], whatever
    the raw signals are; so it is at most 9.4 for a place with
    [user_ratings_total = 10] and [review_count = 5].  The bound is on what
    the calculators return: a ranked list reports the percentile scores
    that the normaliser writes over these values, which it does not
    bound. *)
Theorem C4_sparse_data_guardrail (place : gmap string pyval) (gr rc : Z) :
  gr = _safe_int (get place "user_ratings_total") 0 ->
  rc = _safe_int (get place "review_count") 0 ->
  ((gr < 100 \/ rc < 25)%Z ->
     quality_0_10 place <= 9.8 /\ character_0_10 place <= 9.8)
  /\ ((gr < 50 \/ rc < 15)%Z ->
     quality_0_10 place <= 9.4 /\ character_0_10 place <= 9.4)
  /\ (get place "user_ratings_total" = VInt 10 ->
      get place "review_count" = VInt 5 ->
      quality_0_10 place <= 9.4 /\ character_0_10 place <= 9.4).
Proof.
  intros Hgr Hrc.
  destruct (quality_0_10_guarded place) as [bq Eq].
  destruct (character_0_10_guarded place) as [bc Ec].
  rewrite Eq, Ec, <- Hgr, <- Hrc.
  assert (9.8 == inject_Z 98 / 10) as E98 by reflexivity.
  assert (9.4 == inject_Z 94 / 10) as E94 by reflexivity.
  assert (forall b, (gr < 50 \/ rc < 15)%Z ->
            round1 (_clamp (guarded b gr rc) 0.0 10.0) <= 9.4) as H94.
  { intros b H. rewrite E94. apply round1_clamp_le; rewrite <- E94; [lra|].
    by apply guarded_le_94. }
  split; [|split].
  - intros H. split; rewrite E98; apply round1_clamp_le; rewrite <- E98;
      try lra; by apply guarded_le_98.
  - intros H. split; by apply H94.
  - intros Hu Hr.
    assert (gr = 10%Z) as Hg10 by (by rewrite Hgr, Hu).
    split; apply H94; lia.
Qed.

End Guardrail.

Section GuardrailExample.
#[local] Existing Instance ExampleRuntime.example_runtime.

Lemma C4_sparse_data_guardrail_witness :
  quality_0_10 sparse_place <= 9.4 /\ character_0_10 sparse_place <= 9.4.
Proof.
  apply (C4_sparse_data_guardrail sparse_place 10 5); reflexivity.
Defined.

(** What a ranked list reports is not bounded by the guardrail.  The place
    with 10 ratings, 5 reviews and every raw signal at 1.0 gets 9.4 from
    both calculators; in the response for the cohort of this place and one
    more row the normaliser has overwritten both fields, and the place is
    reported with 9.5 for quality and for character. *)
Theorem C4_reported_counterexample :
  get sparse_place "user_ratings_total" = VInt 10
  /\ get sparse_place "review_count" = VInt 5
  /\ quality_0_10 sparse_place = 47 # 5
  /\ character_0_10 sparse_place = 47 # 5
  /\ (λ p, (get p "user_ratings_total", get p "review_count",
            get p "quality_0_10", get p "character_0_10"))
       <$> response_body (snd sparse_request)
     = [ (VInt 10, VInt 5, VFloat (19 # 2), VFloat (19 # 2));
         (VInt 1500, VInt 30, VFloat 2, VFloat 2) ].
Proof. by_vm. Qed.

End GuardrailExample.

(** ** The stable sort *)

Section StableSort.
Context {A : Type} (le : A -> A -> bool).
Hypothesis le_total : forall x y, le x y = false -> le y x = true.
Hypothesis le_trans : forall x y z, le x y = true -> le y z = true -> le x z = true.

Lemma insert_sorted_perm (x : A) (l : list A) : insert_sorted le x l ≡ₚ x :: l.
Proof.
  induction l as [|y l IH]; simpl; [done|].
  destruct (le x y); [done|].
  rewrite IH. apply Permutation_swap.
Qed.

Lemma stable_sort_perm (l : list A) : stable_sort le l ≡ₚ l.
Proof.
  induction l as [|x l IH]; simpl; [done|].
  rewrite insert_sorted_perm. by rewrite IH.
Qed.

Lemma length_stable_sort (l : list A) : length (stable_sort le l) = length l.
Proof. apply Permutation_length, stable_sort_perm. Qed.

Lemma insert_sorted_sorted (x : A) (l : list A) :
  StronglySorted (λ a b, le a b = true) l ->
  StronglySorted (λ a b, le a b = true) (insert_sorted le x l).
Proof.
  induction 1 as [|y l Hs IH Hy]; simpl.
  - repeat constructor.
  - destruct (le x y) eqn:E.
    + constructor; [by constructor|]. constructor; [done|].
      eapply Forall_impl; [exact Hy|]. intros z Hz. by eapply le_trans.
    + constructor; [done|].
      rewrite insert_sorted_perm. constructor; [by apply le_total | done].
Qed.

Lemma stable_sort_sorted (l : list A) :
  StronglySorted (λ a b, le a b = true) (stable_sort le l).
Proof.
  induction l as [|x l IH]; simpl; [constructor|].
  by apply insert_sorted_sorted.
Qed.

End StableSort.

Lemma StronglySorted_lookup_lt {A} (R : relation A) (l : list A) (i j : nat) (a b : A) :
  StronglySorted R l -> l !! i = Some a -> l !! j = Some b -> (i < j)%nat -> R a b.
Proof.
  intros Hs. revert i j. induction Hs as [|x l Hs IH Hx]; intros i j Hi Hj Hlt.
  - done.
  - destruct j as [|j]; [lia|]. destruct i as [|i]; simpl in *.
    + simplify_eq. rewrite Forall_forall in Hx. apply Hx.
      by eapply list_elem_of_lookup_2.
    + apply (IH i j); [done | done | lia].
Qed.

Lemma Qleb_total (x y : Q) : Qleb x y = false -> Qleb y x = true.
Proof. rewrite Qleb_gt, Qleb_le. apply Qlt_le_weak. Qed.

Lemma Qleb_trans (x y z : Q) : Qleb x y = true -> Qleb y z = true -> Qleb x z = true.
Proof. rewrite !Qleb_le. apply Qle_trans. Qed.

(** ** The percentile normaliser, place by place *)

Section Normalize.
Context (field : string) (target_min target_max : Q).

Lemma numeric_values_unfold (places : list (gmap string pyval)) :
  numeric_values places field = omap (tag_numeric field) (imap (λ i p, (i, p)) places).
Proof. reflexivity. Qed.

Lemma numeric_values_spec (places : list (gmap string pyval)) (i : nat) (v : Q) :
  (i, v) ∈ numeric_values places field
  <-> exists p, places !! i = Some p /\ as_number (get p field) = Some v.
Proof.
  rewrite numeric_values_unfold, list_elem_of_omap. split.
  - intros [[j p] [Hin Htag]].
    apply elem_of_lookup_imap in Hin as (k & q & Heq & Hk).
    injection Heq as -> ->.
    unfold tag_numeric in Htag. simpl in Htag.
    destruct (as_number (get q field)) as [w|] eqn:E; simplify_eq/=. eauto.
  - intros (p & Hp & Hv). exists (i, p). split.
    + by apply (elem_of_lookup_imap_2 (λ i p, (i, p))).
    + unfold tag_numeric. simpl. by rewrite Hv.
Qed.

Lemma numeric_indices_sublist (k : nat) (places : list (gmap string pyval)) :
  (omap (tag_numeric field) (imap (λ i p, ((k + i)%nat, p)) places)).*1
  `sublist_of` seq k (length places).
Proof.
  revert k. induction places as [|p places IH]; intros k; simpl; [done|].
  assert (imap ((λ i q, ((k + i)%nat, q)) ∘ S) places
          = imap (λ i q, ((S k + i)%nat, q)) places) as ->.
  { apply imap_ext. intros i q _. simpl. f_equal. lia. }
  unfold tag_numeric at 1. simpl.
  destruct (as_number (get p field)); simpl.
  - rewrite Nat.add_0_r. apply sublist_skip, (IH (S k)).
  - apply sublist_cons, (IH (S k)).
Qed.

Lemma numeric_values_NoDup (places : list (gmap string pyval)) :
  NoDup (numeric_values places field).*1.
Proof.
  apply (sublist_NoDup _ (seq 0 (length places)));
    [apply NoDup_seq | apply (numeric_indices_sublist 0)].
Qed.

Lemma length_write_ranks n places ranked :
  length (write_ranks field target_min target_max n places ranked) = length places.
Proof.
  revert places. induction ranked as [|ri ranked IH]; intros places; [done|].
  unfold write_ranks in *. simpl. by rewrite IH, length_alter.
Qed.

Lemma write_ranks_other n places ranked (i : nat) :
  i ∉ (ranked.*2).*1 -> write_ranks field target_min target_max n places ranked !! i = places !! i.
Proof.
  revert places. induction ranked as [|ri ranked IH]; intros places Hi; [done|].
  unfold write_ranks in *. simpl in *.
  apply not_elem_of_cons in Hi as [Hne Hi].
  rewrite IH by done. by apply list_lookup_alter_ne.
Qed.

Lemma write_ranks_at n places ranked (rank idx : nat) (v : Q) :
  NoDup (ranked.*2).*1 -> (rank, (idx, v)) ∈ ranked ->
  write_ranks field target_min target_max n places ranked !! idx
  = insert field (VFloat (percentile_score target_min target_max n rank))
      <$> places !! idx.
Proof.
  revert places. induction ranked as [|ri ranked IH]; intros places Hnd Hin.
  - by apply elem_of_nil in Hin.
  - simpl in Hnd. apply NoDup_cons in Hnd as [Hfresh Hnd].
    apply elem_of_cons in Hin as [<-|Hin]; unfold write_ranks in *; simpl in *.
    + fold (write_ranks field target_min target_max n
              (alter (insert field
                 (VFloat (percentile_score target_min target_max n rank))) idx places)
              ranked).
      rewrite write_ranks_other by done. apply list_lookup_alter_eq.
    + rewrite IH by done. rewrite list_lookup_alter_ne; [done|].
      intros E. apply Hfresh. rewrite E.
      apply list_elem_of_fmap. exists (idx, v). split; [done|].
      apply list_elem_of_fmap. by exists (rank, (idx, v)).
Qed.

Lemma normalize_to_percentile_unfold (places : list (gmap string pyval)) :
  normalize_to_percentile places field target_min target_max
  = if (length (numeric_values places field) <? 2)%nat then places
    else
      let sorted := stable_sort (λ x y, Qleb (snd x) (snd y))
                      (numeric_values places field) in
      write_ranks field target_min target_max (length sorted) places (imap (λ rank iv, (rank, iv)) sorted).
Proof. reflexivity. Qed.

Lemma normalize_to_percentile_noop (places : list (gmap string pyval)) :
  (length (numeric_values places field) < 2)%nat ->
  normalize_to_percentile places field target_min target_max = places.
Proof.
  intros H. rewrite normalize_to_percentile_unfold.
  by apply Nat.ltb_lt in H as ->.
Qed.

Lemma length_normalize_to_percentile (places : list (gmap string pyval)) :
  length (normalize_to_percentile places field target_min target_max)
  = length places.
Proof.
  rewrite normalize_to_percentile_unfold.
  destruct (_ <? _)%nat; [done|]. apply length_write_ranks.
Qed.

Lemma imap_pair_snd {B} (l : list B) : (imap (λ i x, (i, x)) l).*2 = l.
Proof.
  apply list_eq. intros i.
  rewrite list_lookup_fmap, list_lookup_imap. by destruct (l !! i).
Qed.

Lemma ranking_length places :
  length (ranking field places) = length (numeric_values places field).
Proof. apply length_stable_sort. Qed.

Lemma ranking_elem places (i : nat) (v : Q) :
  (i, v) ∈ ranking field places
  <-> exists p, places !! i = Some p /\ as_number (get p field) = Some v.
Proof.
  unfold ranking. rewrite stable_sort_perm. apply numeric_values_spec.
Qed.

Lemma ranking_NoDup places : NoDup (ranking field places).*1.
Proof.
  unfold ranking. rewrite stable_sort_perm. apply numeric_values_NoDup.
Qed.

Lemma ranking_sorted places (r1 r2 i1 i2 : nat) (v1 v2 : Q) :
  ranking field places !! r1 = Some (i1, v1) ->
  ranking field places !! r2 = Some (i2, v2) ->
  (r1 < r2)%nat -> v1 <= v2.
Proof.
  intros H1 H2 Hlt. apply Qleb_le.
  apply (StronglySorted_lookup_lt (λ a b, Qleb (snd a) (snd b) = true)
           (ranking field places) r1 r2 (i1, v1) (i2, v2)); try done.
  apply stable_sort_sorted.
  - intros x y. apply Qleb_total.
  - intros x y z. apply Qleb_trans.
Qed.

(** What the normaliser does to the place at index [i]. *)
Lemma normalize_to_percentile_lookup (places : list (gmap string pyval))
    (i : nat) (p : gmap string pyval) :
  (2 <= length (numeric_values places field))%nat ->
  places !! i = Some p ->
  match as_number (get p field) with
  | None =>
      normalize_to_percentile places field target_min target_max !! i = Some p
  | Some v =>
      exists rank,
        ranking field places !! rank = Some (i, v)
        /\ normalize_to_percentile places field target_min target_max !! i
           = Some (<[field := VFloat (percentile_score target_min target_max
                                        (length (ranking field places)) rank)]> p)
  end.
Proof.
  intros Hn Hp. rewrite normalize_to_percentile_unfold.
  assert ((length (numeric_values places field) <? 2)%nat = false) as ->
    by (apply Nat.ltb_ge; lia).
  cbv zeta. fold (ranking field places).
  destruct (as_number (get p field)) as [v|] eqn:Ev.
  - assert ((i, v) ∈ ranking field places) as Hin by (apply ranking_elem; eauto).
    apply list_elem_of_lookup in Hin as [rank Hrank]. exists rank. split; [done|].
    rewrite (write_ranks_at _ _ _ rank i v).
    + by rewrite Hp.
    + rewrite imap_pair_snd. apply ranking_NoDup.
    + by apply (elem_of_lookup_imap_2 (λ rank iv, (rank, iv))).
  - rewrite write_ranks_other; [done|].
    rewrite imap_pair_snd. intros Hin.
    apply list_elem_of_fmap in Hin as [[j v] [Hj Hin]]. simpl in Hj. subst j.
    apply ranking_elem in Hin as (q & Hq & Hv). congruence.
Qed.

End Normalize.

(** ** The percentile score as a function of the rank *)

Section PercentileScore.
Context (target_min target_max : Q).

Lemma percentile_of_rank_le (n r1 r2 : nat) :
  (2 <= n)%nat -> (r1 <= r2)%nat ->
  inject_Z (Z.of_nat r1) / inject_Z (Z.of_nat n - 1)
  <= inject_Z (Z.of_nat r2) / inject_Z (Z.of_nat n - 1).
Proof.
  intros Hn Hr. unfold Qdiv. apply Qmult_le_compat_r.
  - rewrite <- Zle_Qle. lia.
  - apply Qinv_le_0_compat. change 0 with (inject_Z 0). rewrite <- Zle_Qle. lia.
Qed.

Lemma percentile_score_mono (n r1 r2 : nat) :
  target_min <= target_max -> (2 <= n)%nat -> (r1 <= r2)%nat ->
  percentile_score target_min target_max n r1
  <= percentile_score target_min target_max n r2.
Proof.
  intros Ht Hn Hr. unfold percentile_score. apply round1_mono.
  pose proof (percentile_of_rank_le n r1 r2 Hn Hr) as Hp.
  apply Qplus_le_r. apply Qmult_le_compat_r; [done | lra].
Qed.

Lemma percentile_score_first (n : nat) :
  percentile_score target_min target_max n 0 = round1 target_min.
Proof.
  unfold percentile_score. apply round1_proper.
  change (inject_Z (Z.of_nat 0)) with 0. unfold Qdiv. ring.
Qed.

Lemma percentile_score_last (n : nat) :
  (2 <= n)%nat ->
  percentile_score target_min target_max n (n - 1) = round1 target_max.
Proof.
  intros Hn. unfold percentile_score. apply round1_proper.
  assert (Z.of_nat (n - 1) = Z.of_nat n - 1)%Z as -> by lia.
  assert (~ inject_Z (Z.of_nat n - 1) == 0) as Hd.
  { change 0 with (inject_Z 0). rewrite inject_Z_injective. lia. }
  field. done.
Qed.

Lemma percentile_score_range (n r : nat) :
  target_min <= target_max -> (2 <= n)%nat -> (r <= n - 1)%nat ->
  round1 target_min <= percentile_score target_min target_max n r
  /\ percentile_score target_min target_max n r <= round1 target_max.
Proof.
  intros Ht Hn Hr. split.
  - rewrite <- (percentile_score_first n). apply percentile_score_mono; [done|done|lia].
  - rewrite <- (percentile_score_last n) by done.
    by apply percentile_score_mono.
Qed.

End PercentileScore.

Lemma round1_default_targets : round1 2.0 = 2 /\ round1 9.5 = 19 # 2.
Proof. split; reflexivity. Qed.

Lemma get_insert_eq (p : gmap string pyval) (k : string) (v : pyval) :
  get (<[k := v]> p) k = v.
Proof. unfold get. by rewrite lookup_insert_eq. Qed.

Lemma get_insert_ne (p : gmap string pyval) (k k' : string) (v : pyval) :
  k <> k' -> get (<[k := v]> p) k' = get p k'.
Proof. intros H. unfold get. by rewrite lookup_insert_ne. Qed.

(** The place whose value has rank [rank] receives the score of that rank. *)
Lemma normalize_to_percentile_rank (field : string) (target_min target_max : Q)
    (places : list (gmap string pyval)) (rank i : nat) (v : Q) :
  (2 <= length (numeric_values places field))%nat ->
  ranking field places !! rank = Some (i, v) ->
  exists p,
    places !! i = Some p /\ as_number (get p field) = Some v
    /\ normalize_to_percentile places field target_min target_max !! i
       = Some (<[field := VFloat (percentile_score target_min target_max
                                    (length (ranking field places)) rank)]> p).
Proof.
  intros Hn Hrank.
  assert ((i, v) ∈ ranking field places) as Hin
    by (by eapply list_elem_of_lookup_2).
  apply ranking_elem in Hin as (p & Hp & Hv). exists p. split; [done|]. split; [done|].
  pose proof (normalize_to_percentile_lookup field target_min target_max
                places i p Hn Hp) as H.
  rewrite Hv in H. destruct H as (rank' & Hrank' & Hres).
  assert (rank' = rank) as ->; [|done].
  eapply (NoDup_lookup _ rank' rank i (ranking_NoDup field places));
    rewrite list_lookup_fmap.
  - by rewrite Hrank'.
  - by rewrite Hrank.
Qed.

(** ** C2: cohort percentile normalisation *)

Section NormalizeOrder.
Context (field : string) (target_min target_max : Q).
Context (places : list (gmap string pyval)).

Let result := normalize_to_percentile places field target_min target_max.
Let n := length (numeric_values places field).

(** Two places with different raw values are never put in the opposite
    order. *)
Lemma normalize_never_inverts (i j : nat) (pi pj : gmap string pyval) (vi vj : Q) :
  (2 <= n)%nat -> target_min <= target_max ->
  places !! i = Some pi -> places !! j = Some pj ->
  as_number (get pi field) = Some vi -> as_number (get pj field) = Some vj ->
  vi < vj ->
  exists pi' pj' wi wj,
    result !! i = Some pi' /\ result !! j = Some pj'
    /\ get pi' field = VFloat wi /\ get pj' field = VFloat wj /\ wi <= wj.
Proof.
  intros Hn Ht Hi Hj Hvi Hvj Hlt. subst result n.
  pose proof (normalize_to_percentile_lookup field target_min target_max
                places i pi Hn Hi) as H1.
  pose proof (normalize_to_percentile_lookup field target_min target_max
                places j pj Hn Hj) as H2.
  rewrite Hvi in H1. rewrite Hvj in H2.
  destruct H1 as (ri & Hri & Ei). destruct H2 as (rj & Hrj & Ej).
  eexists _, _, _, _. split; [exact Ei|]. split; [exact Ej|].
  rewrite !get_insert_eq. split; [done|]. split; [done|].
  apply percentile_score_mono; [done | by rewrite ranking_length |].
  destruct (Nat.le_gt_cases ri rj) as [|Hgt]; [done|].
  pose proof (ranking_sorted field places rj ri j i vj vi Hrj Hri Hgt).
  lra.
Qed.

(** Every normalised value lies between the two rounded targets. *)
Lemma normalize_within_targets (i : nat) (p : gmap string pyval) (v : Q) :
  (2 <= n)%nat -> target_min <= target_max ->
  places !! i = Some p -> as_number (get p field) = Some v ->
  exists p' w,
    result !! i = Some p' /\ get p' field = VFloat w
    /\ round1 target_min <= w /\ w <= round1 target_max.
Proof.
  intros Hn Ht Hi Hv. subst result n.
  pose proof (normalize_to_percentile_lookup field target_min target_max
                places i p Hn Hi) as H.
  rewrite Hv in H. destruct H as (r & Hr & E).
  eexists _, _. split; [exact E|]. rewrite get_insert_eq. split; [done|].
  apply percentile_score_range; [done | by rewrite ranking_length |].
  apply lookup_lt_Some in Hr. lia.
Qed.

(** The two targets are attained. *)
Lemma normalize_attains_targets :
  (2 <= n)%nat ->
  (exists i p p', places !! i = Some p /\ is_number (get p field) = true
      /\ result !! i = Some p' /\ get p' field = VFloat (round1 target_min))
  /\ (exists i p p', places !! i = Some p /\ is_number (get p field) = true
      /\ result !! i = Some p' /\ get p' field = VFloat (round1 target_max)).
Proof.
  intros Hn. subst result n.
  assert (length (ranking field places) = length (numeric_values places field))
    as Hlen by apply ranking_length.
  assert (forall r, (r < length (ranking field places))%nat ->
            exists i p p', places !! i = Some p /\ is_number (get p field) = true
              /\ normalize_to_percentile places field target_min target_max !! i
                 = Some p'
              /\ get p' field
                 = VFloat (percentile_score target_min target_max
                             (length (ranking field places)) r)) as Hat.
  { intros r Hr. apply lookup_lt_is_Some_2 in Hr as [[i v] Hiv].
    destruct (normalize_to_percentile_rank field target_min target_max
                places r i v Hn Hiv) as (p & Hp & Hv & E).
    exists i, p. eexists. split; [done|]. split.
    - unfold is_number. by rewrite Hv.
    - split; [exact E|]. by rewrite get_insert_eq. }
  split.
  - destruct (Hat 0%nat) as (i & p & p' & H); [lia|].
    rewrite percentile_score_first in H. eauto.
  - destruct (Hat (length (ranking field places) - 1)%nat) as (i & p & p' & H); [lia|].
    rewrite percentile_score_last in H by lia. eauto.
Qed.

End NormalizeOrder.

(** With the default targets and at most 76 ranked values, two different
    ranks never round to the same score. *)
Lemma round_half_even_lt (x y : Q) :
  x + 1 < y -> (round_half_even x < round_half_even y)%Z.
Proof.
  intros H.
  destruct (round_half_even_near x) as [Hx _].
  destruct (round_half_even_near y) as [_ Hy].
  rewrite Zlt_Qlt. lra.
Qed.

Lemma default_score_tenfold (n r : nat) :
  (2 <= n)%nat ->
  (2.0 + inject_Z (Z.of_nat r) / inject_Z (Z.of_nat n - 1) * (9.5 - 2.0)) * 10
  == 20 + 75 * inject_Z (Z.of_nat r) / inject_Z (Z.of_nat n - 1).
Proof.
  intros Hn.
  assert (~ inject_Z (Z.of_nat n - 1) == 0) as Hd.
  { change 0 with (inject_Z 0). rewrite inject_Z_injective. lia. }
  field. done.
Qed.

Lemma percentile_score_default_strict (n r1 r2 : nat) :
  (2 <= n <= 76)%nat -> (r1 < r2)%nat ->
  percentile_score 2.0 9.5 n r1 < percentile_score 2.0 9.5 n r2.
Proof.
  intros [Hn Hn'] Hr. unfold percentile_score. rewrite !round1_eq.
  assert (round_half_even
            ((2.0 + inject_Z (Z.of_nat r1) / inject_Z (Z.of_nat n - 1) * (9.5 - 2.0)) * 10)
          < round_half_even
              ((2.0 + inject_Z (Z.of_nat r2) / inject_Z (Z.of_nat n - 1) * (9.5 - 2.0)) * 10))%Z
    as Hz; [|rewrite Zlt_Qlt in Hz; qlra].
  rewrite (round_half_even_proper _ _ (default_score_tenfold n r1 Hn)).
  rewrite (round_half_even_proper _ _ (default_score_tenfold n r2 Hn)).
  destruct (Nat.eq_dec n 76%nat) as [->|Hne].
  - (* the scores are whole tenths *)
    assert (forall r : nat,
              20 + 75 * inject_Z (Z.of_nat r) / inject_Z (Z.of_nat 76%nat - 1)
              == inject_Z (20 + Z.of_nat r)) as Hw.
    { intros r. rewrite inject_Z_plus.
      change (inject_Z (Z.of_nat 76%nat - 1)) with 75. change (inject_Z 20) with 20.
      field. }
    rewrite (round_half_even_proper _ _ (Hw r1)), (round_half_even_proper _ _ (Hw r2)).
    rewrite !round_half_even_Z. lia.
  - (* consecutive scores are more than a tenth apart *)
    apply round_half_even_lt.
    assert (0 < inject_Z (Z.of_nat n - 1)) as Hd.
    { change 0 with (inject_Z 0). rewrite <- Zlt_Qlt. lia. }
    assert (inject_Z (Z.of_nat n - 1) <= 74) as Hd'.
    { change 74 with (inject_Z 74). rewrite <- Zle_Qle. lia. }
    assert (inject_Z (Z.of_nat r1) + 1 <= inject_Z (Z.of_nat r2)) as Hr'.
    { change 1 with (inject_Z 1). rewrite <- inject_Z_plus, <- Zle_Qle. lia. }
    set (d := inject_Z (Z.of_nat n - 1)) in *.
    set (a := inject_Z (Z.of_nat r1)) in *.
    set (b := inject_Z (Z.of_nat r2)) in *.
    assert (20 + 75 * a / d + 1 == (75 * a + 21 * d) / d) as -> by (field; lra).
    assert (20 + 75 * b / d == (75 * b + 20 * d) / d) as -> by (field; lra).
    apply Qmult_lt_r with d; [done|].
    assert (forall u, u / d * d == u) as Hu by (intros u; field; lra).
    rewrite !Hu. lra.
Qed.

Lemma normalize_default_strict (field : string)
    (places : list (gmap string pyval)) (i j : nat)
    (pi pj : gmap string pyval) (vi vj : Q) :
  (2 <= length (numeric_values places field) <= 76)%nat ->
  places !! i = Some pi -> places !! j = Some pj ->
  as_number (get pi field) = Some vi -> as_number (get pj field) = Some vj ->
  vi < vj ->
  exists pi' pj' wi wj,
    normalize_to_percentile places field 2.0 9.5 !! i = Some pi'
    /\ normalize_to_percentile places field 2.0 9.5 !! j = Some pj'
    /\ get pi' field = VFloat wi /\ get pj' field = VFloat wj /\ wi < wj.
Proof.
  intros [Hn Hn'] Hi Hj Hvi Hvj Hlt.
  pose proof (normalize_to_percentile_lookup field 2.0 9.5 places i pi Hn Hi) as H1.
  pose proof (normalize_to_percentile_lookup field 2.0 9.5 places j pj Hn Hj) as H2.
  rewrite Hvi in H1. rewrite Hvj in H2.
  destruct H1 as (ri & Hri & Ei). destruct H2 as (rj & Hrj & Ej).
  eexists _, _, _, _. split; [exact Ei|]. split; [exact Ej|].
  rewrite !get_insert_eq. split; [done|]. split; [done|].
  apply percentile_score_default_strict; [by rewrite ranking_length|].
  destruct (lt_eq_lt_dec ri rj) as [[Hl|He]|Hg]; [done | |].
  - subst rj. rewrite Hri in Hrj. injection Hrj as _ E.
    rewrite E in Hlt. by apply Qlt_irrefl in Hlt.
  - pose proof (ranking_sorted field places rj ri j i vj vi Hrj Hri Hg). lra.
Qed.

(** C2 (amended).  Normalising a field over a cohort is a no-op when fewer
    than two places hold a number in that field.  Otherwise, for targets
    [target_min <= target_max], two places with different raw values are
    never put in the opposite order (the one with the smaller raw value gets
    a score that is at most the other's), every normalised score lies between
    [round1 target_min] and [round1 target_max], and both are attained; the
    default targets 2.0 and 9.5 are their own roundings.  With the default
    targets and at most 76 numeric values the order of different raw values
    is preserved strictly. *)
Theorem C2_percentile_normalization (field : string)
    (places : list (gmap string pyval)) (target_min target_max : Q) :
  let n := length (numeric_values places field) in
  let result := normalize_to_percentile places field target_min target_max in
  ((n < 2)%nat -> result = places)
  /\ ((2 <= n)%nat -> target_min <= target_max ->
      (forall i j pi pj vi vj,
          places !! i = Some pi -> places !! j = Some pj ->
          as_number (get pi field) = Some vi ->
          as_number (get pj field) = Some vj ->
          vi < vj ->
          exists pi' pj' wi wj,
            result !! i = Some pi' /\ result !! j = Some pj'
            /\ get pi' field = VFloat wi /\ get pj' field = VFloat wj
            /\ wi <= wj)
      /\ (forall i p v,
          places !! i = Some p -> as_number (get p field) = Some v ->
          exists p' w,
            result !! i = Some p' /\ get p' field = VFloat w
            /\ round1 target_min <= w /\ w <= round1 target_max)
      /\ (exists i p p',
          places !! i = Some p /\ is_number (get p field) = true
          /\ result !! i = Some p' /\ get p' field = VFloat (round1 target_min))
      /\ (exists i p p',
          places !! i = Some p /\ is_number (get p field) = true
          /\ result !! i = Some p' /\ get p' field = VFloat (round1 target_max)))
  /\ ((2 <= n <= 76)%nat ->
      forall i j pi pj vi vj,
        places !! i = Some pi -> places !! j = Some pj ->
        as_number (get pi field) = Some vi ->
        as_number (get pj field) = Some vj ->
        vi < vj ->
        exists pi' pj' wi wj,
          normalize_to_percentile places field 2.0 9.5 !! i = Some pi'
          /\ normalize_to_percentile places field 2.0 9.5 !! j = Some pj'
          /\ get pi' field = VFloat wi /\ get pj' field = VFloat wj
          /\ wi < wj)
  /\ round1 2.0 == 2.0 /\ round1 9.5 == 9.5.
Proof.
  cbv zeta. split; [|split; [|split]].
  - apply normalize_to_percentile_noop.
  - intros Hn Ht. split; [|split].
    + intros i j pi pj vi vj. by apply normalize_never_inverts.
    + intros i p v. by apply normalize_within_targets.
    + by apply normalize_attains_targets.
  - intros Hn i j pi pj vi vj. by apply normalize_default_strict.
  - split; reflexivity.
Qed.

Lemma C2_percentile_normalization_witness :
  normalize_to_percentile (cohort_of "quality_0_10" [7.0]) "quality_0_10" 2.0 9.5
  = cohort_of "quality_0_10" [7.0]
  /\ (exists pi' pj' wi wj,
        normalize_to_percentile (cohort_of "quality_0_10" [7.0; 9.0; 5.0])
          "quality_0_10" 2.0 9.5 !! 2%nat = Some pi'
        /\ normalize_to_percentile (cohort_of "quality_0_10" [7.0; 9.0; 5.0])
             "quality_0_10" 2.0 9.5 !! 0%nat = Some pj'
        /\ get pi' "quality_0_10" = VFloat wi
        /\ get pj' "quality_0_10" = VFloat wj /\ wi < wj).
Proof.
  split.
  - apply (C2_percentile_normalization "quality_0_10"
             (cohort_of "quality_0_10" [7.0]) 2.0 9.5).
    vm_compute. lia.
  - apply (proj1 (proj2 (proj2 (C2_percentile_normalization "quality_0_10"
             (cohort_of "quality_0_10" [7.0; 9.0; 5.0]) 2.0 9.5)))
             ltac:(vm_compute; lia) 2%nat 0%nat
             {[ "quality_0_10" := VFloat 5.0 ]} {[ "quality_0_10" := VFloat 7.0 ]}
             5.0 7.0);
      reflexivity.
Defined.

(** C2, as stated, fails: the places of raw value 3.8 and 3.9 both receive
    5.8. *)
Lemma C2_strict_order_counterexample :
  let result := normalize_to_percentile cohort_77 "quality_0_10" 2.0 9.5 in
  (exists p q a b,
      cohort_77 !! 38%nat = Some p /\ cohort_77 !! 39%nat = Some q
      /\ as_number (get p "quality_0_10") = Some a
      /\ as_number (get q "quality_0_10") = Some b /\ a < b)
  /\ (field_values "quality_0_10" result) !! 38%nat = Some (VFloat (29 # 5))
  /\ (field_values "quality_0_10" result) !! 39%nat = Some (VFloat (29 # 5)).
Proof.
  cbv zeta. split; [|split].
  - exists {[ "quality_0_10" := VFloat (inject_Z 38 / 10) ]},
           {[ "quality_0_10" := VFloat (inject_Z 39 / 10) ]},
           (inject_Z 38 / 10), (inject_Z 39 / 10).
    split; [by_vm|]. split; [by_vm|]. split; [by_vm|]. split; [by_vm|].
    reflexivity.
  - by_vm.
  - by_vm.
Qed.

(** ** C7: the three-place cohort *)

(** C7 (amended).  Three places whose [quality_0_10] raw values are 5.0,
    7.0 and 9.0 are normalised, with the default targets, to 2.0, 5.8 and
    9.5: the ranks 0, 1/2 and 1 are mapped linearly into [2.0, 9.5] and the
    result is rounded to one decimal, 5.75 going to 5.8. *)
Theorem C7_three_place_cohort (p1 p2 p3 : gmap string pyval) (q1 q2 q3 : Q) :
  as_number (get p1 "quality_0_10") = Some q1 -> q1 == 5.0 ->
  as_number (get p2 "quality_0_10") = Some q2 -> q2 == 7.0 ->
  as_number (get p3 "quality_0_10") = Some q3 -> q3 == 9.0 ->
  normalize_to_percentile [p1; p2; p3] "quality_0_10" 2.0 9.5
  = [ <["quality_0_10" := VFloat 2]> p1;
      <["quality_0_10" := VFloat (29 # 5)]> p2;
      <["quality_0_10" := VFloat (19 # 2)]> p3 ].
Proof.
  intros H1 E1 H2 E2 H3 E3.
  rewrite normalize_to_percentile_unfold. unfold numeric_values. simpl.
  rewrite H1, H2, H3. simpl. unfold stable_sort. simpl.
  assert (Qleb q2 q3 = true) as -> by (apply Qleb_le; lra).
  simpl.
  assert (Qleb q1 q2 = true) as -> by (apply Qleb_le; lra).
  reflexivity.
Qed.

Lemma C7_three_place_cohort_witness :
  normalize_to_percentile (cohort_of "quality_0_10" [5.0; 7.0; 9.0])
    "quality_0_10" 2.0 9.5
  = [ <["quality_0_10" := VFloat 2]> {[ "quality_0_10" := VFloat 5.0 ]};
      <["quality_0_10" := VFloat (29 # 5)]> {[ "quality_0_10" := VFloat 7.0 ]};
      <["quality_0_10" := VFloat (19 # 2)]> {[ "quality_0_10" := VFloat 9.0 ]} ].
Proof.
  apply (C7_three_place_cohort _ _ _ 5.0 7.0 9.0); reflexivity.
Defined.

(** C7, as stated, fails: the middle place receives 5.8, not 5.75. *)
Lemma C7_middle_score_counterexample :
  field_values "quality_0_10"
    (normalize_to_percentile (cohort_of "quality_0_10" [5.0; 7.0; 9.0])
       "quality_0_10" 2.0 9.5)
  = [VFloat 2; VFloat (29 # 5); VFloat (19 # 2)]
  /\ ~ (29 # 5) == 5.75.
Proof.
  split; [vm_compute; reflexivity | intros H; discriminate H].
Qed.

(** ** The blended score *)

Section Blended.
Context {RT : Runtime}.

Lemma is_number_as_number (v : pyval) :
  is_number v = true -> exists q, as_number v = Some q /\ _safe_float v 0.0 = q.
Proof.
  unfold is_number, _safe_float. destruct v; simpl; try done; eauto.
Qed.

Lemma is_number_false (v : pyval) : is_number v = false -> as_number v = None.
Proof. unfold is_number. by destruct (as_number v). Qed.

(** The code computes the blend of the design. *)
Lemma blended_0_10_refines (place : gmap string pyval) :
  blended_0_10 place
  = renormalized_blend (as_number (get place "quality_0_10"))
      (as_number (get place "character_0_10"))
      (as_number (get place "underrated_0_10")).
Proof.
  unfold blended_0_10.
  destruct (is_number (get place "quality_0_10")) eqn:Eq;
  destruct (is_number (get place "character_0_10")) eqn:Ec;
  destruct (is_number (get place "underrated_0_10")) eqn:Eu;
  repeat match goal with
  | H : is_number _ = true |- _ =>
      apply is_number_as_number in H as (? & -> & ->)
  | H : is_number _ = false |- _ => apply is_number_false in H as ->
  end;
  unfold renormalized_blend; simpl; try done;
  f_equal; apply round1_proper; unfold Qsum; simpl; field.
Qed.

Lemma blended_0_10_all (place : gmap string pyval) (q c u : Q) :
  as_number (get place "quality_0_10") = Some q ->
  as_number (get place "character_0_10") = Some c ->
  as_number (get place "underrated_0_10") = Some u ->
  blended_0_10 place = Some (round1 (0.40 * q + 0.35 * c + 0.25 * u)).
Proof.
  intros Hq Hc Hu. rewrite blended_0_10_refines, Hq, Hc, Hu.
  unfold renormalized_blend. simpl. f_equal. apply round1_proper.
  unfold Qsum. simpl. field.
Qed.

Lemma blended_0_10_none (place : gmap string pyval) :
  as_number (get place "quality_0_10") = None ->
  as_number (get place "character_0_10") = None ->
  as_number (get place "underrated_0_10") = None ->
  blended_0_10 place = None.
Proof. intros Hq Hc Hu. by rewrite blended_0_10_refines, Hq, Hc, Hu. Qed.

End Blended.

(** ** Ranges of the calculators *)

Section Ranges.
Context {RT : Runtime}.

Lemma underrated_0_10_range (place : gmap string pyval) (scale u : Q) :
  underrated_0_10 place scale = Some u -> 0 <= u <= 10.
Proof.
  unfold underrated_0_10. intros H.
  destruct (_safe_float_opt (get place "avg_would_recommend")) as [rec|];
    [destruct (_safe_float_opt (get place "avg_openai_sentiment")) as [sen|]|].
  1: { injection H as <-. apply round1_clamp_0_10. }
  all: destruct (as_dict _) as [ml_data|]; simpl in H; [|done];
       destruct (is_none (if is_none _ then _ else _));
       injection H as <-; [lra | apply round1_clamp_0_10].
Qed.

Lemma dive_total_range (place : gmap string pyval) (total : Q) :
  dive_total place = Some total -> 0 <= total <= 100.
Proof.
  unfold dive_total. intros H.
  destruct (as_dict _) as [ml_data|]; simpl in H; [|done].
  destruct (as_number (py_or (get place "rating") _)) as [rating|];
    simpl in H; [|done].
  destruct (as_number (py_or (get place "user_ratings_total") _)) as [reviews|];
    simpl in H; [|done].
  injection H as <-. split.
  - apply py_max_ge_l.
  - apply py_max_lub; [lra | apply py_min_le_l].
Qed.

Lemma round1_dive_range (total : Q) : 0 <= total <= 100 -> 0 <= round1 total <= 100.
Proof. intros H. by apply (round1_within _ 0 100 0 1000). Qed.

Lemma round1_blend_range (q c u : Q) :
  0 <= q <= 10 -> 0 <= c <= 10 -> 0 <= u <= 10 ->
  0 <= round1 (0.40 * q + 0.35 * c + 0.25 * u) <= 10.
Proof. intros Hq Hc Hu. apply (round1_within _ 0 10 0 100); [done | done | lra]. Qed.

End Ranges.

(** ** The grade as a step function *)

Lemma dive_grade_of_steps (total : Q) :
  (dive_grade_of total = "A" <-> 85 <= total)
  /\ (dive_grade_of total = "B" <-> 70 <= total /\ total < 85)
  /\ (dive_grade_of total = "C" <-> 50 <= total /\ total < 70)
  /\ (dive_grade_of total = "D" <-> total < 50).
Proof.
  unfold dive_grade_of. repeat case_Q; repeat split; intros; try done; try lra.
  all: try (destruct H; lra).
Qed.

Lemma gem_label_of_grade (total : Q) :
  gem_label_of total = label_of_grade (dive_grade_of total).
Proof. unfold gem_label_of, dive_grade_of. repeat case_Q; reflexivity. Qed.

(** A displayed score strictly above or strictly below a boundary settles
    the comparison of the total with that boundary. *)
Lemma round1_above (total : Q) (k : Z) :
  inject_Z k / 10 < round1 total -> inject_Z k / 10 <= total.
Proof.
  intros H. destruct (Qlt_le_dec total (inject_Z k / 10)) as [Hlt|]; [|done].
  exfalso. apply (Qlt_not_le _ _ H). apply round1_le. by apply Qlt_le_weak.
Qed.

Lemma round1_below (total : Q) (k : Z) :
  round1 total < inject_Z k / 10 -> total < inject_Z k / 10.
Proof.
  intros H. destruct (Qlt_le_dec total (inject_Z k / 10)) as [|Hge]; [done|].
  exfalso. apply (Qlt_not_le _ _ H). by apply round1_ge.
Qed.

Lemma dive_grade_of_displayed (total : Q) :
  (85 < round1 total -> dive_grade_of total = "A")
  /\ (70 < round1 total /\ round1 total < 85 -> dive_grade_of total = "B")
  /\ (50 < round1 total /\ round1 total < 70 -> dive_grade_of total = "C")
  /\ (round1 total < 50 -> dive_grade_of total = "D").
Proof.
  assert (85 == inject_Z 850 / 10) as E85 by reflexivity.
  assert (70 == inject_Z 700 / 10) as E70 by reflexivity.
  assert (50 == inject_Z 500 / 10) as E50 by reflexivity.
  pose proof (dive_grade_of_steps total) as (HA & HB & HC & HD).
  repeat split.
  - intros H. apply HA. rewrite E85 in *. by apply round1_above.
  - intros [H1 H2]. apply HB. split.
    + rewrite E70 in *. by apply round1_above.
    + rewrite E85 in *. by apply round1_below.
  - intros [H1 H2]. apply HC. split.
    + rewrite E50 in *. by apply round1_above.
    + rewrite E70 in *. by apply round1_below.
  - intros H. apply HD. rewrite E50 in *. by apply round1_below.
Qed.

(** ** What the pipeline does to one place *)

Lemma normalize_to_percentile_pointwise (field : string) (target_min target_max : Q)
    (places : list (gmap string pyval)) :
  Forall2 (renormalized field target_min target_max) places
    (normalize_to_percentile places field target_min target_max).
Proof.
  apply Forall2_same_length_lookup_2.
  { by rewrite length_normalize_to_percentile. }
  intros i p p' Hp Hp'.
  destruct (Nat.lt_ge_cases (length (numeric_values places field)) 2) as [Hlt|Hge].
  - rewrite normalize_to_percentile_noop in Hp' by done. left. congruence.
  - pose proof (normalize_to_percentile_lookup field target_min target_max
                  places i p Hge Hp) as H.
    destruct (as_number (get p field)) as [v|] eqn:Ev.
    + destruct H as (rank & Hrank & E). right.
      rewrite E in Hp'. injection Hp' as <-.
      eexists. split; [by unfold is_number; rewrite Ev|]. split; [done|].
      intros Ht. apply percentile_score_range; [done | by rewrite ranking_length |].
      apply lookup_lt_Some in Hrank. lia.
    + left. congruence.
Qed.

Section Pipeline.
Context {RT : Runtime}.

(** The record built by [enrich_place]. *)
Lemma enrich_place_inv (place p : gmap string pyval) (scale : Q) :
  enrich_place place scale = Some p ->
  exists total q c u,
    dive_total place = Some total
    /\ 0 <= q <= 10 /\ 0 <= c <= 10 /\ 0 <= u <= 10
    /\ p = <["blended_0_10" := VFloat (round1 (0.40 * q + 0.35 * c + 0.25 * u))]>
             (<["underrated_0_10" := VFloat u]>
             (<["quality_0_10" := VFloat q]>
             (<["diveiness_0_10" := VFloat c]>
             (<["character_0_10" := VFloat c]>
             (<["gem_label" := VStr (gem_label_of total)]>
             (<["dive_grade" := VStr (dive_grade_of total)]>
             (<["dive_score" := VFloat (round1 total)]> place))))))).
Proof.
  unfold enrich_place, calculate_dive_score. intros H.
  destruct (dive_total place) as [total|] eqn:Et; simpl in H; [|done].
  set (p1 := <["gem_label" := _]> _) in H.
  set (c := character_0_10 p1) in H.
  rewrite get_insert_eq in H.
  set (p3 := <["diveiness_0_10" := _]> _) in H.
  set (q := quality_0_10 p3) in H.
  set (p4 := <["quality_0_10" := _]> _) in H.
  destruct (underrated_0_10 p4 scale) as [u|] eqn:Eu; simpl in H; [|done].
  injection H as <-.
  exists total, q, c, u. split; [done|].
  split; [apply quality_0_10_range|]. split; [apply character_0_10_range|].
  split; [by eapply underrated_0_10_range|].
  rewrite (blended_0_10_all _ q c u); [done | | |]; unfold p4, p3.
  - rewrite get_insert_ne by done. by rewrite get_insert_eq.
  - rewrite !get_insert_ne by done. by rewrite get_insert_eq.
  - by rewrite get_insert_eq.
Qed.

Lemma normalize_and_blend_unfold (enriched_results : list (gmap string pyval)) :
  normalize_and_blend enriched_results
  = (λ place, <["blended_0_10" := of_opt (blended_0_10 place)]> place)
      <$> normalized_cohort enriched_results.
Proof. reflexivity. Qed.

End Pipeline.

Lemma lens_pass_trans (p1 p2 p3 : gmap string pyval) :
  lens_pass p1 p2 -> lens_pass p2 p3 -> lens_pass p1 p3.
Proof.
  intros [Hs1 Hl1] [Hs2 Hl2]. split.
  - intros k H1 H2 H3. rewrite Hs2, Hs1; done.
  - intros q c u H. destruct (Hl1 q c u H) as (q' & c' & u' & H').
    by apply (Hl2 q' c' u').
Qed.

Lemma renormalized_lens_pass (field : string) (p p' : gmap string pyval) :
  field = "quality_0_10" \/ field = "character_0_10" \/ field = "underrated_0_10" ->
  renormalized field 2.0 9.5 p p' -> lens_pass p p'.
Proof.
  intros Hf [Heq|(w & Hnum & Heq & Hw)]; subst p'.
  - split; [done|]. intros q c u H. by exists q, c, u.
  - destruct Hw as [Hlo Hhi]; [lra|].
    destruct round1_default_targets as [E2 E95]. rewrite E2 in Hlo. rewrite E95 in Hhi.
    assert (0 <= w <= 10) as Hw by lra.
    split.
    + intros k H1 H2 H3. apply get_insert_ne.
      destruct Hf as [-> | [-> | ->]]; done.
    + intros q c u (Hq & Hq' & Hc & Hc' & Hu & Hu').
      destruct Hf as [-> | [-> | ->]].
      * exists w, c, u. unfold lens_scores.
        rewrite get_insert_eq, !get_insert_ne by done. done.
      * exists q, w, u. unfold lens_scores.
        rewrite get_insert_eq, !get_insert_ne by done. done.
      * exists q, c, w. unfold lens_scores.
        rewrite get_insert_eq, !get_insert_ne by done. done.
Qed.

Lemma normalize_lens_pass (field : string) (places : list (gmap string pyval)) :
  field = "quality_0_10" \/ field = "character_0_10" \/ field = "underrated_0_10" ->
  Forall2 lens_pass places (normalize_to_percentile places field 2.0 9.5).
Proof.
  intros Hf. eapply Forall2_impl; [apply normalize_to_percentile_pointwise|].
  intros p p'. by apply renormalized_lens_pass.
Qed.

Lemma Forall2_lens_pass_trans (l1 l2 l3 : list (gmap string pyval)) :
  Forall2 lens_pass l1 l2 -> Forall2 lens_pass l2 l3 -> Forall2 lens_pass l1 l3.
Proof. apply Forall2_trans, lens_pass_trans. Qed.

Lemma normalized_cohort_lens_pass (enriched_results : list (gmap string pyval)) :
  Forall2 lens_pass enriched_results (normalized_cohort enriched_results).
Proof.
  unfold normalized_cohort.
  eapply Forall2_lens_pass_trans; [|apply normalize_lens_pass; auto].
  eapply Forall2_lens_pass_trans; apply normalize_lens_pass; auto.
Qed.

Section PipelineRecords.
Context {RT : Runtime}.

Lemma blend_step_record (place p0 p : gmap string pyval) (scale : Q) :
  enrich_place place scale = Some p0 -> lens_pass p0 p ->
  pipeline_record place (<["blended_0_10" := of_opt (blended_0_10 p)]> p).
Proof.
  intros He [Hsame Hlens].
  apply enrich_place_inv in He as (total & q & c & u & Ht & Hq & Hc & Hu & Ep0).
  destruct (Hlens q c u) as (q' & c' & u' & Hl').
  { subst p0. unfold lens_scores.
    rewrite (get_insert_ne _ "blended_0_10" "quality_0_10") by done.
    rewrite (get_insert_ne _ "underrated_0_10" "quality_0_10") by done.
    rewrite (get_insert_eq _ "quality_0_10").
    rewrite !(get_insert_ne _ _ "character_0_10") by done.
    rewrite (get_insert_eq _ "character_0_10").
    rewrite (get_insert_ne _ "blended_0_10" "underrated_0_10") by done.
    rewrite (get_insert_eq _ "underrated_0_10"). done. }
  exists total, q', c', u'. split; [done|].
  assert (forall k, k <> "quality_0_10" -> k <> "character_0_10" ->
            k <> "underrated_0_10" -> k <> "blended_0_10" ->
            get (<["blended_0_10" := of_opt (blended_0_10 p)]> p) k = get p0 k) as Hk.
  { intros k H1 H2 H3 H4. rewrite get_insert_ne by done. by apply Hsame. }
  rewrite !Hk by done. subst p0.
  destruct Hl' as (Hq' & Hqr & Hc' & Hcr & Hu' & Hur).
  split; [|split; [|split; [|split]]].
  - rewrite !get_insert_ne by done. by rewrite get_insert_eq.
  - rewrite !get_insert_ne by done. by rewrite get_insert_eq.
  - rewrite !get_insert_ne by done. by rewrite get_insert_eq.
  - unfold lens_scores. rewrite !get_insert_ne by done. done.
  - rewrite get_insert_eq.
    rewrite (blended_0_10_all p q' c' u'); [done | | |].
    + by rewrite Hq'.
    + by rewrite Hc'.
    + by rewrite Hu'.
Qed.

(** Every record that leaves the normalise-and-blend block is a pipeline
    record of the row at the same position. *)
Lemma normalize_and_blend_records (results enriched : list (gmap string pyval))
    (scale : Q) :
  mapM (λ place, enrich_place place scale) results = Some enriched ->
  Forall2 pipeline_record results (normalize_and_blend enriched).
Proof.
  intros Hm. apply mapM_Some_1 in Hm.
  rewrite normalize_and_blend_unfold. apply Forall2_fmap_r.
  eapply Forall2_trans; [| exact Hm | apply normalized_cohort_lens_pass].
  intros place p0 p He Hp. simpl in *. exact (blend_step_record _ _ _ _ He Hp).
Qed.

End PipelineRecords.

(** ** What reaches the response *)

Lemma py_filter_subseteq {A} (f : A -> option bool) (l r : list A) :
  py_filter f l = Some r -> r ⊆ l.
Proof.
  revert r. induction l as [|x l IH]; intros r H; simpl in H.
  - by simplify_eq.
  - destruct (f x) as [b|]; simpl in H; [|done].
    destruct (py_filter f l) as [r'|]; simpl in H; [|done].
    injection H as <-. specialize (IH r' eq_refl).
    destruct b.
    + by apply list_subseteq_skip.
    + by apply list_subseteq_cons.
Qed.

Section Response.
Context {RT : Runtime}.

Lemma keyed_snd {A K} (key : A -> option K) (l : list A) (keyed : list (K * A)) :
  mapM (λ x, (λ k, (k, x)) <$> key x) l = Some keyed -> keyed.*2 = l.
Proof.
  intros Em. apply mapM_Some_1 in Em.
  induction Em as [|a kb l1 l2 Hab Hrest IH]; [done|].
  destruct (key a) as [k'|]; [|done]. simpl in Hab. injection Hab as <-.
  by rewrite fmap_cons, IH.
Qed.

Lemma sort_desc_by_perm (k : string) (l r : list (gmap string pyval)) :
  sort_desc_by k l = Some r -> r ≡ₚ l.
Proof.
  unfold sort_desc_by. intros H.
  destruct l as [|x [|y l]]; try (by simplify_eq).
  destruct (mapM _ _) as [keyed|] eqn:Em; simpl in H; [|done].
  injection H as <-.
  rewrite stable_sort_perm. by rewrite (keyed_snd _ _ _ Em).
Qed.

(** A successful [GET /locations] returns records of the normalised and
    blended cohort of the rows the storage returned. *)
Lemma get_locations_inv (supabase : option client) (min_rating : Q)
    (min_reviews : Z) (kinds : option (list string)) (kinds_mode sort_by : string)
    (limit : nat) (events : list event) (body : list (gmap string pyval))
    (total_count : nat) :
  get_locations supabase min_rating min_reviews kinds kinds_mode sort_by limit
  = (events, HttpOk body total_count) ->
  exists db results scale enriched,
    supabase = Some db /\ db min_rating = Some results
    /\ mapM (λ place, enrich_place place scale) results = Some enriched
    /\ body ⊆ normalize_and_blend enriched.
Proof.
  unfold get_locations. intros H.
  destruct supabase as [db|]; [|done].
  destruct (get_locations_try _ _ _ _ _ _ _) as [[page total]|] eqn:Et; [|done].
  injection H as _ -> ->. unfold get_locations_try in Et.
  apply bind_Some in Et as (results & Edb & Et).
  apply bind_Some in Et as (abs_residuals & _ & Et).
  apply bind_Some in Et as (enriched & Em & Et).
  apply bind_Some in Et as (l1 & E1 & Et).
  apply bind_Some in Et as (l2 & E2 & Et).
  apply bind_Some in Et as (l3 & E3 & Et).
  injection Et as <- <-.
  eexists db, results, _, enriched. split; [done|]. split; [done|].
  split; [exact Em|].
  assert (l1 ⊆ normalize_and_blend enriched) as H1.
  { destruct (0 <? min_reviews)%Z.
    - by eapply py_filter_subseteq.
    - by injection E1 as <-. }
  assert (l2 ⊆ l1) as H2.
  { destruct kinds as [[|kd kinds]|]; try (by injection E2 as <-).
    destruct (List.filter _ _); [by injection E2 as <-|].
    destruct (String.eqb kinds_mode "all"); by eapply py_filter_subseteq. }
  apply sort_desc_by_perm in E3.
  intros p Hp. apply H1, H2. rewrite <- E3. by eapply subseteq_take.
Qed.

(** A successful [GET /locations/custom] returns such records with a
    [custom_score] added. *)
Lemma get_locations_custom_inv (supabase : option client) (weights : string)
    (min_rating : Q) (min_reviews : Z) (limit : nat) (events : list event)
    (body : list (gmap string pyval)) (total_count : nat) :
  get_locations_custom supabase weights min_rating min_reviews limit
  = (events, HttpOk body total_count) ->
  exists db results enriched items,
    json_loads weights = Some (VDict items)
    /\ supabase = Some db /\ db min_rating = Some results
    /\ mapM (λ place, enrich_place place 0.35) results = Some enriched
    /\ forall p, p ∈ body ->
         exists p0, p0 ∈ normalize_and_blend enriched
           /\ p = <["custom_score" := VFloat (custom_score (validate_weights items) p0)]> p0.
Proof.
  unfold get_locations_custom. intros H.
  destruct (json_loads weights) as [weight_dict|]; [|done].
  destruct weight_dict as [| | | | | |items]; try done. simpl in H.
  destruct (validate_weights items) as [|w valid_weights] eqn:Ev; [done|].
  destruct supabase as [db|]; [|done].
  destruct (get_locations_custom_try _ _ _ _ _) as [[page total]|] eqn:Et; [|done].
  injection H as _ -> ->. unfold get_locations_custom_try in Et.
  apply bind_Some in Et as (results & Edb & Et).
  apply bind_Some in Et as (enriched & Em & Et).
  apply bind_Some in Et as (l1 & E1 & Et).
  apply bind_Some in Et as (l3 & E3 & Et).
  injection Et as <- <-.
  exists db, results, enriched, items. rewrite Ev.
  split; [done|]. split; [done|]. split; [done|]. split; [exact Em|].
  assert (l1 ⊆ normalize_and_blend enriched) as H1.
  { destruct (0 <? min_reviews)%Z.
    - by eapply py_filter_subseteq.
    - by injection E1 as <-. }
  apply sort_desc_by_perm in E3.
  intros p Hp. apply subseteq_take in Hp. rewrite E3 in Hp.
  apply list_elem_of_fmap in Hp as (p0 & -> & Hp0). exists p0. split; [|done].
  by apply H1.
Qed.

End Response.

(** ** Evaluating the model *)

(** An optional result that is there is its own default-free value. *)
Lemma Some_default {A} (o : option A) (d : A) :
  match o with Some _ => true | None => false end = true ->
  o = Some (default d o).
Proof. by destruct o. Qed.

(** ** Rows on which enrichment cannot raise *)

Section Totality.
Context {RT : Runtime}.

Lemma as_number_py_or (v : pyval) :
  numeric_or_none v -> is_Some (as_number (py_or v (VInt 0))).
Proof.
  intros [-> | H]; [by eexists|].
  unfold py_or. destruct (truthy v); [|by eexists].
  unfold is_number in H. by destruct (as_number v).
Qed.

Lemma as_dict_py_or (v : pyval) :
  dict_or_none v -> is_Some (as_dict (py_or v (VDict []))).
Proof.
  intros [-> | [d ->]]; [by eexists|].
  unfold py_or. destruct (truthy (VDict d)); by eexists.
Qed.

Lemma dive_total_is_Some (place : gmap string pyval) :
  well_typed_row place -> is_Some (dive_total place).
Proof.
  intros (Hr & Hu & Hm). unfold dive_total.
  destruct (as_dict_py_or _ Hm) as [ml_data ->].
  destruct (as_number_py_or _ Hr) as [rating ->].
  destruct (as_number_py_or _ Hu) as [reviews ->].
  by eexists.
Qed.

Lemma underrated_0_10_is_Some (place : gmap string pyval) (scale : Q) :
  dict_or_none (get place "ml_metadata") -> is_Some (underrated_0_10 place scale).
Proof.
  intros Hm. unfold underrated_0_10.
  destruct (as_dict_py_or _ Hm) as [ml_data ->]. simpl.
  destruct (_safe_float_opt (get place "avg_would_recommend"));
    [destruct (_safe_float_opt (get place "avg_openai_sentiment"))|];
    try (by eexists);
    destruct (is_none (if is_none _ then _ else _)); by eexists.
Qed.

Lemma enrich_place_is_Some (place : gmap string pyval) (scale : Q) :
  well_typed_row place -> is_Some (enrich_place place scale).
Proof.
  intros Hw. unfold enrich_place, calculate_dive_score.
  destruct (dive_total_is_Some place Hw) as [total ->]. simpl.
  match goal with
  | |- is_Some (underrated_0_10 ?p scale ≫= _) =>
      destruct (underrated_0_10_is_Some p scale) as [u ->]
  end.
  - rewrite !get_insert_ne by done. apply Hw.
  - by eexists.
Qed.

Lemma mapM_enrich_place_is_Some (results : list (gmap string pyval)) (scale : Q) :
  Forall well_typed_row results ->
  is_Some (mapM (λ place, enrich_place place scale) results).
Proof.
  intros H. apply mapM_is_Some. eapply Forall_impl; [exact H|].
  intros place Hw. by apply enrich_place_is_Some.
Qed.

End Totality.

(** ** C1: ranges and grade *)

Section ScoredRecords.
Context {RT : Runtime}.

Lemma pipeline_record_scored (place p : gmap string pyval) :
  pipeline_record place p -> scored_record place p.
Proof.
  intros (total & q & c & u & Ht & Hds & Hg & Hl & Hlens & Hb).
  destruct Hlens as (Hq & Hqr & Hc & Hcr & Hu & Hur).
  unfold scored_record, in_range. repeat split; eauto.
  - eexists. split; [exact Hb|]. by apply round1_blend_range.
  - eexists. split; [exact Hds|]. apply round1_dive_range.
    by eapply dive_total_range.
  - exists total. by rewrite <- gem_label_of_grade.
Qed.

Lemma enrich_place_record (place p : gmap string pyval) (scale : Q) :
  enrich_place place scale = Some p -> pipeline_record place p.
Proof.
  intros He.
  assert (p = <["blended_0_10" := of_opt (blended_0_10 p)]> p) as ->.
  { pose proof He as Hi.
    apply enrich_place_inv in Hi as (total & q & c & u & _ & _ & _ & _ & ->).
    rewrite (blended_0_10_all _ q c u).
    - simpl. by rewrite insert_insert_eq.
    - rewrite !get_insert_ne by done. by rewrite get_insert_eq.
    - rewrite !get_insert_ne by done. by rewrite get_insert_eq.
    - rewrite !get_insert_ne by done. by rewrite get_insert_eq. }
  eapply blend_step_record; [exact He|].
  split; [done|]. intros q c u H. by exists q, c, u.
Qed.

(** C1 (amended).  Enrichment returns a record for every row whose
    [rating] and [user_ratings_total] are numbers or null and whose
    [ml_metadata] is an object or null.  For every row processed by the
    pipeline, before and after cohort normalisation, [quality_0_10], [character_0_10],
    [underrated_0_10] and [blended_0_10] are floats in [0, 10] and
    [dive_score] is a float in [0, 100].  [dive_grade] and [gem_label] are a
    step function of the clamped total score before it is rounded to one
    decimal: A iff total >= 85, B iff 70 <= total < 85, C iff
    50 <= total < 70, D otherwise; the label is fixed by the grade.
    [dive_score] is that total rounded, so a [dive_score] strictly above or
    strictly below a boundary settles the grade, while a [dive_score] equal
    to a boundary does not. *)
Theorem C1_scores_in_range_and_grade (results : list (gmap string pyval))
    (scale : Q) :
  (Forall well_typed_row results ->
     is_Some (mapM (λ place, enrich_place place scale) results))
  /\ (forall enriched,
        mapM (λ place, enrich_place place scale) results = Some enriched ->
        Forall2 scored_record results enriched
        /\ Forall2 scored_record results (normalize_and_blend enriched))
  /\ forall total,
       ((dive_grade_of total = "A" <-> 85 <= total)
        /\ (dive_grade_of total = "B" <-> 70 <= total /\ total < 85)
        /\ (dive_grade_of total = "C" <-> 50 <= total /\ total < 70)
        /\ (dive_grade_of total = "D" <-> total < 50))
       /\ ((85 < round1 total -> dive_grade_of total = "A")
           /\ (70 < round1 total /\ round1 total < 85 -> dive_grade_of total = "B")
           /\ (50 < round1 total /\ round1 total < 70 -> dive_grade_of total = "C")
           /\ (round1 total < 50 -> dive_grade_of total = "D")).
Proof.
  split; [apply mapM_enrich_place_is_Some|]. split.
  - intros enriched Hm. split.
    + apply mapM_Some_1 in Hm. eapply Forall2_impl; [exact Hm|].
      intros place p He. simpl in He.
      by apply pipeline_record_scored, (enrich_place_record _ _ scale).
    + eapply Forall2_impl; [by eapply normalize_and_blend_records|].
      apply pipeline_record_scored.
  - intros total. split; [apply dive_grade_of_steps | apply dive_grade_of_displayed].
Qed.

End ScoredRecords.

Section ScoredRecordsExample.
#[local] Existing Instance ExampleRuntime.example_runtime.

Lemma well_typed_examples : Forall well_typed_row [place_a; place_b; place_c].
Proof.
  repeat apply Forall_cons_2; [| | |apply Forall_nil_2];
    (split; [|split]);
    first [ left; by_vm | right; by_vm | right; eexists; by_vm ].
Qed.

Lemma C1_scores_in_range_and_grade_witness :
  is_Some (mapM (λ place, enrich_place place 0.20) [place_a; place_b; place_c])
  /\ Forall2 scored_record [place_a; place_b; place_c] example_enriched
  /\ Forall2 scored_record [place_a; place_b; place_c]
       (normalize_and_blend example_enriched).
Proof.
  split.
  - apply (proj1 (C1_scores_in_range_and_grade [place_a; place_b; place_c] 0.20)).
    apply well_typed_examples.
  - apply (proj1 (proj2 (C1_scores_in_range_and_grade
                           [place_a; place_b; place_c] 0.20))).
    apply Some_default. vm_compute. reflexivity.
Defined.

(** C1, as stated, fails: a total of 84.96 is displayed as a [dive_score]
    of 85.0 and graded B, while a total of 85 is displayed as 85.0 too and
    graded A. *)
Lemma C1_grade_counterexample :
  Qred <$> dive_total place_below_85 = Some (Qred 84.96)
  /\ score_and_grade <$> calculate_dive_score place_below_85
     = Some (VFloat 85, VStr "B")
  /\ Qred <$> dive_total place_at_85 = Some 85
  /\ score_and_grade <$> calculate_dive_score place_at_85
     = Some (VFloat 85, VStr "A").
Proof. by_vm. Qed.

End ScoredRecordsExample.

(** ** Binary64: the nearest number *)

Import Binary64.

Lemma two_pow_pos (e : Z) : 0 < 2 ^ e.
Proof. apply Qpower_0_lt. reflexivity. Qed.

Lemma two_pow_le (a b : Z) : (a <= b)%Z -> 2 ^ a <= 2 ^ b.
Proof. intros H. apply Qpower_le_compat_l; [done | discriminate]. Qed.

Lemma two_pow_lt (a b : Z) : (a < b)%Z -> 2 ^ a < 2 ^ b.
Proof. intros H. apply Qpower_lt_compat_l; [done | reflexivity]. Qed.

Lemma two_pow_plus (a b : Z) : 2 ^ (a + b) == 2 ^ a * 2 ^ b.
Proof. apply Qpower_plus. discriminate. Qed.

Lemma two_pow_succ (a : Z) : 2 ^ (a + 1) == 2 * 2 ^ a.
Proof. rewrite two_pow_plus. change (2 ^ 1) with 2. ring. Qed.

Lemma two_pow_Z (n : Z) : (0 <= n)%Z -> 2 ^ n == inject_Z (2 ^ n).
Proof. intros H. by rewrite Zpower_Qpower. Qed.

Lemma two_pow_minus (a b : Z) : 2 ^ (a - b) == 2 ^ a / 2 ^ b.
Proof. apply Qpower_minus. discriminate. Qed.

(** [Qlog2] gives the binade. *)
Lemma Qlog2_spec (x : Q) :
  0 < x -> 2 ^ Qlog2 x <= x /\ x < 2 ^ (Qlog2 x + 1).
Proof.
  intros Hx. destruct x as [a b]. unfold Qlog2. simpl Qnum. simpl Qden.
  assert (0 < a)%Z as Ha by (unfold Qlt in Hx; simpl in Hx; lia).
  set (la := Z.log2 a). set (lb := Z.log2 (Z.pos b)).
  destruct (Z.log2_spec a Ha) as [Ha1 Ha2]. fold la in Ha1, Ha2.
  destruct (Z.log2_spec (Z.pos b) ltac:(lia)) as [Hb1 Hb2]. fold lb in Hb1, Hb2.
  assert (0 <= la)%Z as Hla by apply Z.log2_nonneg.
  assert (0 <= lb)%Z as Hlb by apply Z.log2_nonneg.
  assert (a # b == inject_Z a / inject_Z (Z.pos b)) as Eab by apply Qmake_Qdiv.
  assert (0 < inject_Z (Z.pos b)) as Hbpos by (unfold Qlt; simpl; lia).
  assert (2 ^ la <= inject_Z a) as Qa1.
  { rewrite two_pow_Z by done. by rewrite <- Zle_Qle. }
  assert (inject_Z a < 2 ^ (la + 1)) as Qa2.
  { rewrite two_pow_Z by lia. rewrite <- Zlt_Qlt. by rewrite <- Z.add_1_r in Ha2. }
  assert (2 ^ lb <= inject_Z (Z.pos b)) as Qb1.
  { rewrite two_pow_Z by done. by rewrite <- Zle_Qle. }
  assert (inject_Z (Z.pos b) < 2 ^ (lb + 1)) as Qb2.
  { rewrite two_pow_Z by lia. rewrite <- Zlt_Qlt. by rewrite <- Z.add_1_r in Hb2. }
  pose proof (two_pow_pos lb) as Plb. pose proof (two_pow_pos la) as Pla.
  pose proof (two_pow_pos (la - lb)) as Pl.
  (* the quotient lies strictly between 2^(la-lb-1) and 2^(la-lb+1) *)
  assert (2 ^ (la - lb - 1) < a # b) as Hlo.
  { rewrite Eab. apply Qlt_shift_div_l; [done|].
    replace (la - lb - 1)%Z with (la - (lb + 1))%Z by lia.
    rewrite two_pow_minus.
    pose proof (two_pow_pos (lb + 1)) as Pb.
    assert (inject_Z (Z.pos b) / 2 ^ (lb + 1) < 1) as Hr.
    { apply Qlt_shift_div_r; [done | lra]. }
    assert (2 ^ la * (inject_Z (Z.pos b) / 2 ^ (lb + 1)) < 2 ^ la * 1) as Hm.
    { by apply Qmult_lt_l. }
    eapply Qlt_le_trans; [|apply Qa1].
    eapply Qle_lt_trans; [|eapply Qlt_le_trans; [apply Hm|]].
    - apply Qle_lteq. right. field. lra.
    - lra. }
  assert (a # b < 2 ^ (la - lb + 1)) as Hhi.
  { rewrite Eab. apply Qlt_shift_div_r; [done|].
    replace (la - lb + 1)%Z with ((la + 1) - lb)%Z by lia.
    rewrite two_pow_minus.
    pose proof (two_pow_pos (la + 1)) as Pa.
    assert (1 <= inject_Z (Z.pos b) / 2 ^ lb) as Hr.
    { apply Qle_shift_div_l; [done | lra]. }
    assert (2 ^ (la + 1) * 1 <= 2 ^ (la + 1) * (inject_Z (Z.pos b) / 2 ^ lb)) as Hm.
    { apply Qmult_le_l; [done | done]. }
    eapply Qlt_le_trans; [apply Qa2|].
    eapply Qle_trans; [|eapply Qle_trans; [apply Hm|]].
    - lra.
    - apply Qle_lteq. right. field. lra. }
  case_Q.
  - replace (la - lb - 1 + 1)%Z with (la - lb)%Z by lia. split; [lra | done].
  - split; [done | lra].
Qed.

Lemma Qlog2_unique (x : Q) (l : Z) :
  2 ^ l <= x -> x < 2 ^ (l + 1) -> Qlog2 x = l.
Proof.
  intros H1 H2.
  assert (0 < x) as Hx by (pose proof (two_pow_pos l); lra).
  destruct (Qlog2_spec x Hx) as [H3 H4].
  assert (Qlog2 x < l + 1)%Z.
  { apply (Qpower_lt_compat_l_inv 2); [lra | reflexivity]. }
  assert (l < Qlog2 x + 1)%Z.
  { apply (Qpower_lt_compat_l_inv 2); [lra | reflexivity]. }
  lia.
Qed.

Lemma Qlog2_mono (x y : Q) : 0 < x -> x <= y -> (Qlog2 x <= Qlog2 y)%Z.
Proof.
  intros Hx Hxy.
  destruct (Qlog2_spec x Hx) as [H1 _].
  destruct (Qlog2_spec y ltac:(lra)) as [_ H2].
  assert (Qlog2 x < Qlog2 y + 1)%Z; [|lia].
  apply (Qpower_lt_compat_l_inv 2); [lra | reflexivity].
Qed.

Lemma u53_pow : u53 == 2 ^ (-53).
Proof. reflexivity. Qed.

Lemma nearest_proper (x y : Q) : x == y -> nearest x = nearest y.
Proof. intros H. unfold nearest. by rewrite (Qred_complete x y H). Qed.

Lemma nearest_0 (x : Q) : x == 0 -> nearest x == 0.
Proof.
  intros H. rewrite (nearest_proper x 0 H). unfold nearest.
  rewrite Qred_correct.
  rewrite (round_half_even_proper _ 0); [apply Qmult_0_l|].
  change (Qred 0) with 0. unfold Qdiv. apply Qmult_0_l.
Qed.

(** [nearest] rounds the significand of [x] in its binade. *)
Lemma nearest_spec (x : Q) (l : Z) :
  2 ^ l <= Qabs x -> Qabs x < 2 ^ (l + 1) ->
  let e := Z.max (-1074) (l - 52) in
  nearest x == inject_Z (round_half_even (x / 2 ^ e)) * 2 ^ e.
Proof.
  intros H1 H2 e. unfold nearest. rewrite Qred_correct.
  assert (ulp_exp (Qred x) = e) as ->.
  { unfold ulp_exp. rewrite (Qlog2_unique _ l); [done | |];
      by rewrite (Qabs_wd _ _ (Qred_correct x)). }
  rewrite (round_half_even_proper (Qred x / 2 ^ e) (x / 2 ^ e)); [reflexivity|].
  by rewrite Qred_correct.
Qed.

Lemma Qabs_bounds (x b : Q) : Qabs x <= b <-> - b <= x /\ x <= b.
Proof. apply Qabs_Qle_condition. Qed.

Lemma Qabs_binade (x : Q) :
  ~ x == 0 -> exists l, 2 ^ l <= Qabs x /\ Qabs x < 2 ^ (l + 1).
Proof.
  intros Hx. exists (Qlog2 (Qabs x)). apply Qlog2_spec.
  pose proof (Qabs_nonneg x) as H. apply Qle_lteq in H as [H | H]; [done|].
  exfalso. apply Hx. destruct (proj1 (Qabs_bounds x 0)); lra.
Qed.

(** The distance to the nearest number is at most half a unit in the last
    place. *)
Lemma nearest_near (x : Q) (l : Z) :
  2 ^ l <= Qabs x -> Qabs x < 2 ^ (l + 1) ->
  let e := Z.max (-1074) (l - 52) in
  - (2 ^ e / 2) <= nearest x - x /\ nearest x - x <= 2 ^ e / 2.
Proof.
  intros H1 H2 e. rewrite (nearest_spec x l H1 H2). fold e.
  pose proof (two_pow_pos e) as Pe.
  pose proof (round_half_even_near (x / 2 ^ e)) as [Ha Hb].
  set (z := inject_Z (round_half_even (x / 2 ^ e))) in *.
  assert (x == x / 2 ^ e * 2 ^ e) as Ex by (field; lra).
  set (q := x / 2 ^ e) in *.
  assert ((z - (1 # 2)) * 2 ^ e <= q * 2 ^ e) as Hc by (apply Qmult_le_compat_r; lra).
  assert (q * 2 ^ e <= (z + (1 # 2)) * 2 ^ e) as Hd by (apply Qmult_le_compat_r; lra).
  clearbody z q. unfold Qdiv. change (/ 2) with (1 # 2). lra.
Qed.

(** Relative error at most [2^-53] on the normal range. *)
Lemma nearest_error_rel (x : Q) :
  2 ^ (-1022) <= Qabs x ->
  - (Qabs x * u53) <= nearest x - x /\ nearest x - x <= Qabs x * u53.
Proof.
  intros Hn.
  assert (~ x == 0) as Hx.
  { intros E. rewrite (Qabs_wd _ _ E) in Hn. pose proof (two_pow_pos (-1022)).
    change (Qabs 0) with 0 in Hn. lra. }
  destruct (Qabs_binade x Hx) as (l & H1 & H2).
  assert (-1022 <= l)%Z as Hl.
  { assert (-1022 < l + 1)%Z; [|lia].
    apply (Qpower_lt_compat_l_inv 2); [lra | reflexivity]. }
  pose proof (nearest_near x l H1 H2) as Hnear. simpl in Hnear.
  replace (Z.max (-1074) (l - 52)) with (l - 52)%Z in Hnear by lia.
  assert (2 ^ (l - 52) / 2 == 2 ^ l * u53) as E.
  { rewrite u53_pow, <- two_pow_plus.
    replace (l + -53)%Z with ((l - 52) - 1)%Z by lia.
    rewrite (two_pow_minus (l - 52) 1). reflexivity. }
  rewrite E in Hnear.
  assert (2 ^ l * u53 <= Qabs x * u53) by (apply Qmult_le_compat_r; [done | discriminate]).
  lra.
Qed.

(** Absolute error at most [2^-53 B] for a bound [B] on the normal range. *)
Lemma nearest_error_abs (x B : Q) :
  - B <= x -> x <= B -> 2 ^ (-1022) <= B ->
  - (B * u53) <= nearest x - x /\ nearest x - x <= B * u53.
Proof.
  intros Hlo Hhi HB.
  assert (Qabs x <= B) as Habs by (by apply Qabs_bounds).
  assert (Qabs x * u53 <= B * u53) as Hm
    by (apply Qmult_le_compat_r; [done | discriminate]).
  destruct (Qlt_le_dec (Qabs x) (2 ^ (-1022))) as [Hs | Hn].
  - assert (2 ^ (-1022) * u53 <= B * u53) as Hb
      by (apply Qmult_le_compat_r; [done | discriminate]).
    destruct (Qeq_dec x 0) as [E | Hx].
    + rewrite (nearest_0 x E), E.
      pose proof (two_pow_pos (-1022)).
      assert (0 <= B * u53); [|lra].
      apply Qmult_le_0_compat; [lra | discriminate].
    + destruct (Qabs_binade x Hx) as (l & H1 & H2).
      assert (l < -1022)%Z as Hl.
      { apply (Qpower_lt_compat_l_inv 2); [lra | reflexivity]. }
      pose proof (nearest_near x l H1 H2) as Hnear. simpl in Hnear.
      replace (Z.max (-1074) (l - 52)) with (-1074)%Z in Hnear by lia.
      assert (2 ^ (-1074) / 2 == 2 ^ (-1022) * u53) as E.
      { rewrite u53_pow, <- two_pow_plus. change (-1022 + -53)%Z with (-1074 - 1)%Z.
        rewrite (two_pow_minus (-1074) 1). reflexivity. }
      rewrite E in Hnear. lra.
  - pose proof (nearest_error_rel x Hn). lra.
Qed.

Lemma Qabs_nonneg_id (x : Q) : 0 <= x -> Qabs x == x.
Proof. apply Qabs_pos. Qed.

Lemma div_two_pow_le (x : Q) (k e : Z) :
  x <= inject_Z k * 2 ^ e -> x / 2 ^ e <= inject_Z k.
Proof.
  intros H. pose proof (two_pow_pos e). apply Qle_shift_div_r; [done | lra].
Qed.

Lemma div_two_pow_ge (x : Q) (k e : Z) :
  inject_Z k * 2 ^ e <= x -> inject_Z k <= x / 2 ^ e.
Proof.
  intros H. pose proof (two_pow_pos e). apply Qle_shift_div_l; [done | lra].
Qed.

(** Rounding does not cross a number of the grid it rounds to. *)
Lemma nearest_le_grid (x : Q) (l k : Z) :
  2 ^ l <= Qabs x -> Qabs x < 2 ^ (l + 1) ->
  let e := Z.max (-1074) (l - 52) in
  x <= inject_Z k * 2 ^ e -> nearest x <= inject_Z k * 2 ^ e.
Proof.
  intros H1 H2 e Hk. rewrite (nearest_spec x l H1 H2). fold e.
  apply Qmult_le_compat_r; [|apply Qlt_le_weak, two_pow_pos].
  rewrite <- Zle_Qle. rewrite <- (round_half_even_Z k).
  apply round_half_even_mono. by apply div_two_pow_le.
Qed.

Lemma nearest_ge_grid (x : Q) (l k : Z) :
  2 ^ l <= Qabs x -> Qabs x < 2 ^ (l + 1) ->
  let e := Z.max (-1074) (l - 52) in
  inject_Z k * 2 ^ e <= x -> inject_Z k * 2 ^ e <= nearest x.
Proof.
  intros H1 H2 e Hk. rewrite (nearest_spec x l H1 H2). fold e.
  apply Qmult_le_compat_r; [|apply Qlt_le_weak, two_pow_pos].
  rewrite <- Zle_Qle. rewrite <- (round_half_even_Z k).
  apply round_half_even_mono. by apply div_two_pow_ge.
Qed.

Lemma nearest_nonneg (x : Q) : 0 <= x -> 0 <= nearest x.
Proof.
  intros Hx. destruct (Qeq_dec x 0) as [E | Hn].
  - rewrite (nearest_0 x E). lra.
  - destruct (Qabs_binade x Hn) as (l & H1 & H2).
    pose proof (nearest_ge_grid x l 0 H1 H2) as H. simpl in H.
    rewrite Qmult_0_l in H. by apply H.
Qed.

Lemma two_pow_grid (a e : Z) : (e <= a)%Z -> 2 ^ a == inject_Z (2 ^ (a - e)) * 2 ^ e.
Proof.
  intros H. rewrite <- two_pow_Z by lia. rewrite <- two_pow_plus.
  by replace (a - e + e)%Z with a by lia.
Qed.

(** Rounding to nearest is monotone. *)
Lemma nearest_mono_nonneg (x y : Q) : 0 <= x -> x <= y -> nearest x <= nearest y.
Proof.
  intros Hx Hxy. destruct (Qeq_dec x 0) as [E | Hn].
  { rewrite (nearest_0 x E). apply nearest_nonneg. lra. }
  assert (0 < x) as Hxp by lra.
  assert (~ y == 0) as Hyn by lra.
  destruct (Qabs_binade x Hn) as (lx & X1 & X2).
  destruct (Qabs_binade y Hyn) as (ly & Y1 & Y2).
  assert (Qabs x == x) as Ax by (apply Qabs_nonneg_id; lra).
  assert (Qabs y == y) as Ay by (apply Qabs_nonneg_id; lra).
  assert (lx <= ly)%Z as Hl.
  { assert (lx < ly + 1)%Z; [|lia].
    apply (Qpower_lt_compat_l_inv 2); [lra | reflexivity]. }
  set (ex := Z.max (-1074) (lx - 52)). set (ey := Z.max (-1074) (ly - 52)).
  destruct (Z.eq_dec ex ey) as [Ee | Ne].
  - rewrite (nearest_spec x lx X1 X2), (nearest_spec y ly Y1 Y2).
    fold ex ey. rewrite Ee.
    apply Qmult_le_compat_r; [|apply Qlt_le_weak, two_pow_pos].
    rewrite <- Zle_Qle. apply round_half_even_mono.
    pose proof (two_pow_pos ey).
    apply Qle_shift_div_l; [done|].
    assert (x / 2 ^ ey * 2 ^ ey == x) as -> by (field; lra). done.
  - assert (ex < ey)%Z as Hlt by lia.
    assert (ey = ly - 52)%Z as Eey by lia.
    assert (lx + 1 <= ly)%Z as Hl' by lia.
    pose proof (two_pow_le (lx + 1) ly Hl') as Hp.
    apply (Qle_trans _ (2 ^ ly)).
    + rewrite (two_pow_grid ly ex) by lia.
      apply (nearest_le_grid x lx _ X1 X2). fold ex.
      rewrite <- two_pow_grid by lia. lra.
    + rewrite (two_pow_grid ly ey) by lia.
      apply (nearest_ge_grid y ly _ Y1 Y2). fold ey.
      rewrite <- two_pow_grid by lia. lra.
Qed.

(** A representable number is its own nearest number. *)
Lemma nearest_exact (x : Q) : representable x -> nearest x == x.
Proof.
  intros (m & e' & Hm & He' & Ex).
  destruct (Z.eq_dec m 0%Z) as [-> | Hm0].
  { change (inject_Z 0) with 0 in Ex. rewrite Qmult_0_l in Ex.
    by rewrite (nearest_0 x Ex), Ex. }
  assert (~ x == 0) as Hx.
  { intros E. rewrite E in Ex. symmetry in Ex. apply Qmult_integral in Ex as [Ez | Ep].
    - apply Hm0. by apply (proj1 (inject_Z_injective m 0)).
    - pose proof (two_pow_pos e'). lra. }
  destruct (Qabs_binade x Hx) as (l & H1 & H2).
  assert (Qabs x == inject_Z (Z.abs m) * 2 ^ e') as Ea.
  { rewrite (Qabs_wd _ _ Ex), Qabs_Qmult, (Qabs_pos (2 ^ e'));
      [|apply Qlt_le_weak, two_pow_pos].
    reflexivity. }
  assert (l - 52 <= e')%Z as Hle.
  { assert (l < 53 + e')%Z; [|lia].
    apply (Qpower_lt_compat_l_inv 2); [|reflexivity].
    eapply Qle_lt_trans; [apply H1|]. rewrite Ea, two_pow_plus.
    apply Qmult_lt_r; [apply two_pow_pos|].
    rewrite two_pow_Z by lia. by rewrite <- Zlt_Qlt. }
  rewrite (nearest_spec x l H1 H2).
  set (e := Z.max (-1074) (l - 52)).
  assert (e <= e')%Z as Hee by lia.
  assert (x / 2 ^ e == inject_Z (m * 2 ^ (e' - e))) as Eq.
  { rewrite inject_Z_mult, <- two_pow_Z by lia. rewrite two_pow_minus, Ex.
    pose proof (two_pow_pos e). field. lra. }
  rewrite (round_half_even_proper _ _ Eq), round_half_even_Z, <- Eq.
  pose proof (two_pow_pos e). field. lra.
Qed.

(** The result of rounding is a binary64 number. *)
Lemma nearest_representable (x : Q) : representable (nearest x).
Proof.
  destruct (Qeq_dec x 0) as [E | Hx].
  { exists 0%Z, 0%Z. split; [done|]. split; [done|].
    rewrite (nearest_0 x E). change (inject_Z 0) with 0. by rewrite Qmult_0_l. }
  destruct (Qabs_binade x Hx) as (l & H1 & H2).
  pose proof (nearest_spec x l H1 H2) as Hs. simpl in Hs.
  set (e := Z.max (-1074) (l - 52)) in *.
  set (z := round_half_even (x / 2 ^ e)) in *.
  pose proof (two_pow_pos e) as Pe.
  assert (Qabs x <= inject_Z (2 ^ 53) * 2 ^ e) as Hb.
  { rewrite <- two_pow_Z by lia. rewrite <- two_pow_plus.
    apply Qlt_le_weak. eapply Qlt_le_trans; [apply H2|]. apply two_pow_le. lia. }
  apply Qabs_bounds in Hb as [Hb1 Hb2].
  assert (- 2 ^ 53 <= z)%Z as Hz1.
  { rewrite <- (round_half_even_Z (- 2 ^ 53)). apply round_half_even_mono.
    apply div_two_pow_ge. rewrite inject_Z_opp. lra. }
  assert (z <= 2 ^ 53)%Z as Hz2.
  { rewrite <- (round_half_even_Z (2 ^ 53)). apply round_half_even_mono.
    by apply div_two_pow_le. }
  unfold representable. change (2 ^ 53)%Z with 9007199254740992%Z in *.
  destruct (Z.eq_dec (Z.abs z) 9007199254740992%Z) as [Ez | Nz].
  - exists (z / 2)%Z, (e + 1)%Z. split; [|split; [lia|]].
    + pose proof (Z.div_le_lower_bound z 2 (- 4503599627370496)).
      pose proof (Z.div_lt_upper_bound z 2 9007199254740992). lia.
    + rewrite Hs, two_pow_succ.
      assert (z = 2 * (z / 2))%Z as Ez2.
      { destruct (Z.abs_eq_or_opp z) as [Ea | Ea]; rewrite Ea in Ez.
        - by rewrite Ez.
        - assert (z = - 9007199254740992)%Z as -> by lia. done. }
      rewrite Ez2 at 1. rewrite inject_Z_mult. change (inject_Z 2) with 2. ring.
  - exists z, e. split; [lia|]. split; [lia|]. exact Hs.
Qed.

Lemma nearest_canonical (x : Q) : Qred (nearest x) = nearest x.
Proof. unfold nearest. apply Qred_complete, Qred_correct. Qed.

Lemma nearest_idempotent (x : Q) : nearest (nearest x) = nearest x.
Proof.
  pose proof (nearest_exact _ (nearest_representable x)) as H.
  rewrite <- (nearest_canonical (nearest x)).
  by rewrite (Qred_complete _ _ H), nearest_canonical.
Qed.


Lemma representable_Z (k : Z) : (Z.abs k < 2 ^ 53)%Z -> representable (inject_Z k).
Proof.
  intros H. exists k, 0%Z. split; [done|]. split; [done|].
  change (2 ^ 0) with 1. ring.
Qed.

(** ** Binary64: the blend *)

(** One rounding of a number of magnitude at most 16 moves it by at most
    [2^-49]. *)
Lemma nearest_16 (x : Q) :
  -16 <= x /\ x <= 16 -> x - eps16 <= nearest x /\ nearest x <= x + eps16.
Proof.
  intros [H1 H2].
  destruct (nearest_error_abs x 16 H1 H2) as [Ha Hb].
  { apply Qlt_le_weak. apply (two_pow_lt (-1022) 4). lia. }
  change (16 * u53) with (16 # 9007199254740992) in Ha, Hb.
  unfold eps16. lra.
Qed.

Lemma nearest_040 : nearest 0.40 = 3602879701896397 # 9007199254740992.
Proof. vm_compute. reflexivity. Qed.

Lemma nearest_035 : nearest 0.35 = 3152519739159347 # 9007199254740992.
Proof. vm_compute. reflexivity. Qed.

Lemma nearest_025 : nearest 0.25 = 1 # 4.
Proof. vm_compute. reflexivity. Qed.

#[local] Opaque nearest.

(** Name the result of the innermost rounding and bound it. *)
Ltac round_step :=
  match goal with
  | |- context [nearest ?t] =>
      lazymatch t with
      | context [nearest _] => fail
      | _ =>
          let H := fresh "Hr" in
          let n := fresh "r" in
          assert (t - eps16 <= nearest t /\ nearest t <= t + eps16) as H
            by (apply nearest_16; unfold eps16 in *; qlra);
          set (n := nearest t) in *; clearbody n
      end
  end.

Ltac total_weight :=
  match goal with
  | |- context [Binary64.fsum ?l] =>
      lazymatch l with
      | context [fmul] => fail
      | _ =>
          let v := eval vm_compute in (Binary64.fsum l) in
          replace (Binary64.fsum l) with v by (vm_compute; reflexivity)
      end
  end.

Section BlendBinary64.
Context {RT : Runtime}.

Ltac blend_case mean :=
  match goal with
  | |- exists x, Some (round1 ?e) = Some (round1 x) /\ ?m - _ <= x /\ x <= ?m + _ =>
      exists e; split; [reflexivity|];
      assert (m == mean) as -> by (unfold Qsum; simpl; field);
      rewrite ?nearest_040, ?nearest_035, ?nearest_025;
      total_weight;
      unfold fsum, fadd, fmul, fdiv; simpl foldl;
      repeat round_step;
      unfold tolerance, eps16 in *; qlra
  end.

(** The quotient that [blended_0_10] rounds lies within the tolerance of
    the exact mean. *)
Lemma blended_0_10_binary64_raw (place : gmap string pyval) (q c u : option Q) :
  lens_numbers place = (q, c, u) ->
  in_0_10 q -> in_0_10 c -> in_0_10 u ->
  match renormalized_mean q c u with
  | None => blended_0_10_binary64 place = None
  | Some m =>
      exists x, blended_0_10_binary64 place = Some (round1 x)
                /\ m - tolerance <= x /\ x <= m + tolerance
  end.
Proof.
  intros [= <- <- <-]. unfold blended_0_10_binary64.
  destruct (is_number (get place "quality_0_10")) eqn:Eq;
    [apply is_number_as_number in Eq as (q & -> & ->)
    |apply is_number_false in Eq as ->];
  (destruct (is_number (get place "character_0_10")) eqn:Ec;
    [apply is_number_as_number in Ec as (c & -> & ->)
    |apply is_number_false in Ec as ->]);
  (destruct (is_number (get place "underrated_0_10")) eqn:Eu;
    [apply is_number_as_number in Eu as (u & -> & ->)
    |apply is_number_false in Eu as ->]);
  unfold renormalized_mean, in_0_10; simpl; intros Hq Hc Hu; try done.
  - blend_case (0.40 * q + 0.35 * c + 0.25 * u).
  - blend_case ((8 # 15) * q + (7 # 15) * c).
  - blend_case ((8 # 13) * q + (5 # 13) * u).
  - blend_case q.
  - blend_case ((7 # 12) * c + (5 # 12) * u).
  - blend_case c.
  - blend_case u.
Qed.

End BlendBinary64.

Lemma round_half_even_unique (t : Q) (z : Z) :
  inject_Z z - (1 # 2) < t -> t < inject_Z z + (1 # 2) -> round_half_even t = z.
Proof.
  intros H1 H2. destruct (round_half_even_near t) as [Ha Hb].
  set (r := round_half_even t) in *.
  assert (inject_Z r < inject_Z z + 1) as Hc by lra.
  assert (inject_Z z < inject_Z r + 1) as Hd by lra.
  change 1 with (inject_Z 1) in Hc, Hd.
  rewrite <- inject_Z_plus in Hc, Hd.
  rewrite <- Zlt_Qlt in Hc, Hd. lia.
Qed.

(** Away from the halfway points the rounding to one decimal does not see
    a perturbation within the tolerance, for a mean of one-decimal scores
    (a multiple of [1/15600] whichever components are present). *)
Lemma round1_stable (x m : Q) (N : Z) :
  m * 15600 == inject_Z N -> is_halfway (m * 10) = false ->
  m - tolerance <= x -> x <= m + tolerance ->
  round1 x = round1 m.
Proof.
  intros HN Hh H1 H2. unfold round1. f_equal. f_equal. f_equal.
  apply round_half_even_unique.
  - set (y := m * 10) in *. destruct (round_half_even_near y) as [Ha Hb].
    set (z := round_half_even y) in *.
    assert (inject_Z (N - 1560 * z) == 1560 * (y - inject_Z z)) as Hd.
    { unfold Zminus. rewrite inject_Z_plus, inject_Z_opp, inject_Z_mult, <- HN.
      unfold y. change (inject_Z 1560) with 1560. ring. }
    assert (N - 1560 * z <> -780)%Z as Hn.
    { intros E. rewrite E in Hd. unfold is_halfway in Hh. fold z in Hh.
      apply Qeq_bool_neq in Hh. apply Hh.
      assert (y - inject_Z z == - (1 # 2)) as -> by (change (inject_Z (-780)) with (-780) in Hd; lra).
      reflexivity. }
    assert (-780 <= N - 1560 * z)%Z as Hlo.
    { rewrite Zle_Qle, Hd. change (inject_Z (-780)) with (-780). lra. }
    assert (-779 <= N - 1560 * z)%Z as Hlo' by lia.
    rewrite Zle_Qle, Hd in Hlo'.
    change (inject_Z (-779)) with (-779) in Hlo'.
    unfold y, tolerance in *. lra.
  - set (y := m * 10) in *. destruct (round_half_even_near y) as [Ha Hb].
    set (z := round_half_even y) in *.
    assert (inject_Z (N - 1560 * z) == 1560 * (y - inject_Z z)) as Hd.
    { unfold Zminus. rewrite inject_Z_plus, inject_Z_opp, inject_Z_mult, <- HN.
      unfold y. change (inject_Z 1560) with 1560. ring. }
    assert (N - 1560 * z <> 780)%Z as Hn.
    { intros E. rewrite E in Hd. unfold is_halfway in Hh. fold z in Hh.
      apply Qeq_bool_neq in Hh. apply Hh.
      assert (y - inject_Z z == 1 # 2) as -> by (change (inject_Z 780) with 780 in Hd; lra).
      reflexivity. }
    assert (N - 1560 * z <= 780)%Z as Hhi.
    { rewrite Zle_Qle, Hd. change (inject_Z 780) with 780. lra. }
    assert (N - 1560 * z <= 779)%Z as Hhi' by lia.
    rewrite Zle_Qle, Hd in Hhi'.
    change (inject_Z 779) with 779 in Hhi'.
    unfold y, tolerance in *. lra.
Qed.

(** The mean of one-decimal scores is a multiple of [1/15600]. *)
Lemma renormalized_mean_grid (q c u : option Q) (m : Q) :
  one_decimal q -> one_decimal c -> one_decimal u ->
  renormalized_mean q c u = Some m ->
  exists N : Z, m * 15600 == inject_Z N.
Proof.
  unfold renormalized_mean, one_decimal.
  destruct q as [q|], c as [c|], u as [u|]; intros Hq Hc Hu Hm;
    simpl in Hm; try done; injection Hm as <-.
  - destruct Hq as [a Ha], Hc as [b Hb], Hu as [d Hd].
    exists (624 * a + 546 * b + 390 * d)%Z.
    unfold Qsum; simpl. rewrite !inject_Z_plus, !inject_Z_mult, Ha, Hb, Hd. field.
  - destruct Hq as [a Ha], Hc as [b Hb].
    exists (832 * a + 728 * b)%Z.
    unfold Qsum; simpl. rewrite !inject_Z_plus, !inject_Z_mult, Ha, Hb. field.
  - destruct Hq as [a Ha], Hu as [d Hd].
    exists (960 * a + 600 * d)%Z.
    unfold Qsum; simpl. rewrite !inject_Z_plus, !inject_Z_mult, Ha, Hd. field.
  - destruct Hq as [a Ha]. exists (1560 * a)%Z.
    unfold Qsum; simpl. rewrite !inject_Z_mult, Ha. field.
  - destruct Hc as [b Hb], Hu as [d Hd].
    exists (910 * b + 650 * d)%Z.
    unfold Qsum; simpl. rewrite !inject_Z_plus, !inject_Z_mult, Hb, Hd. field.
  - destruct Hc as [b Hb]. exists (1560 * b)%Z.
    unfold Qsum; simpl. rewrite !inject_Z_mult, Hb. field.
  - destruct Hu as [d Hd]. exists (1560 * d)%Z.
    unfold Qsum; simpl. rewrite !inject_Z_mult, Hd. field.
Qed.

Lemma renormalized_blend_mean (q c u : option Q) :
  renormalized_blend q c u = round1 <$> renormalized_mean q c u.
Proof.
  unfold renormalized_blend, renormalized_mean.
  by destruct q, c, u.
Qed.

(** ** Binary64: the custom score *)

Lemma nearest_nonpos (x : Q) : x <= 0 -> nearest x <= 0.
Proof.
  intros Hx. destruct (Qeq_dec x 0) as [E | Hn].
  - rewrite (nearest_0 x E). lra.
  - destruct (Qabs_binade x Hn) as (l & H1 & H2).
    pose proof (nearest_le_grid x l 0 H1 H2) as H. simpl in H.
    rewrite Qmult_0_l in H. by apply H.
Qed.

Lemma nearest_10 : nearest 10.0 = 10.
Proof. vm_compute. reflexivity. Qed.

Lemma nearest_1 : nearest 1 = 1.
Proof. vm_compute. reflexivity. Qed.

Lemma nearest_zero : nearest 0 = 0.
Proof. vm_compute. reflexivity. Qed.

Lemma nearest_unit (v : Q) : 0 <= v <= 1 -> 0 <= nearest v <= 1.
Proof.
  intros [H0 H1]. split; [by apply nearest_nonneg|].
  rewrite <- nearest_1. by apply nearest_mono_nonneg.
Qed.

Lemma nearest_ordinary (w : Q) : w_min <= w <= w_max -> w_min <= nearest w <= w_max.
Proof.
  intros [H1 H2]. split.
  - assert (nearest w_min = w_min) as <- by (vm_compute; reflexivity).
    apply nearest_mono_nonneg; [discriminate | done].
  - assert (nearest w_max = w_max) as <- by (vm_compute; reflexivity).
    apply nearest_mono_nonneg; [|done]. unfold w_min in H1. lra.
Qed.

Lemma w_min_normal : 2 ^ (-1022) <= w_min.
Proof. change w_min with (2 ^ (-32)). apply two_pow_le. lia. Qed.

Section CustomBinary64.
Context {RT : Runtime}.

Lemma custom_loop_binary64 (place : gmap string pyval)
    (valid_weights : list (string * Q)) (acc : Q * Q) :
  foldl (λ acc sw,
           let col := default "" (SIGNAL_COLUMNS !! fst sw) in
           let weight := nearest (snd sw) in
           match _safe_float_opt (get place col) with
           | Some val =>
               if Qltb 0 weight
               then (fadd (fst acc) (fmul (nearest val) weight),
                     fadd (snd acc) weight)
               else acc
           | None => acc
           end) acc valid_weights
  = foldl acc_step acc (contributing_binary64 valid_weights place).
Proof.
  revert acc. induction valid_weights as [|sw vw IH]; intros acc; [done|].
  cbn [foldl]. rewrite IH. unfold contributing_binary64 at 2, signal_value.
  cbn [omap list_omap].
  destruct (_safe_float_opt (get place (default "" (SIGNAL_COLUMNS !! fst sw))))
    as [val|]; [|done].
  by destruct (Qltb 0 (nearest (snd sw))).
Qed.

Lemma custom_score_binary64_unfold (valid_weights : list (string * Q))
    (place : gmap string pyval) :
  custom_score_binary64 valid_weights place
  = let acc := foldl acc_step (0.0, 0.0) (contributing_binary64 valid_weights place) in
    if Qltb 0 (snd acc)
    then round1 (fmul (fdiv (fst acc) (snd acc)) (nearest 10.0))
    else 5.0.
Proof.
  unfold custom_score_binary64. by rewrite custom_loop_binary64.
Qed.

Lemma contributing_binary64_good (valid_weights : list (string * Q))
    (place : gmap string pyval) :
  ordinary_weights valid_weights -> unit_signals valid_weights place ->
  Forall good_term (contributing_binary64 valid_weights place)
  /\ (length (contributing_binary64 valid_weights place) <= 16)%nat.
Proof.
  intros [Hlen Hw] Hs. split.
  - clear Hlen. unfold contributing_binary64.
    induction valid_weights as [|sw vw IH]; [constructor|].
    apply Forall_cons in Hw as [Hw1 Hw], Hs as [Hs1 Hs].
    cbn [omap list_omap].
    destruct (signal_value place (fst sw)) as [val|]; [|by apply IH].
    destruct (Qltb 0 (nearest (snd sw))) eqn:E; [|by apply IH].
    cbn. constructor; [|by apply IH].
    apply Qltb_lt in E. split; cbn [fst snd].
    + by apply nearest_unit.
    + destruct Hw1 as [Hneg | Hord]; [|by apply nearest_ordinary].
      apply nearest_nonpos in Hneg. lra.
  - etrans; [|apply Hlen]. unfold contributing_binary64.
    clear. induction valid_weights as [|sw vw IH]; [done|].
    cbn [omap list_omap].
    destruct (signal_value place (fst sw)); [|cbn; lia].
    destruct (Qltb 0 (nearest (snd sw))); cbn; lia.
Qed.

End CustomBinary64.

Lemma Qsum_snoc (l : list Q) (x : Q) : Qsum (l ++ [x]) = Qsum l + x.
Proof. unfold Qsum. by rewrite foldl_app. Qed.

Section CustomInvariant.
Context {RT : Runtime}.

Lemma sum_products_snoc (c : list (Q * Q)) (x : Q * Q) :
  sum_products (c ++ [x]) = sum_products c + fst x * snd x.
Proof. unfold sum_products. rewrite fmap_app. apply Qsum_snoc. Qed.

Lemma sum_weights_snoc (c : list (Q * Q)) (x : Q * Q) :
  sum_weights (c ++ [x]) = sum_weights c + snd x.
Proof. unfold sum_weights. rewrite fmap_app. apply Qsum_snoc. Qed.

(** The two accumulators after the loop: the error of each is at most
    [2^-52] (weights) or [3 * 2^-53] (products) of the sum of the weights
    for every turn made. *)
Lemma acc_invariant (c : list (Q * Q)) :
  Forall good_term c -> (length c <= 16)%nat ->
  let acc := foldl acc_step (0.0, 0.0) c in
  let k := inject_Z (Z.of_nat (length c)) in
  let S := sum_products c in
  let W := sum_weights c in
  0 <= fst acc /\ 0 <= snd acc /\ 0 <= S /\ S <= W
  /\ W - k * W * (2 # 9007199254740992) <= snd acc
  /\ snd acc <= W + k * W * (2 # 9007199254740992)
  /\ S - k * W * (3 # 9007199254740992) <= fst acc
  /\ fst acc <= S + k * W * (3 # 9007199254740992)
  /\ (c <> [] -> w_min <= W).
Proof.
  induction c as [|x l IH] using rev_ind; intros Hgood Hlen.
  { cbn. unfold sum_products, sum_weights, Qsum. cbn.
    repeat split; try lra; try done. }
  apply Forall_app in Hgood as [Hl Hx]. rewrite Forall_singleton in Hx.
  rewrite length_app in Hlen. cbn [length] in Hlen.
  specialize (IH Hl ltac:(lia)). cbn zeta in IH. cbn zeta.
  rewrite foldl_app, length_app, sum_products_snoc, sum_weights_snoc.
  cbn [foldl length].
  destruct x as [v w]. unfold good_term in Hx. cbn [fst snd] in *.
  destruct Hx as [[Hv0 Hv1] [Hw0 Hw1]].
  destruct (foldl acc_step (0.0, 0.0) l) as [a_s a_w].
  unfold acc_step. cbn [fst snd] in *.
  replace (Z.of_nat (length l + 1)) with (Z.of_nat (length l) + 1)%Z by lia.
  rewrite inject_Z_plus. change (inject_Z 1) with 1.
  assert (0 <= inject_Z (Z.of_nat (length l)) <= 15) as [Hk0 Hk1].
  { split.
    - change 0 with (inject_Z 0). rewrite <- Zle_Qle. lia.
    - change 15 with (inject_Z 15). rewrite <- Zle_Qle. lia. }
  set (k := inject_Z (Z.of_nat (length l))) in *. clearbody k.
  set (S := sum_products l) in *. set (W := sum_weights l) in *. clearbody S W.
  destruct IH as (Ias & Iaw & IS0 & ISW & Iw1 & Iw2 & Is1 & Is2 & Imin).
  pose proof w_min_normal as Hnorm.
  assert (0 < w) as Hwpos by (unfold w_min in Hw0; lra).
  assert (0 <= W) as HW0 by lra.
  (* the products that are not linear *)
  assert (0 <= v * w) as Hp0 by (apply Qmult_le_0_compat; lra).
  assert (v * w <= w) as Hp1.
  { rewrite <- (Qmult_1_l w) at 2. apply Qmult_le_compat_r; lra. }
  assert (0 <= k * W) as HkW0 by (apply Qmult_le_0_compat; lra).
  assert (k * W <= 15 * W) as HkW1 by (apply Qmult_le_compat_r; lra).
  assert (0 <= k * w) as Hkw0 by (apply Qmult_le_0_compat; lra).
  unfold fadd, fmul.
  (* the product *)
  destruct (nearest_error_abs (v * w) w ltac:(lra) ltac:(lra) ltac:(lra))
    as [Hp2 Hp3].
  pose proof (nearest_nonneg (v * w) Hp0) as Hp4.
  set (p := nearest (v * w)) in *. clearbody p.
  (* the sum of the products *)
  destruct (nearest_error_abs (a_s + p) (2 * (W + w))) as [Hs2 Hs3];
    [unfold u53 in *; lra | unfold u53 in *; lra | lra |].
  pose proof (nearest_nonneg (a_s + p) ltac:(lra)) as Hs4.
  set (a_s' := nearest (a_s + p)) in *. clearbody a_s'.
  (* the sum of the weights *)
  destruct (nearest_error_abs (a_w + w) (2 * (W + w))) as [Hw2 Hw3];
    [unfold u53 in *; lra | unfold u53 in *; lra | lra |].
  pose proof (nearest_nonneg (a_w + w) ltac:(lra)) as Hw4.
  set (a_w' := nearest (a_w + w)) in *. clearbody a_w'.
  unfold u53 in *.
  unfold w_min in *. repeat split; lra.
Qed.


End CustomInvariant.

Section CustomScoreBinary64.
Context {RT : Runtime}.

(** The number that the custom score rounds lies within half the tolerance
    of ten times the exact weighted mean of the binary64 values and
    weights. *)
Lemma custom_score_binary64_raw (valid_weights : list (string * Q))
    (place : gmap string pyval) :
  ordinary_weights valid_weights -> unit_signals valid_weights place ->
  contributing_binary64 valid_weights place <> [] ->
  let mu := weighted_mean (contributing_binary64 valid_weights place) in
  exists x, custom_score_binary64 valid_weights place = round1 x
            /\ mu * 10 - tolerance / 2 <= x /\ x <= mu * 10 + tolerance / 2.
Proof.
  intros Hw Hs Hne mu.
  destruct (contributing_binary64_good valid_weights place Hw Hs) as [Hgood Hlen].
  rewrite custom_score_binary64_unfold. cbn zeta.
  pose proof (acc_invariant _ Hgood Hlen) as Inv. cbn zeta in Inv.
  unfold mu, weighted_mean.
  fold (sum_products (contributing_binary64 valid_weights place)).
  fold (sum_weights (contributing_binary64 valid_weights place)).
  set (c := contributing_binary64 valid_weights place) in *.
  assert (0 <= inject_Z (Z.of_nat (length c)) <= 16) as [Hk0 Hk1].
  { split.
    - change 0 with (inject_Z 0). rewrite <- Zle_Qle. lia.
    - change 16 with (inject_Z 16). rewrite <- Zle_Qle. lia. }
  set (k := inject_Z (Z.of_nat (length c))) in *. clearbody k.
  destruct (foldl acc_step (0.0, 0.0) c) as [a_s a_w]. cbn [fst snd] in *.
  set (S := sum_products c) in *. set (W := sum_weights c) in *.
  destruct Inv as (Ias & Iaw & IS0 & ISW & Iw1 & Iw2 & Is1 & Is2 & Imin).
  specialize (Imin Hne). clearbody S W. clear Hne Hgood Hlen. clearbody c.
  assert (0 < W) as HW by (unfold w_min in Imin; lra).
  assert (0 <= k * W) as HkW0 by (apply Qmult_le_0_compat; lra).
  assert (k * W <= 16 * W) as HkW1 by (apply Qmult_le_compat_r; lra).
  assert (0 < a_w) as Haw by lra.
  rewrite (proj2 (Qltb_lt 0 a_w) Haw).
  eexists. split; [reflexivity|].
  (* the exact mean *)
  set (m := S / W).
  assert (m * W == S) as HmW by (unfold m; field; lra).
  assert (0 <= m) as Hm0 by (unfold m; apply Qle_shift_div_l; lra).
  assert (m <= 1) as Hm1 by (unfold m; apply Qle_shift_div_r; lra).
  clearbody m.
  (* the quotient of the accumulators *)
  set (eta := 1 # 35184372088832).
  assert (m * (a_w - (W - 16 * W * (2 # 9007199254740992))) >= 0) as Hq1
    by (apply Qmult_le_0_compat; lra).
  assert (m * (W + 16 * W * (2 # 9007199254740992) - a_w) >= 0) as Hq2
    by (apply Qmult_le_0_compat; lra).
  assert (a_s / a_w <= m + eta) as Hr1.
  { apply Qle_shift_div_r; [done|]. unfold eta. lra. }
  assert (m - eta <= a_s / a_w) as Hr2.
  { apply Qle_shift_div_l; [done|]. unfold eta. lra. }
  unfold fmul, fdiv. rewrite nearest_10.
  set (r := a_s / a_w) in *. clearbody r. unfold eta in *.
  destruct (nearest_16 r) as [Hx1 Hx2]; [lra|].
  set (x1 := nearest r) in *. clearbody x1. unfold eps16 in *.
  destruct (nearest_16 (x1 * 10)) as [Hy1 Hy2]; [lra|].
  set (x2 := nearest (x1 * 10)) in *. clearbody x2.
  unfold tolerance, eps16 in *. qlra.
Qed.

(** No contributing signal, neutral score. *)
Lemma custom_score_binary64_neutral (valid_weights : list (string * Q))
    (place : gmap string pyval) :
  Forall (λ sw, signal_value place (fst sw) = None \/ snd sw <= 0) valid_weights ->
  custom_score_binary64 valid_weights place = 5.0.
Proof.
  intros H. rewrite custom_score_binary64_unfold.
  assert (contributing_binary64 valid_weights place = []) as ->; [|done].
  unfold contributing_binary64. induction H as [|sw vw Hsw Hvw IH]; [done|].
  cbn [omap list_omap]. rewrite IH. destruct Hsw as [-> | Hneg]; [done|].
  destruct (signal_value place (fst sw)); [|done].
  apply nearest_nonpos in Hneg. by apply Qltb_ge in Hneg as ->.
Qed.


(** The example of the design: 0.8 with the weight 1.0. *)
Lemma custom_score_binary64_example (place : gmap string pyval) (v : Q) :
  _safe_float_opt (get place "avg_food_drink_quality") = Some v -> v == 0.8 ->
  custom_score_binary64 [("food_drink_quality", 1.0)] place = 8.
Proof.
  intros Hv Ev. unfold custom_score_binary64. cbn [foldl fst snd].
  change (default "" (SIGNAL_COLUMNS !! "food_drink_quality"))
    with "avg_food_drink_quality".
  rewrite Hv, (nearest_proper v 0.8 Ev). vm_compute. reflexivity.
Qed.

End CustomScoreBinary64.

Section CustomScoreMean.
Context {RT : Runtime}.

(** With ordinary weights the loop sees the signals that contribute in
    exact arithmetic, each value and weight rounded to binary64. *)
Lemma contributing_binary64_fmap (valid_weights : list (string * Q))
    (place : gmap string pyval) :
  Forall (λ sw, snd sw <= 0 \/ w_min <= snd sw <= w_max) valid_weights ->
  contributing_binary64 valid_weights place
  = (λ vw, (nearest (fst vw), nearest (snd vw))) <$> contributing valid_weights place.
Proof.
  unfold contributing_binary64, contributing.
  induction 1 as [|sw vw Hsw Hvw IH]; [done|].
  cbn [omap list_omap]. rewrite IH.
  destruct (signal_value place (fst sw)) as [val|]; [|done].
  destruct Hsw as [Hneg | Hord].
  - pose proof (nearest_nonpos _ Hneg) as Hn.
    apply Qltb_ge in Hneg as ->. by apply Qltb_ge in Hn as ->.
  - pose proof (nearest_ordinary _ Hord) as [Hn _].
    assert (0 < snd sw) as H1 by (destruct Hord; unfold w_min in *; lra).
    assert (0 < nearest (snd sw)) as H2 by (unfold w_min in *; lra).
    apply Qltb_lt in H1 as ->. by apply Qltb_lt in H2 as ->.
Qed.

Lemma contributing_good (valid_weights : list (string * Q))
    (place : gmap string pyval) :
  ordinary_weights valid_weights -> unit_signals valid_weights place ->
  Forall good_term (contributing valid_weights place).
Proof.
  intros [_ Hw] Hs. unfold contributing.
  induction valid_weights as [|sw vw IH]; [constructor|].
  apply Forall_cons in Hw as [Hw1 Hw], Hs as [Hs1 Hs].
  cbn [omap list_omap].
  destruct (signal_value place (fst sw)) as [val|]; [|by apply IH].
  destruct (Qltb 0 (snd sw)) eqn:E; [|by apply IH].
  cbn. constructor; [|by apply IH].
  apply Qltb_lt in E. split; cbn [fst snd]; [done|].
  destruct Hw1 as [Hneg | Hord]; [lra | done].
Qed.

Lemma Qmult_unit_bound (a b c : Q) :
  0 <= a <= 1 -> - c <= b <= c -> - c <= a * b /\ a * b <= c.
Proof.
  intros [Ha0 Ha1] [Hb0 Hb1].
  assert (0 <= a * (c - b)) by (apply Qmult_le_0_compat; lra).
  assert (0 <= a * (b + c)) by (apply Qmult_le_0_compat; lra).
  assert (0 <= (1 - a) * (c - b)) by (apply Qmult_le_0_compat; lra).
  assert (0 <= (1 - a) * (b + c)) by (apply Qmult_le_0_compat; lra).
  split; lra.
Qed.

(** Rounding the values and the weights moves the two exact sums by at
    most [2^-52] and [2^-53] of the sum of the weights. *)
Lemma rounded_sums (c : list (Q * Q)) :
  Forall good_term c ->
  let c' := (λ vw, (nearest (fst vw), nearest (snd vw))) <$> c in
  let W := sum_weights c in
  0 <= sum_products c /\ sum_products c <= W
  /\ (c <> [] -> w_min <= W) /\ 0 <= W
  /\ W - W * u53 <= sum_weights c' /\ sum_weights c' <= W + W * u53
  /\ sum_products c - W * (2 * u53) - W * (2 * u53) <= sum_products c'
  /\ sum_products c' <= sum_products c + W * (2 * u53) + W * (2 * u53).
Proof.
  induction c as [|x l IH] using rev_ind; intros Hgood.
  { cbn. unfold sum_products, sum_weights, Qsum, u53. cbn.
    repeat split; try lra; done. }
  apply Forall_app in Hgood as [Hl Hx]. rewrite Forall_singleton in Hx.
  specialize (IH Hl). cbn zeta in IH. cbn zeta.
  rewrite fmap_app. cbn [fmap list_fmap].
  rewrite !sum_products_snoc, !sum_weights_snoc.
  destruct x as [v w]. unfold good_term in Hx. cbn [fst snd] in *.
  destruct Hx as [[Hv0 Hv1] [Hw0 Hw1]].
  set (S := sum_products l) in *. set (W := sum_weights l) in *.
  set (S' := sum_products _) in *. set (W' := sum_weights _) in *.
  clearbody S W S' W'.
  destruct IH as (IS0 & ISW & Imin & IW0 & Iw1 & Iw2 & Is1 & Is2).
  pose proof w_min_normal as Hnorm.
  assert (0 < w) as Hwpos by (unfold w_min in Hw0; lra).
  destruct (nearest_unit v (conj Hv0 Hv1)) as [Hv0' Hv1'].
  destruct (nearest_error_abs v 1 ltac:(lra) ltac:(lra)) as [Hv2 Hv3].
  { apply Qlt_le_weak. apply (two_pow_lt (-1022) 0). lia. }
  destruct (nearest_error_abs w w ltac:(lra) ltac:(lra) ltac:(lra)) as [Hw2 Hw3].
  set (v' := nearest v) in *. set (w' := nearest w) in *. clearbody v' w'.
  assert (0 <= v * w) as Hp0 by (apply Qmult_le_0_compat; lra).
  assert (v * w <= w) as Hp1.
  { rewrite <- (Qmult_1_l w) at 2. apply Qmult_le_compat_r; lra. }
  (* v' w' - v w = v' (w' - w) + (v' - v) w *)
  destruct (Qmult_unit_bound v' (w' - w) (w * u53)) as [Ha1 Ha2];
    [done | lra |].
  assert (- (w * u53) <= (v' - v) * w /\ (v' - v) * w <= w * u53) as [Hb1 Hb2].
  { assert (0 <= (v' - v + 1 * u53) * w) by (apply Qmult_le_0_compat; lra).
    assert (0 <= (1 * u53 - (v' - v)) * w) by (apply Qmult_le_0_compat; lra).
    split; lra. }
  unfold u53 in *. unfold w_min in *.
  repeat split; try lra.
Qed.

(** The exact mean of the rounded terms is within [2^-50] of the exact
    mean of the terms. *)
Lemma weighted_mean_rounded (c : list (Q * Q)) :
  Forall good_term c -> c <> [] ->
  let c' := (λ vw, (nearest (fst vw), nearest (snd vw))) <$> c in
  weighted_mean c - (1 # 1125899906842624) <= weighted_mean c'
  /\ weighted_mean c' <= weighted_mean c + (1 # 1125899906842624).
Proof.
  intros Hgood Hne c'. pose proof (rounded_sums c Hgood) as H. cbn zeta in H.
  fold c' in H. unfold weighted_mean.
  fold (sum_products c) (sum_weights c) (sum_products c') (sum_weights c').
  set (S := sum_products c) in *. set (W := sum_weights c) in *.
  set (S' := sum_products c') in *. set (W' := sum_weights c') in *.
  clearbody S W S' W'.
  destruct H as (IS0 & ISW & Imin & IW0 & Iw1 & Iw2 & Is1 & Is2).
  specialize (Imin Hne). unfold w_min, u53 in *.
  assert (0 < W) as HW by lra. assert (0 < W') as HW' by lra.
  set (m := S / W).
  assert (m * W == S) as HmW by (unfold m; field; lra).
  assert (0 <= m) as Hm0 by (unfold m; apply Qle_shift_div_l; lra).
  assert (m <= 1) as Hm1 by (unfold m; apply Qle_shift_div_r; lra).
  clearbody m.
  assert (0 <= m * (W' - (W - W * (1 # 9007199254740992)))) as Hq1
    by (apply Qmult_le_0_compat; lra).
  assert (0 <= m * (W + W * (1 # 9007199254740992) - W')) as Hq2
    by (apply Qmult_le_0_compat; lra).
  split.
  - apply Qle_shift_div_l; [done|]. lra.
  - apply Qle_shift_div_r; [done|]. lra.
Qed.

(** The custom score lies between the roundings of the two ends of the
    tolerance interval around ten times the exact weighted mean of the
    signals that contribute. *)
Lemma custom_score_binary64_near (valid_weights : list (string * Q))
    (place : gmap string pyval) :
  ordinary_weights valid_weights -> unit_signals valid_weights place ->
  contributing valid_weights place <> [] ->
  let mu := weighted_mean (contributing valid_weights place) in
  round1 (mu * 10 - tolerance) <= custom_score_binary64 valid_weights place
  /\ custom_score_binary64 valid_weights place <= round1 (mu * 10 + tolerance).
Proof.
  intros Hw Hs Hne mu.
  pose proof (contributing_binary64_fmap valid_weights place (proj2 Hw)) as Ec.
  assert (contributing_binary64 valid_weights place <> []) as Hne'.
  { rewrite Ec. by destruct (contributing valid_weights place). }
  destruct (custom_score_binary64_raw valid_weights place Hw Hs Hne')
    as (x & -> & H1 & H2).
  rewrite Ec in H1, H2.
  destruct (weighted_mean_rounded _ (contributing_good _ _ Hw Hs) Hne) as [H3 H4].
  fold mu in H3, H4. unfold tolerance in *.
  split; apply round1_mono; qlra.
Qed.

End CustomScoreMean.

(** ** The lens scores have one decimal *)

Lemma round1_one_decimal (x : Q) : one_decimal (Some (round1 x)).
Proof. exists (round_half_even (x * 10)). apply round1_eq. Qed.

Lemma one_decimal_lenses_insert (p : gmap string pyval) (field : string) (w : Q) :
  one_decimal_lenses p -> one_decimal (Some w) ->
  one_decimal_lenses (<[field := VFloat w]> p).
Proof.
  intros (Hq & Hc & Hu) Hw. unfold one_decimal_lenses.
  repeat split.
  - destruct (decide (field = "quality_0_10")) as [-> | Hn].
    + by rewrite get_insert_eq.
    + by rewrite get_insert_ne.
  - destruct (decide (field = "character_0_10")) as [-> | Hn].
    + by rewrite get_insert_eq.
    + by rewrite get_insert_ne.
  - destruct (decide (field = "underrated_0_10")) as [-> | Hn].
    + by rewrite get_insert_eq.
    + by rewrite get_insert_ne.
Qed.

Lemma normalize_one_decimal (field : string) (target_min target_max : Q)
    (places : list (gmap string pyval)) :
  Forall one_decimal_lenses places ->
  Forall one_decimal_lenses (normalize_to_percentile places field target_min target_max).
Proof.
  intros Hall.
  destruct (Nat.lt_ge_cases (length (numeric_values places field)) 2) as [Hlt|Hge].
  { by rewrite normalize_to_percentile_noop. }
  apply Forall_lookup. intros i p' Hp'.
  assert (is_Some (places !! i)) as [p Hp].
  { apply lookup_lt_is_Some. apply lookup_lt_Some in Hp'.
    by rewrite length_normalize_to_percentile in Hp'. }
  pose proof (Forall_lookup_1 _ _ _ _ Hall Hp) as Hd.
  pose proof (normalize_to_percentile_lookup field target_min target_max
                places i p Hge Hp) as H.
  destruct (as_number (get p field)) as [v|].
  - destruct H as (rank & _ & E). rewrite E in Hp'. injection Hp' as <-.
    apply one_decimal_lenses_insert; [done|]. apply round1_one_decimal.
  - rewrite H in Hp'. by injection Hp' as <-.
Qed.

Lemma normalized_cohort_one_decimal (enriched_results : list (gmap string pyval)) :
  Forall one_decimal_lenses enriched_results ->
  Forall one_decimal_lenses (normalized_cohort enriched_results).
Proof.
  intros H. unfold normalized_cohort. by do 3 apply normalize_one_decimal.
Qed.

Section OneDecimal.
Context {RT : Runtime}.

Lemma underrated_0_10_one_decimal (place : gmap string pyval) (scale u : Q) :
  underrated_0_10 place scale = Some u -> one_decimal (Some u).
Proof.
  unfold underrated_0_10.
  destruct (_safe_float_opt (get place "avg_would_recommend"));
    destruct (_safe_float_opt (get place "avg_openai_sentiment"));
    try (intros [= <-]; apply round1_one_decimal);
    (destruct (as_dict _); simpl; [|done]);
    (destruct (is_none (if is_none _ then _ else _));
     intros [= <-]; [by exists 50%Z | apply round1_one_decimal]).
Qed.

Lemma enrich_place_one_decimal (place p : gmap string pyval) (scale : Q) :
  enrich_place place scale = Some p -> one_decimal_lenses p.
Proof.
  unfold enrich_place, calculate_dive_score. intros H.
  destruct (dive_total place) as [total|] eqn:Et; simpl in H; [|done].
  set (p1 := <["gem_label" := _]> _) in H.
  set (c := character_0_10 p1) in H.
  rewrite get_insert_eq in H.
  set (p3 := <["diveiness_0_10" := _]> _) in H.
  set (q := quality_0_10 p3) in H.
  set (p4 := <["quality_0_10" := _]> _) in H.
  destruct (underrated_0_10 p4 scale) as [u|] eqn:Eu; simpl in H; [|done].
  injection H as <-.
  unfold one_decimal_lenses, p4, p3.
  rewrite !(get_insert_ne _ "blended_0_10") by done.
  rewrite (get_insert_ne _ "underrated_0_10" "quality_0_10") by done.
  rewrite (get_insert_eq _ "quality_0_10").
  rewrite !(get_insert_ne _ _ "character_0_10") by done.
  rewrite (get_insert_eq _ "character_0_10").
  rewrite (get_insert_eq _ "underrated_0_10"). cbn [as_number].
  split; [apply round1_one_decimal|]. split; [apply round1_one_decimal|].
  by apply (underrated_0_10_one_decimal p4 scale).
Qed.

Lemma normalized_cohort_enriched_one_decimal
    (results enriched : list (gmap string pyval)) (scale : Q) :
  mapM (λ place, enrich_place place scale) results = Some enriched ->
  Forall one_decimal_lenses (normalized_cohort enriched).
Proof.
  intros Hm. apply normalized_cohort_one_decimal.
  apply mapM_Some_1 in Hm. apply Forall_lookup. intros i p Hp.
  destruct (Forall2_lookup_r _ _ _ _ _ Hm Hp) as (place & _ & He).
  by apply enrich_place_one_decimal in He.
Qed.

End OneDecimal.

(** ** C3: the blend of the normalised scores *)

Section BlendOfNormalized.
Context {RT : Runtime}.

Lemma normalized_cohort_lens_scores (results enriched : list (gmap string pyval))
    (scale : Q) (p0 : gmap string pyval) :
  mapM (λ place, enrich_place place scale) results = Some enriched ->
  p0 ∈ normalized_cohort enriched ->
  exists q c u, lens_scores p0 q c u.
Proof.
  intros Hm Hin. apply list_elem_of_lookup in Hin as [i Hi].
  destruct (Forall2_lookup_r _ _ _ _ _ (normalized_cohort_lens_pass enriched) Hi)
    as (e & He & [_ Hpass]).
  apply mapM_Some_1 in Hm.
  destruct (Forall2_lookup_r _ _ _ _ _ Hm He) as (place & _ & Hen).
  simpl in Hen. apply enrich_place_record in Hen.
  destruct Hen as (total & q & c & u & _ & _ & _ & _ & Hl & _).
  by apply (Hpass q c u).
Qed.

Lemma renormalized_mean_all (q c u m : Q) :
  renormalized_mean (Some q) (Some c) (Some u) = Some m ->
  m == 0.40 * q + 0.35 * c + 0.25 * u.
Proof. intros [= <-]. unfold Qsum. simpl. field. Qed.

Lemma blended_0_10_binary64_none (place : gmap string pyval) :
  lens_numbers place = (None, None, None) -> blended_0_10_binary64 place = None.
Proof.
  intros H.
  apply (blended_0_10_binary64_raw place None None None H); exact I.
Qed.

(** The binary64 blend lies between the roundings of the two ends of the
    tolerance interval around the exact mean. *)
Lemma blended_0_10_binary64_near (place : gmap string pyval) (q c u : option Q)
    (m : Q) :
  lens_numbers place = (q, c, u) -> in_0_10 q -> in_0_10 c -> in_0_10 u ->
  renormalized_mean q c u = Some m ->
  exists b, blended_0_10_binary64 place = Some b
            /\ round1 (m - tolerance) <= b <= round1 (m + tolerance).
Proof.
  intros Hl Hq Hc Hu Hm.
  pose proof (blended_0_10_binary64_raw place q c u Hl Hq Hc Hu) as H.
  rewrite Hm in H. destruct H as (x & -> & H1 & H2).
  eexists. split; [reflexivity|]. split; by apply round1_mono.
Qed.

(** For one-decimal scores the binary64 blend is the exact mean rounded,
    unless that mean lies halfway between two tenths. *)
Lemma blended_0_10_binary64_exact (place : gmap string pyval) (q c u : option Q)
    (m : Q) :
  lens_numbers place = (q, c, u) -> in_0_10 q -> in_0_10 c -> in_0_10 u ->
  one_decimal q -> one_decimal c -> one_decimal u ->
  renormalized_mean q c u = Some m -> is_halfway (m * 10) = false ->
  blended_0_10_binary64 place = Some (round1 m).
Proof.
  intros Hl Hq Hc Hu Dq Dc Du Hm Hh.
  pose proof (blended_0_10_binary64_raw place q c u Hl Hq Hc Hu) as H.
  rewrite Hm in H. destruct H as (x & -> & H1 & H2).
  destruct (renormalized_mean_grid q c u m Dq Dc Du Hm) as [N HN].
  f_equal. by apply (round1_stable x m N).
Qed.

Lemma is_halfway_proper (x y : Q) : x == y -> is_halfway x = is_halfway y.
Proof.
  intros E. unfold is_halfway.
  rewrite (round_half_even_proper x y E).
  assert (Qabs (x - inject_Z (round_half_even y))
          == Qabs (y - inject_Z (round_half_even y))) as H.
  { apply Qabs_wd. by rewrite E. }
  apply Bool.eq_true_iff_eq. rewrite !Qeq_bool_iff. by rewrite H.
Qed.

(** The record that the blend step makes of a record of the normalised
    cohort. *)
Lemma blend_step_after_normalization (p0 : gmap string pyval) (q c u : Q) :
  lens_scores p0 q c u -> one_decimal_lenses p0 ->
  blended_after_normalization p0 (<["blended_0_10" := of_opt (blended_0_10 p0)]> p0).
Proof.
  intros Hl Hd. exists q, c, u, (round1 (0.40 * q + 0.35 * c + 0.25 * u)).
  split; [done|]. split; [done|].
  pose proof Hl as (Hq & Hqr & Hc & Hcr & Hu & Hur).
  rewrite !get_insert_ne by done. rewrite get_insert_eq.
  split; [done|]. split; [done|]. split; [done|].
  assert (lens_numbers p0 = (Some q, Some c, Some u)) as Hn.
  { unfold lens_numbers. by rewrite Hq, Hc, Hu. }
  split.
  { rewrite (blended_0_10_all p0 q c u); [done | | |].
    - by rewrite Hq.
    - by rewrite Hc.
    - by rewrite Hu. }
  split; [apply round1_mono; unfold tolerance; lra|].
  split; [apply round1_mono; unfold tolerance; lra|].
  intros Hh. split; [done|].
  destruct Hd as (Dq & Dc & Du). rewrite Hq in Dq. rewrite Hc in Dc. rewrite Hu in Du.
  cbn [as_number] in Dq, Dc, Du.
  destruct (renormalized_mean (Some q) (Some c) (Some u)) as [m|] eqn:Em; [|done].
  pose proof (renormalized_mean_all q c u m Em) as E.
  rewrite (blended_0_10_binary64_exact p0 (Some q) (Some c) (Some u) m); try done.
  - f_equal. by apply round1_proper.
  - rewrite <- Hh. apply is_halfway_proper. by rewrite E.
Qed.

(** C3.  [blended_0_10] is recomputed after the three normalisation passes
    from the normalised [quality_0_10], [character_0_10] and
    [underrated_0_10].  It is absent when none of them is a number.
    Otherwise it is the mean of the numeric ones, with the weights 0.40,
    0.35 and 0.25 renormalised to sum to 1 ([0.40 q + 0.35 c + 0.25 u] when
    all three are numeric), evaluated in binary64 and rounded to one
    decimal: the result lies between the roundings of [m - 2^-40] and of
    [m + 2^-40] for the exact mean [m], and for scores of one decimal it is
    [m] rounded to one decimal unless [m] lies halfway between two tenths.
    In every successful ranked-list request each record of the response is
    made in this way from a record of the normalised cohort (the custom
    lens adds [custom_score] to it). *)
Theorem C3_blended_from_normalized :
  (forall place,
      lens_numbers place = (None, None, None) ->
      blended_0_10_binary64 place = None)
  /\ (forall place q c u m,
      lens_numbers place = (q, c, u) -> in_0_10 q -> in_0_10 c -> in_0_10 u ->
      renormalized_mean q c u = Some m ->
      exists b, blended_0_10_binary64 place = Some b
                /\ round1 (m - tolerance) <= b <= round1 (m + tolerance))
  /\ (forall place q c u m,
      lens_numbers place = (q, c, u) -> in_0_10 q -> in_0_10 c -> in_0_10 u ->
      one_decimal q -> one_decimal c -> one_decimal u ->
      renormalized_mean q c u = Some m -> is_halfway (m * 10) = false ->
      blended_0_10_binary64 place = Some (round1 m))
  /\ (forall q c u m,
      renormalized_mean (Some q) (Some c) (Some u) = Some m ->
      m == 0.40 * q + 0.35 * c + 0.25 * u)
  /\ (forall supabase min_rating min_reviews kinds kinds_mode sort_by limit
             events body total_count,
      get_locations supabase min_rating min_reviews kinds kinds_mode sort_by limit
      = (events, HttpOk body total_count) ->
      exists db results scale enriched,
        supabase = Some db /\ db min_rating = Some results
        /\ mapM (λ place, enrich_place place scale) results = Some enriched
        /\ forall p, p ∈ body ->
             exists p0, p0 ∈ normalized_cohort enriched
               /\ (forall k, k <> "blended_0_10" -> get p k = get p0 k)
               /\ blended_after_normalization p0 p)
  /\ (forall supabase weights min_rating min_reviews limit events body total_count,
      get_locations_custom supabase weights min_rating min_reviews limit
      = (events, HttpOk body total_count) ->
      exists db results enriched,
        supabase = Some db /\ db min_rating = Some results
        /\ mapM (λ place, enrich_place place 0.35) results = Some enriched
        /\ forall p, p ∈ body ->
             exists p0, p0 ∈ normalized_cohort enriched
               /\ (forall k, k <> "blended_0_10" -> k <> "custom_score" ->
                             get p k = get p0 k)
               /\ blended_after_normalization p0 p).
Proof.
  split; [apply blended_0_10_binary64_none|].
  split; [apply blended_0_10_binary64_near|].
  split; [apply blended_0_10_binary64_exact|].
  split; [apply renormalized_mean_all|].
  split.
  - intros supabase min_rating min_reviews kinds kinds_mode sort_by limit
      events body total_count H.
    apply get_locations_inv in H as (db & results & scale & enriched & Hs & Hdb & Hm & Hsub).
    exists db, results, scale, enriched. repeat split; try done.
    intros p Hp. apply Hsub in Hp. rewrite normalize_and_blend_unfold in Hp.
    apply list_elem_of_fmap in Hp as (p0 & -> & Hp0).
    exists p0. split; [done|].
    split; [by intros k Hk; rewrite get_insert_ne|].
    destruct (normalized_cohort_lens_scores _ _ _ _ Hm Hp0) as (q & c & u & Hl).
    apply (blend_step_after_normalization p0 q c u Hl).
    pose proof (normalized_cohort_enriched_one_decimal _ _ _ Hm) as Hd.
    by apply (proj1 (Forall_forall _ _) Hd).
  - intros supabase weights min_rating min_reviews limit events body total_count H.
    apply get_locations_custom_inv in H
      as (db & results & enriched & items & Hj & Hs & Hdb & Hm & Hbody).
    exists db, results, enriched. repeat split; try done.
    intros p Hp. destruct (Hbody p Hp) as (p1 & Hp1 & ->).
    rewrite normalize_and_blend_unfold in Hp1.
    apply list_elem_of_fmap in Hp1 as (p0 & -> & Hp0).
    exists p0. split; [done|].
    split; [by intros k Hk Hk'; rewrite !get_insert_ne|].
    destruct (normalized_cohort_lens_scores _ _ _ _ Hm Hp0) as (q & c & u & Hl).
    pose proof (normalized_cohort_enriched_one_decimal _ _ _ Hm) as Hd.
    destruct (blend_step_after_normalization p0 q c u Hl
                (proj1 (Forall_forall _ _) Hd p0 Hp0))
      as (q' & c' & u' & b & Hl' & Hd' & Hq & Hc & Hu & Hb & Hrest).
    exists q', c', u', b.
    rewrite !(get_insert_ne _ "custom_score") by done. done.
Qed.

End BlendOfNormalized.

Lemma ok_response (r : list event * http_result) :
  is_ok (snd r) = true ->
  r = (fst r, HttpOk (response_body (snd r)) (response_total (snd r))).
Proof. by destruct r as [ev [body total|status]]. Qed.

Section BlendOfNormalizedExample.
#[local] Existing Instance ExampleRuntime.example_runtime.

Lemma C3_blended_from_normalized_witness :
  blended_0_10_binary64 ∅ = None
  /\ (exists b, blended_0_10_binary64 tied_scores = Some b
                /\ round1 (default 0 (lens_mean tied_scores) - tolerance) <= b
                   <= round1 (default 0 (lens_mean tied_scores) + tolerance))
  /\ blended_0_10_binary64 normalized_scores
     = Some (round1 (default 0 (lens_mean normalized_scores)))
  /\ default 0 (lens_mean normalized_scores) == 0.40 * 5.8 + 0.35 * 5.8 + 0.25 * 9.5
  /\ (exists db results scale enriched,
        Some example_db = Some db /\ db 3.5 = Some results
        /\ mapM (λ place, enrich_place place scale) results = Some enriched
        /\ forall p, p ∈ response_body (snd example_request) ->
             exists p0, p0 ∈ normalized_cohort enriched
               /\ (forall k, k <> "blended_0_10" -> get p k = get p0 k)
               /\ blended_after_normalization p0 p)
  /\ (exists db results enriched,
        Some example_db = Some db /\ db 3.5 = Some results
        /\ mapM (λ place, enrich_place place 0.35) results = Some enriched
        /\ forall p, p ∈ response_body (snd example_custom_request) ->
             exists p0, p0 ∈ normalized_cohort enriched
               /\ (forall k, k <> "blended_0_10" -> k <> "custom_score" ->
                             get p k = get p0 k)
               /\ blended_after_normalization p0 p).
Proof.
  split; [|split; [|split; [|split; [|split]]]].
  - apply (proj1 C3_blended_from_normalized). vm_compute. reflexivity.
  - apply (proj1 (proj2 C3_blended_from_normalized) tied_scores
             (Some 7.6) (Some 7.6) (Some 5.8)).
    + vm_compute. reflexivity.
    + cbn. lra.
    + cbn. lra.
    + cbn. lra.
    + vm_compute. reflexivity.
  - apply (proj1 (proj2 (proj2 C3_blended_from_normalized)) normalized_scores
             (Some 5.8) (Some 5.8) (Some 9.5)).
    + vm_compute. reflexivity.
    + cbn. lra.
    + cbn. lra.
    + cbn. lra.
    + by exists 58%Z.
    + by exists 58%Z.
    + by exists 95%Z.
    + vm_compute. reflexivity.
    + vm_compute. reflexivity.
  - apply (proj1 (proj2 (proj2 (proj2 C3_blended_from_normalized))) 5.8 5.8 9.5).
    vm_compute. reflexivity.
  - apply (proj1 (proj2 (proj2 (proj2 (proj2 C3_blended_from_normalized))))
             (Some example_db) 3.5 0%Z None "any"%string "blended_0_10"%string
             120%nat (fst example_request)
             (response_body (snd example_request))
             (response_total (snd example_request))).
    apply ok_response. vm_compute. reflexivity.
  - apply (proj2 (proj2 (proj2 (proj2 (proj2 C3_blended_from_normalized))))
             (Some example_db) ExampleRuntime.payload_food 3.5 0%Z 120%nat
             (fst example_custom_request)
             (response_body (snd example_custom_request))
             (response_total (snd example_custom_request))).
    apply ok_response. vm_compute. reflexivity.
Defined.

(** The blend is not always the weighted mean rounded to one decimal.  For
    the normalised scores 7.6, 7.6 and 5.8 the mean is 7.15 and rounds to
    7.2; the binary64 products and sums give 7.1499999999999995 (the
    binary64 number 8050184333924761 / 2^50), and [blended_0_10] returns
    7.1. *)
Theorem C3_rounded_mean_counterexample :
  lens_numbers tied_scores = (Some 7.6, Some 7.6, Some 5.8)
  /\ round1 (0.40 * 7.6 + 0.35 * 7.6 + 0.25 * 5.8) = 36 # 5
  /\ renormalized_blend (Some 7.6) (Some 7.6) (Some 5.8) = Some (36 # 5)
  /\ blended_0_10_binary64 tied_scores = Some (71 # 10)
  /\ blended_0_10_binary64 tied_scores
     = Some (round1 (8050184333924761 # 1125899906842624)).
Proof. by_vm. Qed.

End BlendOfNormalizedExample.

(** ** C10: the compatibility alias *)

Section Alias.
Context {RT : Runtime}.

(** Right after [enrich_place] the alias holds. *)
Lemma enrich_place_alias (place p : gmap string pyval) (scale : Q) :
  enrich_place place scale = Some p ->
  get p "diveiness_0_10" = get p "character_0_10".
Proof.
  intros H. apply enrich_place_inv in H as (total & q & c & u & _ & _ & _ & _ & ->).
  rewrite !(get_insert_ne _ _ "diveiness_0_10") by done.
  rewrite !(get_insert_ne _ _ "character_0_10") by done.
  by rewrite !get_insert_eq.
Qed.

End Alias.

Section AliasExample.
#[local] Existing Instance ExampleRuntime.example_runtime.

(** C10 fails on the code: in the response for the three example rows
    [character_0_10] holds the percentile scores 9.5, 5.8 and 2.0 while
    [diveiness_0_10] still holds the scores computed before normalisation,
    9.4, 6.6 and 2.1. *)
Theorem C10_alias_lost_by_normalization :
  alias_fields <$> response_body (snd example_request)
  = [ (VStr "c", VFloat (19 # 2), VFloat (47 # 5));
      (VStr "a", VFloat (29 # 5), VFloat (33 # 5));
      (VStr "b", VFloat 2, VFloat (21 # 10)) ].
Proof. vm_compute. reflexivity. Qed.

(** The guardrail bounds what the calculators return, not what the
    response shows: the third example row has 45 ratings and 12 reviews, its
    calculators return 9.4, and cohort normalisation then gives it 9.5. *)
Remark guardrail_before_normalization :
  quality_0_10 place_c = 47 # 5
  /\ character_0_10 place_c = 47 # 5
  /\ (λ p, (get p "place_id", get p "quality_0_10"))
       <$> response_body (snd example_request)
     = [ (VStr "c", VFloat (19 # 2)); (VStr "a", VFloat (29 # 5));
         (VStr "b", VFloat 2) ].
Proof. by_vm. Qed.

End AliasExample.

(** ** C5: which residual field wins *)

Section Residual.
Context {RT : Runtime}.

(** The Underrated fallback reads [residual_deep] and ignores [residual]
    whenever [residual_deep] holds a value. *)
Lemma underrated_0_10_prefers_deep (place : gmap string pyval) (scale : Q)
    (ml_data : list (string * pyval)) (r : pyval) :
  _safe_float_opt (get place "avg_would_recommend") = None
  \/ _safe_float_opt (get place "avg_openai_sentiment") = None ->
  as_dict (py_or (get place "ml_metadata") (VDict [])) = Some ml_data ->
  dict_get "residual_deep" ml_data = Some r -> is_none r = false ->
  underrated_0_10 place scale
  = Some (round1 (_clamp (5.0 + 5.0 * m_tanh (_safe_float r 0.0 / py_max 0.10 scale))
                    0.0 10.0)).
Proof.
  intros Hmiss Hd Hr Hn. unfold underrated_0_10.
  assert (dict_get_default "residual_deep" ml_data VNone = r) as Er
    by (unfold dict_get_default; by rewrite Hr).
  destruct Hmiss as [-> | Hs].
  - rewrite Hd. simpl. rewrite Er, Hn. by rewrite Hn.
  - rewrite Hs. destruct (_safe_float_opt (get place "avg_would_recommend"));
      rewrite Hd; simpl; rewrite Er, Hn; by rewrite Hn.
Qed.

(** The dive-score classifier reads [residual] and ignores [residual_deep]
    whenever [residual] holds a value. *)
Lemma dive_total_prefers_legacy (place place' : gmap string pyval)
    (ml_data ml_data' : list (string * pyval)) (r : pyval) :
  get place' "rating" = get place "rating" ->
  get place' "user_ratings_total" = get place "user_ratings_total" ->
  get place' "price_level" = get place "price_level" ->
  as_dict (py_or (get place "ml_metadata") (VDict [])) = Some ml_data ->
  as_dict (py_or (get place' "ml_metadata") (VDict [])) = Some ml_data' ->
  dict_get "residual" ml_data = Some r -> dict_get "residual" ml_data' = Some r ->
  is_none r = false ->
  dive_total place' = dive_total place.
Proof.
  intros H1 H2 H3 Hd Hd' Hr Hr' Hn. unfold dive_total.
  rewrite H1, H2, H3, Hd, Hd'. simpl.
  unfold dict_get_default. rewrite Hr, Hr'. by rewrite Hn.
Qed.

End Residual.

Section ResidualExample.
#[local] Existing Instance ExampleRuntime.example_runtime.

(** C5 fails on the code.  On a row with [residual = -0.5] and
    [residual_deep = 0.5] the Underrated fallback uses the newer field (9.5,
    as with [residual_deep] alone, where the older alone gives 0.5), but the
    dive-score classifier uses the older one: the total is 80 (the -5 malus
    of [residual < -0.3]), as with [residual] alone, where the newer alone
    gives 95 (the +10 bonus of [residual > 0.3]). *)
Theorem C5_dive_score_prefers_older_residual :
  underrated_0_10 place_both_residuals 0.35 = Some (19 # 2)
  /\ underrated_0_10 place_deep_residual 0.35 = Some (19 # 2)
  /\ underrated_0_10 place_legacy_residual 0.35 = Some (1 # 2)
  /\ Qred <$> dive_total place_both_residuals = Some 80
  /\ Qred <$> dive_total place_legacy_residual = Some 80
  /\ Qred <$> dive_total place_deep_residual = Some 95.
Proof. by_vm. Qed.

End ResidualExample.

(** ** The real hyperbolic tangent at 0 and at 3.5 *)

Module RealTanh.
Local Open Scope R_scope.

Lemma exp_halves (x y : R) : x = y + y -> exp x = exp y * exp y.
Proof. intros ->. apply exp_plus. Qed.

Lemma square_bounds (lo hi x : R) :
  0 <= lo -> lo <= x <= hi -> lo * lo <= x * x <= hi * hi.
Proof. intros H0 [H1 H2]. split; Lra.nra. Qed.

Lemma exp_sixteenth_bounds : 17 / 16 <= exp (1 / 16) <= 16 / 15.
Proof.
  split.
  - pose proof (exp_ineq1_le (1 / 16)). Lra.lra.
  - pose proof (exp_ineq1_le (- (1 / 16))) as H.
    rewrite exp_Ropp in H.
    pose proof (exp_pos (1 / 16)) as Hp.
    assert (15 / 16 * exp (1 / 16) <= 1) as H'.
    { apply Rmult_le_reg_r with (/ exp (1 / 16)).
      - by apply Rinv_0_lt_compat.
      - rewrite Rmult_assoc, Rinv_r by Lra.lra. Lra.lra. }
    Lra.lra.
Qed.

Lemma exp_1_bounds : 2637 / 1000 <= exp 1 <= 2809 / 1000.
Proof.
  pose proof exp_sixteenth_bounds as H16.
  assert (11289 / 10000 <= exp (1 / 8) <= 11378 / 10000) as H8.
  { rewrite (exp_halves (1 / 8) (1 / 16)) by Lra.lra.
    pose proof (square_bounds (17 / 16) (16 / 15) _ ltac:(Lra.lra) H16). Lra.lra. }
  assert (12744 / 10000 <= exp (1 / 4) <= 12946 / 10000) as H4.
  { rewrite (exp_halves (1 / 4) (1 / 8)) by Lra.lra.
    pose proof (square_bounds (11289 / 10000) (11378 / 10000) _ ltac:(Lra.lra) H8).
    Lra.lra. }
  assert (16240 / 10000 <= exp (1 / 2) <= 16760 / 10000) as H2.
  { rewrite (exp_halves (1 / 2) (1 / 4)) by Lra.lra.
    pose proof (square_bounds (12744 / 10000) (12946 / 10000) _ ltac:(Lra.lra) H4).
    Lra.lra. }
  rewrite (exp_halves 1 (1 / 2)) by Lra.lra.
  pose proof (square_bounds (16240 / 10000) (16760 / 10000) _ ltac:(Lra.lra) H2).
  Lra.lra.
Qed.

Lemma exp_7_bounds : 870 <= exp 7 <= 1420.
Proof.
  pose proof exp_1_bounds as H1.
  assert (6953 / 1000 <= exp 2 <= 7891 / 1000) as H2.
  { rewrite (exp_halves 2 1) by Lra.lra.
    pose proof (square_bounds (2637 / 1000) (2809 / 1000) _ ltac:(Lra.lra) H1).
    Lra.lra. }
  assert (4834 / 100 <= exp 4 <= 6227 / 100) as H4.
  { rewrite (exp_halves 4 2) by Lra.lra.
    pose proof (square_bounds (6953 / 1000) (7891 / 1000) _ ltac:(Lra.lra) H2).
    Lra.lra. }
  assert (336 <= exp 6 <= 492) as H6.
  { replace 6 with (4 + 2) by Lra.lra. rewrite exp_plus. split; Lra.nra. }
  replace 7 with (6 + 1) by Lra.lra. rewrite exp_plus. split; Lra.nra.
Qed.

Lemma tanh_7_2 : tanh (7 / 2) = (exp 7 - 1) / (exp 7 + 1).
Proof.
  unfold tanh, sinh, cosh. rewrite exp_Ropp.
  rewrite (exp_halves 7 (7 / 2)) by Lra.lra.
  pose proof (exp_pos (7 / 2)) as Hp.
  field. split; [Lra.nra | Lra.lra].
Qed.

Lemma tanh_7_2_bounds : 9977 / 10000 <= tanh (7 / 2) <= 9986 / 10000.
Proof.
  rewrite tanh_7_2. pose proof exp_7_bounds as [Hlo Hhi].
  assert (0 < exp 7 + 1) as Hp by Lra.lra.
  split.
  - apply Rmult_le_reg_r with (exp 7 + 1); [done|].
    unfold Rdiv at 2. rewrite Rmult_assoc, Rinv_l by Lra.lra. Lra.lra.
  - apply Rmult_le_reg_r with (exp 7 + 1); [done|].
    unfold Rdiv at 1. rewrite Rmult_assoc, Rinv_l by Lra.lra. Lra.lra.
Qed.

Lemma tanh_0 : tanh 0 = 0.
Proof. unfold tanh, sinh. rewrite Ropp_0, exp_0. unfold Rdiv. Lra.lra. Qed.

End RealTanh.

(** ** C6: the Underrated fallback *)

Lemma Q2R_7_2 : Q2R (7 # 2) = (7 / 2)%R.
Proof. unfold Q2R. simpl. Lra.lra. Qed.

Lemma tanh_close_7_2_lower (RT : Runtime) (x : Q) :
  tanh_close RT (7 # 2) (1 # 1000) -> x == 7 # 2 -> 0.996 <= m_tanh x.
Proof.
  intros Hc Hx. specialize (Hc x Hx). rewrite Q2R_7_2 in Hc.
  apply Rle_Qle.
  pose proof RealTanh.tanh_7_2_bounds as [Hlo _].
  destruct Hc as [Hc _].
  assert (Q2R 0.996 = (996 / 1000)%R) as -> by (unfold Q2R; simpl; Lra.lra).
  assert (Q2R (1 # 1000) = (1 / 1000)%R) as E by (unfold Q2R; simpl; Lra.lra).
  rewrite E in Hc. Lra.lra.
Qed.

Lemma round1_top (y : Q) : 9.95 < y -> y <= 10 -> round1 y = 10.
Proof.
  intros Hlo Hhi.
  assert (round_half_even (y * 10) = 100%Z) as E.
  { destruct (round_half_even_near (y * 10)) as [H1 H2].
    assert (inject_Z 99 < inject_Z (round_half_even (y * 10))) as Ha
      by (change (inject_Z 99) with 99; lra).
    assert (inject_Z (round_half_even (y * 10)) < inject_Z 101) as Hb
      by (change (inject_Z 101) with 101; lra).
    rewrite <- Zlt_Qlt in Ha, Hb. lia. }
  unfold round1. by rewrite E.
Qed.

Section UnderratedFallback.
Context {RT : Runtime}.

Lemma underrated_0_10_fallback (place : gmap string pyval) (scale : Q)
    (ml_data : list (string * pyval)) :
  _safe_float_opt (get place "avg_would_recommend") = None
  \/ _safe_float_opt (get place "avg_openai_sentiment") = None ->
  as_dict (py_or (get place "ml_metadata") (VDict [])) = Some ml_data ->
  underrated_0_10 place scale
  = if is_none (resolved_residual ml_data) then Some 5.0
    else Some (round1 (_clamp
                 (5.0 + 5.0 * m_tanh (_safe_float (resolved_residual ml_data) 0.0
                                      / py_max 0.10 scale))
                 0.0 10.0)).
Proof.
  intros Hmiss Hd. unfold underrated_0_10, resolved_residual.
  destruct Hmiss as [-> | Hs].
  - by rewrite Hd.
  - rewrite Hs. destruct (_safe_float_opt (get place "avg_would_recommend"));
      by rewrite Hd.
Qed.

Lemma py_max_floor (scale : Q) : 0.10 <= py_max 0.10 scale.
Proof. apply py_max_ge_l. Qed.

(** C6 (amended).  For a place missing the would-recommend or the
    sentiment signal: if no residual exists under either field name the
    result is the neutral 5.0; otherwise it is
    [5 + 5 * tanh (r / max (0.10, scale))], clamped to [0, 10] and rounded to
    one decimal.  A residual of 0 gives exactly 5.0 for every scale, [tanh]
    vanishing at 0.  With the scale at its floor 0.10 and the residual 0.35
    the argument is 3.5 and the result is 10.0 (5 + 5 tanh 3.5 is about
    9.99), for every [tanh] within 0.001 of the real one at 3.5. *)
Theorem C6_underrated_fallback (place : gmap string pyval) (scale : Q)
    (ml_data : list (string * pyval)) :
  _safe_float_opt (get place "avg_would_recommend") = None
  \/ _safe_float_opt (get place "avg_openai_sentiment") = None ->
  as_dict (py_or (get place "ml_metadata") (VDict [])) = Some ml_data ->
  let r := resolved_residual ml_data in
  (is_none r = true -> underrated_0_10 place scale = Some 5.0)
  /\ (is_none r = false ->
      underrated_0_10 place scale
      = Some (round1 (_clamp
                 (5.0 + 5.0 * m_tanh (_safe_float r 0.0 / py_max 0.10 scale))
                 0.0 10.0))
      /\ 0.10 <= py_max 0.10 scale)
  /\ (is_none r = false -> _safe_float r 0.0 == 0 -> tanh_zero RT ->
      underrated_0_10 place scale = Some 5)
  /\ (is_none r = false -> _safe_float r 0.0 == 0.35 -> scale <= 0.10 ->
      tanh_close RT (7 # 2) (1 # 1000) ->
      underrated_0_10 place scale = Some 10).
Proof.
  intros Hmiss Hd r. rewrite (underrated_0_10_fallback place scale ml_data Hmiss Hd).
  fold r. split; [|split; [|split]].
  - by intros ->.
  - intros ->. split; [done | apply py_max_floor].
  - intros -> Hr Hz. f_equal.
    assert (m_tanh (_safe_float r 0.0 / py_max 0.10 scale) == 0) as Ht.
    { apply Hz. rewrite Hr. unfold Qdiv. ring. }
    rewrite (round1_proper _ 5); [reflexivity|].
    set (t := m_tanh _) in *. clearbody t. clear Hr.
    rewrite _clamp_id. all: lra.
  - intros -> Hr Hs Hc. f_equal.
    assert (py_max 0.10 scale = 0.10) as ->.
    { unfold py_max. case_Q; [lra | done]. }
    assert (_safe_float r 0.0 / 0.10 == 7 # 2) as Hx by (rewrite Hr; reflexivity).
    pose proof (tanh_close_7_2_lower RT _ Hc Hx) as Hlo.
    set (t := m_tanh _) in *. clearbody t. clear Hr Hx.
    apply round1_top.
    + unfold _clamp.
      eapply Qlt_le_trans; [|apply py_max_ge_r].
      unfold py_min. case_Q; lra.
    + destruct (_clamp_bounds (5.0 + 5.0 * t) 0.0 10.0); lra.
Qed.

End UnderratedFallback.

(** The stand-ins of the example runtime depend on the value of their
    argument only, and its [tanh] is a good one. *)
Section ExampleTanh.
Import ExampleRuntime.

Lemma exp_series_proper (x y term : Q) (k : Z) (fuel : nat) :
  x == y -> exp_series x term k fuel = exp_series y term k fuel.
Proof.
  intros Hxy. revert term k. induction fuel as [|fuel IH]; intros term k; [done|].
  simpl. rewrite (Qred_complete (term * x / inject_Z k) (term * y / inject_Z k)).
  - by rewrite IH.
  - by rewrite Hxy.
Qed.

Lemma tanh_approx_proper (x y : Q) : x == y -> tanh_approx x = tanh_approx y.
Proof.
  intros Hxy. unfold tanh_approx, exp_approx.
  rewrite (exp_series_proper (2 * x) (2 * y)); [done|]. by rewrite Hxy.
Qed.

Lemma example_tanh_zero : tanh_zero example_runtime.
Proof.
  intros x Hx. simpl. rewrite (tanh_approx_proper x 0 Hx). reflexivity.
Qed.

Lemma example_tanh_close : tanh_close example_runtime (7 # 2) (1 # 1000).
Proof.
  intros x Hx. simpl. rewrite (tanh_approx_proper x (7 # 2) Hx).
  assert (0.9981 <= tanh_approx (7 # 2)) as Hlo
    by (apply Qleb_le; vm_compute; reflexivity).
  assert (tanh_approx (7 # 2) <= 0.9982) as Hhi
    by (apply Qleb_le; vm_compute; reflexivity).
  apply Qle_Rle in Hlo, Hhi.
  assert (Q2R 0.9981 = (9981 / 10000)%R) as E1 by (unfold Q2R; simpl; Lra.lra).
  assert (Q2R 0.9982 = (9982 / 10000)%R) as E2 by (unfold Q2R; simpl; Lra.lra).
  assert (Q2R (1 # 1000) = (1 / 1000)%R) as E3 by (unfold Q2R; simpl; Lra.lra).
  rewrite E1 in Hlo. rewrite E2 in Hhi. rewrite E3, Q2R_7_2.
  pose proof RealTanh.tanh_7_2_bounds. Lra.lra.
Qed.

End ExampleTanh.

Section UnderratedFallbackExample.
#[local] Existing Instance ExampleRuntime.example_runtime.

Lemma C6_underrated_fallback_witness :
  underrated_0_10 place_no_residual 0.35 = Some 5.0
  /\ underrated_0_10 place_residual_zero 0.7 = Some 5
  /\ underrated_0_10 place_residual_035 0.10 = Some 10.
Proof.
  split; [|split].
  - apply (C6_underrated_fallback place_no_residual 0.35 []);
      [left; by_vm | by_vm | by_vm].
  - apply (C6_underrated_fallback place_residual_zero 0.7
             [("residual_deep", VInt 0); ("residual", VFloat 0.8)]);
      [left; by_vm | by_vm | by_vm | by_vm | apply example_tanh_zero].
  - apply (C6_underrated_fallback place_residual_035 0.10
             [("residual", VFloat 0.35)]);
      [left; by_vm | by_vm | by_vm | by_vm | apply Qle_refl
      | apply example_tanh_close].
Defined.

(** C6, as stated, fails at its example: with scale 0.10 and residual 0.35
    the result is 10.0, and the real value of 5 + 5 tanh 3.5 is above 9.98,
    not about 9.79. *)
Lemma C6_scale_floor_counterexample :
  underrated_0_10 place_residual_035 0.10 = Some 10
  /\ ~ (9.74 <= 10 /\ 10 <= 9.84)
  /\ tanh_close ExampleRuntime.example_runtime (7 # 2) (1 # 1000)
  /\ (9.98 < 5 + 5 * tanh (7 / 2))%R.
Proof.
  split; [by_vm|]. split; [|split].
  - intros [_ H]. by apply Qle_bool_iff in H.
  - apply example_tanh_close.
  - pose proof RealTanh.tanh_7_2_bounds. Lra.lra.
Qed.

End UnderratedFallbackExample.

(** ** C8: malformed custom weights *)

Section CustomWeights.
Context {RT : Runtime}.

Lemma validate_weights_foldl (items : list (string * pyval)) :
  validate_weights items = foldl validate_step [] items.
Proof. reflexivity. Qed.

Lemma dict_set_not_nil (k : string) (v : Q) (d : list (string * Q)) :
  dict_set k v d <> [].
Proof. destruct d as [|[k' v'] d]; simpl; [done|]. by destruct (String.eqb k k'). Qed.

Lemma validate_step_not_nil (acc : list (string * Q)) (sw : string * pyval) :
  acc <> [] -> validate_step acc sw <> [].
Proof.
  intros H. unfold validate_step.
  destruct (SIGNAL_COLUMNS !! fst sw); [|done].
  destruct (py_float (snd sw)); [apply dict_set_not_nil | done].
Qed.

Lemma foldl_validate_not_nil (items : list (string * pyval)) (acc : list (string * Q)) :
  acc <> [] -> foldl validate_step acc items <> [].
Proof.
  revert acc. induction items as [|sw items IH]; intros acc H; [done|].
  simpl. by apply IH, validate_step_not_nil.
Qed.

(** No valid weight remains exactly when every entry is dropped. *)
Lemma validate_weights_nil (items : list (string * pyval)) :
  validate_weights items = [] <-> Forall dropped items.
Proof.
  rewrite validate_weights_foldl. induction items as [|sw items IH]; simpl.
  - split; [constructor | done].
  - unfold validate_step at 2. unfold dropped at 1.
    destruct (SIGNAL_COLUMNS !! fst sw) as [col|] eqn:Ec.
    + destruct (py_float (snd sw)) as [w|] eqn:Ew.
      * split.
        -- intros H. exfalso. by apply (foldl_validate_not_nil items _
                                         (dict_set_not_nil (fst sw) w [])).
        -- intros H. apply Forall_cons in H as [[H|H] _]; [by rewrite Ec in H|].
           by rewrite Ew in H.
      * rewrite IH. split.
        -- intros H. constructor; [right; done | done].
        -- intros H. by apply Forall_cons in H as [_ H].
    + rewrite IH. split.
      * intros H. constructor; [left; done | done].
      * intros H. by apply Forall_cons in H as [_ H].
Qed.

(** C8.  An unparseable [weights] payload, and a payload that parses to an
    object all of whose entries name an unknown signal or carry a weight
    that [float] rejects, are answered with the client error 400 and
    without any access to the storage, so without computing any score;
    this holds whether or not the storage is configured.  An unconfigured
    storage is reported, as 503, only for a payload that passed
    validation. *)
Theorem C8_malformed_weights_rejected (supabase : option client) (weights : string)
    (min_rating : Q) (min_reviews : Z) (limit : nat) :
  (json_loads weights = None ->
     get_locations_custom supabase weights min_rating min_reviews limit
     = ([], HttpError 400))
  /\ (forall items,
        json_loads weights = Some (VDict items) -> Forall dropped items ->
        get_locations_custom supabase weights min_rating min_reviews limit
        = ([], HttpError 400))
  /\ (forall items,
        json_loads weights = Some (VDict items) -> ~ Forall dropped items ->
        get_locations_custom None weights min_rating min_reviews limit
        = ([], HttpError 503)).
Proof.
  unfold get_locations_custom. split; [|split].
  - by intros ->.
  - intros items -> Hd. simpl. apply validate_weights_nil in Hd. by rewrite Hd.
  - intros items -> Hd. simpl. rewrite <- validate_weights_nil in Hd.
    by destruct (validate_weights items).
Qed.

End CustomWeights.

Section CustomWeightsExample.
#[local] Existing Instance ExampleRuntime.example_runtime.

Lemma Forall_dropped_example :
  Forall dropped [("cheap_beer", VInt 2); ("memorable", VList [VInt 1])].
Proof.
  constructor; [left; by_vm|]. constructor; [right; by_vm|]. constructor.
Qed.

Lemma C8_malformed_weights_rejected_witness :
  get_locations_custom (Some example_db) ExampleRuntime.payload_truncated 3.5 0 120
  = ([], HttpError 400)
  /\ get_locations_custom (Some example_db) ExampleRuntime.payload_unknown 3.5 0 120
     = ([], HttpError 400)
  /\ get_locations_custom None ExampleRuntime.payload_food 3.5 0 120
     = ([], HttpError 503).
Proof.
  split; [|split].
  - apply (proj1 (C8_malformed_weights_rejected (Some example_db)
             ExampleRuntime.payload_truncated 3.5 0 120)).
    by_vm.
  - apply (proj1 (proj2 (C8_malformed_weights_rejected (Some example_db)
             ExampleRuntime.payload_unknown 3.5 0 120))
             [("cheap_beer", VInt 2); ("memorable", VList [VInt 1])]).
    + by_vm.
    + apply Forall_dropped_example.
  - apply (proj2 (proj2 (C8_malformed_weights_rejected None
             ExampleRuntime.payload_food 3.5 0 120))
             [("food_drink_quality", VFloat 1.0)]).
    + by_vm.
    + intros H. apply Forall_cons in H as [[H|H] _]; vm_compute in H; discriminate H.
Defined.

End CustomWeightsExample.

(** ** C9: the custom-lens score *)

Section CustomScore.
Context {RT : Runtime}.

Lemma foldl_Qplus (a : Q) (l : list Q) : foldl Qplus a l == a + Qsum l.
Proof.
  unfold Qsum. revert a. induction l as [|x l IH]; intros a; simpl; [ring|].
  rewrite (IH (a + x)), (IH (0 + x)). ring.
Qed.

Lemma Qsum_cons (x : Q) (l : list Q) : Qsum (x :: l) == x + Qsum l.
Proof. unfold Qsum at 1. simpl. rewrite foldl_Qplus. ring. Qed.

Lemma Qsum_positive (l : list Q) :
  l <> [] -> Forall (λ w, 0 < w) l -> 0 < Qsum l.
Proof.
  intros Hne Hpos. induction Hpos as [|x l Hx Hl IH]; [done|].
  rewrite Qsum_cons. destruct l as [|y l].
  - unfold Qsum. simpl. lra.
  - specialize (IH ltac:(done)). lra.
Qed.

Lemma custom_loop_sums (place : gmap string pyval)
    (valid_weights : list (string * Q)) (acc : Q * Q) :
  let c := contributing valid_weights place in
  fst (foldl (custom_step place) acc valid_weights)
  == fst acc + Qsum ((λ vw, fst vw * snd vw) <$> c)
  /\ snd (foldl (custom_step place) acc valid_weights)
     == snd acc + Qsum (snd <$> c).
Proof.
  revert acc. induction valid_weights as [|sw vw IH]; intros acc; csimpl.
  - unfold Qsum. simpl. split; ring.
  - destruct (IH (custom_step place acc sw)) as [H1 H2].
    rewrite H1, H2. unfold custom_step, contributing, signal_value. csimpl.
    destruct (_safe_float_opt (get place (default "" (SIGNAL_COLUMNS !! fst sw))))
      as [val|]; [|done].
    destruct (Qltb 0 (snd sw)); [|done].
    csimpl. rewrite !Qsum_cons. csimpl. split; ring.
Qed.

Lemma contributing_positive (valid_weights : list (string * Q))
    (place : gmap string pyval) :
  Forall (λ w, 0 < w) (snd <$> contributing valid_weights place).
Proof.
  unfold contributing. induction valid_weights as [|sw vw IH]; simpl; [constructor|].
  destruct (signal_value place (fst sw)); [|done].
  destruct (Qltb 0 (snd sw)) eqn:E; [|done].
  simpl. constructor; [by apply Qltb_lt | done].
Qed.

(** The loop computes the score of the design. *)
Lemma custom_score_refines (valid_weights : list (string * Q))
    (place : gmap string pyval) :
  custom_score valid_weights place = weighted_mean_score valid_weights place.
Proof.
  unfold custom_score, weighted_mean_score.
  change (foldl _ (0.0, 0.0) valid_weights)
    with (foldl (custom_step place) (0.0, 0.0) valid_weights).
  destruct (custom_loop_sums place valid_weights (0.0, 0.0)) as [H1 H2].
  pose proof (contributing_positive valid_weights place) as Hpos.
  simpl in H1, H2.
  destruct (contributing valid_weights place) as [|vw c] eqn:Ec.
  - assert (Qltb 0 (snd (foldl (custom_step place) (0.0, 0.0) valid_weights)) = false)
      as ->; [|done].
    apply Qltb_ge. rewrite H2. unfold Qsum. simpl. lra.
  - assert (0 < Qsum (snd <$> vw :: c)) as Hs by (by apply Qsum_positive).
    assert (Qltb 0 (snd (foldl (custom_step place) (0.0, 0.0) valid_weights)) = true)
      as ->.
    { apply Qltb_lt. rewrite H2. lra. }
    apply round1_proper. rewrite H1, H2.
    set (s := Qsum (snd <$> vw :: c)) in *.
    set (m := Qsum _). field. lra.
Qed.

End CustomScore.

Section CustomScoreTheorem.
Context {RT : Runtime}.

Lemma contributing_nil (valid_weights : list (string * Q))
    (place : gmap string pyval) :
  Forall (λ sw, signal_value place (fst sw) = None \/ snd sw <= 0) valid_weights ->
  contributing valid_weights place = [].
Proof.
  unfold contributing. induction 1 as [|sw vw Hsw Hvw IH]; [done|]. csimpl.
  rewrite IH. destruct Hsw as [-> | Hw]; [done|].
  destruct (signal_value place (fst sw)); [|done].
  by apply Qltb_ge in Hw as ->.
Qed.

(** In exact arithmetic the loop computes the mean rounded; the binary64
    evaluation stays within the tolerance of it. *)
Lemma custom_score_custom_score_of (valid_weights : list (string * Q))
    (place : gmap string pyval) :
  custom_score_of valid_weights place (custom_score valid_weights place).
Proof.
  split.
  - intros E. rewrite custom_score_refines. unfold weighted_mean_score. by rewrite E.
  - intros _ _ Hne mu. rewrite custom_score_refines. unfold weighted_mean_score.
    destruct (contributing valid_weights place) as [|vw c] eqn:Ec; [done|].
    assert (round1 (Qsum ((λ vw, fst vw * snd vw) <$> vw :: c)
                    / Qsum (snd <$> vw :: c) * 10.0) = round1 (mu * 10)) as ->.
    { apply round1_proper. unfold mu, weighted_mean. set (a := _ / _). lra. }
    unfold tolerance. split; apply round1_mono; lra.
Qed.

(** C9.  [custom_score] is the neutral 5.0 when no signal contributes, that
    is when every validated signal is missing on the place or has a weight
    of zero or less.  Otherwise it is ten times the weighted mean of the
    present values of the validated signals whose weight is above zero,
    evaluated in binary64 in the order of the validated weights and rounded
    to one decimal: for signals in [[0, 1]] and weights of ordinary
    magnitude the result lies between the roundings of [10 m - 2^-40] and
    of [10 m + 2^-40] for the exact weighted mean [m].  The weights
    [{food_drink_quality: 1.0}] on a place whose [avg_food_drink_quality] is
    0.8 give 8.0.  In a successful custom-lens request every record of the
    response is a record of the cohort with the score for the validated
    weights of the payload added. *)
Theorem C9_custom_score :
  (forall valid_weights place,
      Forall (λ sw, signal_value place (fst sw) = None \/ snd sw <= 0)
        valid_weights ->
      custom_score_binary64 valid_weights place = 5.0)
  /\ (forall place v,
      _safe_float_opt (get place "avg_food_drink_quality") = Some v -> v == 0.8 ->
      custom_score_binary64 [("food_drink_quality", 1.0)] place = 8)
  /\ (forall valid_weights place,
      ordinary_weights valid_weights -> unit_signals valid_weights place ->
      contributing valid_weights place <> [] ->
      let mu := weighted_mean (contributing valid_weights place) in
      round1 (mu * 10 - tolerance) <= custom_score_binary64 valid_weights place
      /\ custom_score_binary64 valid_weights place <= round1 (mu * 10 + tolerance))
  /\ (forall supabase weights min_rating min_reviews limit events body total_count,
      get_locations_custom supabase weights min_rating min_reviews limit
      = (events, HttpOk body total_count) ->
      exists items,
        json_loads weights = Some (VDict items)
        /\ forall p, p ∈ body ->
             exists p0 s,
               p = <["custom_score" := VFloat s]> p0
               /\ custom_score_of (validate_weights items) p0 s).
Proof.
  split; [apply custom_score_binary64_neutral|].
  split; [apply custom_score_binary64_example|].
  split; [apply custom_score_binary64_near|].
  intros supabase weights min_rating min_reviews limit events body total_count H.
  apply get_locations_custom_inv in H
    as (db & results & enriched & items & Hj & _ & _ & _ & Hbody).
  exists items. split; [done|]. intros p Hp.
  destruct (Hbody p Hp) as (p0 & _ & ->). exists p0. eexists.
  split; [reflexivity|]. apply custom_score_custom_score_of.
Qed.

End CustomScoreTheorem.

Section CustomScoreExample.
#[local] Existing Instance ExampleRuntime.example_runtime.

Lemma C9_custom_score_witness :
  custom_score_binary64 [("food_drink_quality", -1); ("memorable", 2.0)]
    place_food_only = 5.0
  /\ custom_score_binary64 [("food_drink_quality", 1.0)] place_food_only = 8
  /\ (let mu := weighted_mean
                  (contributing [("food_drink_quality", 3.0)] place_865) in
      round1 (mu * 10 - tolerance)
      <= custom_score_binary64 [("food_drink_quality", 3.0)] place_865
      /\ custom_score_binary64 [("food_drink_quality", 3.0)] place_865
         <= round1 (mu * 10 + tolerance))
  /\ exists items,
       json_loads ExampleRuntime.payload_food = Some (VDict items)
       /\ forall p, p ∈ response_body (snd example_custom_request) ->
            exists p0 s,
              p = <["custom_score" := VFloat s]> p0
              /\ custom_score_of (validate_weights items) p0 s.
Proof.
  split; [|split; [|split]].
  - apply (proj1 C9_custom_score).
    constructor; [right; by apply Qleb_le|].
    constructor; [left; by_vm|]. constructor.
  - apply (proj1 (proj2 C9_custom_score) place_food_only 0.8); by_vm.
  - apply (proj1 (proj2 (proj2 C9_custom_score))
             [("food_drink_quality"%string, 3.0)] place_865).
    + split; [cbn; lia|]. constructor; [|constructor].
      right. split; by apply Qleb_le.
    + constructor; [|constructor]. vm_compute. split; discriminate.
    + vm_compute. discriminate.
  - apply (proj2 (proj2 (proj2 C9_custom_score))
             (Some example_db) ExampleRuntime.payload_food 3.5 0%Z 120%nat
             (fst example_custom_request) _
             (response_total (snd example_custom_request))).
    apply ok_response. by_vm.
Defined.

(** The custom score is not a function of the weighted mean.  The place
    whose only signal is 0.865 has the weighted mean 0.865, ten times which
    is 8.65, whatever the weight of the signal; with the weight 1.0 the
    loop returns 8.7 and with the weight 3.0 it returns 8.6, so neither
    rounding rule for 8.65 gives both. *)
Theorem C9_weighted_mean_counterexample :
  contributing [("food_drink_quality", 1.0)] place_865 = [(0.865, 1.0)]
  /\ contributing [("food_drink_quality", 3.0)] place_865 = [(0.865, 3.0)]
  /\ weighted_mean [(0.865, 1.0)] * 10 == 8.65
  /\ weighted_mean [(0.865, 3.0)] * 10 == 8.65
  /\ custom_score_binary64 [("food_drink_quality", 1.0)] place_865 = 87 # 10
  /\ custom_score_binary64 [("food_drink_quality", 3.0)] place_865 = 43 # 5.
Proof. by_vm. Qed.

End CustomScoreExample.

(** * Further properties of the module *)

(** ** The clamp *)

Lemma py_min_mono_r (a x y : Q) : x <= y -> py_min a x <= py_min a y.
Proof. intros H. unfold py_min. repeat case_Q; lra. Qed.

Lemma py_max_mono_r (a x y : Q) : x <= y -> py_max a x <= py_max a y.
Proof. intros H. unfold py_max. repeat case_Q; lra. Qed.

Lemma py_min_mono_l (x y b : Q) : x <= y -> py_min x b <= py_min y b.
Proof. intros H. unfold py_min. repeat case_Q; lra. Qed.

Lemma _clamp_mono (x y lo hi : Q) : x <= y -> _clamp x lo hi <= _clamp y lo hi.
Proof. intros H. unfold _clamp. by apply py_max_mono_r, py_min_mono_r. Qed.

Lemma _clamp_low (x lo hi : Q) : lo <= hi -> x <= lo -> _clamp x lo hi == lo.
Proof.
  intros H1 H2. unfold _clamp.
  assert (py_min hi x <= lo) by (unfold py_min; case_Q; lra).
  unfold py_max. case_Q; lra.
Qed.

Lemma _clamp_high (x lo hi : Q) : lo <= hi -> hi <= x -> _clamp x lo hi == hi.
Proof.
  intros H1 H2. unfold _clamp.
  assert (py_min hi x == hi) by (unfold py_min; case_Q; lra).
  unfold py_max. case_Q; lra.
Qed.

(** X1. For [lo <= hi], [_clamp] is the monotone projection onto
    [[lo, hi]]: the result lies in the interval, a value of the interval is
    returned as it is, a value below gives [lo] and a value above gives [hi]. *)
Theorem X1_clamp_projection (x lo hi : Q) :
  lo <= hi ->
  lo <= _clamp x lo hi <= hi
  /\ (lo <= x <= hi -> _clamp x lo hi == x)
  /\ (x <= lo -> _clamp x lo hi == lo)
  /\ (hi <= x -> _clamp x lo hi == hi)
  /\ (forall y, x <= y -> _clamp x lo hi <= _clamp y lo hi).
Proof.
  intros H. split; [by apply _clamp_bounds|]. split; [|split; [|split]].
  - intros [H1 H2]. by apply _clamp_id.
  - by apply _clamp_low.
  - by apply _clamp_high.
  - intros y. apply _clamp_mono.
Qed.

Lemma X1_clamp_projection_witness :
  0 <= _clamp (1 # 2) 0 1 <= 1 /\ _clamp 12 0 10 == 10.
Proof.
  split.
  - apply (proj1 (X1_clamp_projection (1 # 2) 0 1 ltac:(lra))).
  - apply (proj1 (proj2 (proj2 (proj2 (X1_clamp_projection 12 0 10 ltac:(lra)))))).
    lra.
Defined.

(** ** The interpolated percentile *)

Lemma nth_sorted (l : list Q) (i j : nat) :
  StronglySorted Qle l -> (i <= j < length l)%nat -> nth i l 0 <= nth j l 0.
Proof.
  intros Hs [Hij Hj]. rewrite !nth_lookup.
  destruct (lookup_lt_is_Some_2 l i ltac:(lia)) as [a Ha].
  destruct (lookup_lt_is_Some_2 l j ltac:(lia)) as [b Hb].
  rewrite Ha, Hb. simpl.
  destruct (decide (i = j)) as [->|Hne].
  - assert (a = b) as -> by congruence. apply Qle_refl.
  - apply (StronglySorted_lookup_lt Qle l i j a b); [done..|lia].
Qed.

(** The two indices between which [_percentile_sorted] interpolates. *)
Lemma percentile_indices (n : nat) (p : Q) :
  (2 <= n)%nat -> 0 <= p <= 1 ->
  let idx := p * inject_Z (Z.of_nat n - 1) in
  (0 <= Qfloor idx)%Z /\ (Qfloor idx <= Qceiling idx)%Z
  /\ (Qceiling idx <= Z.of_nat n - 1)%Z
  /\ 0 <= idx - inject_Z (Qfloor idx) /\ idx - inject_Z (Qfloor idx) <= 1.
Proof.
  intros Hn Hp idx.
  assert (1 <= inject_Z (Z.of_nat n - 1)) as Hn1.
  { change 1 with (inject_Z 1). rewrite <- Zle_Qle. lia. }
  assert (0 <= idx) as H0.
  { unfold idx. apply Qmult_le_0_compat; lra. }
  assert (idx <= inject_Z (Z.of_nat n - 1)) as H1.
  { unfold idx. rewrite <- (Qmult_1_l (inject_Z (Z.of_nat n - 1))) at 2.
    apply Qmult_le_compat_r; lra. }
  pose proof (Qfloor_le idx) as Hf1. pose proof (Qlt_floor idx) as Hf2.
  pose proof (Qle_ceiling idx) as Hc1. pose proof (Qceiling_lt idx) as Hc2.
  split; [|split; [|split; [|split]]].
  - assert (inject_Z 0 < inject_Z (Qfloor idx + 1)) as H
      by (change (inject_Z 0) with 0; lra).
    rewrite <- Zlt_Qlt in H. lia.
  - assert (inject_Z (Qfloor idx) <= inject_Z (Qceiling idx)) as H by lra.
    by rewrite <- Zle_Qle in H.
  - assert (inject_Z (Qceiling idx - 1) < inject_Z (Z.of_nat n - 1)) as H by lra.
    rewrite <- Zlt_Qlt in H. lia.
  - lra.
  - rewrite inject_Z_plus in Hf2. change (inject_Z 1) with 1 in Hf2. lra.
Qed.

Lemma convex_between (a b w lo hi : Q) :
  0 <= w <= 1 -> lo <= a <= hi -> lo <= b <= hi ->
  lo <= a * (1.0 - w) + b * w <= hi.
Proof.
  intros Hw Ha Hb.
  assert (0 <= (a - lo) * (1 - w)) by (apply Qmult_le_0_compat; lra).
  assert (0 <= (b - lo) * w) by (apply Qmult_le_0_compat; lra).
  assert (0 <= (hi - a) * (1 - w)) by (apply Qmult_le_0_compat; lra).
  assert (0 <= (hi - b) * w) by (apply Qmult_le_0_compat; lra).
  split.
  - assert (a * (1.0 - w) + b * w - lo == (a - lo) * (1 - w) + (b - lo) * w) as E
      by ring.
    lra.
  - assert (hi - (a * (1.0 - w) + b * w) == (hi - a) * (1 - w) + (hi - b) * w) as E
      by ring.
    lra.
Qed.

Lemma _percentile_sorted_unfold (sorted_vals : list Q) (pct : Q) :
  (2 <= length sorted_vals)%nat ->
  _percentile_sorted sorted_vals pct
  = let idx := _clamp pct 0.0 100.0 / 100.0
               * inject_Z (Z.of_nat (length sorted_vals) - 1) in
    if (Qfloor idx =? Qceiling idx)%Z then nth (Z.to_nat (Qfloor idx)) sorted_vals 0
    else nth (Z.to_nat (Qfloor idx)) sorted_vals 0 * (1.0 - (idx - inject_Z (Qfloor idx)))
         + nth (Z.to_nat (Qceiling idx)) sorted_vals 0 * (idx - inject_Z (Qfloor idx)).
Proof.
  intros Hn. unfold _percentile_sorted.
  destruct sorted_vals as [|v0 [|v1 l]]; simpl in Hn; try lia. reflexivity.
Qed.

Lemma clamped_fraction (pct : Q) : 0 <= _clamp pct 0.0 100.0 / 100.0 <= 1.
Proof.
  pose proof (_clamp_bounds pct 0.0 100.0 ltac:(lra)) as H.
  set (c := _clamp pct 0.0 100.0) in *. clearbody c. qlra.
Qed.

Lemma _percentile_sorted_between (sorted_vals : list Q) (pct lowest highest : Q) :
  StronglySorted Qle sorted_vals ->
  head sorted_vals = Some lowest -> last sorted_vals = Some highest ->
  lowest <= _percentile_sorted sorted_vals pct <= highest
  /\ (pct <= 0 -> _percentile_sorted sorted_vals pct == lowest)
  /\ (100 <= pct -> _percentile_sorted sorted_vals pct == highest)
  /\ _percentile_sorted [] pct == 0.
Proof.
  intros Hs Hh Hl.
  assert (nth 0 sorted_vals 0 = lowest) as Hfirst.
  { rewrite nth_lookup, <- head_lookup, Hh. done. }
  assert (nth (length sorted_vals - 1) sorted_vals 0 = highest) as Hlast.
  { rewrite nth_lookup. rewrite last_lookup in Hl.
    replace (length sorted_vals - 1)%nat with (pred (length sorted_vals)) by lia.
    by rewrite Hl. }
  destruct (decide (length sorted_vals = 1%nat)) as [H1|H1].
  { destruct sorted_vals as [|v0 [|v1 l]]; try done.
    change (_percentile_sorted [v0] pct) with v0.
    injection Hh as ->. injection Hl as <-.
    repeat split; try reflexivity; try lra; intros; lra. }
  assert (2 <= length sorted_vals)%nat as Hn.
  { destruct sorted_vals as [|v0 [|v1 l]]; simpl in *; try done; lia. }
  rewrite _percentile_sorted_unfold by done. cbv zeta.
  set (n := length sorted_vals) in *.
  split; [|split; [|split]].
  - pose proof (percentile_indices n _ Hn (clamped_fraction pct)) as H.
    cbv zeta in H. destruct H as (Hlo & Hlh & Hhi & Hw0 & Hw1).
    set (idx := _ * inject_Z (Z.of_nat n - 1)) in *.
    assert (forall k, (0 <= k <= Z.of_nat n - 1)%Z ->
              lowest <= nth (Z.to_nat k) sorted_vals 0 <= highest) as Hnth.
    { intros k Hk. rewrite <- Hfirst, <- Hlast. split; apply nth_sorted; try done;
        fold n; lia. }
    destruct (_ =? _)%Z.
    + apply Hnth. lia.
    + apply convex_between; [lra | apply Hnth; lia | apply Hnth; lia].
  - intros Hp.
    assert (_clamp pct 0.0 100.0 / 100.0 * inject_Z (Z.of_nat n - 1) == 0) as E.
    { rewrite (_clamp_low pct 0.0 100.0) by lra. unfold Qdiv. ring. }
    rewrite (Qfloor_comp _ _ E), (Qceiling_comp _ _ E).
    change (Qfloor 0) with 0%Z. change (Qceiling 0) with 0%Z.
    rewrite Z.eqb_refl. change (Z.to_nat 0) with 0%nat. by rewrite Hfirst.
  - intros Hp.
    assert (_clamp pct 0.0 100.0 / 100.0 * inject_Z (Z.of_nat n - 1)
            == inject_Z (Z.of_nat n - 1)) as E.
    { rewrite (_clamp_high pct 0.0 100.0) by lra. field. }
    rewrite (Qfloor_comp _ _ E), (Qceiling_comp _ _ E).
    rewrite Qfloor_Z, Qceiling_Z, Z.eqb_refl.
    replace (Z.to_nat (Z.of_nat n - 1)) with (n - 1)%nat by lia.
    by rewrite Hlast.
  - reflexivity.
Qed.

(** X2. The percentile of a non-empty ascending list lies between its
    first and its last element; a percentage of 0 or less gives the first
    element, one of 100 or more the last; the percentile of the empty list
    is 0. *)
Theorem X2_percentile_sorted_between (sorted_vals : list Q) (pct lowest highest : Q) :
  StronglySorted Qle sorted_vals ->
  head sorted_vals = Some lowest -> last sorted_vals = Some highest ->
  lowest <= _percentile_sorted sorted_vals pct <= highest
  /\ (pct <= 0 -> _percentile_sorted sorted_vals pct == lowest)
  /\ (100 <= pct -> _percentile_sorted sorted_vals pct == highest)
  /\ _percentile_sorted [] pct == 0.
Proof. apply _percentile_sorted_between. Qed.

Lemma X2_percentile_sorted_between_witness :
  1 <= _percentile_sorted [1; 2; 4] 75 <= 4.
Proof.
  apply (X2_percentile_sorted_between [1; 2; 4] 75 1 4).
  - repeat constructor; lra.
  - reflexivity.
  - reflexivity.
Defined.

(** ** Sorted lists *)

Lemma StronglySorted_fmap_strong {A B} (R1 : relation A) (R2 : relation B)
    (f : A -> B) (l : list A) :
  (forall x y, x ∈ l -> y ∈ l -> R1 x y -> R2 (f x) (f y)) ->
  StronglySorted R1 l -> StronglySorted R2 (f <$> l).
Proof.
  intros HR Hs. induction Hs as [|x l Hs IH Hx]; simpl; constructor.
  - apply IH. intros a b Ha Hb. apply HR; by right.
  - rewrite Forall_fmap. rewrite Forall_forall in Hx |- *.
    intros y Hy. simpl. apply HR; [by left | by right | by apply Hx].
Qed.

Lemma StronglySorted_take {A} (R : relation A) (n : nat) (l : list A) :
  StronglySorted R l -> StronglySorted R (take n l).
Proof.
  intros Hs. rewrite <- (take_drop n l) in Hs. by apply StronglySorted_app_1_l in Hs.
Qed.

(** ** The stages of [GET /locations] *)

Section LocationsStages.
Context {RT : Runtime}.

Lemma get_locations_try_stages (db : client) (min_rating : Q) (min_reviews : Z)
    (kinds : option (list string)) (kinds_mode sort_by : string) (limit : nat) :
  get_locations_try db min_rating min_reviews kinds kinds_mode sort_by limit
  = (results ← db min_rating;
     abs_residuals ← collect_abs_residuals results;
     enriched ← mapM (λ place, enrich_place place (scale_of_residuals abs_residuals))
                  results;
     l1 ← reviews_stage min_reviews (normalize_and_blend enriched);
     l2 ← kinds_stage kinds kinds_mode l1;
     l3 ← sort_desc_by sort_by l2;
     Some (take limit l3, length l3)).
Proof.
  unfold get_locations_try.
  destruct (db min_rating) as [results|]; [|done]. simpl.
  destruct (collect_abs_residuals results) as [abs_residuals|]; [|done]. simpl.
  fold (scale_of_residuals abs_residuals).
  destruct (mapM _ results) as [enriched|]; [|done]. simpl.
  fold (reviews_stage min_reviews (normalize_and_blend enriched)).
  destruct (reviews_stage _ _) as [l1|]; [|done]. simpl.
  destruct kinds as [[|k kinds]|]; try reflexivity.
  unfold kinds_stage, known_kinds. by destruct (List.filter _ _).
Qed.

(** The stages a successful request went through. *)
Lemma get_locations_stages (supabase : option client) (min_rating : Q)
    (min_reviews : Z) (kinds : option (list string)) (kinds_mode sort_by : string)
    (limit : nat) (events : list event) (body : list (gmap string pyval))
    (total_count : nat) :
  get_locations supabase min_rating min_reviews kinds kinds_mode sort_by limit
  = (events, HttpOk body total_count)
  <-> exists db results abs_residuals enriched l1 l2 l3,
    supabase = Some db /\ events = [EvSelect min_rating]
    /\ db min_rating = Some results
    /\ collect_abs_residuals results = Some abs_residuals
    /\ mapM (λ place, enrich_place place (scale_of_residuals abs_residuals)) results
       = Some enriched
    /\ reviews_stage min_reviews (normalize_and_blend enriched) = Some l1
    /\ kinds_stage kinds kinds_mode l1 = Some l2
    /\ sort_desc_by sort_by l2 = Some l3
    /\ body = take limit l3 /\ total_count = length l3.
Proof.
  unfold get_locations. split.
  - intros H. destruct supabase as [db|]; [|done].
    rewrite get_locations_try_stages in H.
    destruct (db min_rating) as [results|] eqn:E0; simpl in H; [|done].
    destruct (collect_abs_residuals results) as [abs_residuals|] eqn:E1;
      simpl in H; [|done].
    destruct (mapM _ results) as [enriched|] eqn:E2; simpl in H; [|done].
    destruct (reviews_stage _ _) as [l1|] eqn:E3; simpl in H; [|done].
    destruct (kinds_stage _ _ _) as [l2|] eqn:E4; simpl in H; [|done].
    destruct (sort_desc_by _ _) as [l3|] eqn:E5; simpl in H; [|done].
    injection H as <- <- <-.
    by exists db, results, abs_residuals, enriched, l1, l2, l3.
  - intros (db & results & abs_residuals & enriched & l1 & l2 & l3 & -> & -> & E0
            & E1 & E2 & E3 & E4 & E5 & -> & ->).
    rewrite get_locations_try_stages, E0. simpl. rewrite E1. simpl.
    rewrite E2. simpl. rewrite E3. simpl. rewrite E4. simpl. by rewrite E5.
Qed.

End LocationsStages.

(** ** The calibrated scale of the Underrated fallback *)

Lemma StronglySorted_impl {A} (R1 R2 : relation A) (l : list A) :
  (forall x y, R1 x y -> R2 x y) -> StronglySorted R1 l -> StronglySorted R2 l.
Proof.
  intros HR. induction 1 as [|x l Hs IH Hx]; constructor; [done|].
  eapply Forall_impl; [exact Hx | auto].
Qed.

Lemma stable_sort_Qleb_sorted (l : list Q) : StronglySorted Qle (stable_sort Qleb l).
Proof.
  apply (StronglySorted_impl (λ a b, Qleb a b = true)).
  - intros x y. apply Qleb_le.
  - apply stable_sort_sorted; [apply Qleb_total | apply Qleb_trans].
Qed.

Lemma scale_of_residuals_floor (abs_residuals : list Q) :
  0.10 <= scale_of_residuals abs_residuals.
Proof. apply py_max_ge_l. Qed.

Lemma scale_of_residuals_few (abs_residuals : list Q) :
  (length abs_residuals < 10)%nat -> scale_of_residuals abs_residuals = 0.20.
Proof.
  intros H. unfold scale_of_residuals. cbv zeta. rewrite length_stable_sort.
  by apply Nat.leb_gt in H as ->.
Qed.

Lemma scale_of_residuals_between (abs_residuals : list Q) (lo hi : Q) :
  (10 <= length abs_residuals)%nat ->
  Forall (λ r, lo <= r <= hi) abs_residuals ->
  py_max 0.10 lo <= scale_of_residuals abs_residuals
  /\ scale_of_residuals abs_residuals <= py_max 0.10 hi.
Proof.
  intros Hn Hall. unfold scale_of_residuals. cbv zeta. rewrite length_stable_sort.
  apply Nat.leb_le in Hn as Hn'. rewrite Hn'.
  set (sorted := stable_sort Qleb abs_residuals).
  assert (Forall (λ r, lo <= r <= hi) sorted) as Hsorted.
  { unfold sorted. by rewrite stable_sort_perm. }
  assert (length sorted = length abs_residuals) as Hlen
    by apply length_stable_sort.
  destruct (head sorted) as [a|] eqn:Ea.
  2: { apply head_None in Ea. rewrite Ea in Hlen. simpl in Hlen. lia. }
  destruct (last sorted) as [b|] eqn:Eb.
  2: { apply last_None in Eb. rewrite Eb in Hlen. simpl in Hlen. lia. }
  pose proof (_percentile_sorted_between sorted 75 a b
                (stable_sort_Qleb_sorted _) Ea Eb) as [[H1 H2] _].
  rewrite Forall_forall in Hsorted.
  assert (a ∈ sorted) as Ha.
  { rewrite head_lookup in Ea. by eapply list_elem_of_lookup_2. }
  assert (b ∈ sorted) as Hb.
  { rewrite last_lookup in Eb. by eapply list_elem_of_lookup_2. }
  apply Hsorted in Ha, Hb.
  split; apply py_max_mono_r; lra.
Qed.

Section Calibration.
Context {RT : Runtime}.

(** X3. In a successful [GET /locations] the rows are enriched with one
    scale for the Underrated fallback, computed from the absolute residuals
    of the rows that carry one.  The scale is never below 0.10; it is 0.20
    when fewer than 10 rows carry a residual; with 10 or more it lies between
    the smallest and the largest absolute residual, each raised to 0.10 if it
    is below. *)
Theorem X3_underrated_scale_calibrated (supabase : option client) (min_rating : Q)
    (min_reviews : Z) (kinds : option (list string)) (kinds_mode sort_by : string)
    (limit : nat) (events : list event) (body : list (gmap string pyval))
    (total_count : nat) :
  get_locations supabase min_rating min_reviews kinds kinds_mode sort_by limit
  = (events, HttpOk body total_count) ->
  exists db results abs_residuals scale enriched,
    supabase = Some db /\ db min_rating = Some results
    /\ collect_abs_residuals results = Some abs_residuals
    /\ mapM (λ place, enrich_place place scale) results = Some enriched
    /\ body ⊆ normalize_and_blend enriched
    /\ 0.10 <= scale
    /\ ((length abs_residuals < 10)%nat -> scale = 0.20)
    /\ ((10 <= length abs_residuals)%nat ->
        forall lo hi, Forall (λ r, lo <= r <= hi) abs_residuals ->
          py_max 0.10 lo <= scale /\ scale <= py_max 0.10 hi).
Proof.
  intros H. apply get_locations_stages in H
    as (db & results & abs_residuals & enriched & l1 & l2 & l3 & -> & -> & E0
        & E1 & E2 & E3 & E4 & E5 & -> & ->).
  exists db, results, abs_residuals, (scale_of_residuals abs_residuals), enriched.
  split; [done|]. split; [done|]. split; [done|]. split; [done|].
  split; [|split; [|split]].
  - assert (l1 ⊆ normalize_and_blend enriched) as H1.
    { unfold reviews_stage in E3. destruct (0 <? min_reviews)%Z.
      - by eapply py_filter_subseteq.
      - by injection E3 as <-. }
    assert (l2 ⊆ l1) as H2.
    { unfold kinds_stage in E4.
      destruct kinds as [[|kd kinds]|]; try (by injection E4 as <-).
      destruct (known_kinds _); [by injection E4 as <-|].
      destruct (String.eqb kinds_mode "all"); by eapply py_filter_subseteq. }
    apply sort_desc_by_perm in E5.
    intros p Hp. apply H1, H2. rewrite <- E5. by eapply subseteq_take.
  - apply scale_of_residuals_floor.
  - apply scale_of_residuals_few.
  - intros Hn lo hi. by apply scale_of_residuals_between.
Qed.

End Calibration.

(** ** Filters and the descending sort *)

Lemma py_filter_filter {A} (f : A -> option bool) (l r : list A) :
  py_filter f l = Some r ->
  r = List.filter (λ x, bool_decide (f x = Some true)) l.
Proof.
  revert r. induction l as [|x l IH]; intros r H; simpl in H.
  - by injection H as <-.
  - destruct (f x) as [b|] eqn:Ef; simpl in H; [|done].
    destruct (py_filter f l) as [r'|]; simpl in H; [|done].
    injection H as <-. simpl. rewrite Ef, <- (IH r' eq_refl).
    by destruct b.
Qed.

Lemma filter_sublist_impl {A} (f g : A -> bool) (l : list A) :
  (forall x, f x = true -> g x = true) ->
  List.filter f l `sublist_of` List.filter g l.
Proof.
  intros Hfg. induction l as [|x l IH]; simpl; [done|].
  destruct (f x) eqn:Ef.
  - rewrite (Hfg x Ef). by apply sublist_skip.
  - destruct (g x); [by apply sublist_cons | done].
Qed.

Lemma filter_In_elem {A} (f : A -> bool) (l : list A) (x : A) :
  x ∈ List.filter f l <-> x ∈ l /\ f x = true.
Proof. rewrite !list_elem_of_In. apply filter_In. Qed.

Section SortDesc.
Context {RT : Runtime}.

Lemma sort_desc_by_sorted (k : string) (l r : list (gmap string pyval)) :
  sort_desc_by k l = Some r -> sorted_desc k r.
Proof.
  unfold sort_desc_by, sorted_desc. intros H.
  destruct l as [|x [|y l]].
  - injection H as <-. constructor.
  - injection H as <-. repeat constructor.
  - destruct (mapM _ _) as [keyed|] eqn:Em; simpl in H; [|done].
    injection H as <-.
    assert (Forall (λ kx, sort_key k (snd kx) = fst kx) keyed) as Hkeys.
    { apply mapM_Some_1 in Em. clear -Em.
      induction Em as [|a kb l1 l2 Hab Hrest IH]; [constructor|].
      constructor; [|done]. unfold sort_key.
      destruct (as_number (py_or (get a k) (VInt 0))) as [key|] eqn:E;
        simpl in Hab; [|done].
      injection Hab as <-. simpl. by rewrite E. }
    set (le := λ a b : Q * gmap string pyval, Qleb (fst b) (fst a)).
    apply (StronglySorted_fmap_strong (λ a b, le a b = true)).
    + intros a b Ha Hb Hab.
      rewrite stable_sort_perm in Ha, Hb. rewrite Forall_forall in Hkeys.
      rewrite (Hkeys a Ha), (Hkeys b Hb). by apply Qleb_le.
    + apply stable_sort_sorted.
      * intros a b. apply Qleb_total.
      * intros a b c H1 H2. unfold le in *. by eapply Qleb_trans.
Qed.

(** X4. A successful [GET /locations] queries the storage once, with the
    rating threshold; its body is in non-increasing order of the sort key
    ([x.get(sort_by) or 0]) and holds [min(limit, total)] records, where
    [total] is the count sent in [X-Total-Count]. *)
Theorem X4_locations_sorted_and_counted (supabase : option client) (min_rating : Q)
    (min_reviews : Z) (kinds : option (list string)) (kinds_mode sort_by : string)
    (limit : nat) (events : list event) (body : list (gmap string pyval))
    (total_count : nat) :
  get_locations supabase min_rating min_reviews kinds kinds_mode sort_by limit
  = (events, HttpOk body total_count) ->
  events = [EvSelect min_rating]
  /\ sorted_desc sort_by body
  /\ length body = Nat.min limit total_count.
Proof.
  intros H. apply get_locations_stages in H
    as (db & results & abs_residuals & enriched & l1 & l2 & l3 & -> & -> & E0
        & E1 & E2 & E3 & E4 & E5 & -> & ->).
  split; [done|]. split.
  - apply StronglySorted_take. by eapply sort_desc_by_sorted.
  - apply length_take.
Qed.

(** X5. The ranking does not depend on [limit]: a successful
    [GET /locations] has a full ranking of [total] records of which every
    request that differs in [limit] only returns the first [limit], with the
    same total. *)
Theorem X5_locations_limit_prefix (supabase : option client) (min_rating : Q)
    (min_reviews : Z) (kinds : option (list string)) (kinds_mode sort_by : string)
    (limit : nat) (events : list event) (body : list (gmap string pyval))
    (total_count : nat) :
  get_locations supabase min_rating min_reviews kinds kinds_mode sort_by limit
  = (events, HttpOk body total_count) ->
  exists ranking,
    length ranking = total_count /\ body = take limit ranking
    /\ forall limit',
         get_locations supabase min_rating min_reviews kinds kinds_mode sort_by limit'
         = (events, HttpOk (take limit' ranking) total_count).
Proof.
  intros H. apply get_locations_stages in H
    as (db & results & abs_residuals & enriched & l1 & l2 & l3 & -> & -> & E0
        & E1 & E2 & E3 & E4 & E5 & -> & ->).
  exists l3. split; [done|]. split; [done|]. intros limit'.
  apply get_locations_stages.
  by exists db, results, abs_residuals, enriched, l1, l2, l3.
Qed.

End SortDesc.

(** ** The review-count filter and the kind filter *)

Lemma py_all_true {A} (f : A -> option bool) (l : list A) :
  py_all f l = Some true <-> forall x, x ∈ l -> f x = Some true.
Proof.
  induction l as [|x l IH]; simpl.
  - split; [|done]. intros _ y Hy. by apply elem_of_nil in Hy.
  - destruct (f x) as [[]|] eqn:Ef; simpl.
    + rewrite IH. split.
      * intros H y Hy. apply elem_of_cons in Hy as [->|Hy]; [done | by apply H].
      * intros H y Hy. apply H. by right.
    + split; [done|]. intros H. specialize (H x ltac:(by left)). congruence.
    + split; [done|]. intros H. specialize (H x ltac:(by left)). congruence.
Qed.

Lemma py_any_true {A} (f : A -> option bool) (l : list A) :
  py_any f l = Some true -> exists x, x ∈ l /\ f x = Some true.
Proof.
  induction l as [|x l IH]; simpl; [done|].
  destruct (f x) as [[]|] eqn:Ef; simpl; [|by (intros H; apply IH in H
    as (y & Hy & Hf); exists y; split; [right|])|done].
  intros _. exists x. split; [by left | done].
Qed.

Lemma py_all_any {A} (f : A -> option bool) (l : list A) :
  l <> [] -> py_all f l = Some true -> py_any f l = Some true.
Proof.
  destruct l as [|x l]; [done|]. intros _. simpl.
  by destruct (f x) as [[]|].
Qed.

Section Filters.
Context {RT : Runtime}.

Lemma reviews_stage_spec (min_reviews : Z) (l r : list (gmap string pyval)) :
  (0 < min_reviews)%Z -> reviews_stage min_reviews l = Some r ->
  r = List.filter (has_reviews min_reviews) l.
Proof.
  intros Hm. unfold reviews_stage. apply Z.ltb_lt in Hm as ->.
  apply py_filter_filter.
Qed.

Lemma reviews_stage_subseteq (min_reviews : Z) (l r : list (gmap string pyval)) :
  reviews_stage min_reviews l = Some r -> r ⊆ l.
Proof.
  unfold reviews_stage. destruct (0 <? min_reviews)%Z.
  - apply py_filter_subseteq.
  - by intros [= <-].
Qed.

Lemma kinds_stage_subseteq (kinds : option (list string)) (kinds_mode : string)
    (l r : list (gmap string pyval)) :
  kinds_stage kinds kinds_mode l = Some r -> r ⊆ l.
Proof.
  unfold kinds_stage.
  destruct kinds as [[|kd kinds]|]; try (by intros [= <-]).
  destruct (known_kinds _); [by intros [= <-]|].
  destruct (String.eqb kinds_mode "all"); apply py_filter_subseteq.
Qed.

Lemma kinds_stage_unknown (kinds : list string) (kinds_mode : string)
    (l : list (gmap string pyval)) :
  known_kinds kinds = [] -> kinds_stage (Some kinds) kinds_mode l = Some l.
Proof.
  intros H. unfold kinds_stage. destruct kinds as [|k kinds]; [done|]. by rewrite H.
Qed.

Lemma kinds_stage_known (kinds : list string) (kinds_mode : string)
    (l : list (gmap string pyval)) :
  known_kinds kinds <> [] ->
  kinds_stage (Some kinds) kinds_mode l
  = if String.eqb kinds_mode "all"
    then py_filter (λ p, py_all (has_kind p) (known_kinds kinds)) l
    else py_filter (λ p, py_any (has_kind p) (known_kinds kinds)) l.
Proof.
  intros H. unfold kinds_stage. destruct kinds as [|k kinds]; [done|].
  by destruct (known_kinds (k :: kinds)).
Qed.

Lemma known_kinds_nil (kinds : list string) :
  Forall (λ k, str_lower_strip k <> "bar" /\ str_lower_strip k <> "restaurant") kinds ->
  known_kinds kinds = [].
Proof.
  unfold known_kinds. induction 1 as [|k kinds [Hb Hr] _ IH]; [done|].
  rewrite fmap_cons. simpl. rewrite IH.
  rewrite bool_decide_eq_false_2; [done|].
  intros [want Hw]. unfold KIND_TYPE_MAP in Hw.
  apply elem_of_list_to_map_2 in Hw.
  repeat (apply elem_of_cons in Hw as [Hw|Hw]; [by injection Hw as ? ?|]).
  by apply elem_of_nil in Hw.
Qed.

(** X6. With [min_reviews > 0], every record of a successful
    [GET /locations] has [int(user_ratings_total or 0) >= min_reviews].
    When no kind is asked for, the total is the number of records of the
    cohort that pass this test, and if the limit does not cut the list every
    such record is in the body. *)
Theorem X6_min_reviews_filter (supabase : option client) (min_rating : Q)
    (min_reviews : Z) (kinds : option (list string)) (kinds_mode sort_by : string)
    (limit : nat) (events : list event) (body : list (gmap string pyval))
    (total_count : nat) :
  (0 < min_reviews)%Z ->
  get_locations supabase min_rating min_reviews kinds kinds_mode sort_by limit
  = (events, HttpOk body total_count) ->
  exists db results scale enriched,
    supabase = Some db /\ db min_rating = Some results
    /\ mapM (λ place, enrich_place place scale) results = Some enriched
    /\ (forall p, p ∈ body ->
          p ∈ normalize_and_blend enriched /\ has_reviews min_reviews p = true)
    /\ (kinds = None ->
        total_count
        = length (List.filter (has_reviews min_reviews) (normalize_and_blend enriched))
        /\ ((total_count <= limit)%nat ->
            forall p, p ∈ normalize_and_blend enriched ->
                      has_reviews min_reviews p = true -> p ∈ body)).
Proof.
  intros Hm H. apply get_locations_stages in H
    as (db & results & abs_residuals & enriched & l1 & l2 & l3 & -> & -> & E0
        & E1 & E2 & E3 & E4 & E5 & -> & ->).
  exists db, results, (scale_of_residuals abs_residuals), enriched.
  split; [done|]. split; [done|]. split; [done|].
  apply reviews_stage_spec in E3 as ->; [|done].
  pose proof (sort_desc_by_perm _ _ _ E5) as Hperm.
  split.
  - intros p Hp. apply subseteq_take in Hp. rewrite Hperm in Hp.
    apply kinds_stage_subseteq in E4. apply E4 in Hp.
    by apply filter_In_elem in Hp.
  - intros ->. simpl in E4. injection E4 as <-. split.
    + by rewrite Hperm.
    + intros Hlim p Hp Hr. rewrite take_ge by done. rewrite Hperm.
      by apply filter_In_elem.
Qed.

(** X7. Kinds are compared after [lower().strip()]; a request none of whose
    kinds is [bar] or [restaurant] is answered like a request without
    kinds. *)
Theorem X7_unknown_kinds_ignored (supabase : option client) (min_rating : Q)
    (min_reviews : Z) (kinds : list string) (kinds_mode sort_by : string)
    (limit : nat) :
  Forall (λ k, str_lower_strip k <> "bar" /\ str_lower_strip k <> "restaurant") kinds ->
  get_locations supabase min_rating min_reviews (Some kinds) kinds_mode sort_by limit
  = get_locations supabase min_rating min_reviews None kinds_mode sort_by limit.
Proof.
  intros H. apply known_kinds_nil in H.
  unfold get_locations. destruct supabase as [db|]; [|done].
  rewrite !get_locations_try_stages.
  destruct (db min_rating) as [results|]; [|done]. cbn [mbind option_bind].
  destruct (collect_abs_residuals results) as [abs_residuals|]; [|done].
  cbn [mbind option_bind].
  destruct (mapM _ results) as [enriched|]; [|done]. cbn [mbind option_bind].
  destruct (reviews_stage _ _) as [l1|]; [|done]. cbn [mbind option_bind].
  by rewrite kinds_stage_unknown.
Qed.

(** X8. When a request names a known kind, every record of a successful
    [GET /locations] has one of the known kinds asked for, and all of them
    in the mode [all]. *)
Theorem X8_kinds_filter (supabase : option client) (min_rating : Q)
    (min_reviews : Z) (kinds : list string) (kinds_mode sort_by : string)
    (limit : nat) (events : list event) (body : list (gmap string pyval))
    (total_count : nat) :
  known_kinds kinds <> [] ->
  get_locations supabase min_rating min_reviews (Some kinds) kinds_mode sort_by limit
  = (events, HttpOk body total_count) ->
  Forall (matches_kinds kinds_mode (known_kinds kinds)) body.
Proof.
  intros Hk H. apply get_locations_stages in H
    as (db & results & abs_residuals & enriched & l1 & l2 & l3 & -> & -> & E0
        & E1 & E2 & E3 & E4 & E5 & -> & ->).
  rewrite kinds_stage_known in E4 by done.
  apply sort_desc_by_perm in E5.
  apply Forall_forall. intros p Hp. apply subseteq_take in Hp. rewrite E5 in Hp.
  unfold matches_kinds. destruct (String.eqb kinds_mode "all").
  - apply py_filter_filter in E4 as ->. apply filter_In_elem in Hp as [_ Hp].
    apply bool_decide_eq_true in Hp. by apply py_all_true.
  - apply py_filter_filter in E4 as ->. apply filter_In_elem in Hp as [_ Hp].
    apply bool_decide_eq_true in Hp. by apply py_any_true.
Qed.

(** X9. Asking for all of the kinds is stricter than asking for any of
    them: when both requests succeed, the total of the first is at most the
    total of the second, and every record of the first is in the second if
    the limit does not cut the second. *)
Theorem X9_all_kinds_within_any (supabase : option client) (min_rating : Q)
    (min_reviews : Z) (kinds : list string) (sort_by : string) (limit : nat)
    (events_all events_any : list event)
    (body_all body_any : list (gmap string pyval)) (total_all total_any : nat) :
  get_locations supabase min_rating min_reviews (Some kinds) "all" sort_by limit
  = (events_all, HttpOk body_all total_all) ->
  get_locations supabase min_rating min_reviews (Some kinds) "any" sort_by limit
  = (events_any, HttpOk body_any total_any) ->
  (total_all <= total_any)%nat
  /\ ((total_any <= limit)%nat -> body_all ⊆ body_any).
Proof.
  intros Hall Hany.
  apply get_locations_stages in Hall
    as (db & results & abs_residuals & enriched & l1 & l2 & l3 & -> & -> & E0
        & E1 & E2 & E3 & E4 & E5 & -> & ->).
  apply get_locations_stages in Hany
    as (db' & results' & abs_residuals' & enriched' & l1' & l2' & l3' & [= <-] & ->
        & E0' & E1' & E2' & E3' & E4' & E5' & -> & ->).
  rewrite E0 in E0'. injection E0' as <-.
  rewrite E1 in E1'. injection E1' as <-.
  rewrite E2 in E2'. injection E2' as <-.
  rewrite E3 in E3'. injection E3' as <-.
  apply sort_desc_by_perm in E5, E5'.
  assert (l2 `sublist_of` l2') as Hsub.
  { destruct (decide (known_kinds kinds = [])) as [Hk|Hk].
    - rewrite kinds_stage_unknown in E4, E4' by done. by simplify_eq.
    - rewrite kinds_stage_known in E4, E4' by done. simpl in E4, E4'.
      apply py_filter_filter in E4 as ->. apply py_filter_filter in E4' as ->.
      apply filter_sublist_impl. intros p Hp.
      apply bool_decide_eq_true in Hp. apply bool_decide_eq_true.
      by apply py_all_any. }
  split.
  - rewrite (Permutation_length E5), (Permutation_length E5').
    by apply sublist_length.
  - intros Hlim. rewrite (take_ge l3') by done.
    intros p Hp. apply subseteq_take in Hp. rewrite E5 in Hp. rewrite E5'.
    by eapply sublist_subseteq.
Qed.

End Filters.

(** ** The legacy dive score *)

Section DiveScore.
Context {RT : Runtime}.

(** The four components of the total. *)
Lemma dive_total_components (place : gmap string pyval) (total : Q) :
  dive_total place = Some total ->
  exists rating reviews rating_score review_score price_score ml_bonus,
    as_number (py_or (get place "rating") (VInt 0)) = Some rating
    /\ as_number (py_or (get place "user_ratings_total") (VInt 0)) = Some reviews
    /\ rating_score
       = py_min 40 (if Qleb 4.0 rating then 30 + ((rating - 4.0) * 10)
                    else if Qleb 3.5 rating then 20 + ((rating - 3.5) * 20)
                    else 10)
    /\ 10 <= rating_score <= 40
    /\ 10 <= review_score <= 30
    /\ 0 <= price_score <= 30
    /\ -5 <= ml_bonus <= 10
    /\ total = py_max 0 (py_min 100 (rating_score + review_score + price_score + ml_bonus)).
Proof.
  unfold dive_total. intros H.
  destruct (as_dict _) as [ml_data|]; simpl in H; [|done].
  destruct (as_number (py_or (get place "rating") _)) as [rating|];
    simpl in H; [|done].
  destruct (as_number (py_or (get place "user_ratings_total") _)) as [reviews|];
    simpl in H; [|done].
  injection H as <-.
  eexists rating, reviews, _, _, _, _.
  split; [done|]. split; [done|]. split; [reflexivity|].
  split; [|split; [|split; [|split; [|reflexivity]]]].
  - split; [apply py_min_glb; [lra|] | apply py_min_le_l].
    repeat case_Q; lra.
  - repeat (case_Q; simpl); lra.
  - repeat destruct (py_eq_int _ _); lra.
  - repeat case_Q; lra.
Qed.

Lemma rating_score_mono (x y : Q) :
  x <= y ->
  py_min 40 (if Qleb 4.0 x then 30 + ((x - 4.0) * 10)
             else if Qleb 3.5 x then 20 + ((x - 3.5) * 20) else 10)
  <= py_min 40 (if Qleb 4.0 y then 30 + ((y - 4.0) * 10)
                else if Qleb 3.5 y then 20 + ((y - 3.5) * 20) else 10).
Proof.
  intros H. apply py_min_mono_r. repeat case_Q; lra.
Qed.

(** X10. The total that [calculate_dive_score] grades is never below 15
    (the rating and the review count give at least 10 points each, the price
    at least 0 and the residual at least -5), so its lower clamp at 0 never
    acts; the stored [dive_score] lies in [15, 100]. *)
Theorem X10_dive_score_at_least_15 (place p : gmap string pyval) :
  calculate_dive_score place = Some p ->
  exists total,
    dive_total place = Some total /\ 15 <= total <= 100
    /\ get p "dive_score" = VFloat (round1 total)
    /\ 15 <= round1 total <= 100.
Proof.
  unfold calculate_dive_score. intros H.
  destruct (dive_total place) as [total|] eqn:Et; simpl in H; [|done].
  injection H as <-. exists total. split; [done|].
  assert (15 <= total <= 100) as Hr.
  { apply dive_total_components in Et
      as (rating & reviews & rs & vs & ps & mb & _ & _ & _ & H1 & H2 & H3 & H4 & ->).
    split.
    - eapply Qle_trans; [|apply py_max_ge_r]. apply py_min_glb; lra.
    - apply py_max_lub; [lra | apply py_min_le_l]. }
  split; [done|]. split.
  - rewrite !get_insert_ne by done. by rewrite get_insert_eq.
  - by apply (round1_within _ 15 100 150 1000).
Qed.

Lemma as_number_py_or_float (r : Q) :
  exists x, as_number (py_or (VFloat r) (VInt 0)) = Some x /\ x == r.
Proof.
  unfold py_or. simpl. destruct (Qeq_bool r 0) eqn:E; simpl.
  - apply Qeq_bool_iff in E. exists (inject_Z 0). split; [done|]. by rewrite E.
  - by exists r.
Qed.

(** X11. A higher rating never lowers the dive score: with the other
    columns unchanged, if the score of a row with rating [r] is computed, so
    is that of the row with a rating [r' >= r], and neither the total nor the
    stored [dive_score] is smaller. *)
Theorem X11_dive_score_monotone_in_rating (place : gmap string pyval)
    (r r' total : Q) :
  r <= r' ->
  dive_total (<["rating" := VFloat r]> place) = Some total ->
  exists total',
    dive_total (<["rating" := VFloat r']> place) = Some total'
    /\ total <= total' /\ round1 total <= round1 total'.
Proof.
  intros Hr. unfold dive_total.
  rewrite !get_insert_eq, !(get_insert_ne _ "rating") by done.
  destruct (as_dict _) as [ml_data|]; simpl; [|done].
  destruct (as_number_py_or_float r) as (x & -> & Hx).
  destruct (as_number_py_or_float r') as (x' & -> & Hx'). simpl.
  destruct (as_number (py_or (get place "user_ratings_total") _)) as [reviews|];
    simpl; [|done].
  intros [= <-]. eexists. split; [reflexivity|].
  assert (x <= x') as Hxx by lra.
  pose proof (rating_score_mono x x' Hxx) as Hm.
  match goal with
  | |- py_max 0 (py_min 100 (?a + ?b + ?c + ?d))
       <= py_max 0 (py_min 100 (?a' + ?b + ?c + ?d)) /\ _ =>
      assert (py_max 0 (py_min 100 (a + b + c + d))
              <= py_max 0 (py_min 100 (a' + b + c + d))) as Hle
        by (apply py_max_mono_r, py_min_mono_r; lra)
  end.
  split; [done | by apply round1_mono].
Qed.

End DiveScore.

(** ** Stored columns and computed columns *)

Lemma same_stored_columns_refl (p : gmap string pyval) : same_stored_columns p p.
Proof. by intros k _. Qed.

Lemma same_stored_columns_trans (p1 p2 p3 : gmap string pyval) :
  same_stored_columns p1 p2 -> same_stored_columns p2 p3 ->
  same_stored_columns p1 p3.
Proof. intros H1 H2 k Hk. by rewrite H2, H1. Qed.

Lemma same_stored_columns_insert (place p : gmap string pyval) (k : string)
    (v : pyval) :
  k ∈ computed_fields -> same_stored_columns place p ->
  same_stored_columns place (<[k := v]> p).
Proof.
  intros Hk H k' Hk'. rewrite lookup_insert_ne; [by apply H|].
  intros ->. by apply Hk'.
Qed.

Lemma same_stored_columns_get (place p : gmap string pyval) (k : string) :
  same_stored_columns place p -> k ∉ computed_fields -> get p k = get place k.
Proof. intros H Hk. unfold get. by rewrite (H k Hk). Qed.

(** A column name that is, or is not, one of the computed ones. *)
Ltac computed_field :=
  solve [ apply (bool_decide_unpack _); vm_compute; exact I ].

Lemma Forall2_compose {A B C} (R1 : A -> B -> Prop) (R2 : B -> C -> Prop)
    (R3 : A -> C -> Prop) (l1 : list A) (l2 : list B) (l3 : list C) :
  (forall x y z, R1 x y -> R2 y z -> R3 x z) ->
  Forall2 R1 l1 l2 -> Forall2 R2 l2 l3 -> Forall2 R3 l1 l3.
Proof.
  intros HR H12. revert l3. induction H12 as [|x y l1 l2 Hxy _ IH]; intros l3 H23.
  - inversion H23. constructor.
  - inversion H23 as [|? z ? l3' Hyz Hrest]; subst. constructor; eauto.
Qed.

Lemma normalize_to_percentile_stored (field : string) (target_min target_max : Q)
    (places : list (gmap string pyval)) :
  field ∈ computed_fields ->
  Forall2 same_stored_columns places
    (normalize_to_percentile places field target_min target_max).
Proof.
  intros Hf. eapply Forall2_impl; [apply normalize_to_percentile_pointwise|].
  intros p p' [->|(w & _ & -> & _)].
  - apply same_stored_columns_refl.
  - apply same_stored_columns_insert; [done | apply same_stored_columns_refl].
Qed.

Section StoredColumns.
Context {RT : Runtime}.

Lemma normalize_and_blend_stored (enriched : list (gmap string pyval)) :
  Forall2 same_stored_columns enriched (normalize_and_blend enriched).
Proof.
  unfold normalize_and_blend. apply Forall2_fmap_r.
  set (l1 := normalize_to_percentile enriched "quality_0_10" 2.0 9.5).
  set (l2 := normalize_to_percentile l1 "character_0_10" 2.0 9.5).
  set (l3 := normalize_to_percentile l2 "underrated_0_10" 2.0 9.5).
  assert (Forall2 same_stored_columns enriched l3) as H.
  { apply (Forall2_compose _ _ _ _ l2 _ same_stored_columns_trans).
    - apply (Forall2_compose _ _ _ _ l1 _ same_stored_columns_trans);
        apply normalize_to_percentile_stored; computed_field.
    - apply normalize_to_percentile_stored; computed_field. }
  eapply Forall2_impl; [exact H|]. intros p p' Hp.
  apply same_stored_columns_insert; [computed_field | done].
Qed.


Lemma enrich_place_stored (place p : gmap string pyval) (scale : Q) :
  enrich_place place scale = Some p -> same_stored_columns place p.
Proof.
  intros H. apply enrich_place_inv in H as (total & q & c & u & _ & _ & _ & _ & ->).
  repeat (apply same_stored_columns_insert; [computed_field|]).
  apply same_stored_columns_refl.
Qed.

Lemma pipeline_stored_columns (results enriched : list (gmap string pyval))
    (scale : Q) :
  mapM (λ place, enrich_place place scale) results = Some enriched ->
  Forall2 same_stored_columns results enriched
  /\ Forall2 same_stored_columns results (normalize_and_blend enriched).
Proof.
  intros Hm.
  assert (Forall2 same_stored_columns results enriched) as H.
  { apply mapM_Some_1 in Hm. eapply Forall2_impl; [exact Hm|].
    intros place p. apply enrich_place_stored. }
  split; [done|].
  apply (Forall2_compose _ _ _ _ enriched _ same_stored_columns_trans); [done|].
  apply normalize_and_blend_stored.
Qed.

(** X12. The pipeline never alters a stored column: after [enrich_place],
    and after the cohort normalisation and the second blend, the record at
    each position holds, in every column other than the eight computed ones,
    exactly what the storage row at that position holds (a missing column
    stays missing). *)
Theorem X12_stored_columns_untouched (results enriched : list (gmap string pyval))
    (scale : Q) :
  mapM (λ place, enrich_place place scale) results = Some enriched ->
  Forall2 same_stored_columns results enriched
  /\ Forall2 same_stored_columns results (normalize_and_blend enriched).
Proof. apply pipeline_stored_columns. Qed.

End StoredColumns.

(** ** The calculators read stored columns only *)

Section Inputs.
Context {RT : Runtime}.
Context (place p : gmap string pyval).
Hypothesis Hsame : same_stored_columns place p.

Lemma dive_total_stored : dive_total p = dive_total place.
Proof.
  unfold dive_total.
  by rewrite !(same_stored_columns_get place p _ Hsame) by computed_field.
Qed.

Lemma character_0_10_stored : character_0_10 p = character_0_10 place.
Proof.
  unfold character_0_10.
  by rewrite !(same_stored_columns_get place p _ Hsame) by computed_field.
Qed.

Lemma quality_0_10_stored : quality_0_10 p = quality_0_10 place.
Proof.
  unfold quality_0_10.
  by rewrite !(same_stored_columns_get place p _ Hsame) by computed_field.
Qed.

Lemma underrated_0_10_stored (scale : Q) :
  underrated_0_10 p scale = underrated_0_10 place scale.
Proof.
  unfold underrated_0_10.
  by rewrite !(same_stored_columns_get place p _ Hsame) by computed_field.
Qed.

End Inputs.

Section Idempotence.
Context {RT : Runtime}.

Lemma enrich_place_eq (place : gmap string pyval) (scale : Q) :
  enrich_place place scale
  = (total ← dive_total place;
     u ← underrated_0_10 place scale;
     Some (enriched_record place total u)).
Proof.
  unfold enrich_place, calculate_dive_score.
  destruct (dive_total place) as [total|] eqn:Et; simpl; [|done].
  set (p1 := <["gem_label" := _]> _).
  assert (same_stored_columns place p1) as H1.
  { unfold p1. repeat (apply same_stored_columns_insert; [computed_field|]).
    apply same_stored_columns_refl. }
  rewrite get_insert_eq.
  rewrite (character_0_10_stored place p1 H1).
  set (p3 := <["diveiness_0_10" := _]> _).
  assert (same_stored_columns place p3) as H3.
  { unfold p3. repeat (apply same_stored_columns_insert; [computed_field|]). done. }
  rewrite (quality_0_10_stored place p3 H3).
  set (p4 := <["quality_0_10" := _]> _).
  assert (same_stored_columns place p4) as H4.
  { unfold p4. by apply same_stored_columns_insert; [computed_field|]. }
  rewrite (underrated_0_10_stored place p4 H4).
  destruct (underrated_0_10 place scale) as [u|] eqn:Eu; simpl; [|done].
  rewrite (blended_0_10_all _ (quality_0_10 place) (character_0_10 place) u);
    [done | | |]; unfold p4, p3.
  - rewrite get_insert_ne by done. by rewrite get_insert_eq.
  - rewrite !get_insert_ne by done. by rewrite get_insert_eq.
  - by rewrite get_insert_eq.
Qed.

Lemma enriched_record_stored (place : gmap string pyval) (total u : Q) :
  same_stored_columns place (enriched_record place total u).
Proof.
  unfold enriched_record. repeat (apply same_stored_columns_insert; [computed_field|]).
  apply same_stored_columns_refl.
Qed.

Lemma enriched_record_again (place : gmap string pyval) (total u : Q) :
  enriched_record (enriched_record place total u) total u
  = enriched_record place total u.
Proof.
  pose proof (enriched_record_stored place total u) as H.
  unfold enriched_record at 1. cbv zeta.
  rewrite (character_0_10_stored place _ H), (quality_0_10_stored place _ H).
  set (p := enriched_record place total u).
  assert (forall k v, p !! k = Some v -> <[k := v]> p = p) as Hid
    by (intros; by apply insert_id).
  repeat (rewrite Hid; [|unfold p, enriched_record; by simplify_map_eq]).
  done.
Qed.

(** X13. Enriching a record twice gives the same record as enriching it
    once: the calculators read stored columns only, so a second
    [enrich_place] with the same scale rewrites the eight computed fields
    with the values they already hold. *)
Theorem X13_enrich_place_idempotent (place p : gmap string pyval) (scale : Q) :
  enrich_place place scale = Some p -> enrich_place p scale = Some p.
Proof.
  rewrite !enrich_place_eq. intros H.
  destruct (dive_total place) as [total|] eqn:Et; simpl in H; [|done].
  destruct (underrated_0_10 place scale) as [u|] eqn:Eu; simpl in H; [|done].
  injection H as <-.
  pose proof (enriched_record_stored place total u) as Hs.
  rewrite (dive_total_stored place _ Hs), Et. simpl.
  rewrite (underrated_0_10_stored place _ Hs), Eu. simpl.
  by rewrite enriched_record_again.
Qed.

End Idempotence.

(** ** Stability of the sort *)

Section Stability.
Context {A : Type} (le : A -> A -> bool).

Lemma insert_sorted_split (x : A) (l : list A) :
  exists l1 l2,
    l = l1 ++ l2 /\ insert_sorted le x l = l1 ++ x :: l2
    /\ Forall (λ y, le x y = false) l1.
Proof.
  induction l as [|y l (l1 & l2 & -> & E & Hl1)]; simpl.
  - by exists [], [].
  - destruct (le x y) eqn:Exy.
    + by exists [], (y :: l1 ++ l2).
    + exists (y :: l1), l2. rewrite E. split; [done|]. split; [done|].
      by constructor.
Qed.

(** Two elements that may stay in their order do so. *)
Lemma stable_sort_stable (l : list A) (a b : A) :
  [a; b] `sublist_of` l -> le a b = true -> [a; b] `sublist_of` stable_sort le l.
Proof.
  intros Hsub Hab. induction l as [|x l IH]; simpl.
  - by apply sublist_nil_r in Hsub.
  - destruct (insert_sorted_split x (stable_sort le l)) as (s1 & s2 & Es & -> & Hs1).
    apply sublist_cons_r in Hsub as [Hsub|(l' & [= <- <-] & Hb)].
    + etrans; [apply (IH Hsub)|]. rewrite Es.
      apply sublist_app; [done | by apply sublist_cons].
    + apply sublist_inserts_l, sublist_skip.
      assert (b ∈ l) as Hbl.
      { eapply (sublist_subseteq _ _ Hb). by left. }
      rewrite <- (stable_sort_perm le l), Es in Hbl.
      apply elem_of_app in Hbl as [Hbl|Hbl].
      * rewrite Forall_forall in Hs1. specialize (Hs1 b Hbl). congruence.
      * apply list_elem_of_split in Hbl as (k1 & k2 & ->).
        apply sublist_inserts_l, sublist_skip, sublist_nil_l.
Qed.

End Stability.

Lemma sublist_StronglySorted {A} (R : relation A) (l k : list A) :
  l `sublist_of` k -> StronglySorted R k -> StronglySorted R l.
Proof.
  induction 1 as [|x l k Hlk IH|x l k Hlk IH]; intros Hs.
  - constructor.
  - apply StronglySorted_inv in Hs as [Hs Hx]. constructor; [by apply IH|].
    eapply Forall_impl; [|by intros ? H; exact H].
    apply Forall_forall. intros y Hy. rewrite Forall_forall in Hx.
    apply Hx. by eapply (sublist_subseteq _ _ Hlk).
  - apply StronglySorted_inv in Hs as [Hs _]. by apply IH.
Qed.

Lemma StronglySorted_seq (k n : nat) : StronglySorted lt (seq k n).
Proof.
  revert k. induction n as [|n IH]; intros k; simpl; constructor; [apply IH|].
  apply Forall_forall. intros y Hy. apply elem_of_seq in Hy. lia.
Qed.

(** In a list without duplicates, the order of occurrence is the order of
    the positions. *)
Lemma sublist_pair_lookup {A} (l : list A) (a b : A) (i j : nat) :
  NoDup l -> [a; b] `sublist_of` l -> l !! i = Some a -> l !! j = Some b ->
  (i < j)%nat.
Proof.
  intros Hnd Hsub Hi Hj.
  apply sublist_cons_l in Hsub as (k1 & k2 & -> & Hb).
  assert (b ∈ k2) as Hb2 by (eapply (sublist_subseteq _ _ Hb); by left).
  apply list_elem_of_lookup in Hb2 as [m Hm].
  assert (i = length k1) as ->.
  { eapply (NoDup_lookup _ _ _ a Hnd); [done|].
    by rewrite lookup_app_r, Nat.sub_diag by lia. }
  assert (j = (length k1 + S m)%nat) as ->; [|lia].
  eapply (NoDup_lookup _ _ _ b Hnd); [done|].
  rewrite lookup_app_r by lia.
  replace (length k1 + S m - length k1)%nat with (S m) by lia. done.
Qed.

(** ** Ties in the percentile normaliser *)

Section Ties.
Context (field : string) (target_min target_max : Q).
Context (places : list (gmap string pyval)).

Lemma numeric_values_ordered (i j : nat) (vi vj : Q) :
  (i < j)%nat ->
  (i, vi) ∈ numeric_values places field -> (j, vj) ∈ numeric_values places field ->
  [(i, vi); (j, vj)] `sublist_of` numeric_values places field.
Proof.
  intros Hij Hi Hj.
  assert (StronglySorted lt (numeric_values places field).*1) as Hs.
  { eapply sublist_StronglySorted; [|apply (StronglySorted_seq 0 (length places))].
    apply (numeric_indices_sublist field 0). }
  apply list_elem_of_split in Hi as (l1 & l2 & E). rewrite E in Hj, Hs |- *.
  apply elem_of_app in Hj as [Hj|Hj].
  - exfalso. rewrite fmap_app, fmap_cons in Hs.
    apply (StronglySorted_app_1_elem_of _ _ _ j i) in Hs; simpl in *; [lia | |].
    + apply list_elem_of_fmap. by exists (j, vj).
    + by left.
  - apply elem_of_cons in Hj as [Hj|Hj]; [injection Hj as -> _; lia|].
    apply list_elem_of_split in Hj as (k1 & k2 & ->).
    apply sublist_inserts_l, sublist_skip, sublist_inserts_l, sublist_skip,
      sublist_nil_l.
Qed.

Lemma ranking_NoDup_pairs : NoDup (ranking field places).
Proof. eapply NoDup_fmap_1, ranking_NoDup. Qed.

(** The earlier of two places whose values may stay in their order has the
    lower rank. *)
Lemma ranking_in_list_order (i j : nat) (pi pj : gmap string pyval) (vi vj : Q) :
  (i < j)%nat -> places !! i = Some pi -> places !! j = Some pj ->
  as_number (get pi field) = Some vi -> as_number (get pj field) = Some vj ->
  vi <= vj ->
  exists ri rj,
    (ri < rj < length (numeric_values places field))%nat
    /\ ranking field places !! ri = Some (i, vi)
    /\ ranking field places !! rj = Some (j, vj).
Proof.
  intros Hij Hpi Hpj Hvi Hvj Hle.
  assert ((i, vi) ∈ numeric_values places field) as Hi
    by (apply numeric_values_spec; eauto).
  assert ((j, vj) ∈ numeric_values places field) as Hj
    by (apply numeric_values_spec; eauto).
  pose proof (numeric_values_ordered i j vi vj Hij Hi Hj) as Hsub.
  apply (stable_sort_stable (λ x y, Qleb (snd x) (snd y))) in Hsub;
    [|by apply Qleb_le].
  fold (ranking field places) in Hsub.
  assert ((i, vi) ∈ ranking field places) as Hri by (apply ranking_elem; eauto).
  assert ((j, vj) ∈ ranking field places) as Hrj by (apply ranking_elem; eauto).
  apply list_elem_of_lookup in Hri as [ri Hri].
  apply list_elem_of_lookup in Hrj as [rj Hrj].
  exists ri, rj. split; [|done]. split.
  - by eapply (sublist_pair_lookup _ _ _ _ _ ranking_NoDup_pairs Hsub).
  - apply lookup_lt_Some in Hrj. by rewrite ranking_length in Hrj.
Qed.

End Ties.

(** X14. Ties are broken by list order: of two places with numeric values,
    the earlier one in the list, if its value is not the larger, gets the
    lower rank, hence a percentile score that is not larger (for
    [target_min <= target_max]); each place receives the score of its
    rank. *)
Theorem X14_normalize_ties_in_list_order (field : string)
    (places : list (gmap string pyval)) (target_min target_max : Q)
    (i j : nat) (pi pj : gmap string pyval) (vi vj : Q) :
  (i < j)%nat -> places !! i = Some pi -> places !! j = Some pj ->
  as_number (get pi field) = Some vi -> as_number (get pj field) = Some vj ->
  vi <= vj ->
  let n := length (numeric_values places field) in
  let result := normalize_to_percentile places field target_min target_max in
  exists ri rj,
    (ri < rj < n)%nat
    /\ result !! i
       = Some (<[field := VFloat (percentile_score target_min target_max n ri)]> pi)
    /\ result !! j
       = Some (<[field := VFloat (percentile_score target_min target_max n rj)]> pj)
    /\ (target_min <= target_max ->
        percentile_score target_min target_max n ri
        <= percentile_score target_min target_max n rj).
Proof.
  intros Hij Hpi Hpj Hvi Hvj Hle. cbv zeta.
  destruct (ranking_in_list_order field places i j pi pj vi vj)
    as (ri & rj & Hr & Hri & Hrj); try done.
  assert (2 <= length (numeric_values places field))%nat as Hn by lia.
  exists ri, rj. split; [done|].
  destruct (normalize_to_percentile_rank field target_min target_max places
              ri i vi Hn Hri) as (pi' & Hpi' & _ & Ei).
  destruct (normalize_to_percentile_rank field target_min target_max places
              rj j vj Hn Hrj) as (pj' & Hpj' & _ & Ej).
  rewrite ranking_length in Ei, Ej.
  assert (pi' = pi) as -> by congruence. assert (pj' = pj) as -> by congruence.
  split; [done|]. split; [done|].
  intros Ht. apply percentile_score_mono; [done | done | lia].
Qed.

(** ** Normalising twice *)

Lemma round1_canonical (x y : Q) : round1 x == round1 y -> round1 x = round1 y.
Proof.
  intros H. unfold round1 in *. apply Qred_complete. by rewrite !Qred_correct in H.
Qed.

Section NormalizeTwice.
Context (field : string) (target_min target_max : Q).

Lemma numeric_indices_same_offset (k : nat) (l l' : list (gmap string pyval)) :
  Forall2 (λ p p', is_Some (as_number (get p field))
                   <-> is_Some (as_number (get p' field))) l l' ->
  (omap (tag_numeric field) (imap (λ i p, ((k + i)%nat, p)) l)).*1
  = (omap (tag_numeric field) (imap (λ i p, ((k + i)%nat, p)) l')).*1.
Proof.
  intros H. revert k. induction H as [|p p' l l' Hp _ IH]; intros k; [done|].
  simpl.
  assert (forall m : list (gmap string pyval),
            imap ((λ i q, ((k + i)%nat, q)) ∘ S) m
            = imap (λ i q, ((S k + i)%nat, q)) m) as E.
  { intros m. apply imap_ext. intros i q _. simpl. f_equal. lia. }
  rewrite !E.
  assert (forall q, tag_numeric field ((k + 0)%nat, q)
                    = (λ v, ((k + 0)%nat, v)) <$> as_number (get q field)) as Et
    by done.
  rewrite !Et.
  destruct (as_number (get p field)) as [v|] eqn:Ev;
    destruct (as_number (get p' field)) as [v'|] eqn:Ev'; simpl.
  - f_equal. apply (IH (S k)).
  - destruct Hp as [Hp _]. by destruct (Hp ltac:(eauto)).
  - destruct Hp as [_ Hp]. by destruct (Hp ltac:(eauto)).
  - apply (IH (S k)).
Qed.

Lemma numeric_indices_same (l l' : list (gmap string pyval)) :
  Forall2 (λ p p', is_Some (as_number (get p field))
                   <-> is_Some (as_number (get p' field))) l l' ->
  (numeric_values l field).*1 = (numeric_values l' field).*1.
Proof. apply (numeric_indices_same_offset 0). Qed.

Lemma numeric_values_value_at (l : list (gmap string pyval)) :
  (numeric_values l field).*2 = value_at field l <$> (numeric_values l field).*1.
Proof.
  rewrite <- list_fmap_compose. apply list_fmap_ext.
  intros k [i v] Hk. simpl. apply list_elem_of_lookup_2 in Hk.
  apply numeric_values_spec in Hk as (p & Hp & Hv).
  unfold value_at. rewrite Hp. simpl. by rewrite Hv.
Qed.

Context (places : list (gmap string pyval)).
Hypothesis Htargets : target_min <= target_max.
Hypothesis Hn : (2 <= length (numeric_values places field))%nat.

Lemma normalized_numeric_indices :
  (numeric_values (normalize_to_percentile places field target_min target_max)
     field).*1
  = (numeric_values places field).*1.
Proof.
  symmetry. apply numeric_indices_same.
  eapply Forall2_impl; [apply normalize_to_percentile_pointwise|].
  intros p p' [->|(w & Hnum & -> & _)]; [done|].
  rewrite get_insert_eq. simpl. unfold is_number in Hnum.
  destruct (as_number (get p field)); [|done]. split; eauto.
Qed.


Local Abbreviation normalized :=
  (normalize_to_percentile places field target_min target_max).
Local Abbreviation count := (length (numeric_values places field)).

Lemma normalized_numeric_length : length (numeric_values normalized field) = count.
Proof.
  rewrite <- (length_fmap fst (numeric_values normalized field)).
  by rewrite normalized_numeric_indices, length_fmap.
Qed.

Lemma scores_by_rank :
  percentile_score target_min target_max count <$> seq 0 count
  = value_at field normalized <$> (ranking field places).*1.
Proof.
  apply list_eq. intros r. rewrite !list_lookup_fmap.
  destruct (ranking field places !! r) as [[i v]|] eqn:Er; simpl.
  - pose proof (lookup_lt_Some _ _ _ Er) as Hr. rewrite ranking_length in Hr.
    rewrite lookup_seq_lt by done. simpl. f_equal.
    destruct (normalize_to_percentile_rank field target_min target_max places
                r i v Hn Er) as (p & Hp & Hv & E).
    unfold value_at. rewrite E. simpl. rewrite get_insert_eq. simpl.
    by rewrite ranking_length.
  - apply lookup_ge_None in Er. rewrite ranking_length in Er.
    by rewrite lookup_seq_ge.
Qed.

Lemma normalized_values_perm :
  (ranking field normalized).*2 ≡ₚ percentile_score target_min target_max count <$> seq 0 count.
Proof.
  rewrite scores_by_rank. unfold ranking at 1.
  rewrite (stable_sort_perm _ (numeric_values normalized field)).
  rewrite numeric_values_value_at.
  rewrite normalized_numeric_indices. unfold ranking.
  by rewrite (stable_sort_perm _ (numeric_values places field)).
Qed.

Lemma normalized_values_sorted : StronglySorted Qle (ranking field normalized).*2.
Proof.
  apply (StronglySorted_fmap_strong (λ a b : nat * Q, Qleb (snd a) (snd b) = true)).
  - intros x y _ _. apply Qleb_le.
  - apply stable_sort_sorted.
    + intros x y. apply Qleb_total.
    + intros x y z. apply Qleb_trans.
Qed.

Lemma scores_sorted :
  StronglySorted Qle (percentile_score target_min target_max count <$> seq 0 count).
Proof.
  apply (StronglySorted_fmap_strong lt); [|apply StronglySorted_seq].
  intros x y _ _ Hxy. apply percentile_score_mono; [done | done | lia].
Qed.

Lemma normalized_values_by_rank :
  (ranking field normalized).*2 = percentile_score target_min target_max count <$> seq 0 count.
Proof.
  apply (StronglySorted_unique_strong Qle).
  - intros x1 x2 H1 H2 H12 H21.
    rewrite normalized_values_perm in H1.
    apply list_elem_of_fmap in H1 as (r1 & -> & _).
    apply list_elem_of_fmap in H2 as (r2 & -> & _).
    unfold percentile_score in *. apply round1_canonical. by apply Qle_antisym.
  - apply normalized_values_sorted.
  - apply scores_sorted.
  - apply normalized_values_perm.
Qed.

Lemma normalized_rank_score (r i : nat) (w : Q) :
  ranking field normalized !! r = Some (i, w) ->
  w = percentile_score target_min target_max count r.
Proof.
  intros Hr.
  assert ((ranking field normalized).*2 !! r = Some w) as H
    by (by rewrite list_lookup_fmap, Hr).
  rewrite normalized_values_by_rank, list_lookup_fmap in H.
  destruct (seq 0 count !! r) as [r'|] eqn:Es; simpl in H; [|done].
  apply lookup_seq in Es as [-> _]. by injection H as <-.
Qed.

Lemma normalize_to_percentile_twice :
  normalize_to_percentile normalized field target_min target_max = normalized.
Proof.
  apply list_eq. intros i.
  destruct (normalized !! i) as [p'|] eqn:Ei.
  2: { apply lookup_ge_None in Ei. apply lookup_ge_None.
       by rewrite length_normalize_to_percentile. }
  assert (2 <= length (numeric_values normalized field))%nat as Hn'
    by (rewrite normalized_numeric_length; exact Hn).
  pose proof (normalize_to_percentile_lookup field target_min target_max
                normalized i p' Hn' Ei) as H2.
  destruct (as_number (get p' field)) as [w|] eqn:Ew; [|done].
  destruct H2 as (r & Hr & ->). f_equal.
  rewrite ranking_length, normalized_numeric_length.
  rewrite <- (normalized_rank_score r i w Hr).
  destruct (places !! i) as [p|] eqn:Ep.
  2: { apply lookup_ge_None in Ep. apply lookup_lt_Some in Ei.
       rewrite length_normalize_to_percentile in Ei. lia. }
  pose proof (normalize_to_percentile_lookup field target_min target_max
                places i p Hn Ep) as H1.
  destruct (as_number (get p field)) as [v|] eqn:Ev.
  - destruct H1 as (r0 & _ & E). rewrite Ei in E. injection E as ->.
    rewrite get_insert_eq in Ew. simpl in Ew. injection Ew as <-.
    apply insert_insert_eq.
  - rewrite Ei in H1. injection H1 as ->. congruence.
Qed.

End NormalizeTwice.

(** X15. Normalising a cohort twice gives the same scores as normalising
    it once: for [target_min <= target_max], a second
    [normalize_to_percentile] of the same field with the same targets
    returns the list unchanged. *)
Theorem X15_normalize_idempotent (field : string)
    (places : list (gmap string pyval)) (target_min target_max : Q) :
  target_min <= target_max ->
  normalize_to_percentile
    (normalize_to_percentile places field target_min target_max)
    field target_min target_max
  = normalize_to_percentile places field target_min target_max.
Proof.
  intros Ht.
  destruct (Nat.lt_ge_cases (length (numeric_values places field)) 2) as [Hlt|Hge].
  - rewrite (normalize_to_percentile_noop field target_min target_max places Hlt).
    by apply normalize_to_percentile_noop.
  - by apply normalize_to_percentile_twice.
Qed.

(** ** Monotonicity of the calculators *)

Lemma guard_mono (b b' : Q) (c1 c2 : bool) :
  b <= b' ->
  (if c2 then py_min (if c1 then py_min b 9.8 else b) 9.4
   else (if c1 then py_min b 9.8 else b))
  <= (if c2 then py_min (if c1 then py_min b' 9.8 else b') 9.4
      else (if c1 then py_min b' 9.8 else b')).
Proof.
  intros H. destruct c1, c2; repeat apply py_min_mono_l; done.
Qed.

Section Monotone.
Context {RT : Runtime}.

Lemma _safe_float_opt_float (q : Q) : _safe_float_opt (VFloat q) = Some q.
Proof. reflexivity. Qed.

Lemma _safe_float_float (q d : Q) : _safe_float (VFloat q) d = q.
Proof. reflexivity. Qed.

Lemma quality_0_10_mono (place : gmap string pyval) (col : string) (x y : Q) :
  col ∈ quality_signals -> x <= y ->
  quality_0_10 (<[col := VFloat x]> place) <= quality_0_10 (<[col := VFloat y]> place).
Proof.
  intros Hcol Hxy. unfold quality_signals in Hcol.
  repeat (apply elem_of_cons in Hcol as [->|Hcol]);
    [..|by apply elem_of_nil in Hcol];
    unfold quality_0_10;
    rewrite ?get_insert_eq, ?_safe_float_opt_float, ?_safe_float_float;
    rewrite !get_insert_ne by done;
    apply round1_mono, _clamp_mono, guard_mono;
    repeat match goal with
    | |- context [_safe_float_opt ?v] => destruct (_safe_float_opt v)
    end;
    try (set (s := _safe_float _ _); clearbody s); lra.
Qed.

Lemma character_0_10_mono (place : gmap string pyval) (col : string) (x y : Q) :
  col ∈ character_signals -> x <= y ->
  character_0_10 (<[col := VFloat x]> place)
  <= character_0_10 (<[col := VFloat y]> place).
Proof.
  intros Hcol Hxy. unfold character_signals in Hcol.
  repeat (apply elem_of_cons in Hcol as [->|Hcol]);
    [..|by apply elem_of_nil in Hcol];
    unfold character_0_10;
    rewrite ?get_insert_eq, ?_safe_float_opt_float;
    rewrite !get_insert_ne by done;
    apply round1_mono, _clamp_mono, guard_mono;
    repeat match goal with
    | |- context [_safe_float_opt ?v] => destruct (_safe_float_opt v)
    end;
    try (set (e := 10.0 / _); clearbody e);
    repeat match goal with
    | |- context [py_eq_str ?v ?s] => destruct (py_eq_str v s)
    end; lra.
Qed.

(** X16. Raising a raw signal never lowers a score: [quality_0_10] is
    non-decreasing in each of its five signals and in the sentiment it falls
    back to, [character_0_10] in each of its five rich signals, with the
    other columns unchanged. *)
Theorem X16_signals_never_lower_scores (place : gmap string pyval) (col : string)
    (x y : Q) :
  x <= y ->
  (col ∈ quality_signals ->
   quality_0_10 (<[col := VFloat x]> place) <= quality_0_10 (<[col := VFloat y]> place))
  /\ (col ∈ character_signals ->
      character_0_10 (<[col := VFloat x]> place)
      <= character_0_10 (<[col := VFloat y]> place)).
Proof.
  intros Hxy. split; intros Hcol.
  - by apply quality_0_10_mono.
  - by apply character_0_10_mono.
Qed.


Lemma underrated_0_10_composite (place : gmap string pyval) (scale : Q)
    (recommend sentiment : Q) :
  _safe_float_opt (get place "avg_would_recommend") = Some recommend ->
  _safe_float_opt (get place "avg_openai_sentiment") = Some sentiment ->
  underrated_0_10 place scale
  = Some (round1 (_clamp
      ((0.40 * (recommend
                - _clamp ((_safe_float (get place "rating") 4.0 - 3.5) / 1.5) 0.0 1.0
                + 1.0) / 2.0
        + 0.30 * ((sentiment + 1.0) / 2.0
                  - _clamp ((_safe_float (get place "rating") 4.0 - 3.5) / 1.5) 0.0 1.0
                  + 1.0) / 2.0
        + 0.30 * (1.0 / (1.0 + m_log10 (inject_Z
                     (Z.max (_safe_int (get place "review_count") 1) 1)))))
       * 10.0) 0.0 10.0)).
Proof. intros Hr Hs. unfold underrated_0_10. by rewrite Hr, Hs. Qed.

(** X17. When a place has both the would-recommend and the sentiment
    signal, [underrated_0_10] is computed from them and ignores the scale (and
    the residual); the score does not decrease when either signal rises and
    does not increase when the rating rises, the other columns unchanged. *)
Theorem X17_underrated_composite_monotone (place : gmap string pyval)
    (recommend sentiment : Q) :
  _safe_float_opt (get place "avg_would_recommend") = Some recommend ->
  _safe_float_opt (get place "avg_openai_sentiment") = Some sentiment ->
  (forall scale scale' ml_metadata,
      underrated_0_10 (<["ml_metadata" := ml_metadata]> place) scale
      = underrated_0_10 place scale')
  /\ (forall scale x y, x <= y ->
      exists u u',
        underrated_0_10 (<["avg_would_recommend" := VFloat x]> place) scale = Some u
        /\ underrated_0_10 (<["avg_would_recommend" := VFloat y]> place) scale = Some u'
        /\ u <= u')
  /\ (forall scale x y, x <= y ->
      exists u u',
        underrated_0_10 (<["avg_openai_sentiment" := VFloat x]> place) scale = Some u
        /\ underrated_0_10 (<["avg_openai_sentiment" := VFloat y]> place) scale = Some u'
        /\ u <= u')
  /\ (forall scale x y, x <= y ->
      exists u u',
        underrated_0_10 (<["rating" := VFloat x]> place) scale = Some u
        /\ underrated_0_10 (<["rating" := VFloat y]> place) scale = Some u'
        /\ u' <= u).
Proof.
  intros Hr Hs. split; [|split; [|split]].
  - intros scale scale' ml.
    rewrite (underrated_0_10_composite _ scale recommend sentiment),
      (underrated_0_10_composite _ scale' recommend sentiment);
      rewrite ?get_insert_ne by done; done.
  - intros scale x y Hxy. eexists _, _.
    split; [|split];
      [apply (underrated_0_10_composite _ scale x sentiment)
      |apply (underrated_0_10_composite _ scale y sentiment)|];
      rewrite ?get_insert_eq, ?get_insert_ne by done; try done.
    apply round1_mono, _clamp_mono.
    set (c := _clamp _ 0.0 1.0). set (d := 1.0 / _). clearbody c d. qlra.
  - intros scale x y Hxy. eexists _, _.
    split; [|split];
      [apply (underrated_0_10_composite _ scale recommend x)
      |apply (underrated_0_10_composite _ scale recommend y)|];
      rewrite ?get_insert_eq, ?get_insert_ne by done; try done.
    apply round1_mono, _clamp_mono.
    set (c := _clamp _ 0.0 1.0). set (d := 1.0 / (1.0 + _)). clearbody c d. qlra.
  - intros scale x y Hxy. eexists _, _.
    split; [|split];
      [apply (underrated_0_10_composite _ scale recommend sentiment)
      |apply (underrated_0_10_composite _ scale recommend sentiment)|];
      rewrite ?get_insert_eq, ?get_insert_ne by done; try done.
    rewrite !_safe_float_float.
    apply round1_mono, _clamp_mono.
    assert (_clamp ((x - 3.5) / 1.5) 0.0 1.0 <= _clamp ((y - 3.5) / 1.5) 0.0 1.0)
      as Hc by (apply _clamp_mono; qlra).
    set (c := _clamp ((x - 3.5) / 1.5) 0.0 1.0) in *.
    set (c' := _clamp ((y - 3.5) / 1.5) 0.0 1.0) in *.
    set (d := 1.0 / (1.0 + _)). clearbody c c' d. qlra.
Qed.


(** X18. The blend is an average: if every lens score that is present lies
    in [[lo, hi]], the blended score lies between [lo] and [hi] rounded to
    one decimal, whichever components are missing. *)
Theorem X18_blended_between (place : gmap string pyval) (lo hi b : Q) :
  blended_0_10 place = Some b ->
  (forall field v, field ∈ lens_fields ->
     as_number (get place field) = Some v -> lo <= v <= hi) ->
  round1 lo <= b <= round1 hi.
Proof.
  rewrite blended_0_10_refines. intros Hb Hall.
  assert (forall field, field ∈ lens_fields ->
            match as_number (get place field) with
            | Some v => lo <= v <= hi
            | None => True
            end) as Hall'.
  { intros field Hf. specialize (Hall field).
    destruct (as_number (get place field)); [by apply Hall | done]. }
  pose proof (Hall' "quality_0_10" ltac:(by left)) as Hq.
  pose proof (Hall' "character_0_10" ltac:(by right; left)) as Hc.
  pose proof (Hall' "underrated_0_10" ltac:(by right; right; left)) as Hu.
  clear Hall Hall'.
  destruct (as_number (get place "quality_0_10")) as [q|];
  destruct (as_number (get place "character_0_10")) as [c|];
  destruct (as_number (get place "underrated_0_10")) as [u|];
  unfold renormalized_blend, Qsum in Hb; simpl in Hb; try done;
  injection Hb as <-;
  (split; apply round1_mono; unfold Qdiv;
   repeat match goal with
   | |- context [Qinv ?t] =>
       let r := eval vm_compute in (Qinv t) in change (Qinv t) with r
   end; lra).
Qed.

End Monotone.

(** ** The range of the custom score *)

Section CustomScoreRange.
Context {RT : Runtime}.


End CustomScoreRange.

(** ** The validated weights *)

Lemma dict_set_keys (k : string) (v : Q) (d : list (string * Q)) :
  (dict_set k v d).*1 = if bool_decide (k ∈ d.*1) then d.*1 else d.*1 ++ [k].
Proof.
  induction d as [|[k' v'] d IH]; [done|]. csimpl.
  destruct (String.eqb k k') eqn:E.
  - apply String.eqb_eq in E as ->. rewrite bool_decide_eq_true_2; [done | by left].
  - apply String.eqb_neq in E. csimpl. rewrite IH.
    destruct (bool_decide (k ∈ d.*1)) eqn:Ed.
    + apply bool_decide_eq_true in Ed. rewrite bool_decide_eq_true_2; [done | by right].
    + apply bool_decide_eq_false in Ed. rewrite bool_decide_eq_false_2; [done|].
      intros Hin. apply elem_of_cons in Hin as [Hin|Hin]; done.
Qed.

Lemma dict_set_fresh (k : string) (v : Q) (d : list (string * Q)) :
  k ∉ d.*1 -> dict_set k v d = d ++ [(k, v)].
Proof.
  induction d as [|[k' v'] d IH]; [done|]. csimpl. intros Hk.
  apply not_elem_of_cons in Hk as [Hne Hk].
  apply String.eqb_neq in Hne as ->. by rewrite IH.
Qed.

Lemma dict_set_NoDup (k : string) (v : Q) (d : list (string * Q)) :
  NoDup d.*1 -> NoDup (dict_set k v d).*1.
Proof.
  intros Hd. rewrite dict_set_keys. case_bool_decide as Hk; [done|].
  apply NoDup_app. split; [done|]. split; [|apply NoDup_singleton].
  intros x Hx Hx'. apply list_elem_of_singleton in Hx' as ->. done.
Qed.

Section Validation.
Context {RT : Runtime}.

Lemma known_signal (s : string) :
  is_Some (SIGNAL_COLUMNS !! s) <-> s ∈ signal_names.
Proof.
  unfold SIGNAL_COLUMNS, signal_names. split.
  - intros [col H]. apply elem_of_list_to_map_2 in H.
    repeat (apply elem_of_cons in H as [H|H];
            [injection H as -> _; apply (bool_decide_unpack _); by vm_compute|]).
    by apply elem_of_nil in H.
  - intros H.
    repeat (apply elem_of_cons in H as [->|H]; [by eexists|]).
    by apply elem_of_nil in H.
Qed.

Lemma validate_weights_invariant (items : list (string * pyval))
    (acc : list (string * Q)) :
  NoDup acc.*1 -> Forall (λ sw, fst sw ∈ signal_names) acc ->
  NoDup (foldl validate_step acc items).*1
  /\ Forall (λ sw, fst sw ∈ signal_names) (foldl validate_step acc items).
Proof.
  revert acc. induction items as [|[s v] items IH]; intros acc Hnd Hall; [done|].
  simpl. apply IH; unfold validate_step; simpl;
    destruct (SIGNAL_COLUMNS !! s) as [col|] eqn:Es; try done;
    destruct (py_float v) as [w|]; try done.
  - by apply dict_set_NoDup.
  - apply Forall_forall. intros [s' w'] Hin. simpl.
    assert (s' ∈ (dict_set s w acc).*1) as Hk
      by (apply list_elem_of_fmap; by exists (s', w')).
    rewrite dict_set_keys in Hk. rewrite Forall_forall in Hall.
    assert (s ∈ signal_names) by (apply known_signal; eauto).
    case_bool_decide.
    + apply list_elem_of_fmap in Hk as ([s'' w''] & -> & Hin'). by apply (Hall _ Hin').
    + apply elem_of_app in Hk as [Hk|Hk].
      * apply list_elem_of_fmap in Hk as ([s'' w''] & -> & Hin'). by apply (Hall _ Hin').
      * by apply list_elem_of_singleton in Hk as ->.
Qed.

Lemma validate_weights_elem (items : list (string * pyval))
    (acc : list (string * Q)) (s : string) (w : Q) :
  NoDup items.*1 -> (forall k, k ∈ acc.*1 -> k ∉ items.*1) ->
  (s, w) ∈ foldl validate_step acc items
  <-> (s, w) ∈ acc
      \/ (s ∈ signal_names /\ exists v, (s, v) ∈ items /\ py_float v = Some w).
Proof.
  revert acc. induction items as [|[k v] items IH]; intros acc Hnd Hdisj.
  - simpl. split; [by left|]. intros [H | (_ & v & H & _)]; [done|].
    by apply elem_of_nil in H.
  - simpl in Hnd. apply NoDup_cons in Hnd as [Hk Hnd]. simpl.
    assert (k ∉ acc.*1) as Hka.
    { intros Hin. apply (Hdisj k Hin). by left. }
    rewrite IH; [|done|].
    2: { intros k' Hk'. unfold validate_step in Hk'. simpl in Hk'.
         assert (k' ∈ acc.*1 \/ k' = k) as [H | ->].
         { destruct (SIGNAL_COLUMNS !! k); [|by left].
           destruct (py_float v); [|by left].
           rewrite dict_set_fresh, fmap_app in Hk' by done.
           apply elem_of_app in Hk' as [H|H]; [by left|].
           apply list_elem_of_singleton in H. by right. }
         - intros Hin. apply (Hdisj k' H). by right.
         - done. }
    unfold validate_step. simpl.
    destruct (SIGNAL_COLUMNS !! k) as [col|] eqn:Es.
    + assert (k ∈ signal_names) as Hkn by (apply known_signal; eauto).
      destruct (py_float v) as [w0|] eqn:Ev.
      * rewrite dict_set_fresh by done. rewrite elem_of_app, list_elem_of_singleton.
        split.
        -- intros [[H | H] | (Hs & v' & H & Hv')]; [by left | |].
           ++ injection H as -> ->. right. split; [done|]. exists v.
              split; [by left | done].
           ++ right. split; [done|]. exists v'. split; [by right | done].
        -- intros [H | (Hs & v' & H & Hv')]; [by left; left|].
           apply elem_of_cons in H as [H|H].
           ++ injection H as -> ->. left. right. congruence.
           ++ right. split; [done|]. by exists v'.
      * split.
        -- intros [H | (Hs & v' & H & Hv')]; [by left|].
           right. split; [done|]. exists v'. split; [by right | done].
        -- intros [H | (Hs & v' & H & Hv')]; [by left|].
           apply elem_of_cons in H as [H|H].
           ++ injection H as -> ->. congruence.
           ++ right. split; [done|]. by exists v'.
    + split.
      * intros [H | (Hs & v' & H & Hv')]; [by left|].
        right. split; [done|]. exists v'. split; [by right | done].
      * intros [H | (Hs & v' & H & Hv')]; [by left|].
        apply elem_of_cons in H as [H|H].
        -- injection H as -> ->. apply known_signal in Hs as [? Hs]. congruence.
        -- right. split; [done|]. by exists v'.
Qed.

(** X21. The validated weights hold each signal at most once, only
    signals that [SIGNAL_COLUMNS] knows, hence at most nine entries; for a
    payload without repeated keys they are exactly the entries of the
    payload that name a known signal and whose weight [float] accepts, with
    the weight converted. *)
Theorem X21_validate_weights_spec (items : list (string * pyval)) :
  NoDup (validate_weights items).*1
  /\ Forall (λ sw, fst sw ∈ signal_names) (validate_weights items)
  /\ (length (validate_weights items) <= 9)%nat
  /\ (NoDup items.*1 ->
      forall s w,
        (s, w) ∈ validate_weights items
        <-> s ∈ signal_names /\ exists v, (s, v) ∈ items /\ py_float v = Some w).
Proof.
  rewrite validate_weights_foldl.
  destruct (validate_weights_invariant items []) as [Hnd Hall];
    [constructor | constructor |].
  split; [done|]. split; [done|]. split.
  - rewrite <- (length_fmap fst).
    change 9%nat with (length signal_names).
    apply submseteq_length, NoDup_submseteq; [done|].
    intros s Hs. apply list_elem_of_fmap in Hs as ([s' w] & -> & Hin).
    rewrite Forall_forall in Hall. by apply (Hall _ Hin).
  - intros Hitems s w. rewrite validate_weights_elem; [|done|].
    + split; [|by right]. intros [H|H]; [|done]. by apply elem_of_nil in H.
    + intros k Hk. by apply elem_of_nil in Hk.
Qed.

End Validation.

(** ** The custom-lens response *)

Section CustomResponse.
Context {RT : Runtime}.

(** X22. A successful [GET /locations/custom] queries the storage once;
    its body is in non-increasing order of [custom_score] and holds
    [min(limit, total)] records, where [total] is the count sent in
    [X-Total-Count]; each record of the body has
    [int(user_ratings_total or 0) >= min_reviews] when [min_reviews > 0]. *)
Theorem X22_custom_sorted_and_counted (supabase : option client) (weights : string)
    (min_rating : Q) (min_reviews : Z) (limit : nat) (events : list event)
    (body : list (gmap string pyval)) (total_count : nat) :
  get_locations_custom supabase weights min_rating min_reviews limit
  = (events, HttpOk body total_count) ->
  events = [EvSelect min_rating]
  /\ sorted_desc "custom_score" body
  /\ length body = Nat.min limit total_count
  /\ ((0 < min_reviews)%Z ->
      Forall (λ p, has_reviews min_reviews p = true) body).
Proof.
  unfold get_locations_custom. intros H.
  destruct (json_loads weights) as [weight_dict|]; [|done].
  destruct (as_dict weight_dict) as [items|]; [|done].
  destruct (validate_weights items) as [|w valid_weights] eqn:Ev; [done|].
  destruct supabase as [db|]; [|done].
  destruct (get_locations_custom_try _ _ _ _ _) as [[page total]|] eqn:Et; [|done].
  injection H as <- <- <-. unfold get_locations_custom_try in Et.
  apply bind_Some in Et as (results & Edb & Et).
  apply bind_Some in Et as (enriched & Em & Et).
  apply bind_Some in Et as (l1 & E1 & Et).
  apply bind_Some in Et as (l3 & E3 & Et).
  injection Et as <- <-.
  split; [done|]. split; [|split].
  - apply StronglySorted_take. by eapply sort_desc_by_sorted.
  - apply length_take.
  - intros Hm. apply Forall_forall. intros p Hp.
    apply Z.ltb_lt in Hm. rewrite Hm in E1.
    apply py_filter_filter in E1 as ->.
    apply sort_desc_by_perm in E3. apply subseteq_take in Hp. rewrite E3 in Hp.
    apply list_elem_of_fmap in Hp as (p0 & -> & Hp0).
    apply filter_In_elem in Hp0 as [_ Hp0].
    unfold has_reviews, enough_reviews in *. by rewrite get_insert_ne.
Qed.

End CustomResponse.

(** ** The vibe listing *)

Section Vibes.
Context {RT : Runtime}.

(** X23. A successful [GET /vibes] asks the storage once, passing the tag
    (an empty tag like no tag) and the limit; it returns one record per row
    the storage delivered, in the order of delivery, each the scored record
    of its row with the stored columns untouched: the endpoint itself
    neither filters, sorts nor truncates, and it enriches with the default
    scale 0.35. *)
Theorem X23_vibes_pipeline (supabase : option vibes_client)
    (vibe_tag : option string) (limit : nat) (events : list vibes_event)
    (body : list (gmap string pyval)) :
  get_vibes supabase vibe_tag limit = (events, ReplyOk body) ->
  exists db tag results enriched,
    supabase = Some db
    /\ (vibe_tag = Some "" -> tag = None) /\ (vibe_tag <> Some "" -> tag = vibe_tag)
    /\ events = [EvSelectVibes tag limit]
    /\ db tag limit = Some results
    /\ mapM (λ p, enrich_place p 0.35) results = Some enriched
    /\ body = normalize_and_blend enriched
    /\ length body = length results
    /\ Forall2 scored_record results body
    /\ Forall2 same_stored_columns results body.
Proof.
  unfold get_vibes. intros H. destruct supabase as [db|]; [|done].
  set (tag := match vibe_tag with
              | Some t => if String.eqb t "" then None else Some t
              | None => None
              end) in *.
  destruct (db tag limit) as [results|] eqn:Edb; simpl in H; [|done].
  destruct (mapM _ results) as [enriched|] eqn:Em; simpl in H; [|done].
  injection H as <- <-.
  exists db, tag, results, enriched. split; [done|].
  split; [by intros ->|]. split.
  { intros Hne. unfold tag. destruct vibe_tag as [t|]; [|done].
    destruct (String.eqb t "") eqn:E; [|done].
    apply String.eqb_eq in E as ->. done. }
  split; [done|]. split; [done|]. split; [done|]. split; [done|].
  assert (Forall2 scored_record results (normalize_and_blend enriched)) as Hs.
  { eapply Forall2_impl; [by eapply normalize_and_blend_records|].
    apply pipeline_record_scored. }
  split; [symmetry; by eapply Forall2_length|]. split; [done|].
  by eapply pipeline_stored_columns.
Qed.

End Vibes.

(** ** Key reviews *)

Section MaxMin.
Context {A : Type} (key : A -> Q).

Lemma py_max_by_spec (x : A) (l : list A) :
  py_max_by key x l ∈ x :: l
  /\ forall y, y ∈ x :: l -> key y <= key (py_max_by key x l).
Proof.
  unfold py_max_by. revert x. induction l as [|z l IH]; intros x; simpl.
  - split; [by left|]. intros y Hy. apply list_elem_of_singleton in Hy as ->.
    apply Qle_refl.
  - destruct (IH (if Qltb (key x) (key z) then z else x)) as [Hin Hmax].
    split.
    + apply elem_of_cons in Hin as [Hin|Hin]; [|by right; right].
      rewrite Hin. destruct (Qltb (key x) (key z)); [right; left | left]; done.
    + intros y Hy.
      assert (key x <= key (if Qltb (key x) (key z) then z else x)
              /\ key z <= key (if Qltb (key x) (key z) then z else x)) as [Hx Hz].
      { case_Q; split; lra. }
      apply elem_of_cons in Hy as [->|Hy].
      * eapply Qle_trans; [exact Hx|]. apply Hmax. by left.
      * apply elem_of_cons in Hy as [->|Hy].
        -- eapply Qle_trans; [exact Hz|]. apply Hmax. by left.
        -- apply Hmax. by right.
Qed.

Lemma py_min_by_spec (x : A) (l : list A) :
  py_min_by key x l ∈ x :: l
  /\ forall y, y ∈ x :: l -> key (py_min_by key x l) <= key y.
Proof.
  unfold py_min_by. revert x. induction l as [|z l IH]; intros x; simpl.
  - split; [by left|]. intros y Hy. apply list_elem_of_singleton in Hy as ->.
    apply Qle_refl.
  - destruct (IH (if Qltb (key z) (key x) then z else x)) as [Hin Hmin].
    split.
    + apply elem_of_cons in Hin as [Hin|Hin]; [|by right; right].
      rewrite Hin. destruct (Qltb (key z) (key x)); [right; left | left]; done.
    + intros y Hy.
      assert (key (if Qltb (key z) (key x) then z else x) <= key x
              /\ key (if Qltb (key z) (key x) then z else x) <= key z) as [Hx Hz].
      { case_Q; split; lra. }
      apply elem_of_cons in Hy as [->|Hy].
      * eapply Qle_trans; [|exact Hx]. apply Hmin. by left.
      * apply elem_of_cons in Hy as [->|Hy].
        -- eapply Qle_trans; [|exact Hz]. apply Hmin. by left.
        -- apply Hmin. by right.
Qed.

End MaxMin.

Lemma fill_picked_spec (limit : nat) (picked remaining : list (gmap string pyval)) :
  (length picked <= limit)%nat ->
  fill_picked limit picked remaining
  = picked ++ take (limit - length picked) remaining.
Proof.
  revert picked. induction remaining as [|r remaining IH]; intros picked Hlen; simpl.
  - by rewrite take_nil, app_nil_r.
  - destruct (limit <=? length picked)%nat eqn:E.
    + apply Nat.leb_le in E. replace (limit - length picked)%nat with 0%nat by lia.
      by rewrite app_nil_r.
    + apply Nat.leb_gt in E. rewrite IH by (rewrite length_app; simpl; lia).
      rewrite length_app. simpl.
      replace (limit - length picked)%nat with (S (limit - (length picked + 1)))
        by lia.
      simpl. by rewrite <- app_assoc.
Qed.

Lemma py_filter_total {A} (f : A -> option bool) (l : list A) :
  Forall (λ x, is_Some (f x)) l ->
  py_filter f l = Some (List.filter (λ x, bool_decide (f x = Some true)) l).
Proof.
  induction 1 as [|x l [b Hb] _ IH]; simpl; [done|].
  rewrite Hb, IH. simpl. by destruct b.
Qed.

Lemma filter_sublist {A} (f : A -> bool) (l : list A) :
  List.filter f l `sublist_of` l.
Proof.
  induction l as [|x l IH]; simpl; [done|].
  destruct (f x); [by apply sublist_skip | by apply sublist_cons].
Qed.

Lemma filter_ext_in {A} (f g : A -> bool) (l : list A) :
  (forall x, x ∈ l -> f x = g x) -> List.filter f l = List.filter g l.
Proof.
  intros H. induction l as [|x l IH]; simpl; [done|].
  rewrite (H x ltac:(by left)), IH; [done|]. intros y Hy. apply H. by right.
Qed.

Lemma py_eq_VStr (s : string) (x : pyval) : py_eq (VStr s) x = true <-> x = VStr s.
Proof.
  destruct x; simpl; try (split; done).
  rewrite String.eqb_eq. split; congruence.
Qed.

Lemma existsb_py_eq_str (s : string) (seen : list pyval) :
  existsb (py_eq (VStr s)) seen = true <-> VStr s ∈ seen.
Proof.
  rewrite existsb_exists. split.
  - intros (x & Hx & E). apply py_eq_VStr in E as ->. by apply list_elem_of_In.
  - intros H. exists (VStr s). split; [by apply list_elem_of_In|]. by apply py_eq_VStr.
Qed.

Section Picking.
Context {RT : Runtime}.

Lemma keyed_inj (T : list (gmap string pyval)) (r r' : gmap string pyval) :
  NoDup (review_id <$> T) -> r ∈ T -> r' ∈ T -> review_id r = review_id r' ->
  r = r'.
Proof.
  intros Hnd Hr Hr' E.
  apply list_elem_of_lookup in Hr as [i Hi]. apply list_elem_of_lookup in Hr' as [j Hj].
  assert (i = j) as ->; [|congruence].
  eapply (NoDup_lookup _ i j (review_id r) Hnd); rewrite list_lookup_fmap.
  - by rewrite Hi.
  - by rewrite Hj, E.
Qed.

Lemma pick_review_keyed (T : list (gmap string pyval))
    (acc : list (gmap string pyval) * list pyval) (r : gmap string pyval) :
  Forall (λ r, exists s, get r "id" = VStr s /\ s <> "") T ->
  NoDup (review_id <$> T) -> picking T acc -> r ∈ T ->
  exists acc',
    pick_review acc (Some r) = Some acc' /\ picking T acc'
    /\ r ∈ fst acc'
    /\ ((r ∈ fst acc /\ fst acc' = fst acc)
        \/ ((r ∉ fst acc) /\ fst acc' = fst acc ++ [r])).
Proof.
  intros Hids Hnd (Hsub & Hpd & Hseen) Hr.
  rewrite Forall_forall in Hids. destruct (Hids r Hr) as (s & Hs & Hne).
  assert (r <> ∅) as Hre.
  { intros ->. unfold get in Hs. by rewrite lookup_empty in Hs. }
  assert (pick_review acc (Some r)
          = Some (if existsb (py_eq (VStr s)) (snd acc) then acc
                  else (fst acc ++ [r], VStr s :: snd acc))) as ->.
  { unfold pick_review. rewrite bool_decide_eq_false_2 by done. cbv zeta.
    rewrite Hs.
    assert (truthy (VStr s) = true) as ->.
    { simpl. apply negb_true_iff. by apply String.eqb_neq. }
    simpl. by destruct (existsb _ _). }
  destruct (existsb (py_eq (VStr s)) (snd acc)) eqn:Ex.
  - apply existsb_py_eq_str in Ex. apply Hseen in Ex.
    apply list_elem_of_fmap in Ex as (r' & Er' & Hr').
    assert (r = r') as <-.
    { apply (keyed_inj T); [done | done | by apply Hsub |].
      unfold review_id at 1. by rewrite Hs. }
    exists acc. split; [done|]. split; [done|]. split; [done|]. by left.
  - assert (r ∉ fst acc) as Hnew.
    { intros Hin. apply not_true_iff_false in Ex. apply Ex.
      apply existsb_py_eq_str, Hseen, list_elem_of_fmap. exists r.
      split; [|done]. unfold review_id. by rewrite Hs. }
    eexists. split; [reflexivity|]. simpl. split; [|split].
    + split; [|split]; simpl.
      * intros x Hx. apply elem_of_app in Hx as [Hx|Hx]; [by apply Hsub|].
        by apply list_elem_of_singleton in Hx as ->.
      * apply NoDup_app. split; [done|]. split; [|apply NoDup_singleton].
        intros x Hx Hx'. by apply list_elem_of_singleton in Hx' as ->.
      * intros x. rewrite fmap_app, elem_of_app, elem_of_cons, Hseen. simpl.
        rewrite list_elem_of_singleton.
        change (review_id r) with (get r "id"). rewrite Hs. tauto.
    + apply elem_of_app. right. by left.
    + by right.
Qed.

End Picking.

Section KeyReviewsPhases.
Context {RT : Runtime} (str_strip : string -> string).

Lemma has_review_text_total (rows : list (gmap string pyval)) :
  Forall (λ r, get r "review_text" = VNone
               \/ exists t, get r "review_text" = VStr t) rows ->
  py_filter (has_review_text str_strip) rows = Some (with_text str_strip rows).
Proof.
  intros H. apply py_filter_total. eapply Forall_impl; [exact H|].
  intros r [E|[t E]]; unfold has_review_text; rewrite E.
  - by eexists.
  - unfold py_or. by destruct (truthy (VStr t)); eexists.
Qed.

Lemma get_key_reviews_try_unfold (rows : list (gmap string pyval)) (limit : nat)
    (r0 : gmap string pyval) (T' : list (gmap string pyval)) :
  py_filter (has_review_text str_strip) rows = Some (r0 :: T') ->
  get_key_reviews_try str_strip rows limit
  = (acc ← pick_review ([], []) (Some (py_max_by sent r0 T'));
     acc ← pick_review acc (Some (py_min_by sent r0 T'));
     acc ← pick_review acc
             match dive_positive (r0 :: T') with
             | [] => None
             | d :: ds => Some (py_max_by sent d ds)
             end;
     picked ←
       (if (length (fst acc) <? limit)%nat
        then
          remaining ←
            py_filter (λ r, negb <$> set_contains (snd acc) (get r "id")) (r0 :: T');
          Some (fill_picked limit (fst acc)
                  (stable_sort (λ x y, Qleb (Qabs (sent y)) (Qabs (sent x)))
                     remaining))
        else Some (fst acc));
     Some (take limit picked)).
Proof.
  intros H. unfold get_key_reviews_try.
  destruct rows as [|r rows]; [done|]. by rewrite H.
Qed.

Lemma key_reviews_phases (rows : list (gmap string pyval)) (limit : nat)
    (r0 : gmap string pyval) (T' : list (gmap string pyval)) :
  well_keyed rows -> with_text str_strip rows = r0 :: T' ->
  exists picked rest,
    get_key_reviews_try str_strip rows limit = Some (take limit (picked ++ rest))
    /\ picked ++ rest ≡ₚ r0 :: T'
    /\ (1 <= length picked <= 3)%nat
    /\ picked !! 0%nat = Some (py_max_by sent r0 T')
    /\ (py_min_by sent r0 T' <> py_max_by sent r0 T' ->
        picked !! 1%nat = Some (py_min_by sent r0 T'))
    /\ (forall d ds, dive_positive (r0 :: T') = d :: ds ->
                     py_max_by sent d ds ∈ picked)
    /\ StronglySorted (λ a b, Qabs (sent b) <= Qabs (sent a)) rest.
Proof.
  intros [Hall Hnd] HT.
  assert (py_filter (has_review_text str_strip) rows = Some (r0 :: T')) as Hf.
  { rewrite <- HT. apply has_review_text_total.
    eapply Forall_impl; [exact Hall|]. by intros r [_ H]. }
  rewrite (get_key_reviews_try_unfold rows limit r0 T' Hf).
  set (T := r0 :: T') in *.
  assert (T `sublist_of` rows) as Hsub by (rewrite <- HT; apply filter_sublist).
  assert (Forall (λ r, exists s, get r "id" = VStr s /\ s <> "") T) as Hids.
  { apply Forall_forall. intros r Hr. rewrite Forall_forall in Hall.
    apply (sublist_subseteq _ _ Hsub) in Hr. by destruct (Hall r Hr). }
  assert (NoDup (review_id <$> T)) as HndT.
  { eapply sublist_NoDup; [exact Hnd|]. by apply fmap_sublist. }
  assert (NoDup T) as HndT' by (by eapply NoDup_fmap_1).
  destruct (py_max_by_spec sent r0 T') as [Hpos _].
  destruct (py_min_by_spec sent r0 T') as [Hneg _].
  set (pos := py_max_by sent r0 T') in *. set (neg := py_min_by sent r0 T') in *.
  assert (picking T ([], [])) as H0.
  { split; [|split]; simpl.
    - by intros x Hx; apply elem_of_nil in Hx.
    - constructor.
    - done. }
  destruct (pick_review_keyed T _ pos Hids HndT H0 Hpos)
    as (acc1 & -> & H1 & Hp1 & Hc1).
  assert (fst acc1 = [pos]) as Hn1.
  { destruct Hc1 as [[Hin _]|[_ E]]; [by apply elem_of_nil in Hin | done]. }
  destruct (pick_review_keyed T _ neg Hids HndT H1 Hneg)
    as (acc2 & E2 & H2 & Hp2 & Hc2).
  cbn [mbind option_bind]. rewrite E2. cbn [mbind option_bind].
  rewrite Hn1 in Hc2.
  assert (exists acc3,
            pick_review acc2
              match dive_positive T with
              | [] => None
              | d :: ds => Some (py_max_by sent d ds)
              end = Some acc3
            /\ picking T acc3
            /\ (fst acc3 = fst acc2 \/ exists x, fst acc3 = fst acc2 ++ [x])
            /\ (forall d ds, dive_positive T = d :: ds ->
                             py_max_by sent d ds ∈ fst acc3))
    as (acc3 & E3 & H3 & Hs3 & Hd3).
  { destruct (dive_positive T) as [|d ds] eqn:Ed.
    - exists acc2. split; [done|]. split; [done|]. split; [by left|]. done.
    - destruct (py_max_by_spec sent d ds) as [Hdive _].
      assert (py_max_by sent d ds ∈ T) as HdT.
      { rewrite <- Ed in Hdive. unfold dive_positive in Hdive.
        by apply filter_In_elem in Hdive as [H _]. }
      destruct (pick_review_keyed T _ _ Hids HndT H2 HdT)
        as (acc3 & E3 & H3 & Hp3 & Hc3).
      exists acc3. split; [done|]. split; [done|]. split.
      + destruct Hc3 as [[_ E]|[_ E]]; [by left | right; by eexists].
      + intros d' ds' [= <- <-]. done. }
  rewrite E3. cbn [mbind option_bind].
  destruct H3 as (Hsub3 & Hnd3 & Hseen3).
  set (picked := fst acc3) in *. set (seen := snd acc3) in *.
  set (remaining :=
         List.filter (λ r, negb (existsb (py_eq (review_id r)) seen)) T).
  assert (forall r, r ∈ T ->
            existsb (py_eq (review_id r)) seen = true <-> r ∈ picked) as Hmem.
  { intros r Hr. rewrite Forall_forall in Hids. destruct (Hids r Hr) as (s & Hs & _).
    unfold review_id at 1. rewrite Hs, existsb_py_eq_str, Hseen3. split.
    - intros Hin. apply list_elem_of_fmap in Hin as (r' & Er' & Hr').
      assert (r = r') as ->; [|done].
      apply (keyed_inj T); [done | done | by apply Hsub3 |].
      unfold review_id at 1. by rewrite Hs.
    - intros Hin. apply list_elem_of_fmap. exists r. split; [|done].
      unfold review_id. by rewrite Hs. }
  assert (py_filter (λ r, negb <$> set_contains seen (get r "id")) T
          = Some remaining) as Hrem.
  { rewrite py_filter_total.
    - f_equal. apply filter_ext_in. intros r Hr.
      rewrite Forall_forall in Hids. destruct (Hids r Hr) as (s & Hs & _).
      unfold review_id. rewrite Hs. simpl.
      by destruct (existsb (py_eq (VStr s)) seen).
    - apply Forall_forall. intros r Hr.
      rewrite Forall_forall in Hids. destruct (Hids r Hr) as (s & Hs & _).
      rewrite Hs. by eexists. }
  set (rest := stable_sort (λ x y, Qleb (Qabs (sent y)) (Qabs (sent x))) remaining).
  assert (fst acc2 = [pos] \/ (neg <> pos /\ fst acc2 = [pos; neg])) as Hacc2.
  { destruct Hc2 as [[_ E]|[Hin E]]; [by left | right]. split; [|done].
    intros ->. apply Hin. by left. }
  assert (length picked = 1%nat \/ length picked = 2%nat \/ length picked = 3%nat)
    as Hlen.
  { assert (length (fst acc2) = 1%nat \/ length (fst acc2) = 2%nat) as Hl2.
    { destruct Hacc2 as [->|[_ ->]]; [by left | by right]. }
    destruct Hs3 as [->|[x ->]]; [lia|]. rewrite length_app. simpl. lia. }
  assert (picked !! 0%nat = Some pos) as Hfirst.
  { assert (fst acc2 !! 0%nat = Some pos) as Hf2.
    { by destruct Hacc2 as [->|[_ ->]]. }
    destruct Hs3 as [->|[x ->]]; [done|].
    rewrite lookup_app_l; [done|]. by eapply lookup_lt_Some. }
  exists picked, rest.
  split; [|split; [|split; [|split; [|split; [|split]]]]].
  - rewrite Hrem. cbn [mbind option_bind]. fold rest.
    destruct (length picked <? limit)%nat eqn:El.
    + apply Nat.ltb_lt in El. cbn [mbind option_bind]. f_equal.
      rewrite fill_picked_spec by lia. rewrite !take_app.
      by rewrite take_take, Nat.min_id.
    + apply Nat.ltb_ge in El. cbn [mbind option_bind]. f_equal.
      rewrite take_app.
      replace (limit - length picked)%nat with 0%nat by lia.
      by rewrite take_0, app_nil_r.
  - unfold rest. rewrite stable_sort_perm.
    apply NoDup_Permutation.
    + apply NoDup_app. split; [done|]. split.
      * intros x Hx Hx'. apply filter_In_elem in Hx' as [HxT Hx'].
        apply negb_true_iff, not_true_iff_false in Hx'. apply Hx'.
        by apply Hmem.
      * eapply sublist_NoDup; [exact HndT' | apply filter_sublist].
    + done.
    + intros x. rewrite elem_of_app. unfold remaining. rewrite filter_In_elem.
      split.
      * intros [Hx|[Hx _]]; [by apply Hsub3 | done].
      * intros Hx. destruct (existsb (py_eq (review_id x)) seen) eqn:Ex.
        -- left. by apply Hmem.
        -- right. by split.
  - lia.
  - done.
  - intros Hne. destruct Hacc2 as [E|[_ E]].
    + exfalso. destruct Hc2 as [[Hin _]|[Hin _]].
      * by apply list_elem_of_singleton in Hin.
      * rewrite E in Hp2. by apply list_elem_of_singleton in Hp2.
    + destruct Hs3 as [->|[x ->]]; by rewrite E.
  - done.
  - apply (StronglySorted_impl
             (λ a b, Qleb (Qabs (sent b)) (Qabs (sent a)) = true)).
    + intros a b. apply Qleb_le.
    + apply stable_sort_sorted.
      * intros a b. apply Qleb_total.
      * intros a b c Hab Hbc. by eapply Qleb_trans.
Qed.

End KeyReviewsPhases.

Section KeyReviewsTheorems.
Context {RT : Runtime} (str_strip : string -> string).

Lemma pick_review_subseteq (acc acc' : list (gmap string pyval) * list pyval)
    (r : option (gmap string pyval)) (T : list (gmap string pyval)) :
  pick_review acc r = Some acc' -> fst acc ⊆ T -> (forall x, r = Some x -> x ∈ T) ->
  fst acc' ⊆ T.
Proof.
  unfold pick_review. intros H Hacc Hr. destruct r as [r|]; [|by injection H as <-].
  destruct (bool_decide (r = ∅)); [by injection H as <-|]. cbv zeta in H.
  destruct (truthy (get r "id")); [|by injection H as <-].
  destruct (set_contains _ _) as [[]|]; simpl in H; [by injection H as <-| |done].
  injection H as <-. simpl. intros x Hx.
  apply elem_of_app in Hx as [Hx|Hx]; [by apply Hacc|].
  apply list_elem_of_singleton in Hx as ->. by apply Hr.
Qed.

Lemma fill_picked_subseteq (limit : nat) (picked remaining T : list (gmap string pyval)) :
  picked ⊆ T -> remaining ⊆ T -> fill_picked limit picked remaining ⊆ T.
Proof.
  revert picked. induction remaining as [|r remaining IH]; intros picked Hp Hr;
    simpl; [done|].
  destruct (limit <=? length picked)%nat; [done|]. apply IH.
  - intros x Hx. apply elem_of_app in Hx as [Hx|Hx]; [by apply Hp|].
    apply list_elem_of_singleton in Hx as ->. apply Hr. by left.
  - intros x Hx. apply Hr. by right.
Qed.

Lemma get_key_reviews_try_sound (rows picked : list (gmap string pyval))
    (limit : nat) :
  get_key_reviews_try str_strip rows limit = Some picked ->
  (length picked <= limit)%nat /\ picked ⊆ with_text str_strip rows.
Proof.
  intros H.
  assert (rows = [] /\ picked = []
          \/ exists T, py_filter (has_review_text str_strip) rows = Some T
                       /\ (T = [] -> picked = [])) as [[-> ->]|(T & HT & Hnil)].
  { unfold get_key_reviews_try in H. destruct rows as [|r rows].
    - left. by injection H as <-.
    - right. destruct (py_filter _ _) as [T|]; simpl in H; [|done].
      exists T. split; [done|]. intros ->. by injection H as <-. }
  { split; [simpl; lia | done]. }
  pose proof (py_filter_filter _ _ _ HT) as ET. fold (with_text str_strip rows) in ET.
  rewrite <- ET. destruct T as [|r0 T'].
  { rewrite Hnil by done. split; [simpl; lia | done]. }
  rewrite (get_key_reviews_try_unfold str_strip rows limit r0 T' HT) in H.
  apply bind_Some in H as (acc1 & E1 & H).
  apply bind_Some in H as (acc2 & E2 & H).
  apply bind_Some in H as (acc3 & E3 & H).
  apply bind_Some in H as (picked' & E4 & H). injection H as <-.
  split; [rewrite length_take; lia|].
  destruct (py_max_by_spec sent r0 T') as [Hpos _].
  destruct (py_min_by_spec sent r0 T') as [Hneg _].
  assert (fst acc1 ⊆ r0 :: T') as H1.
  { eapply pick_review_subseteq; [exact E1 | apply list_subseteq_nil |].
    by intros x [= <-]. }
  assert (fst acc2 ⊆ r0 :: T') as H2.
  { eapply pick_review_subseteq; [exact E2 | done |]. by intros x [= <-]. }
  assert (fst acc3 ⊆ r0 :: T') as H3.
  { eapply pick_review_subseteq; [exact E3 | done |].
    intros x Hx. destruct (dive_positive (r0 :: T')) as [|d ds] eqn:Ed; [done|].
    injection Hx as <-. destruct (py_max_by_spec sent d ds) as [Hd _].
    rewrite <- Ed in Hd. unfold dive_positive in Hd.
    by apply filter_In_elem in Hd as [Hd _]. }
  intros x Hx. apply subseteq_take in Hx.
  destruct (_ <? _)%nat.
  - apply bind_Some in E4 as (remaining & Er & E4). injection E4 as <-.
    eapply fill_picked_subseteq; [exact H3 | | exact Hx].
    intros y Hy. rewrite stable_sort_perm in Hy.
    by apply (py_filter_subseteq _ _ _ Er).
  - injection E4 as <-. by apply H3.
Qed.

Lemma get_key_reviews_unfold (db : reviews_client) (place_id : string)
    (limit : nat) (data : option (list (gmap string pyval))) :
  db place_id = Some data ->
  get_key_reviews str_strip (Some db) place_id limit
  = ([EvSelectReviews place_id],
     match get_key_reviews_try str_strip (default [] data) limit with
     | Some picked => ReplyOk picked
     | None => ReplyError 500
     end).
Proof. intros H. unfold get_key_reviews. by rewrite H. Qed.

(** X24. A successful [GET /locations/{place_id}/reviews] asks the storage
    once for the reviews of the place and returns at most [limit] of the rows
    delivered, each with a text that is not blank; without rows, or without a
    row that has such a text, the body is empty. *)
Theorem X24_key_reviews_sound (supabase : option reviews_client)
    (place_id : string) (limit : nat) (events : list reviews_event)
    (body : list (gmap string pyval)) :
  get_key_reviews str_strip supabase place_id limit = (events, ReplyOk body) ->
  exists db data,
    supabase = Some db /\ events = [EvSelectReviews place_id]
    /\ db place_id = Some data
    /\ (length body <= limit)%nat
    /\ Forall (λ r, r ∈ default [] data
                    /\ has_review_text str_strip r = Some true) body
    /\ (with_text str_strip (default [] data) = [] -> body = []).
Proof.
  intros H. destruct supabase as [db|]; [|done].
  destruct (db place_id) as [data|] eqn:Edb.
  2: { unfold get_key_reviews in H. by rewrite Edb in H. }
  rewrite (get_key_reviews_unfold db place_id limit data Edb) in H.
  destruct (get_key_reviews_try _ _ _) as [picked|] eqn:Et; [|done].
  injection H as <- <-. exists db, data.
  apply get_key_reviews_try_sound in Et as [Hlen Hsub].
  split; [done|]. split; [done|]. split; [done|]. split; [done|]. split.
  - apply Forall_forall. intros r Hr. apply Hsub in Hr.
    unfold with_text in Hr. apply filter_In_elem in Hr as [Hr Ht].
    split; [done|]. by apply bool_decide_eq_true in Ht.
  - intros E. rewrite E in Hsub. destruct picked as [|r picked]; [done|].
    specialize (Hsub r ltac:(by left)). by apply elem_of_nil in Hsub.
Qed.

Lemma key_reviews_no_text (rows : list (gmap string pyval)) (limit : nat) :
  well_keyed rows -> with_text str_strip rows = [] ->
  get_key_reviews_try str_strip rows limit = Some [].
Proof.
  intros [Hall _] HT. unfold get_key_reviews_try.
  destruct rows as [|r rows]; [done|].
  rewrite has_review_text_total, HT; [done|].
  eapply Forall_impl; [exact Hall|]. by intros r' [_ H].
Qed.

(** X25. On rows with distinct non-empty string ids and texts that are
    strings or null, the endpoint always answers, returns no review twice, and
    returns exactly [min(limit, n)] reviews, where [n] is the number of rows
    whose text is not blank. *)
Theorem X25_key_reviews_count (db : reviews_client) (place_id : string)
    (limit : nat) (data : option (list (gmap string pyval))) :
  db place_id = Some data -> well_keyed (default [] data) ->
  exists body,
    get_key_reviews str_strip (Some db) place_id limit
    = ([EvSelectReviews place_id], ReplyOk body)
    /\ NoDup (review_id <$> body)
    /\ length body
       = Nat.min limit (length (with_text str_strip (default [] data))).
Proof.
  intros Edb Hwk. rewrite (get_key_reviews_unfold db place_id limit data Edb).
  set (rows := default [] data) in *.
  destruct (with_text str_strip rows) as [|r0 T'] eqn:HT.
  - rewrite key_reviews_no_text by done. exists []. split; [done|].
    split; [constructor | simpl; lia].
  - destruct (key_reviews_phases str_strip rows limit r0 T' Hwk HT)
      as (picked & rest & -> & Hperm & _).
    eexists. split; [reflexivity|]. split.
    + assert (NoDup (review_id <$> r0 :: T')) as Hnd.
      { destruct Hwk as [_ Hnd]. eapply sublist_NoDup; [exact Hnd|].
        apply fmap_sublist. rewrite <- HT. apply filter_sublist. }
      rewrite <- Hperm in Hnd.
      eapply sublist_NoDup; [exact Hnd|]. apply fmap_sublist, sublist_take.
    + rewrite length_take. by rewrite (Permutation_length Hperm).
Qed.

(** X26. On such rows, for a limit of at least 1 the first review returned
    is one of highest sentiment among the reviews with a text; for a limit of
    at least 2, if some review has a lower sentiment than that one, the second
    review returned is one of lowest sentiment. *)
Theorem X26_key_reviews_extremes (db : reviews_client) (place_id : string)
    (limit : nat) (data : option (list (gmap string pyval)))
    (events : list reviews_event) (body : list (gmap string pyval)) :
  db place_id = Some data -> well_keyed (default [] data) ->
  with_text str_strip (default [] data) <> [] -> (0 < limit)%nat ->
  get_key_reviews str_strip (Some db) place_id limit = (events, ReplyOk body) ->
  exists most_pos,
    body !! 0%nat = Some most_pos
    /\ most_pos ∈ with_text str_strip (default [] data)
    /\ (forall r, r ∈ with_text str_strip (default [] data) ->
                  sent r <= sent most_pos)
    /\ ((1 < limit)%nat ->
        (exists r, r ∈ with_text str_strip (default [] data)
                   /\ sent r < sent most_pos) ->
        exists most_neg,
          body !! 1%nat = Some most_neg
          /\ most_neg ∈ with_text str_strip (default [] data)
          /\ forall r, r ∈ with_text str_strip (default [] data) ->
                       sent most_neg <= sent r).
Proof.
  intros Edb Hwk Hne Hlim H.
  rewrite (get_key_reviews_unfold db place_id limit data Edb) in H.
  set (rows := default [] data) in *.
  destruct (with_text str_strip rows) as [|r0 T'] eqn:HT; [done|].
  destruct (key_reviews_phases str_strip rows limit r0 T' Hwk HT)
    as (picked & rest & E & Hperm & Hlen & Hfirst & Hsecond & _).
  rewrite E in H. injection H as <- <-.
  destruct (py_max_by_spec sent r0 T') as [Hpos Hmax].
  destruct (py_min_by_spec sent r0 T') as [Hneg Hmin].
  exists (py_max_by sent r0 T'). split; [|split; [done|split; [done|]]].
  - rewrite lookup_take_lt by done. rewrite lookup_app_l by lia. done.
  - intros Hlim2 (r & Hr & Hlt). exists (py_min_by sent r0 T').
    split; [|split; [done|done]].
    rewrite lookup_take_lt by done.
    assert (py_min_by sent r0 T' <> py_max_by sent r0 T') as Hdiff.
    { intros Heq. specialize (Hmin r Hr). rewrite Heq in Hmin. lra. }
    pose proof (Hsecond Hdiff) as H1.
    rewrite lookup_app_l; [done|]. by eapply lookup_lt_Some.
Qed.

(** X27. On such rows, for a limit of at least 3, when some review with a
    text is flagged dive-positive the body contains a flagged review of
    highest sentiment among the flagged ones; and whatever the limit, the body
    is at most three picked reviews followed by other reviews in
    non-increasing order of absolute sentiment. *)
Theorem X27_key_reviews_dive_and_fill (db : reviews_client) (place_id : string)
    (limit : nat) (data : option (list (gmap string pyval)))
    (events : list reviews_event) (body : list (gmap string pyval)) :
  db place_id = Some data -> well_keyed (default [] data) ->
  get_key_reviews str_strip (Some db) place_id limit = (events, ReplyOk body) ->
  (exists picked filled,
     body = picked ++ filled /\ (length picked <= 3)%nat
     /\ StronglySorted (λ a b, Qabs (sent b) <= Qabs (sent a)) filled)
  /\ ((3 <= limit)%nat ->
      dive_positive (with_text str_strip (default [] data)) <> [] ->
      exists most_dive,
        most_dive ∈ body
        /\ most_dive ∈ dive_positive (with_text str_strip (default [] data))
        /\ forall r, r ∈ dive_positive (with_text str_strip (default [] data)) ->
                     sent r <= sent most_dive).
Proof.
  intros Edb Hwk H.
  rewrite (get_key_reviews_unfold db place_id limit data Edb) in H.
  set (rows := default [] data) in *.
  destruct (with_text str_strip rows) as [|r0 T'] eqn:HT.
  { rewrite key_reviews_no_text in H by done. injection H as <- <-. split.
    - exists [], []. split; [done|]. split; [simpl; lia | constructor].
    - by intros _ Hd. }
  destruct (key_reviews_phases str_strip rows limit r0 T' Hwk HT)
    as (picked & rest & E & Hperm & Hlen & _ & _ & Hdive & Hsorted).
  rewrite E in H. injection H as <- <-. split.
  - exists (take limit picked), (take (limit - length picked) rest).
    split; [by rewrite take_app|]. split; [rewrite length_take; lia|].
    by apply StronglySorted_take.
  - intros Hlim Hd. destruct (dive_positive (r0 :: T')) as [|d ds] eqn:Ed; [done|].
    destruct (py_max_by_spec sent d ds) as [Hin Hmax].
    exists (py_max_by sent d ds). split; [|split; [done|done]].
    rewrite take_app, (take_ge picked) by lia.
    apply elem_of_app. left. by eapply Hdive.
Qed.

End KeyReviewsTheorems.

(** ** The properties on the example data *)

Lemma ok_reply {E} (r : list E * http_reply) :
  is_reply_ok (snd r) = true -> r = (fst r, ReplyOk (reply_body (snd r))).
Proof. by destruct r as [ev [body|status]]. Qed.

(** A closed comparison of rationals, by evaluation. *)
Ltac q_closed :=
  first [ apply Qleb_le; vm_compute; reflexivity
        | apply Qltb_lt; vm_compute; reflexivity ].

(** A closed decidable proposition, by evaluation. *)
Ltac decided := apply (bool_decide_unpack _); vm_compute; exact I.

Section FurtherExamples.
#[local] Existing Instance ExampleRuntime.example_runtime.

Lemma X3_underrated_scale_calibrated_witness :
  exists db results abs_residuals scale enriched,
    Some example_db = Some db /\ db 3.5 = Some results
    /\ collect_abs_residuals results = Some abs_residuals
    /\ mapM (λ place, enrich_place place scale) results = Some enriched
    /\ response_body (snd example_request) ⊆ normalize_and_blend enriched
    /\ 0.10 <= scale
    /\ ((length abs_residuals < 10)%nat -> scale = 0.20)
    /\ ((10 <= length abs_residuals)%nat ->
        forall lo hi, Forall (λ r, lo <= r <= hi) abs_residuals ->
          py_max 0.10 lo <= scale /\ scale <= py_max 0.10 hi).
Proof.
  apply (X3_underrated_scale_calibrated (Some example_db) 3.5 0%Z None
           "any"%string "blended_0_10"%string 120%nat (fst example_request)
           (response_body (snd example_request))
           (response_total (snd example_request))).
  apply ok_response. vm_compute. reflexivity.
Defined.

Lemma X4_locations_sorted_and_counted_witness :
  fst example_request = [EvSelect 3.5]
  /\ sorted_desc "blended_0_10" (response_body (snd example_request))
  /\ length (response_body (snd example_request))
     = Nat.min 120 (response_total (snd example_request)).
Proof.
  apply (X4_locations_sorted_and_counted (Some example_db) 3.5 0%Z None
           "any"%string "blended_0_10"%string 120%nat (fst example_request)
           (response_body (snd example_request))
           (response_total (snd example_request))).
  apply ok_response. vm_compute. reflexivity.
Defined.

Lemma X5_locations_limit_prefix_witness :
  exists ranking,
    length ranking = response_total (snd example_request)
    /\ response_body (snd example_request) = take 120 ranking
    /\ forall limit',
         get_locations (Some example_db) 3.5 0 None "any" "blended_0_10" limit'
         = (fst example_request,
            HttpOk (take limit' ranking) (response_total (snd example_request))).
Proof.
  apply (X5_locations_limit_prefix (Some example_db) 3.5 0%Z None
           "any"%string "blended_0_10"%string 120%nat (fst example_request)
           (response_body (snd example_request))
           (response_total (snd example_request))).
  apply ok_response. vm_compute. reflexivity.
Defined.

Lemma X6_min_reviews_filter_witness :
  exists db results scale enriched,
    Some example_db = Some db /\ db 3.5 = Some results
    /\ mapM (λ place, enrich_place place scale) results = Some enriched
    /\ (forall p, p ∈ response_body (snd example_request_reviews) ->
          p ∈ normalize_and_blend enriched /\ has_reviews 100 p = true)
    /\ (@None (list string) = None ->
        response_total (snd example_request_reviews)
        = length (List.filter (has_reviews 100) (normalize_and_blend enriched))
        /\ ((response_total (snd example_request_reviews) <= 120)%nat ->
            forall p, p ∈ normalize_and_blend enriched ->
                      has_reviews 100 p = true ->
                      p ∈ response_body (snd example_request_reviews))).
Proof.
  apply (X6_min_reviews_filter (Some example_db) 3.5 100%Z None
           "any"%string "blended_0_10"%string 120%nat
           (fst example_request_reviews)
           (response_body (snd example_request_reviews))
           (response_total (snd example_request_reviews))).
  - reflexivity.
  - apply ok_response. vm_compute. reflexivity.
Defined.

Lemma X7_unknown_kinds_ignored_witness :
  get_locations (Some example_db) 3.5 0 (Some ["Pub"; " cafe"]) "all"
    "blended_0_10" 120
  = get_locations (Some example_db) 3.5 0 None "all" "blended_0_10" 120.
Proof.
  apply (X7_unknown_kinds_ignored (Some example_db) 3.5 0%Z ["Pub"; " cafe"]%string
           "all"%string "blended_0_10"%string 120%nat).
  repeat constructor; decided.
Defined.

Lemma X8_kinds_filter_witness :
  Forall (matches_kinds "all" (known_kinds [" Bar "; "restaurant"]))
    (response_body (snd (example_request_kinds "all"))).
Proof.
  apply (X8_kinds_filter (Some example_db) 3.5 0%Z [" Bar "; "restaurant"]%string
           "all"%string "quality_0_10"%string 120%nat
           (fst (example_request_kinds "all"))
           (response_body (snd (example_request_kinds "all")))
           (response_total (snd (example_request_kinds "all")))).
  - vm_compute. discriminate.
  - apply ok_response. vm_compute. reflexivity.
Defined.

Lemma X9_all_kinds_within_any_witness :
  (response_total (snd (example_request_kinds "all"))
   <= response_total (snd (example_request_kinds "any")))%nat
  /\ ((response_total (snd (example_request_kinds "any")) <= 120)%nat ->
      response_body (snd (example_request_kinds "all"))
      ⊆ response_body (snd (example_request_kinds "any"))).
Proof.
  apply (X9_all_kinds_within_any (Some example_db) 3.5 0%Z
           [" Bar "; "restaurant"]%string "quality_0_10"%string 120%nat
           (fst (example_request_kinds "all")) (fst (example_request_kinds "any"))).
  - apply (ok_response (example_request_kinds "all")). vm_compute. reflexivity.
  - apply (ok_response (example_request_kinds "any")). vm_compute. reflexivity.
Defined.

Lemma X10_dive_score_at_least_15_witness :
  exists total,
    dive_total place_below_85 = Some total /\ 15 <= total <= 100
    /\ get (default ∅ (calculate_dive_score place_below_85)) "dive_score"
       = VFloat (round1 total)
    /\ 15 <= round1 total <= 100.
Proof.
  apply (X10_dive_score_at_least_15 place_below_85).
  apply Some_default. vm_compute. reflexivity.
Defined.

Lemma X11_dive_score_monotone_in_rating_witness :
  exists total',
    dive_total (<["rating" := VFloat 4.5]> place_below_85) = Some total'
    /\ default 0 (dive_total (<["rating" := VFloat 3.6]> place_below_85)) <= total'
    /\ round1 (default 0 (dive_total (<["rating" := VFloat 3.6]> place_below_85)))
       <= round1 total'.
Proof.
  apply (X11_dive_score_monotone_in_rating place_below_85 3.6 4.5).
  - q_closed.
  - apply Some_default. vm_compute. reflexivity.
Defined.

Lemma X12_stored_columns_untouched_witness :
  Forall2 same_stored_columns [place_a; place_b; place_c] example_enriched
  /\ Forall2 same_stored_columns [place_a; place_b; place_c]
       (normalize_and_blend example_enriched).
Proof.
  apply (X12_stored_columns_untouched [place_a; place_b; place_c]
           example_enriched 0.20).
  apply Some_default. vm_compute. reflexivity.
Defined.

Lemma X13_enrich_place_idempotent_witness :
  enrich_place (default ∅ (enrich_place place_a 0.20)) 0.20
  = Some (default ∅ (enrich_place place_a 0.20)).
Proof.
  apply (X13_enrich_place_idempotent place_a).
  apply Some_default. vm_compute. reflexivity.
Defined.

Lemma X14_normalize_ties_in_list_order_witness :
  exists ri rj,
    (ri < rj < length (numeric_values cohort_tied "quality_0_10"))%nat
    /\ normalize_to_percentile cohort_tied "quality_0_10" 2.0 9.5 !! 0%nat
       = Some (<["quality_0_10" :=
                   VFloat (percentile_score 2.0 9.5
                             (length (numeric_values cohort_tied "quality_0_10")) ri)]>
                 {["quality_0_10" := VFloat 5.0]})
    /\ normalize_to_percentile cohort_tied "quality_0_10" 2.0 9.5 !! 1%nat
       = Some (<["quality_0_10" :=
                   VFloat (percentile_score 2.0 9.5
                             (length (numeric_values cohort_tied "quality_0_10")) rj)]>
                 {["quality_0_10" := VFloat 5.0]})
    /\ (2.0 <= 9.5 ->
        percentile_score 2.0 9.5
          (length (numeric_values cohort_tied "quality_0_10")) ri
        <= percentile_score 2.0 9.5
             (length (numeric_values cohort_tied "quality_0_10")) rj).
Proof.
  apply (X14_normalize_ties_in_list_order "quality_0_10" cohort_tied 2.0 9.5
           0%nat 1%nat {["quality_0_10" := VFloat 5.0]}
           {["quality_0_10" := VFloat 5.0]} 5.0 5.0).
  - lia.
  - reflexivity.
  - reflexivity.
  - vm_compute. reflexivity.
  - vm_compute. reflexivity.
  - q_closed.
Defined.

Lemma X15_normalize_idempotent_witness :
  normalize_to_percentile
    (normalize_to_percentile cohort_77 "quality_0_10" 2.0 9.5)
    "quality_0_10" 2.0 9.5
  = normalize_to_percentile cohort_77 "quality_0_10" 2.0 9.5.
Proof.
  apply (X15_normalize_idempotent "quality_0_10" cohort_77 2.0 9.5). q_closed.
Defined.

Lemma X16_signals_never_lower_scores_witness :
  quality_0_10 (<["avg_service_quality" := VFloat 0.2]> place_a)
  <= quality_0_10 (<["avg_service_quality" := VFloat 0.9]> place_a)
  /\ character_0_10 (<["avg_divey_score" := VFloat 0.2]> place_a)
     <= character_0_10 (<["avg_divey_score" := VFloat 0.9]> place_a).
Proof.
  split.
  - apply (proj1 (X16_signals_never_lower_scores place_a "avg_service_quality"
                    0.2 0.9 ltac:(q_closed))). decided.
  - apply (proj2 (X16_signals_never_lower_scores place_a "avg_divey_score"
                    0.2 0.9 ltac:(q_closed))). decided.
Defined.

Lemma X17_underrated_composite_monotone_witness :
  exists u u',
    underrated_0_10 (<["rating" := VFloat 3.8]> place_c) 0.35 = Some u
    /\ underrated_0_10 (<["rating" := VFloat 4.6]> place_c) 0.35 = Some u'
    /\ u' <= u.
Proof.
  apply (proj2 (proj2 (proj2 (X17_underrated_composite_monotone place_c 0.99 0.5
                                ltac:(vm_compute; reflexivity)
                                ltac:(vm_compute; reflexivity))))).
  q_closed.
Defined.

Lemma X18_blended_between_witness :
  round1 5.8 <= default 0 (blended_0_10 normalized_scores) <= round1 9.5.
Proof.
  apply (X18_blended_between normalized_scores 5.8 9.5).
  - apply Some_default. vm_compute. reflexivity.
  - intros field v Hf Hv. unfold lens_fields in Hf.
    repeat (apply elem_of_cons in Hf as [->|Hf];
            [vm_compute in Hv; injection Hv as <-; split; q_closed|]).
    by apply elem_of_nil in Hf.
Defined.


Lemma X21_validate_weights_spec_witness :
  (length (validate_weights example_items) <= 9)%nat
  /\ forall s w,
       (s, w) ∈ validate_weights example_items
       <-> s ∈ signal_names
           /\ exists v, (s, v) ∈ example_items /\ py_float v = Some w.
Proof.
  split.
  - apply (proj1 (proj2 (proj2 (X21_validate_weights_spec example_items)))).
  - apply (proj2 (proj2 (proj2 (X21_validate_weights_spec example_items)))).
    decided.
Defined.

Lemma X22_custom_sorted_and_counted_witness :
  fst example_custom_request = [EvSelect 3.5]
  /\ sorted_desc "custom_score" (response_body (snd example_custom_request))
  /\ length (response_body (snd example_custom_request))
     = Nat.min 120 (response_total (snd example_custom_request))
  /\ ((0 < 0)%Z ->
      Forall (λ p, has_reviews 0 p = true)
        (response_body (snd example_custom_request))).
Proof.
  apply (X22_custom_sorted_and_counted (Some example_db)
           ExampleRuntime.payload_food 3.5 0%Z 120%nat
           (fst example_custom_request)
           (response_body (snd example_custom_request))
           (response_total (snd example_custom_request))).
  apply ok_response. vm_compute. reflexivity.
Defined.

Lemma X23_vibes_pipeline_witness :
  exists db tag results enriched,
    Some example_vibes_db = Some db
    /\ (@None string = Some "" -> tag = None)
    /\ (@None string <> Some "" -> tag = None)
    /\ fst example_vibes = [EvSelectVibes tag 100]
    /\ db tag 100%nat = Some results
    /\ mapM (λ p, enrich_place p 0.35) results = Some enriched
    /\ reply_body (snd example_vibes) = normalize_and_blend enriched
    /\ length (reply_body (snd example_vibes)) = length results
    /\ Forall2 scored_record results (reply_body (snd example_vibes))
    /\ Forall2 same_stored_columns results (reply_body (snd example_vibes)).
Proof.
  apply (X23_vibes_pipeline (Some example_vibes_db) None 100%nat
           (fst example_vibes) (reply_body (snd example_vibes))).
  apply ok_reply. vm_compute. reflexivity.
Defined.

Lemma well_keyed_review_rows : well_keyed (default [] (Some review_rows)).
Proof.
  split.
  - repeat apply Forall_cons_2; [..|apply Forall_nil_2];
      (split; [eexists; split; [vm_compute; reflexivity | done]
              |right; eexists; vm_compute; reflexivity]).
  - assert (review_id <$> default [] (Some review_rows)
            = [VStr "r1"; VStr "r2"; VStr "r3"; VStr "r4"; VStr "r5"]) as ->
      by (vm_compute; reflexivity).
    repeat (apply NoDup_cons_2;
            [intros H; repeat (apply elem_of_cons in H as [H|H]; [discriminate|]);
             by apply elem_of_nil in H|]).
    apply NoDup_nil_2.
Qed.

Lemma X24_key_reviews_sound_witness :
  exists db data,
    Some example_reviews_db = Some db
    /\ fst example_key_reviews = [EvSelectReviews "a"]
    /\ db "a"%string = Some data
    /\ (length (reply_body (snd example_key_reviews)) <= 3)%nat
    /\ Forall (λ r, r ∈ default [] data
                    /\ has_review_text example_strip r = Some true)
         (reply_body (snd example_key_reviews))
    /\ (with_text example_strip (default [] data) = [] ->
        reply_body (snd example_key_reviews) = []).
Proof.
  apply (X24_key_reviews_sound example_strip (Some example_reviews_db) "a" 3).
  apply ok_reply. vm_compute. reflexivity.
Defined.

Lemma X25_key_reviews_count_witness :
  exists body,
    get_key_reviews example_strip (Some example_reviews_db) "a" 3
    = ([EvSelectReviews "a"], ReplyOk body)
    /\ NoDup (review_id <$> body)
    /\ length body
       = Nat.min 3 (length (with_text example_strip
                              (default [] (Some review_rows)))).
Proof.
  apply (X25_key_reviews_count example_strip example_reviews_db "a" 3
           (Some review_rows)).
  - reflexivity.
  - apply well_keyed_review_rows.
Defined.

Lemma X26_key_reviews_extremes_witness :
  exists most_pos,
    reply_body (snd example_key_reviews) !! 0%nat = Some most_pos
    /\ most_pos ∈ with_text example_strip (default [] (Some review_rows))
    /\ (forall r, r ∈ with_text example_strip (default [] (Some review_rows)) ->
                  sent r <= sent most_pos)
    /\ ((1 < 3)%nat ->
        (exists r, r ∈ with_text example_strip (default [] (Some review_rows))
                   /\ sent r < sent most_pos) ->
        exists most_neg,
          reply_body (snd example_key_reviews) !! 1%nat = Some most_neg
          /\ most_neg ∈ with_text example_strip (default [] (Some review_rows))
          /\ forall r, r ∈ with_text example_strip (default [] (Some review_rows)) ->
                       sent most_neg <= sent r).
Proof.
  apply (X26_key_reviews_extremes example_strip example_reviews_db "a" 3
           (Some review_rows) (fst example_key_reviews)
           (reply_body (snd example_key_reviews))).
  - reflexivity.
  - apply well_keyed_review_rows.
  - intros H. apply (f_equal length) in H. vm_compute in H. discriminate.
  - lia.
  - apply ok_reply. vm_compute. reflexivity.
Defined.

Lemma X27_key_reviews_dive_and_fill_witness :
  (exists picked filled,
     reply_body (snd example_key_reviews) = picked ++ filled
     /\ (length picked <= 3)%nat
     /\ StronglySorted (λ a b, Qabs (sent b) <= Qabs (sent a)) filled)
  /\ ((3 <= 3)%nat ->
      dive_positive (with_text example_strip (default [] (Some review_rows))) <> [] ->
      exists most_dive,
        most_dive ∈ reply_body (snd example_key_reviews)
        /\ most_dive ∈ dive_positive (with_text example_strip
                                        (default [] (Some review_rows)))
        /\ forall r, r ∈ dive_positive (with_text example_strip
                                          (default [] (Some review_rows))) ->
                     sent r <= sent most_dive).
Proof.
  apply (X27_key_reviews_dive_and_fill example_strip example_reviews_db "a" 3
           (Some review_rows) (fst example_key_reviews)
           (reply_body (snd example_key_reviews))).
  - reflexivity.
  - apply well_keyed_review_rows.
  - apply ok_reply. vm_compute. reflexivity.
Defined.

End FurtherExamples.
